(** * The TypeScriptGN front end: scanner and recursive-descent parser

    A shallow embedding of [src/lexical.ts] (the scanner), [src/lang-types.ts]
    (token kinds, flags, character codes, keyword table), the character
    classifier of [util.ts] and the parser namespace [Parser], followed by the
    properties of the specification that were checked against them.

    Conventions of the embedding.
    - A JavaScript string is the list of its UTF-16 code units ([jsstring]).
    - [charCodeAt] and [codePointAt] answer [NaN] (here [-1]) outside the
      string: every test the scanner performs on a code ([===] against a
      character code, a range test) is false on it, as it is on [NaN] and on
      [undefined].
    - The module-level variables of the scanner are the record [Scanner.t],
      those of the parser the record [Parser.State] that contains it.
    - Calls of the error callback are recorded in [Scanner.diagnostics];
      what the parser prints with [error] is recorded in [Parser.console]. *)

From Stdlib Require Import ZArith String Ascii Bool Lia Arith List.
Import ListNotations.
Open Scope string_scope.
Open Scope list_scope.
Open Scope Z_scope.

(** ** JavaScript strings *)

Definition jsstring := list Z.

Definition NaN : Z := -1.

Definition js (s : string) : jsstring :=
  map (fun a => Z.of_nat (nat_of_ascii a)) (list_ascii_of_string s).

Fixpoint jsstring_eqb (a b : jsstring) : bool :=
  match a, b with
  | [], [] => true
  | x :: a', y :: b' => (x =? y) && jsstring_eqb a' b'
  | _, _ => false
  end.

Definition jslength (s : jsstring) : Z := Z.of_nat (List.length s).

(** [s.charCodeAt(i)] *)
Definition charCodeAt (s : jsstring) (i : Z) : Z :=
  if i <? 0 then NaN else nth (Z.to_nat i) s NaN.

(** [s.codePointAt(i)]: a high surrogate followed by a low surrogate is one
    code point. *)
Definition codePointAt (s : jsstring) (i : Z) : Z :=
  let first := charCodeAt s i in
  let second := charCodeAt s (i + 1) in
  if (55296 <=? first) && (first <=? 56319)
     && (56320 <=? second) && (second <=? 57343)
  then (first - 55296) * 1024 + (second - 56320) + 65536
  else first.

(** [s.substring(a, b)]: both bounds are clamped to the string and swapped
    when they come in the wrong order. *)
Definition clampIndex (s : jsstring) (i : Z) : Z :=
  Z.min (Z.max i 0) (jslength s).

Definition substring (s : jsstring) (a b : Z) : jsstring :=
  let a' := clampIndex s a in
  let b' := clampIndex s b in
  let lo := Z.min a' b' in
  let hi := Z.max a' b' in
  firstn (Z.to_nat (hi - lo)) (skipn (Z.to_nat lo) s).

(** ** lang-types.ts *)

Inductive SyntaxKind : Type :=
  (* tokens, in the order of lang-types.ts *)
  | Unknown | EndOfFileToken | NumericLiteral | StringLiteral | OpenBraceToken
  | CloseBraceToken | OpenParenToken | CloseParenToken | OpenBracketToken
  | CloseBracketToken | DotToken | DotDotDotToken | SemicolonToken
  | CommaToken | QuestionDotToken | ColonEqualsToken | AtToken
  | EqualsGreaterThanToken | QuestionToken | ColonToken | PlusPlusToken
  | MinusMinusToken | LessThanToken | GreaterThanToken | LessThanEqualsToken
  | GreaterThanEqualsToken | EqualsEqualsToken | ExclamationEqualsToken
  | EqualsEqualsEqualsToken | ExclamationEqualsEqualsToken
  | MinusGreaterThanToken | PlusToken | MinusToken | AsteriskToken
  | AsteriskAsteriskToken | SlashToken | PercentToken | LessThanLessThanToken
  | GreaterThanGreaterThanToken | GreaterThanGreaterThanGreaterThanToken
  | AmpersandToken | BarToken | CaretToken | ExclamationToken | TildeToken
  | AmpersandAmpersandToken | BarBarToken | QuestionQuestionToken
  | EqualsToken | PlusEqualsToken | MinusEqualsToken | AsteriskEqualsToken
  | AsteriskAsteriskEqualsToken | SlashEqualsToken | PercentEqualsToken
  | LessThanLessThanEqualsToken | GreaterThanGreaterThanEqualsToken
  | GreaterThanGreaterThanGreaterThanEqualsToken | AmpersandEqualsToken
  | BarEqualsToken | CaretEqualsToken | Identifier | BreakKeyword
  | CaseKeyword | CatchKeyword | ClassKeyword | ConstKeyword | ContinueKeyword
  | DebuggerKeyword | DefaultKeyword | DeleteKeyword | DoKeyword | ElifKeyword
  | ElseKeyword | EnumKeyword | ExportKeyword | ExtendsKeyword | FalseKeyword
  | FinallyKeyword | ForKeyword | FunctionKeyword | IfKeyword | ImportKeyword
  | InKeyword | InstanceOfKeyword | NewKeyword | NullKeyword | ReturnKeyword
  | SuperKeyword | SwitchKeyword | ThisKeyword | ThrowKeyword | TrueKeyword
  | TryKeyword | TypeOfKeyword | VarKeyword | VoidKeyword | WhileKeyword
  | WithKeyword | ImplementsKeyword | InterfaceKeyword | LetKeyword
  | PackageKeyword | PrivateKeyword | ProtectedKeyword | PublicKeyword
  | StaticKeyword | YieldKeyword | FallThroughKeyword | NodeKeyword
  | SubnetKeyword | UsingKeyword | AbstractKeyword | AsKeyword
  | AssertsKeyword | AnyKeyword | AsyncKeyword | AwaitKeyword | BooleanKeyword
  | ConstructorKeyword | DeclareKeyword | GetKeyword | InferKeyword
  | IsKeyword | KeyOfKeyword | ModuleKeyword | NamespaceKeyword | NeverKeyword
  | ReadonlyKeyword | RequireKeyword | NumberKeyword | ObjectKeyword
  | SetKeyword | StringKeyword | SymbolKeyword | TypeKeyword
  | UndefinedKeyword | UniqueKeyword | UnknownKeyword | FromKeyword
  | GlobalKeyword | BigIntKeyword | OfKeyword | StateKeyword | Count
  (* syntax-tree node kinds *)
  | SourceFile | Arguments | ArrayLiteralExpression | ArrowFunction
  | AsExpression | AssignmentExpression | BinaryExpression | Block
  | BreakStatement | CallExpression | CaseBlock | CaseClause | CatchClause
  | ClassDeclaration | ClassExpression | CommaExpression
  | ComputedPropertyName | ConditionalExpression | ConnectionExpression
  | ContinueStatement | DebuggerStatement | Decorator | DefaultClause
  | ElementAccessExpression | ElifClause | EmptyStatement | EnumDeclaration
  | EnumMember | ExportDeclaration | ExpressionStatement
  | FallThroughStatement | ForInStatement | ForOfStatement | ForStatement
  | FunctionDeclaration | FunctionExpression | IfStatement | ImportClause
  | ImportDeclaration | ImportOrExportSpecifier | InterfaceDeclaration
  | LabeledStatement | ModuleDeclaration | NamedImportsOrExports
  | NewExpression | NewTargetExpression | NodeAllPortTypeDeclaration
  | NodeBlock | NodeDeclaration | NodeExpression | NodePortTypeDeclaration
  | NodeStateDeclaration | ObjectLiteralExpression | OmittedExpression
  | Parameter_ | ParenthesizedExpression | PostfixUpdateExpression
  | PrefixUnaryExpression | PrefixUpdateExpression | PropertyAccessExpression
  | PropertyAssignment | ReturnStatement | ShorthandPropertyAssignment
  | SpreadExpression | SwitchStatement | TaggedTemplateExpression
  | TryStatement | TypeAliasDeclaration | TypeAssertionExpression
  | TypeParameter | UsingStatement | VariableBinding | VariableDeclaration
  | YieldExpression.

Definition kindCode (k : SyntaxKind) : Z :=
  match k with
  | Unknown => 0
  | EndOfFileToken => 1
  | NumericLiteral => 2
  | StringLiteral => 3
  | OpenBraceToken => 4
  | CloseBraceToken => 5
  | OpenParenToken => 6
  | CloseParenToken => 7
  | OpenBracketToken => 8
  | CloseBracketToken => 9
  | DotToken => 10
  | DotDotDotToken => 11
  | SemicolonToken => 12
  | CommaToken => 13
  | QuestionDotToken => 14
  | ColonEqualsToken => 15
  | AtToken => 16
  | EqualsGreaterThanToken => 17
  | QuestionToken => 18
  | ColonToken => 19
  | PlusPlusToken => 20
  | MinusMinusToken => 21
  | LessThanToken => 22
  | GreaterThanToken => 23
  | LessThanEqualsToken => 24
  | GreaterThanEqualsToken => 25
  | EqualsEqualsToken => 26
  | ExclamationEqualsToken => 27
  | EqualsEqualsEqualsToken => 28
  | ExclamationEqualsEqualsToken => 29
  | MinusGreaterThanToken => 30
  | PlusToken => 31
  | MinusToken => 32
  | AsteriskToken => 33
  | AsteriskAsteriskToken => 34
  | SlashToken => 35
  | PercentToken => 36
  | LessThanLessThanToken => 37
  | GreaterThanGreaterThanToken => 38
  | GreaterThanGreaterThanGreaterThanToken => 39
  | AmpersandToken => 40
  | BarToken => 41
  | CaretToken => 42
  | ExclamationToken => 43
  | TildeToken => 44
  | AmpersandAmpersandToken => 45
  | BarBarToken => 46
  | QuestionQuestionToken => 47
  | EqualsToken => 48
  | PlusEqualsToken => 49
  | MinusEqualsToken => 50
  | AsteriskEqualsToken => 51
  | AsteriskAsteriskEqualsToken => 52
  | SlashEqualsToken => 53
  | PercentEqualsToken => 54
  | LessThanLessThanEqualsToken => 55
  | GreaterThanGreaterThanEqualsToken => 56
  | GreaterThanGreaterThanGreaterThanEqualsToken => 57
  | AmpersandEqualsToken => 58
  | BarEqualsToken => 59
  | CaretEqualsToken => 60
  | Identifier => 61
  | BreakKeyword => 62
  | CaseKeyword => 63
  | CatchKeyword => 64
  | ClassKeyword => 65
  | ConstKeyword => 66
  | ContinueKeyword => 67
  | DebuggerKeyword => 68
  | DefaultKeyword => 69
  | DeleteKeyword => 70
  | DoKeyword => 71
  | ElifKeyword => 72
  | ElseKeyword => 73
  | EnumKeyword => 74
  | ExportKeyword => 75
  | ExtendsKeyword => 76
  | FalseKeyword => 77
  | FinallyKeyword => 78
  | ForKeyword => 79
  | FunctionKeyword => 80
  | IfKeyword => 81
  | ImportKeyword => 82
  | InKeyword => 83
  | InstanceOfKeyword => 84
  | NewKeyword => 85
  | NullKeyword => 86
  | ReturnKeyword => 87
  | SuperKeyword => 88
  | SwitchKeyword => 89
  | ThisKeyword => 90
  | ThrowKeyword => 91
  | TrueKeyword => 92
  | TryKeyword => 93
  | TypeOfKeyword => 94
  | VarKeyword => 95
  | VoidKeyword => 96
  | WhileKeyword => 97
  | WithKeyword => 98
  | ImplementsKeyword => 99
  | InterfaceKeyword => 100
  | LetKeyword => 101
  | PackageKeyword => 102
  | PrivateKeyword => 103
  | ProtectedKeyword => 104
  | PublicKeyword => 105
  | StaticKeyword => 106
  | YieldKeyword => 107
  | FallThroughKeyword => 108
  | NodeKeyword => 109
  | SubnetKeyword => 110
  | UsingKeyword => 111
  | AbstractKeyword => 112
  | AsKeyword => 113
  | AssertsKeyword => 114
  | AnyKeyword => 115
  | AsyncKeyword => 116
  | AwaitKeyword => 117
  | BooleanKeyword => 118
  | ConstructorKeyword => 119
  | DeclareKeyword => 120
  | GetKeyword => 121
  | InferKeyword => 122
  | IsKeyword => 123
  | KeyOfKeyword => 124
  | ModuleKeyword => 125
  | NamespaceKeyword => 126
  | NeverKeyword => 127
  | ReadonlyKeyword => 128
  | RequireKeyword => 129
  | NumberKeyword => 130
  | ObjectKeyword => 131
  | SetKeyword => 132
  | StringKeyword => 133
  | SymbolKeyword => 134
  | TypeKeyword => 135
  | UndefinedKeyword => 136
  | UniqueKeyword => 137
  | UnknownKeyword => 138
  | FromKeyword => 139
  | GlobalKeyword => 140
  | BigIntKeyword => 141
  | OfKeyword => 142
  | StateKeyword => 143
  | Count => 144
  | SourceFile => 145
  | Arguments => 146
  | ArrayLiteralExpression => 147
  | ArrowFunction => 148
  | AsExpression => 149
  | AssignmentExpression => 150
  | BinaryExpression => 151
  | Block => 152
  | BreakStatement => 153
  | CallExpression => 154
  | CaseBlock => 155
  | CaseClause => 156
  | CatchClause => 157
  | ClassDeclaration => 158
  | ClassExpression => 159
  | CommaExpression => 160
  | ComputedPropertyName => 161
  | ConditionalExpression => 162
  | ConnectionExpression => 163
  | ContinueStatement => 164
  | DebuggerStatement => 165
  | Decorator => 166
  | DefaultClause => 167
  | ElementAccessExpression => 168
  | ElifClause => 169
  | EmptyStatement => 170
  | EnumDeclaration => 171
  | EnumMember => 172
  | ExportDeclaration => 173
  | ExpressionStatement => 174
  | FallThroughStatement => 175
  | ForInStatement => 176
  | ForOfStatement => 177
  | ForStatement => 178
  | FunctionDeclaration => 179
  | FunctionExpression => 180
  | IfStatement => 181
  | ImportClause => 182
  | ImportDeclaration => 183
  | ImportOrExportSpecifier => 184
  | InterfaceDeclaration => 185
  | LabeledStatement => 186
  | ModuleDeclaration => 187
  | NamedImportsOrExports => 188
  | NewExpression => 189
  | NewTargetExpression => 190
  | NodeAllPortTypeDeclaration => 191
  | NodeBlock => 192
  | NodeDeclaration => 193
  | NodeExpression => 194
  | NodePortTypeDeclaration => 195
  | NodeStateDeclaration => 196
  | ObjectLiteralExpression => 197
  | OmittedExpression => 198
  | Parameter_ => 199
  | ParenthesizedExpression => 200
  | PostfixUpdateExpression => 201
  | PrefixUnaryExpression => 202
  | PrefixUpdateExpression => 203
  | PropertyAccessExpression => 204
  | PropertyAssignment => 205
  | ReturnStatement => 206
  | ShorthandPropertyAssignment => 207
  | SpreadExpression => 208
  | SwitchStatement => 209
  | TaggedTemplateExpression => 210
  | TryStatement => 211
  | TypeAliasDeclaration => 212
  | TypeAssertionExpression => 213
  | TypeParameter => 214
  | UsingStatement => 215
  | VariableBinding => 216
  | VariableDeclaration => 217
  | YieldExpression => 218
  end.

Definition kindOfCode (z : Z) : option SyntaxKind :=
  match z with
  | 0 => Some Unknown
  | 1 => Some EndOfFileToken
  | 2 => Some NumericLiteral
  | 3 => Some StringLiteral
  | 4 => Some OpenBraceToken
  | 5 => Some CloseBraceToken
  | 6 => Some OpenParenToken
  | 7 => Some CloseParenToken
  | 8 => Some OpenBracketToken
  | 9 => Some CloseBracketToken
  | 10 => Some DotToken
  | 11 => Some DotDotDotToken
  | 12 => Some SemicolonToken
  | 13 => Some CommaToken
  | 14 => Some QuestionDotToken
  | 15 => Some ColonEqualsToken
  | 16 => Some AtToken
  | 17 => Some EqualsGreaterThanToken
  | 18 => Some QuestionToken
  | 19 => Some ColonToken
  | 20 => Some PlusPlusToken
  | 21 => Some MinusMinusToken
  | 22 => Some LessThanToken
  | 23 => Some GreaterThanToken
  | 24 => Some LessThanEqualsToken
  | 25 => Some GreaterThanEqualsToken
  | 26 => Some EqualsEqualsToken
  | 27 => Some ExclamationEqualsToken
  | 28 => Some EqualsEqualsEqualsToken
  | 29 => Some ExclamationEqualsEqualsToken
  | 30 => Some MinusGreaterThanToken
  | 31 => Some PlusToken
  | 32 => Some MinusToken
  | 33 => Some AsteriskToken
  | 34 => Some AsteriskAsteriskToken
  | 35 => Some SlashToken
  | 36 => Some PercentToken
  | 37 => Some LessThanLessThanToken
  | 38 => Some GreaterThanGreaterThanToken
  | 39 => Some GreaterThanGreaterThanGreaterThanToken
  | 40 => Some AmpersandToken
  | 41 => Some BarToken
  | 42 => Some CaretToken
  | 43 => Some ExclamationToken
  | 44 => Some TildeToken
  | 45 => Some AmpersandAmpersandToken
  | 46 => Some BarBarToken
  | 47 => Some QuestionQuestionToken
  | 48 => Some EqualsToken
  | 49 => Some PlusEqualsToken
  | 50 => Some MinusEqualsToken
  | 51 => Some AsteriskEqualsToken
  | 52 => Some AsteriskAsteriskEqualsToken
  | 53 => Some SlashEqualsToken
  | 54 => Some PercentEqualsToken
  | 55 => Some LessThanLessThanEqualsToken
  | 56 => Some GreaterThanGreaterThanEqualsToken
  | 57 => Some GreaterThanGreaterThanGreaterThanEqualsToken
  | 58 => Some AmpersandEqualsToken
  | 59 => Some BarEqualsToken
  | 60 => Some CaretEqualsToken
  | 61 => Some Identifier
  | 62 => Some BreakKeyword
  | 63 => Some CaseKeyword
  | 64 => Some CatchKeyword
  | 65 => Some ClassKeyword
  | 66 => Some ConstKeyword
  | 67 => Some ContinueKeyword
  | 68 => Some DebuggerKeyword
  | 69 => Some DefaultKeyword
  | 70 => Some DeleteKeyword
  | 71 => Some DoKeyword
  | 72 => Some ElifKeyword
  | 73 => Some ElseKeyword
  | 74 => Some EnumKeyword
  | 75 => Some ExportKeyword
  | 76 => Some ExtendsKeyword
  | 77 => Some FalseKeyword
  | 78 => Some FinallyKeyword
  | 79 => Some ForKeyword
  | 80 => Some FunctionKeyword
  | 81 => Some IfKeyword
  | 82 => Some ImportKeyword
  | 83 => Some InKeyword
  | 84 => Some InstanceOfKeyword
  | 85 => Some NewKeyword
  | 86 => Some NullKeyword
  | 87 => Some ReturnKeyword
  | 88 => Some SuperKeyword
  | 89 => Some SwitchKeyword
  | 90 => Some ThisKeyword
  | 91 => Some ThrowKeyword
  | 92 => Some TrueKeyword
  | 93 => Some TryKeyword
  | 94 => Some TypeOfKeyword
  | 95 => Some VarKeyword
  | 96 => Some VoidKeyword
  | 97 => Some WhileKeyword
  | 98 => Some WithKeyword
  | 99 => Some ImplementsKeyword
  | 100 => Some InterfaceKeyword
  | 101 => Some LetKeyword
  | 102 => Some PackageKeyword
  | 103 => Some PrivateKeyword
  | 104 => Some ProtectedKeyword
  | 105 => Some PublicKeyword
  | 106 => Some StaticKeyword
  | 107 => Some YieldKeyword
  | 108 => Some FallThroughKeyword
  | 109 => Some NodeKeyword
  | 110 => Some SubnetKeyword
  | 111 => Some UsingKeyword
  | 112 => Some AbstractKeyword
  | 113 => Some AsKeyword
  | 114 => Some AssertsKeyword
  | 115 => Some AnyKeyword
  | 116 => Some AsyncKeyword
  | 117 => Some AwaitKeyword
  | 118 => Some BooleanKeyword
  | 119 => Some ConstructorKeyword
  | 120 => Some DeclareKeyword
  | 121 => Some GetKeyword
  | 122 => Some InferKeyword
  | 123 => Some IsKeyword
  | 124 => Some KeyOfKeyword
  | 125 => Some ModuleKeyword
  | 126 => Some NamespaceKeyword
  | 127 => Some NeverKeyword
  | 128 => Some ReadonlyKeyword
  | 129 => Some RequireKeyword
  | 130 => Some NumberKeyword
  | 131 => Some ObjectKeyword
  | 132 => Some SetKeyword
  | 133 => Some StringKeyword
  | 134 => Some SymbolKeyword
  | 135 => Some TypeKeyword
  | 136 => Some UndefinedKeyword
  | 137 => Some UniqueKeyword
  | 138 => Some UnknownKeyword
  | 139 => Some FromKeyword
  | 140 => Some GlobalKeyword
  | 141 => Some BigIntKeyword
  | 142 => Some OfKeyword
  | 143 => Some StateKeyword
  | 144 => Some Count
  | 145 => Some SourceFile
  | 146 => Some Arguments
  | 147 => Some ArrayLiteralExpression
  | 148 => Some ArrowFunction
  | 149 => Some AsExpression
  | 150 => Some AssignmentExpression
  | 151 => Some BinaryExpression
  | 152 => Some Block
  | 153 => Some BreakStatement
  | 154 => Some CallExpression
  | 155 => Some CaseBlock
  | 156 => Some CaseClause
  | 157 => Some CatchClause
  | 158 => Some ClassDeclaration
  | 159 => Some ClassExpression
  | 160 => Some CommaExpression
  | 161 => Some ComputedPropertyName
  | 162 => Some ConditionalExpression
  | 163 => Some ConnectionExpression
  | 164 => Some ContinueStatement
  | 165 => Some DebuggerStatement
  | 166 => Some Decorator
  | 167 => Some DefaultClause
  | 168 => Some ElementAccessExpression
  | 169 => Some ElifClause
  | 170 => Some EmptyStatement
  | 171 => Some EnumDeclaration
  | 172 => Some EnumMember
  | 173 => Some ExportDeclaration
  | 174 => Some ExpressionStatement
  | 175 => Some FallThroughStatement
  | 176 => Some ForInStatement
  | 177 => Some ForOfStatement
  | 178 => Some ForStatement
  | 179 => Some FunctionDeclaration
  | 180 => Some FunctionExpression
  | 181 => Some IfStatement
  | 182 => Some ImportClause
  | 183 => Some ImportDeclaration
  | 184 => Some ImportOrExportSpecifier
  | 185 => Some InterfaceDeclaration
  | 186 => Some LabeledStatement
  | 187 => Some ModuleDeclaration
  | 188 => Some NamedImportsOrExports
  | 189 => Some NewExpression
  | 190 => Some NewTargetExpression
  | 191 => Some NodeAllPortTypeDeclaration
  | 192 => Some NodeBlock
  | 193 => Some NodeDeclaration
  | 194 => Some NodeExpression
  | 195 => Some NodePortTypeDeclaration
  | 196 => Some NodeStateDeclaration
  | 197 => Some ObjectLiteralExpression
  | 198 => Some OmittedExpression
  | 199 => Some Parameter_
  | 200 => Some ParenthesizedExpression
  | 201 => Some PostfixUpdateExpression
  | 202 => Some PrefixUnaryExpression
  | 203 => Some PrefixUpdateExpression
  | 204 => Some PropertyAccessExpression
  | 205 => Some PropertyAssignment
  | 206 => Some ReturnStatement
  | 207 => Some ShorthandPropertyAssignment
  | 208 => Some SpreadExpression
  | 209 => Some SwitchStatement
  | 210 => Some TaggedTemplateExpression
  | 211 => Some TryStatement
  | 212 => Some TypeAliasDeclaration
  | 213 => Some TypeAssertionExpression
  | 214 => Some TypeParameter
  | 215 => Some UsingStatement
  | 216 => Some VariableBinding
  | 217 => Some VariableDeclaration
  | 218 => Some YieldExpression
  | _ => None
  end.

Definition kindName (k : SyntaxKind) : string :=
  match k with
  | Unknown => "Unknown"
  | EndOfFileToken => "EndOfFileToken"
  | NumericLiteral => "NumericLiteral"
  | StringLiteral => "StringLiteral"
  | OpenBraceToken => "OpenBraceToken"
  | CloseBraceToken => "CloseBraceToken"
  | OpenParenToken => "OpenParenToken"
  | CloseParenToken => "CloseParenToken"
  | OpenBracketToken => "OpenBracketToken"
  | CloseBracketToken => "CloseBracketToken"
  | DotToken => "DotToken"
  | DotDotDotToken => "DotDotDotToken"
  | SemicolonToken => "SemicolonToken"
  | CommaToken => "CommaToken"
  | QuestionDotToken => "QuestionDotToken"
  | ColonEqualsToken => "ColonEqualsToken"
  | AtToken => "AtToken"
  | EqualsGreaterThanToken => "EqualsGreaterThanToken"
  | QuestionToken => "QuestionToken"
  | ColonToken => "ColonToken"
  | PlusPlusToken => "PlusPlusToken"
  | MinusMinusToken => "MinusMinusToken"
  | LessThanToken => "LessThanToken"
  | GreaterThanToken => "GreaterThanToken"
  | LessThanEqualsToken => "LessThanEqualsToken"
  | GreaterThanEqualsToken => "GreaterThanEqualsToken"
  | EqualsEqualsToken => "EqualsEqualsToken"
  | ExclamationEqualsToken => "ExclamationEqualsToken"
  | EqualsEqualsEqualsToken => "EqualsEqualsEqualsToken"
  | ExclamationEqualsEqualsToken => "ExclamationEqualsEqualsToken"
  | MinusGreaterThanToken => "MinusGreaterThanToken"
  | PlusToken => "PlusToken"
  | MinusToken => "MinusToken"
  | AsteriskToken => "AsteriskToken"
  | AsteriskAsteriskToken => "AsteriskAsteriskToken"
  | SlashToken => "SlashToken"
  | PercentToken => "PercentToken"
  | LessThanLessThanToken => "LessThanLessThanToken"
  | GreaterThanGreaterThanToken => "GreaterThanGreaterThanToken"
  | GreaterThanGreaterThanGreaterThanToken => "GreaterThanGreaterThanGreaterThanToken"
  | AmpersandToken => "AmpersandToken"
  | BarToken => "BarToken"
  | CaretToken => "CaretToken"
  | ExclamationToken => "ExclamationToken"
  | TildeToken => "TildeToken"
  | AmpersandAmpersandToken => "AmpersandAmpersandToken"
  | BarBarToken => "BarBarToken"
  | QuestionQuestionToken => "QuestionQuestionToken"
  | EqualsToken => "EqualsToken"
  | PlusEqualsToken => "PlusEqualsToken"
  | MinusEqualsToken => "MinusEqualsToken"
  | AsteriskEqualsToken => "AsteriskEqualsToken"
  | AsteriskAsteriskEqualsToken => "AsteriskAsteriskEqualsToken"
  | SlashEqualsToken => "SlashEqualsToken"
  | PercentEqualsToken => "PercentEqualsToken"
  | LessThanLessThanEqualsToken => "LessThanLessThanEqualsToken"
  | GreaterThanGreaterThanEqualsToken => "GreaterThanGreaterThanEqualsToken"
  | GreaterThanGreaterThanGreaterThanEqualsToken => "GreaterThanGreaterThanGreaterThanEqualsToken"
  | AmpersandEqualsToken => "AmpersandEqualsToken"
  | BarEqualsToken => "BarEqualsToken"
  | CaretEqualsToken => "CaretEqualsToken"
  | Identifier => "Identifier"
  | BreakKeyword => "BreakKeyword"
  | CaseKeyword => "CaseKeyword"
  | CatchKeyword => "CatchKeyword"
  | ClassKeyword => "ClassKeyword"
  | ConstKeyword => "ConstKeyword"
  | ContinueKeyword => "ContinueKeyword"
  | DebuggerKeyword => "DebuggerKeyword"
  | DefaultKeyword => "DefaultKeyword"
  | DeleteKeyword => "DeleteKeyword"
  | DoKeyword => "DoKeyword"
  | ElifKeyword => "ElifKeyword"
  | ElseKeyword => "ElseKeyword"
  | EnumKeyword => "EnumKeyword"
  | ExportKeyword => "ExportKeyword"
  | ExtendsKeyword => "ExtendsKeyword"
  | FalseKeyword => "FalseKeyword"
  | FinallyKeyword => "FinallyKeyword"
  | ForKeyword => "ForKeyword"
  | FunctionKeyword => "FunctionKeyword"
  | IfKeyword => "IfKeyword"
  | ImportKeyword => "ImportKeyword"
  | InKeyword => "InKeyword"
  | InstanceOfKeyword => "InstanceOfKeyword"
  | NewKeyword => "NewKeyword"
  | NullKeyword => "NullKeyword"
  | ReturnKeyword => "ReturnKeyword"
  | SuperKeyword => "SuperKeyword"
  | SwitchKeyword => "SwitchKeyword"
  | ThisKeyword => "ThisKeyword"
  | ThrowKeyword => "ThrowKeyword"
  | TrueKeyword => "TrueKeyword"
  | TryKeyword => "TryKeyword"
  | TypeOfKeyword => "TypeOfKeyword"
  | VarKeyword => "VarKeyword"
  | VoidKeyword => "VoidKeyword"
  | WhileKeyword => "WhileKeyword"
  | WithKeyword => "WithKeyword"
  | ImplementsKeyword => "ImplementsKeyword"
  | InterfaceKeyword => "InterfaceKeyword"
  | LetKeyword => "LetKeyword"
  | PackageKeyword => "PackageKeyword"
  | PrivateKeyword => "PrivateKeyword"
  | ProtectedKeyword => "ProtectedKeyword"
  | PublicKeyword => "PublicKeyword"
  | StaticKeyword => "StaticKeyword"
  | YieldKeyword => "YieldKeyword"
  | FallThroughKeyword => "FallThroughKeyword"
  | NodeKeyword => "NodeKeyword"
  | SubnetKeyword => "SubnetKeyword"
  | UsingKeyword => "UsingKeyword"
  | AbstractKeyword => "AbstractKeyword"
  | AsKeyword => "AsKeyword"
  | AssertsKeyword => "AssertsKeyword"
  | AnyKeyword => "AnyKeyword"
  | AsyncKeyword => "AsyncKeyword"
  | AwaitKeyword => "AwaitKeyword"
  | BooleanKeyword => "BooleanKeyword"
  | ConstructorKeyword => "ConstructorKeyword"
  | DeclareKeyword => "DeclareKeyword"
  | GetKeyword => "GetKeyword"
  | InferKeyword => "InferKeyword"
  | IsKeyword => "IsKeyword"
  | KeyOfKeyword => "KeyOfKeyword"
  | ModuleKeyword => "ModuleKeyword"
  | NamespaceKeyword => "NamespaceKeyword"
  | NeverKeyword => "NeverKeyword"
  | ReadonlyKeyword => "ReadonlyKeyword"
  | RequireKeyword => "RequireKeyword"
  | NumberKeyword => "NumberKeyword"
  | ObjectKeyword => "ObjectKeyword"
  | SetKeyword => "SetKeyword"
  | StringKeyword => "StringKeyword"
  | SymbolKeyword => "SymbolKeyword"
  | TypeKeyword => "TypeKeyword"
  | UndefinedKeyword => "UndefinedKeyword"
  | UniqueKeyword => "UniqueKeyword"
  | UnknownKeyword => "UnknownKeyword"
  | FromKeyword => "FromKeyword"
  | GlobalKeyword => "GlobalKeyword"
  | BigIntKeyword => "BigIntKeyword"
  | OfKeyword => "OfKeyword"
  | StateKeyword => "StateKeyword"
  | Count => "Count"
  | SourceFile => "SourceFile"
  | Arguments => "Arguments"
  | ArrayLiteralExpression => "ArrayLiteralExpression"
  | ArrowFunction => "ArrowFunction"
  | AsExpression => "AsExpression"
  | AssignmentExpression => "AssignmentExpression"
  | BinaryExpression => "BinaryExpression"
  | Block => "Block"
  | BreakStatement => "BreakStatement"
  | CallExpression => "CallExpression"
  | CaseBlock => "CaseBlock"
  | CaseClause => "CaseClause"
  | CatchClause => "CatchClause"
  | ClassDeclaration => "ClassDeclaration"
  | ClassExpression => "ClassExpression"
  | CommaExpression => "CommaExpression"
  | ComputedPropertyName => "ComputedPropertyName"
  | ConditionalExpression => "ConditionalExpression"
  | ConnectionExpression => "ConnectionExpression"
  | ContinueStatement => "ContinueStatement"
  | DebuggerStatement => "DebuggerStatement"
  | Decorator => "Decorator"
  | DefaultClause => "DefaultClause"
  | ElementAccessExpression => "ElementAccessExpression"
  | ElifClause => "ElifClause"
  | EmptyStatement => "EmptyStatement"
  | EnumDeclaration => "EnumDeclaration"
  | EnumMember => "EnumMember"
  | ExportDeclaration => "ExportDeclaration"
  | ExpressionStatement => "ExpressionStatement"
  | FallThroughStatement => "FallThroughStatement"
  | ForInStatement => "ForInStatement"
  | ForOfStatement => "ForOfStatement"
  | ForStatement => "ForStatement"
  | FunctionDeclaration => "FunctionDeclaration"
  | FunctionExpression => "FunctionExpression"
  | IfStatement => "IfStatement"
  | ImportClause => "ImportClause"
  | ImportDeclaration => "ImportDeclaration"
  | ImportOrExportSpecifier => "ImportOrExportSpecifier"
  | InterfaceDeclaration => "InterfaceDeclaration"
  | LabeledStatement => "LabeledStatement"
  | ModuleDeclaration => "ModuleDeclaration"
  | NamedImportsOrExports => "NamedImportsOrExports"
  | NewExpression => "NewExpression"
  | NewTargetExpression => "NewTargetExpression"
  | NodeAllPortTypeDeclaration => "NodeAllPortTypeDeclaration"
  | NodeBlock => "NodeBlock"
  | NodeDeclaration => "NodeDeclaration"
  | NodeExpression => "NodeExpression"
  | NodePortTypeDeclaration => "NodePortTypeDeclaration"
  | NodeStateDeclaration => "NodeStateDeclaration"
  | ObjectLiteralExpression => "ObjectLiteralExpression"
  | OmittedExpression => "OmittedExpression"
  | Parameter_ => "Parameter"
  | ParenthesizedExpression => "ParenthesizedExpression"
  | PostfixUpdateExpression => "PostfixUpdateExpression"
  | PrefixUnaryExpression => "PrefixUnaryExpression"
  | PrefixUpdateExpression => "PrefixUpdateExpression"
  | PropertyAccessExpression => "PropertyAccessExpression"
  | PropertyAssignment => "PropertyAssignment"
  | ReturnStatement => "ReturnStatement"
  | ShorthandPropertyAssignment => "ShorthandPropertyAssignment"
  | SpreadExpression => "SpreadExpression"
  | SwitchStatement => "SwitchStatement"
  | TaggedTemplateExpression => "TaggedTemplateExpression"
  | TryStatement => "TryStatement"
  | TypeAliasDeclaration => "TypeAliasDeclaration"
  | TypeAssertionExpression => "TypeAssertionExpression"
  | TypeParameter => "TypeParameter"
  | UsingStatement => "UsingStatement"
  | VariableBinding => "VariableBinding"
  | VariableDeclaration => "VariableDeclaration"
  | YieldExpression => "YieldExpression"
  end.

Definition kind_eqb (a b : SyntaxKind) : bool := kindCode a =? kindCode b.

Module SyntaxKindMarker.
Definition FirstAssignment := EqualsToken.
Definition LastAssignment := CaretEqualsToken.
Definition FirstCompoundAssignment := PlusEqualsToken.
Definition LastCompoundAssignment := CaretEqualsToken.
Definition FirstReservedWord := BreakKeyword.
Definition LastReservedWord := UsingKeyword.
Definition FirstKeyword := BreakKeyword.
Definition LastKeyword := StateKeyword.
Definition FirstPunctuation := OpenBraceToken.
Definition LastPunctuation := CaretEqualsToken.
Definition FirstToken := Unknown.
Definition LastToken := LastKeyword.
Definition FirstLiteralToken := NumericLiteral.
Definition LastLiteralToken := StringLiteral.
Definition FirstBinaryOperator := LessThanToken.
Definition LastBinaryOperator := QuestionQuestionToken.
Definition FirstContextualKeyword := AbstractKeyword.
Definition LastContextualKeyword := StateKeyword.
End SyntaxKindMarker.

Definition keywordTable : list (string * SyntaxKind) :=
  [ ("abstract", AbstractKeyword); ("any", AnyKeyword); ("as", AsKeyword);
    ("asserts", AssertsKeyword); ("bigint", BigIntKeyword);
    ("boolean", BooleanKeyword); ("break", BreakKeyword);
    ("case", CaseKeyword); ("catch", CatchKeyword); ("class", ClassKeyword);
    ("continue", ContinueKeyword); ("const", ConstKeyword);
    ("constructor", ConstructorKeyword); ("debugger", DebuggerKeyword);
    ("declare", DeclareKeyword); ("default", DefaultKeyword);
    ("delete", DeleteKeyword); ("do", DoKeyword); ("else", ElseKeyword);
    ("enum", EnumKeyword); ("elif", ElifKeyword); ("export", ExportKeyword);
    ("extends", ExtendsKeyword); ("fallthrough", FallThroughKeyword);
    ("false", FalseKeyword); ("finally", FinallyKeyword); ("for", ForKeyword);
    ("from", FromKeyword); ("function", FunctionKeyword); ("get", GetKeyword);
    ("if", IfKeyword); ("implements", ImplementsKeyword);
    ("import", ImportKeyword); ("in", InKeyword); ("infer", InferKeyword);
    ("instanceof", InstanceOfKeyword); ("interface", InterfaceKeyword);
    ("is", IsKeyword); ("keyof", KeyOfKeyword); ("let", LetKeyword);
    ("module", ModuleKeyword); ("namespace", NamespaceKeyword);
    ("never", NeverKeyword); ("new", NewKeyword); ("node", NodeKeyword);
    ("null", NullKeyword); ("number", NumberKeyword);
    ("object", ObjectKeyword); ("package", PackageKeyword);
    ("private", PrivateKeyword); ("protected", ProtectedKeyword);
    ("public", PublicKeyword); ("readonly", ReadonlyKeyword);
    ("require", RequireKeyword); ("global", GlobalKeyword);
    ("return", ReturnKeyword); ("set", SetKeyword); ("state", StateKeyword);
    ("static", StaticKeyword); ("string", StringKeyword);
    ("subnet", SubnetKeyword); ("super", SuperKeyword);
    ("switch", SwitchKeyword); ("symbol", SymbolKeyword);
    ("this", ThisKeyword); ("throw", ThrowKeyword); ("true", TrueKeyword);
    ("try", TryKeyword); ("type", TypeKeyword); ("typeof", TypeOfKeyword);
    ("undefined", UndefinedKeyword); ("unique", UniqueKeyword);
    ("unknown", UnknownKeyword); ("using", UsingKeyword); ("var", VarKeyword);
    ("void", VoidKeyword); ("while", WhileKeyword); ("with", WithKeyword);
    ("yield", YieldKeyword); ("async", AsyncKeyword); ("await", AwaitKeyword);
    ("of", OfKeyword) ].

Fixpoint lookupKeyword (tbl : list (string * SyntaxKind)) (s : jsstring)
  : option SyntaxKind :=
  match tbl with
  | [] => None
  | (name, k) :: tbl' =>
      if jsstring_eqb (js name) s then Some k else lookupKeyword tbl' s
  end.

(** [textToKeyword[s]] *)
Definition textToKeyword (s : jsstring) : option SyntaxKind :=
  lookupKeyword keywordTable s.

Module TokenFlags.
Definition None : Z := 0.
Definition PrecedingLineBreak : Z := Z.shiftl 1 0.
Definition Scientific : Z := Z.shiftl 1 1.
Definition Octal : Z := Z.shiftl 1 2.
Definition HexSpecifier : Z := Z.shiftl 1 3.
Definition BinarySpecifier : Z := Z.shiftl 1 4.
Definition OctalSpecifier : Z := Z.shiftl 1 5.
Definition BinaryOrOctalSpecifier : Z := Z.lor BinarySpecifier OctalSpecifier.
Definition NumericLiteralFlags : Z :=
  Z.lor (Z.lor (Z.lor Scientific Octal) HexSpecifier) BinaryOrOctalSpecifier.
End TokenFlags.

Module CharacterCodes.
Definition nullCharacter := 0.
Definition maxAsciiCharacter := 127.
Definition lineFeed := 10.
Definition carriageReturn := 13.
Definition space := 32.
Definition underscore := 95.
Definition dollar := 36.
Definition _0 := 48.
Definition _1 := 49.
Definition _2 := 50.
Definition _3 := 51.
Definition _4 := 52.
Definition _5 := 53.
Definition _6 := 54.
Definition _7 := 55.
Definition _8 := 56.
Definition _9 := 57.
Definition a := 97.
Definition b := 98.
Definition c := 99.
Definition d := 100.
Definition e := 101.
Definition f := 102.
Definition g := 103.
Definition h := 104.
Definition i := 105.
Definition j := 106.
Definition k := 107.
Definition l := 108.
Definition m := 109.
Definition n := 110.
Definition o := 111.
Definition p := 112.
Definition q := 113.
Definition r := 114.
Definition s := 115.
Definition t := 116.
Definition u := 117.
Definition v := 118.
Definition w := 119.
Definition x := 120.
Definition y := 121.
Definition z := 122.
Definition A := 65.
Definition B := 66.
Definition C := 67.
Definition D := 68.
Definition E := 69.
Definition F := 70.
Definition G := 71.
Definition H := 72.
Definition I := 73.
Definition J := 74.
Definition K := 75.
Definition L := 76.
Definition M := 77.
Definition N := 78.
Definition O := 79.
Definition P := 80.
Definition Q := 81.
Definition R := 82.
Definition S := 83.
Definition T := 84.
Definition U := 85.
Definition V := 86.
Definition W := 87.
Definition X := 88.
Definition Y := 89.
Definition Z := 90.
Definition ampersand := 38.
Definition asterisk := 42.
Definition at_ := 64.
Definition backslash := 92.
Definition backtick := 96.
Definition bar := 124.
Definition caret := 94.
Definition closeBrace := 125.
Definition closeBracket := 93.
Definition closeParen := 41.
Definition colon := 58.
Definition comma := 44.
Definition dot := 46.
Definition doubleQuote := 34.
Definition equals := 61.
Definition exclamation := 33.
Definition greaterThan := 62.
Definition hash := 35.
Definition lessThan := 60.
Definition minus := 45.
Definition openBrace := 123.
Definition openBracket := 91.
Definition openParen := 40.
Definition percent := 37.
Definition plus := 43.
Definition question := 63.
Definition semicolon := 59.
Definition singleQuote := 39.
Definition slash := 47.
Definition tilde := 126.
Definition backspace := 8.
Definition formFeed := 12.
Definition tab := 9.
Definition verticalTab := 11.
End CharacterCodes.

(** ** util.ts: the character classifier *)

Definition isDigit (ch : Z) : bool :=
  (ch >=? CharacterCodes._0) && (ch <=? CharacterCodes._9).

Definition isLineBreak (ch : Z) : bool :=
  (ch =? CharacterCodes.lineFeed) || (ch =? CharacterCodes.carriageReturn).

Definition isOctalDigit (ch : Z) : bool :=
  (ch >=? CharacterCodes._0) && (ch <=? CharacterCodes._7).

Definition isHexDigit (ch : Z) : bool :=
  (ch >=? CharacterCodes._0) && (ch <=? CharacterCodes._9)
  || (ch >=? CharacterCodes.a) && (ch <=? CharacterCodes.f)
  || (ch >=? CharacterCodes.A) && (ch <=? CharacterCodes.F).

Definition isBinaryDigit (ch : Z) : bool :=
  (ch =? CharacterCodes._0) || (ch =? CharacterCodes._1).

Definition isIdentifierStart (ch : Z) : bool :=
  (ch >=? CharacterCodes.A) && (ch <=? CharacterCodes.Z)
  || (ch >=? CharacterCodes.a) && (ch <=? CharacterCodes.z)
  || (ch =? CharacterCodes.dollar) || (ch =? CharacterCodes.underscore).

Definition isIdentifierPart (ch : Z) : bool :=
  (ch >=? CharacterCodes.A) && (ch <=? CharacterCodes.Z)
  || (ch >=? CharacterCodes.a) && (ch <=? CharacterCodes.z)
  || (ch >=? CharacterCodes._0) && (ch <=? CharacterCodes._9)
  || (ch =? CharacterCodes.dollar) || (ch =? CharacterCodes.underscore).

Definition checkReservedWord (tokenValue : jsstring) : SyntaxKind :=
  let ch := charCodeAt tokenValue 0 in
  if (ch >=? CharacterCodes.a) && (ch <=? CharacterCodes.z) then
    match textToKeyword tokenValue with
    | Some keyword => keyword
    | None => Identifier
    end
  else Identifier.

(** ** Results of effectful code

    A computation over a state [S] returns normally, throws (a failed
    [assert], or a property read on [undefined]), or exhausts the fuel that
    bounds the recursion of the embedding. *)

Inductive Exn : Type :=
| AssertionError
| TypeError (msg : string).

Inductive Result (S A : Type) : Type :=
| Ok (a : A) (s : S)
| Throw (e : Exn) (s : S)
| OutOfFuel.

Arguments Ok {S A} a s.
Arguments Throw {S A} e s.
Arguments OutOfFuel {S A}.

Definition M (S A : Type) : Type := S -> Result S A.

Definition ret {S A} (a : A) : M S A := fun s => Ok a s.

Definition bind {S A B} (m : M S A) (k : A -> M S B) : M S B :=
  fun s =>
    match m s with
    | Ok a s' => k a s'
    | Throw e s' => Throw e s'
    | OutOfFuel => OutOfFuel
    end.

Definition throw {S A} (e : Exn) : M S A := fun s => Throw e s.

Definition outOfFuel {S A} : M S A := fun _ => OutOfFuel.

Definition get {S} : M S S := fun s => Ok s s.

Definition gets {S A} (f : S -> A) : M S A := fun s => Ok (f s) s.

Definition modify {S} (f : S -> S) : M S unit := fun s => Ok tt (f s).

Declare Scope m_scope.
Delimit Scope m_scope with m.
Notation "x <- m ;; k" := (bind m (fun x => k))
  (at level 61, m at next level, right associativity) : m_scope.
Notation "m ;;; k" := (bind m (fun _ => k))
  (at level 61, right associativity) : m_scope.
Notation "' pat <- m ;; k" := (bind m (fun x => match x with pat => k end))
  (at level 61, pat pattern, m at next level, right associativity) : m_scope.

(** [assert(expression)] of util.ts *)
Definition assert {S} (expression : bool) : M S unit :=
  if expression then ret tt else throw AssertionError.

(** ** Numbers as the scanner prints them

    The scanner turns a numeric literal into a number and back into a string
    ([parseInt(v, radix)] or unary [+], then ['' + x]).  The embedding
    computes the value exactly, as [mantissa * 10 ^ exponent].  Its decimal
    string is given when the value has at most 15 significant digits and is
    printed by JavaScript without an exponent, or is an integer below [2^53]:
    there the double nearest to the value prints as the value itself.
    Outside, the string is left as [NumberString mantissa exponent]. *)

Inductive TokenValue : Type :=
| undefined
| Str (s : jsstring)
| NumberString (mantissa exponent : Z).

Fixpoint codesOfUint (d : Decimal.uint) : jsstring :=
  match d with
  | Decimal.Nil => []
  | Decimal.D0 d' => 48 :: codesOfUint d'
  | Decimal.D1 d' => 49 :: codesOfUint d'
  | Decimal.D2 d' => 50 :: codesOfUint d'
  | Decimal.D3 d' => 51 :: codesOfUint d'
  | Decimal.D4 d' => 52 :: codesOfUint d'
  | Decimal.D5 d' => 53 :: codesOfUint d'
  | Decimal.D6 d' => 54 :: codesOfUint d'
  | Decimal.D7 d' => 55 :: codesOfUint d'
  | Decimal.D8 d' => 56 :: codesOfUint d'
  | Decimal.D9 d' => 57 :: codesOfUint d'
  end.

(** The decimal digits of a natural number, without leading zeros. *)
Definition digitsOf (n : Z) : jsstring := codesOfUint (N.to_uint (Z.to_N n)).

Fixpoint stripLeading (c : Z) (l : jsstring) : jsstring :=
  match l with
  | x :: l' => if x =? c then stripLeading c l' else l
  | [] => []
  end.

Definition stripTrailing (c : Z) (l : jsstring) : jsstring :=
  rev (stripLeading c (rev l)).

Definition zeros (n : Z) : jsstring := repeat 48 (Z.to_nat n).

(** ['' + x] for [x = m * 10 ^ e], [0 <= m]. *)
Definition numberToString (m e : Z) : TokenValue :=
  if m <=? 0 then Str (js "0") else
  let ds := digitsOf m in
  let sig := stripTrailing 48 ds in
  let e' := e + (jslength ds - jslength sig) in
  let k := jslength sig in
  let n := k + e' in
  if (k <=? 15) && (-6 <? n) && (n <=? 21) then
    if k <=? n then Str (sig ++ zeros (n - k))
    else if 0 <? n then
      Str (firstn (Z.to_nat n) sig ++ 46 :: skipn (Z.to_nat n) sig)
    else Str (48 :: 46 :: zeros (- n) ++ sig)
  else if (0 <=? e) && (m * 10 ^ e <? 2 ^ 53) then Str (digitsOf (m * 10 ^ e))
  else NumberString m e.

(** The value of a digit in a radix up to 16, if it is one. *)
Definition digitValue (radix ch : Z) : option Z :=
  let v :=
    if (48 <=? ch) && (ch <=? 57) then ch - 48
    else if (97 <=? ch) && (ch <=? 102) then ch - 87
    else if (65 <=? ch) && (ch <=? 70) then ch - 55
    else radix in
  if v <? radix then Some v else None.

Fixpoint parseDigits (radix : Z) (acc : option Z) (l : jsstring) : option Z :=
  match l with
  | [] => acc
  | c :: l' =>
      match digitValue radix c with
      | Some v =>
          parseDigits radix
            (Some (match acc with Some a => a * radix + v | None => v end)) l'
      | None => acc
      end
  end.

(** [parseInt(s, radix)] on the strings the scanner passes: digits of the
    radix.  [None] is [NaN] (no leading digit). *)
Definition parseInt (s : jsstring) (radix : Z) : option Z :=
  parseDigits radix None s.

(** ['' + parseInt(s, radix)] *)
Definition parseIntToString (s : jsstring) (radix : Z) : TokenValue :=
  match parseInt s radix with
  | Some n => numberToString n 0
  | None => Str (js "NaN")
  end.

Fixpoint spanDigits (l : jsstring) : jsstring * jsstring :=
  match l with
  | c :: l' =>
      if isDigit c then let (ds, rest) := spanDigits l' in (c :: ds, rest)
      else ([], l)
  | [] => ([], [])
  end.

Definition digitsValue (l : jsstring) : Z :=
  match parseDigits 10 None l with Some n => n | None => 0 end.

(** Unary [+] on a decimal literal: digits, an optional fraction, an
    optional exponent.  The value is [fst * 10 ^ snd]; [None] is [NaN]. *)
Definition parseDecimalLiteral (s : jsstring) : option (Z * Z) :=
  let (intDigits, rest1) := spanDigits s in
  let (fracDigits, rest2) :=
    match rest1 with
    | c :: r => if c =? CharacterCodes.dot then spanDigits r else ([], rest1)
    | [] => ([], rest1)
    end in
  let mantissa := digitsValue (intDigits ++ fracDigits) in
  let shift := - jslength fracDigits in
  match intDigits ++ fracDigits with
  | [] => None
  | _ =>
      match rest2 with
      | [] => Some (mantissa, shift)
      | c :: r =>
          if (c =? CharacterCodes.E) || (c =? CharacterCodes.e) then
            let (negative, r') :=
              match r with
              | sg :: r'' =>
                  if sg =? CharacterCodes.minus then (true, r'')
                  else if sg =? CharacterCodes.plus then (false, r'')
                  else (false, r)
              | [] => (false, r)
              end in
            let (expDigits, rest3) := spanDigits r' in
            match expDigits, rest3 with
            | _ :: _, [] =>
                let ex := digitsValue expDigits in
                Some (mantissa, shift + (if negative then - ex else ex))
            | _, _ => None
            end
          else None
      end
  end.

(** ['' + +s] *)
Definition normalizeNumber (s : jsstring) : TokenValue :=
  match parseDecimalLiteral s with
  | Some (m, e) => numberToString m e
  | None => Str (js "NaN")
  end.

(** ** lexical.ts: the scanner *)

Module Scanner.

(** One call of the error callback: the message, the value of [pos] the
    callback observes, and the length passed. *)
Record Diagnostic : Type := mkDiagnostic {
  message : string;
  position : Z;
  extent : Z
}.

(** The module-level variables of lexical.ts, the registered callback
    ([onError] tells whether there is one) and the calls made to it. *)
Record t : Type := mk {
  text : jsstring;
  startPos : Z;
  tokenPos : Z;
  pos : Z;
  end_ : Z;
  token : SyntaxKind;
  tokenValue : TokenValue;
  tokenFlags : Z;
  onError : bool;
  diagnostics : list Diagnostic
}.

Definition set_text v s :=
  mk v (startPos s) (tokenPos s) (pos s) (end_ s) (token s) (tokenValue s)
     (tokenFlags s) (onError s) (diagnostics s).
Definition set_startPos v s :=
  mk (text s) v (tokenPos s) (pos s) (end_ s) (token s) (tokenValue s)
     (tokenFlags s) (onError s) (diagnostics s).
Definition set_tokenPos v s :=
  mk (text s) (startPos s) v (pos s) (end_ s) (token s) (tokenValue s)
     (tokenFlags s) (onError s) (diagnostics s).
Definition set_pos v s :=
  mk (text s) (startPos s) (tokenPos s) v (end_ s) (token s) (tokenValue s)
     (tokenFlags s) (onError s) (diagnostics s).
Definition set_end v s :=
  mk (text s) (startPos s) (tokenPos s) (pos s) v (token s) (tokenValue s)
     (tokenFlags s) (onError s) (diagnostics s).
Definition set_token v s :=
  mk (text s) (startPos s) (tokenPos s) (pos s) (end_ s) v (tokenValue s)
     (tokenFlags s) (onError s) (diagnostics s).
Definition set_tokenValue v s :=
  mk (text s) (startPos s) (tokenPos s) (pos s) (end_ s) (token s) v
     (tokenFlags s) (onError s) (diagnostics s).
Definition set_tokenFlags v s :=
  mk (text s) (startPos s) (tokenPos s) (pos s) (end_ s) (token s)
     (tokenValue s) v (onError s) (diagnostics s).
Definition set_onError v s :=
  mk (text s) (startPos s) (tokenPos s) (pos s) (end_ s) (token s)
     (tokenValue s) (tokenFlags s) v (diagnostics s).
Definition set_diagnostics v s :=
  mk (text s) (startPos s) (tokenPos s) (pos s) (end_ s) (token s)
     (tokenValue s) (tokenFlags s) (onError s) v.

(** The initial values of the module-level variables. *)
Definition initial : t :=
  mk [] 0 0 0 0 Unknown undefined TokenFlags.None false [].

Definition resetPos (newPos : Z) : M t unit :=
  (assert (newPos >=? 0) ;;;
   modify (fun s =>
     set_tokenFlags TokenFlags.None
       (set_tokenValue undefined
          (set_token Unknown
             (set_tokenPos newPos (set_startPos newPos (set_pos newPos s)))))))%m.

Definition resetText (newText : jsstring) : M t unit :=
  (modify (fun s => set_end (jslength newText) (set_text newText s)) ;;;
   resetPos 0)%m.

Definition setTextRange (start : Z) (length : option Z) : M t unit :=
  (modify (fun s =>
     set_end (match length with
              | None => jslength (text s)
              | Some len => start + len
              end) s) ;;;
   resetPos start)%m.

(** the getter [tokenText] *)
Definition tokenText (s : t) : jsstring := substring (text s) (tokenPos s) (pos s).

Definition hasPrecedingLineBreak (s : t) : bool :=
  negb (Z.land (tokenFlags s) TokenFlags.PrecedingLineBreak =? 0).

Definition isIdentifier (s : t) : bool :=
  kind_eqb (token s) Identifier
  || (kindCode (token s) >? kindCode SyntaxKindMarker.LastReservedWord).

Definition isReservedWord (s : t) : bool :=
  (kindCode (token s) >=? kindCode SyntaxKindMarker.FirstReservedWord)
  && (kindCode (token s) <=? kindCode SyntaxKindMarker.LastReservedWord).

Definition setOnError (registered : bool) (s : t) : t := set_onError registered s.

(** [this.error(message)]: every call in the scanner leaves [errPos] at its
    default [pos] and passes no length, so the callback sees [pos]
    unchanged and receives the length [0]. *)
Definition error (msg : string) (s : t) : t :=
  if onError s
  then set_diagnostics (diagnostics s ++ [mkDiagnostic msg (pos s) 0]) s
  else s.

(** *** The loops over characters *)

(** [while (p(text.charCodeAt(pos))) pos++], run over the characters from
    [pos] on: past the end of the text the code is [NaN] and the loop
    stops. *)
Fixpoint skipWhile (p : Z -> bool) (l : jsstring) (pos : Z) : Z :=
  match l with
  | c :: l' => if p c then skipWhile p l' (pos + 1) else pos
  | [] => pos
  end.

Definition advanceWhile (p : Z -> bool) (s : t) : t :=
  if pos s <? 0 then s
  else set_pos (skipWhile p (skipn (Z.to_nat (pos s)) (text s)) (pos s)) s.

Definition scanNumberFragment (s : t) : jsstring * t :=
  let start := pos s in
  let s' := advanceWhile isDigit s in
  (substring (text s') start (pos s'), s').

Definition scanHexDigits (s : t) : jsstring * t :=
  let start := pos s in
  let s' := advanceWhile isHexDigit s in
  (substring (text s') start (pos s'), s').

Definition scanBinaryDigits (s : t) : jsstring * t :=
  let start := pos s in
  let s' := advanceWhile isBinaryDigit s in
  (substring (text s') start (pos s'), s').

Definition scanOctalDigits (s : t) : jsstring * t :=
  let start := pos s in
  let s' := advanceWhile isOctalDigit s in
  (substring (text s') start (pos s'), s').

Definition isEmpty (v : jsstring) : bool :=
  match v with [] => true | _ => false end.

Definition scanNumber (s : t) : TokenValue * t :=
  let start := pos s in
  let '(mainFragment, s1) := scanNumberFragment s in
  let '(decimalFragment, s2) :=
    if charCodeAt (text s1) (pos s1) =? CharacterCodes.dot then
      let '(fragment, s') := scanNumberFragment (set_pos (pos s1 + 1) s1) in
      (Some fragment, s')
    else (None, s1) in
  let end0 := pos s2 in
  let '(end1, s3) :=
    if (charCodeAt (text s2) (pos s2) =? CharacterCodes.E)
       || (charCodeAt (text s2) (pos s2) =? CharacterCodes.e) then
      let sa := set_pos (pos s2 + 1) s2 in
      let sb := set_tokenFlags (Z.lor (tokenFlags sa) TokenFlags.Scientific) sa in
      let sc :=
        if (charCodeAt (text sb) (pos sb) =? CharacterCodes.plus)
           || (charCodeAt (text sb) (pos sb) =? CharacterCodes.minus)
        then set_pos (pos sb + 1) sb else sb in
      let '(finalFragment, sd) := scanNumberFragment sc in
      if isEmpty finalFragment then (end0, error "Digit expected" sd)
      else (pos sd, sd)
    else (end0, s2) in
  let result := substring (text s3) start end1 in
  match decimalFragment with
  | Some _ => (normalizeNumber result, s3)
  | None =>
      if negb (Z.land (tokenFlags s3) TokenFlags.Scientific =? 0)
      then (normalizeNumber result, s3)
      else (Str result, s3)
  end.

Definition scanEscapeSequence (s : t) : jsstring * t :=
  let s1 := set_pos (pos s + 1) s in
  if pos s1 >=? end_ s1 then ([], error "Unexpected end of text" s1)
  else
    let ch := charCodeAt (text s1) (pos s1) in
    let s2 := set_pos (pos s1 + 1) s1 in
    if ch =? CharacterCodes._0 then ([0], s2)
    else if ch =? CharacterCodes.b then ([8], s2)
    else if ch =? CharacterCodes.t then ([9], s2)
    else if ch =? CharacterCodes.n then ([10], s2)
    else if ch =? CharacterCodes.v then ([11], s2)
    else if ch =? CharacterCodes.f then ([12], s2)
    else if ch =? CharacterCodes.r then ([13], s2)
    else if ch =? CharacterCodes.singleQuote then ([39], s2)
    else if ch =? CharacterCodes.doubleQuote then ([34], s2)
    else ([], error "Expected escape char" s2).

(** The [while (true)] of [scanString]; [None] when the fuel runs out. *)
Fixpoint scanStringLoop (fuel : nat) (quote : Z) (result : jsstring)
    (start : Z) (s : t) : option (jsstring * t) :=
  match fuel with
  | O => None
  | S fuel' =>
      if pos s >=? end_ s then
        Some (result ++ substring (text s) start (pos s),
              error "Unterminated string literal" s)
      else
        let ch := charCodeAt (text s) (pos s) in
        if ch =? quote then
          Some (result ++ substring (text s) start (pos s),
                set_pos (pos s + 1) s)
        else if ch =? CharacterCodes.backslash then
          let result1 := result ++ substring (text s) start (pos s) in
          let '(escaped, s') := scanEscapeSequence s in
          scanStringLoop fuel' quote (result1 ++ escaped) (pos s') s'
        else if isLineBreak ch then
          Some (result ++ substring (text s) start (pos s),
                error "Unterminated string literal" s)
        else scanStringLoop fuel' quote result start (set_pos (pos s + 1) s)
  end.

Definition scanString (s : t) : option (jsstring * t) :=
  let quote := charCodeAt (text s) (pos s) in
  let s1 := set_pos (pos s + 1) s in
  scanStringLoop (S (Z.to_nat (end_ s1 - pos s1))) quote [] (pos s1) s1.

(** [while (pos < end) { if (isLineBreak(...)) break; pos++; }]: the fuel
    is the distance to [end], so it runs out exactly when [pos < end]
    fails. *)
Fixpoint skipSingleLineComment (fuel : nat) (s : t) : t :=
  match fuel with
  | O => s
  | S fuel' =>
      if pos s <? end_ s then
        if isLineBreak (charCodeAt (text s) (pos s)) then s
        else skipSingleLineComment fuel' (set_pos (pos s + 1) s)
      else s
  end.

(** The loop of a multi-line comment; the boolean is [commentClosed]. *)
Fixpoint skipMultiLineComment (fuel : nat) (s : t) : bool * t :=
  match fuel with
  | O => (false, s)
  | S fuel' =>
      if pos s <? end_ s then
        let ch := charCodeAt (text s) (pos s) in
        if (ch =? CharacterCodes.asterisk)
           && (charCodeAt (text s) (pos s + 1) =? CharacterCodes.slash)
        then (true, set_pos (pos s + 2) s)
        else
          let s1 :=
            if isLineBreak ch
            then set_tokenFlags
                   (Z.lor (tokenFlags s) TokenFlags.PrecedingLineBreak) s
            else s in
          skipMultiLineComment fuel' (set_pos (pos s1 + 1) s1)
      else (false, s)
  end.

(** [while (pos < end && isIdentifierPart(text.codePointAt(pos))) pos += 1] *)
Fixpoint skipIdentifierParts (fuel : nat) (s : t) : t :=
  match fuel with
  | O => s
  | S fuel' =>
      if (pos s <? end_ s) && isIdentifierPart (codePointAt (text s) (pos s))
      then skipIdentifierParts fuel' (set_pos (pos s + 1) s)
      else s
  end.

Definition remaining (s : t) : nat := Z.to_nat (end_ s - pos s).

(** *** [scan] *)

(** One turn of the [while (true)] of [scan]: either [continue] or
    [return token = ...]. *)
Inductive Step : Type :=
| Continue (s : t)
| Return (s : t).

(** [return pos += n, token = k] *)
Definition produce (n : Z) (k : SyntaxKind) (s : t) : Step :=
  Return (set_token k (set_pos (pos s + n) s)).

Definition numericLiteral (v : TokenValue) (flag : Z) (s : t) : Step :=
  Return (set_token NumericLiteral
            (set_tokenFlags (Z.lor (tokenFlags s) flag) (set_tokenValue v s))).

(** The three prefixed radixes: [0x], [0b], [0o]. *)
Definition scanRadix (digits : t -> jsstring * t) (expected : string)
    (radix flag : Z) (s : t) : Step :=
  let '(v, s1) := digits (set_pos (pos s + 2) s) in
  let '(v', s2) := if isEmpty v then (js "0", error expected s1) else (v, s1) in
  numericLiteral (parseIntToString v' radix) flag s2.

(** The message ['"*/" expected']. *)
Definition commentNotClosed : string :=
  String (ascii_of_nat 34) ("*/" ++ String (ascii_of_nat 34) " expected")%string.

Definition scanStep (s0 : t) : option Step :=
  let s := set_tokenPos (pos s0) s0 in
  if pos s >=? end_ s then Some (Return (set_token EndOfFileToken s)) else
  let ch := codePointAt (text s) (pos s) in
  let next (k : Z) := charCodeAt (text s) (pos s + k) in
  let number :=
    let '(v, s') := scanNumber s in
    Some (Return (set_token NumericLiteral (set_tokenValue v s'))) in
  if (ch =? CharacterCodes.lineFeed) || (ch =? CharacterCodes.carriageReturn) then
    Some (Continue
            (set_pos (pos s + 1)
               (set_tokenFlags
                  (Z.lor (tokenFlags s) TokenFlags.PrecedingLineBreak) s)))
  else if (ch =? CharacterCodes.tab) || (ch =? CharacterCodes.verticalTab)
          || (ch =? CharacterCodes.formFeed) || (ch =? CharacterCodes.space) then
    Some (Continue (set_pos (pos s + 1) s))
  else if ch =? CharacterCodes.exclamation then
    if next 1 =? CharacterCodes.equals then
      if next 2 =? CharacterCodes.equals
      then Some (produce 3 ExclamationEqualsEqualsToken s)
      else Some (produce 2 ExclamationEqualsToken s)
    else Some (produce 1 ExclamationToken s)
  else if ch =? CharacterCodes.percent then
    if next 1 =? CharacterCodes.equals
    then Some (produce 2 PercentEqualsToken s)
    else Some (produce 1 PercentToken s)
  else if ch =? CharacterCodes.ampersand then
    if next 1 =? CharacterCodes.ampersand
    then Some (produce 2 AmpersandAmpersandToken s)
    else if next 1 =? CharacterCodes.equals
    then Some (produce 2 AmpersandEqualsToken s)
    else Some (produce 1 AmpersandToken s)
  else if ch =? CharacterCodes.openParen then Some (produce 1 OpenParenToken s)
  else if ch =? CharacterCodes.closeParen then Some (produce 1 CloseParenToken s)
  else if ch =? CharacterCodes.asterisk then
    if next 1 =? CharacterCodes.equals
    then Some (produce 2 AsteriskEqualsToken s)
    else if next 1 =? CharacterCodes.asterisk then
      if next 2 =? CharacterCodes.equals
      then Some (produce 3 AsteriskAsteriskEqualsToken s)
      else Some (produce 2 AsteriskAsteriskToken s)
    else Some (produce 1 AsteriskToken s)
  else if ch =? CharacterCodes.plus then
    if next 1 =? CharacterCodes.plus
    then Some (produce 2 PlusPlusToken s)
    else if next 1 =? CharacterCodes.equals
    then Some (produce 2 PlusEqualsToken s)
    else Some (produce 1 PlusToken s)
  else if ch =? CharacterCodes.comma then Some (produce 1 CommaToken s)
  else if ch =? CharacterCodes.minus then
    if next 1 =? CharacterCodes.minus
    then Some (produce 2 MinusMinusToken s)
    else if next 1 =? CharacterCodes.equals
    then Some (produce 2 MinusEqualsToken s)
    else if next 1 =? CharacterCodes.greaterThan
    then Some (produce 2 MinusGreaterThanToken s)
    else Some (produce 1 MinusToken s)
  else if ch =? CharacterCodes.dot then
    if isDigit (next 1) then number
    else if (next 1 =? CharacterCodes.dot) && (next 2 =? CharacterCodes.dot)
    then Some (produce 3 DotDotDotToken s)
    else Some (produce 1 DotToken s)
  else if ch =? CharacterCodes.slash then
    if next 1 =? CharacterCodes.slash then
      let s1 := set_pos (pos s + 2) s in
      Some (Continue (skipSingleLineComment (remaining s1) s1))
    else if next 1 =? CharacterCodes.asterisk then
      let s1 := set_pos (pos s + 2) s in
      let '(commentClosed, s2) := skipMultiLineComment (remaining s1) s1 in
      Some (Continue (if commentClosed then s2 else error commentNotClosed s2))
    else if next 1 =? CharacterCodes.equals
    then Some (produce 2 SlashEqualsToken s)
    else Some (produce 1 SlashToken s)
  else if ch =? CharacterCodes.colon then
    if next 1 =? CharacterCodes.equals
    then Some (produce 2 ColonToken s)
    else Some (produce 1 ColonToken s)
  else if ch =? CharacterCodes.semicolon then Some (produce 1 SemicolonToken s)
  else if ch =? CharacterCodes.lessThan then
    if next 1 =? CharacterCodes.lessThan then
      if next 2 =? CharacterCodes.equals
      then Some (produce 3 LessThanLessThanEqualsToken s)
      else Some (produce 2 LessThanLessThanToken s)
    else if next 1 =? CharacterCodes.equals
    then Some (produce 2 LessThanEqualsToken s)
    else Some (produce 1 LessThanToken s)
  else if ch =? CharacterCodes.greaterThan then
    if next 1 =? CharacterCodes.greaterThan then
      if next 2 =? CharacterCodes.greaterThan then
        if next 3 =? CharacterCodes.equals
        then Some (produce 4 GreaterThanGreaterThanGreaterThanEqualsToken s)
        else Some (produce 3 GreaterThanGreaterThanGreaterThanToken s)
      else if next 2 =? CharacterCodes.equals
      then Some (produce 3 GreaterThanGreaterThanEqualsToken s)
      else Some (produce 2 GreaterThanGreaterThanToken s)
    else if next 1 =? CharacterCodes.equals
    then Some (produce 2 GreaterThanEqualsToken s)
    else Some (produce 1 GreaterThanToken s)
  else if ch =? CharacterCodes.equals then
    if next 1 =? CharacterCodes.equals then
      if next 2 =? CharacterCodes.equals
      then Some (produce 3 EqualsEqualsEqualsToken s)
      else Some (produce 2 EqualsEqualsToken s)
    else if next 1 =? CharacterCodes.greaterThan
    then Some (produce 2 EqualsGreaterThanToken s)
    else Some (produce 1 EqualsToken s)
  else if ch =? CharacterCodes.question then
    if (next 1 =? CharacterCodes.dot) && negb (isDigit (next 2))
    then Some (produce 2 QuestionDotToken s)
    else if next 1 =? CharacterCodes.question
    then Some (produce 2 QuestionQuestionToken s)
    else Some (produce 1 QuestionToken s)
  else if ch =? CharacterCodes.openBracket then Some (produce 1 OpenBracketToken s)
  else if ch =? CharacterCodes.closeBracket then Some (produce 1 CloseBracketToken s)
  else if ch =? CharacterCodes.caret then
    if next 1 =? CharacterCodes.equals
    then Some (produce 2 CaretEqualsToken s)
    else Some (produce 1 CaretToken s)
  else if ch =? CharacterCodes.openBrace then Some (produce 1 OpenBraceToken s)
  else if ch =? CharacterCodes.bar then
    if next 1 =? CharacterCodes.bar
    then Some (produce 2 BarBarToken s)
    else if next 1 =? CharacterCodes.equals
    then Some (produce 2 BarEqualsToken s)
    else Some (produce 1 BarToken s)
  else if ch =? CharacterCodes.closeBrace then Some (produce 1 CloseBraceToken s)
  else if ch =? CharacterCodes.tilde then Some (produce 1 TildeToken s)
  else if ch =? CharacterCodes.at_ then Some (produce 1 AtToken s)
  else if ch =? CharacterCodes.backslash then
    Some (produce 1 Unknown (error "Unicode escape is not supported yet" s))
  else if (ch =? CharacterCodes.doubleQuote) || (ch =? CharacterCodes.singleQuote) then
    match scanString s with
    | Some (v, s') => Some (Return (set_token StringLiteral (set_tokenValue (Str v) s')))
    | None => None
    end
  else if ch =? CharacterCodes._0 then
    if (pos s + 2 <? end_ s)
       && ((next 1 =? CharacterCodes.X) || (next 1 =? CharacterCodes.x)) then
      Some (scanRadix scanHexDigits "Hexadecimal digit expected" 16
              TokenFlags.HexSpecifier s)
    else if (pos s + 2 <? end_ s)
       && ((next 1 =? CharacterCodes.B) || (next 1 =? CharacterCodes.b)) then
      Some (scanRadix scanBinaryDigits "Binary digit expected" 2
              TokenFlags.BinarySpecifier s)
    else if (pos s + 2 <? end_ s)
       && ((next 1 =? CharacterCodes.O) || (next 1 =? CharacterCodes.o)) then
      Some (scanRadix scanOctalDigits "Octal digit expected" 8
              TokenFlags.OctalSpecifier s)
    else if (pos s + 1 <? end_ s) && isOctalDigit (next 1) then
      let '(v, s1) := scanOctalDigits s in
      Some (numericLiteral (parseIntToString v 8) TokenFlags.Octal s1)
    else number
  else if (CharacterCodes._1 <=? ch) && (ch <=? CharacterCodes._9) then number
  else if isIdentifierStart ch then
    let s1 := set_pos (pos s + 1) s in
    let s2 := skipIdentifierParts (remaining s1) s1 in
    let v := substring (text s2) (tokenPos s2) (pos s2) in
    Some (Return (set_token (checkReservedWord v) (set_tokenValue (Str v) s2)))
  else
    Some (produce 1 Unknown (error "Invalid character" s)).

Fixpoint scanLoop (fuel : nat) (s : t) : option t :=
  match fuel with
  | O => None
  | S fuel' =>
      match scanStep s with
      | Some (Continue s') => scanLoop fuel' s'
      | Some (Return s') => Some s'
      | None => None
      end
  end.

(** [scan()]: the token kind returned is the [token] of the result. *)
Definition scan (s : t) : option t :=
  scanLoop (S (remaining s))
    (set_tokenFlags TokenFlags.None (set_startPos (pos s) s)).

(** Modelled from the spec: [reScanGreaterToken], which the parser calls on
    the scanner and lexical.ts does not define.  The spec resolves
    multi-character operators by greedy longest match ([>>>=] before [>>>]
    before [>>] before [>]); re-scanning a [>] token extends it by that
    rule, and any other token is left as it is. *)
Definition reScanGreaterToken (s : t) : t :=
  if kind_eqb (token s) GreaterThanToken then
    let next (k : Z) := charCodeAt (text s) (pos s + k) in
    if next 0 =? CharacterCodes.greaterThan then
      if next 1 =? CharacterCodes.greaterThan then
        if next 2 =? CharacterCodes.equals
        then set_token GreaterThanGreaterThanGreaterThanEqualsToken (set_pos (pos s + 3) s)
        else set_token GreaterThanGreaterThanGreaterThanToken (set_pos (pos s + 2) s)
      else if next 1 =? CharacterCodes.equals
      then set_token GreaterThanGreaterThanEqualsToken (set_pos (pos s + 2) s)
      else set_token GreaterThanGreaterThanToken (set_pos (pos s + 1) s)
    else if next 0 =? CharacterCodes.equals
    then set_token GreaterThanEqualsToken (set_pos (pos s + 1) s)
    else s
  else s.

(** *** Checkpoints

    The callbacks are closures over the program that owns the scanner:
    they run in a state [W] of which the scanner is a part. *)
Section Checkpoints.
Variable W : Type.
Variable scannerOf : W -> t.
Variable withScanner : t -> W -> W.

(** What [protectContextHelper] saves and writes back. *)
Definition restore (saved current : t) : t :=
  mk (text current) (startPos saved) (tokenPos saved) (pos saved)
     (end_ saved) (token saved) (tokenValue saved) (tokenFlags saved)
     (onError current) (diagnostics current).

Definition protectContextHelper (callback : M W bool) : M W unit :=
  fun w =>
    let saved := scannerOf w in
    match callback w with
    | Ok true w' => Ok tt w'
    | Ok false w' => Ok tt (withScanner (restore saved (scannerOf w')) w')
    | Throw e w' => Throw e w'
    | OutOfFuel => OutOfFuel
    end.

(** [tryScan]; [truthy] is [!!result]. *)
Definition tryScan {T} (truthy : T -> bool) (callback : M W T) : M W T :=
  fun w =>
    let saved := scannerOf w in
    match callback w with
    | Ok result w' =>
        if truthy result then Ok result w'
        else Ok result (withScanner (restore saved (scannerOf w')) w')
    | Throw e w' => Throw e w'
    | OutOfFuel => OutOfFuel
    end.

Definition lookAhead {T} (callback : M W T) : M W T :=
  fun w =>
    let saved := scannerOf w in
    match callback w with
    | Ok result w' =>
        Ok result (withScanner (restore saved (scannerOf w')) w')
    | Throw e w' => Throw e w'
    | OutOfFuel => OutOfFuel
    end.

(** [scanRange]: [setTextRange] runs inside the protected callback, so
    a failed assertion of [resetPos] leaves through [protectContextHelper]
    with nothing written back. *)
Definition scanRange {T} (start length : Z) (callback : M W T) : M W T :=
  fun w =>
    let saved := scannerOf w in
    match setTextRange start (Some length) (scannerOf w) with
    | Ok _ ranged =>
        match callback (withScanner ranged w) with
        | Ok result w' =>
            Ok result (withScanner (restore saved (scannerOf w')) w')
        | Throw e w' => Throw e w'
        | OutOfFuel => OutOfFuel
        end
    | Throw e ranged => Throw e (withScanner ranged w)
    | OutOfFuel => OutOfFuel
    end.
End Checkpoints.

End Scanner.

(** ** The syntax tree

    A node is a JavaScript object: an ordered list of properties.  The
    properties the parser reads back ([kind], [pos], [body]) are looked up
    by name, and reading a property of [undefined] throws a [TypeError], as
    it does in the source.  The back-reference [parent] is left out: the
    parser initialises it to [undefined], never reads it, and a tree value
    has no cycles. *)

Module ParsingContext.
Inductive t : Type :=
| SourceElements
| BlockStatements
| SwitchClauses
| SwitchClauseStatements
| VariableDeclarations
| ArgumentExpressions
| ObjectLiteralMembers
| ArrayLiteralMembers
| Parameters
| NodeBlock
| Count.

Definition code (k : t) : Z :=
  match k with
  | SourceElements => 0
  | BlockStatements => 1
  | SwitchClauses => 2
  | SwitchClauseStatements => 3
  | VariableDeclarations => 4
  | ArgumentExpressions => 5
  | ObjectLiteralMembers => 6
  | ArrayLiteralMembers => 7
  | Parameters => 8
  | NodeBlock => 9
  | Count => 10
  end.
End ParsingContext.

Module NodeFlags.
Definition None : Z := 0.
End NodeFlags.

(** [NodeList<T>]: an array with a range and the optional mark of a trailing
    delimiter (absent is [false]). *)
Record NodeList (T : Type) : Type := mkNodeList {
  elements : list T;
  rangePos : Z;
  rangeEnd : Z;
  hasTrailingDelimiter : bool
}.

Arguments mkNodeList {T} elements rangePos rangeEnd hasTrailingDelimiter.
Arguments elements {T} n.
Arguments rangePos {T} n.
Arguments rangeEnd {T} n.
Arguments hasTrailingDelimiter {T} n.

Inductive Node : Type :=
| JsUndefined
| Obj (props : list (string * Value))
with Value : Type :=
| VNode (n : Node)
| VList (l : NodeList Node)
| VText (v : TokenValue)
| VString (s : string)
| VBool (b : bool)
| VKind (k : SyntaxKind)
| VNum (n : Z).

Fixpoint lookupProp (name : string) (props : list (string * Value)) : option Value :=
  match props with
  | [] => None
  | (n, v) :: props' => if String.eqb n name then Some v else lookupProp name props'
  end.

Fixpoint assignProp (name : string) (v : Value) (props : list (string * Value))
  : list (string * Value) :=
  match props with
  | [] => [(name, v)]
  | (n, w) :: props' =>
      if String.eqb n name then (n, v) :: props'
      else (n, w) :: assignProp name v props'
  end.

(** Pure readers, for stating what a tree contains. *)
Definition prop (name : string) (n : Node) : option Value :=
  match n with
  | JsUndefined => None
  | Obj props => lookupProp name props
  end.

Definition kindOf (n : Node) : option SyntaxKind :=
  match prop "kind" n with
  | Some (VKind k) => Some k
  | _ => None
  end.

Definition child (name : string) (n : Node) : Node :=
  match prop name n with
  | Some (VNode c) => c
  | _ => JsUndefined
  end.

Definition children (name : string) (n : Node) : list Node :=
  match prop name n with
  | Some (VList l) => elements l
  | _ => []
  end.

Definition textOf (n : Node) : option TokenValue :=
  match prop "text" n with
  | Some (VText v) => Some v
  | _ => None
  end.

Definition hasKind (k : SyntaxKind) (n : Node) : bool :=
  match kindOf n with
  | Some k' => kind_eqb k' k
  | None => false
  end.

(** ** The parser *)

Module Parser.

(** The module-level variables of the namespace and the lines [error]
    prints: the message and [scanner.tokenPos]. *)
Record State : Type := mkState {
  scanner : Scanner.t;
  sourceFile : Node;
  token : SyntaxKind;
  sourceText : option jsstring;
  nodeCount : Z;
  contextFlags : Z;
  parsingContext : Z;
  console : list (string * Z)
}.

Definition set_scanner v st :=
  mkState v (sourceFile st) (token st) (sourceText st) (nodeCount st)
          (contextFlags st) (parsingContext st) (console st).
Definition set_sourceFile v st :=
  mkState (scanner st) v (token st) (sourceText st) (nodeCount st)
          (contextFlags st) (parsingContext st) (console st).
Definition set_token v st :=
  mkState (scanner st) (sourceFile st) v (sourceText st) (nodeCount st)
          (contextFlags st) (parsingContext st) (console st).
Definition set_sourceText v st :=
  mkState (scanner st) (sourceFile st) (token st) v (nodeCount st)
          (contextFlags st) (parsingContext st) (console st).
Definition set_nodeCount v st :=
  mkState (scanner st) (sourceFile st) (token st) (sourceText st) v
          (contextFlags st) (parsingContext st) (console st).
Definition set_contextFlags v st :=
  mkState (scanner st) (sourceFile st) (token st) (sourceText st)
          (nodeCount st) v (parsingContext st) (console st).
Definition set_parsingContext v st :=
  mkState (scanner st) (sourceFile st) (token st) (sourceText st)
          (nodeCount st) (contextFlags st) v (console st).
Definition set_console v st :=
  mkState (scanner st) (sourceFile st) (token st) (sourceText st)
          (nodeCount st) (contextFlags st) (parsingContext st) v.

(** The variables before the first call: nothing is assigned yet, and
    [parseSourceFile] assigns each of them before it reads it. *)
Definition initial : State :=
  mkState Scanner.initial JsUndefined Unknown None 0 NodeFlags.None 0 [].

Definition P (A : Type) : Type := M State A.

Local Open Scope m_scope.

(** Scanner calls from the parser. *)
Definition liftScanner {A} (m : M Scanner.t A) : P A :=
  fun st =>
    match m (scanner st) with
    | Ok a sc => Ok a (set_scanner sc st)
    | Throw e sc => Throw e (set_scanner sc st)
    | OutOfFuel => OutOfFuel
    end.

Definition onScanner {A} (f : Scanner.t -> A) : P A :=
  gets (fun st => f (scanner st)).

(** *** Property reads and writes *)

Definition getProp (name : string) (n : Node) : P (option Value) :=
  match n with
  | JsUndefined =>
      throw (TypeError ("Cannot read property '" ++ name ++ "' of undefined"))
  | Obj props => ret (lookupProp name props)
  end.

Definition setProp (name : string) (v : Value) (n : Node) : P Node :=
  match n with
  | JsUndefined =>
      throw (TypeError ("Cannot set property '" ++ name ++ "' of undefined"))
  | Obj props => ret (Obj (assignProp name v props))
  end.

(** [node.kind] *)
Definition readKind (n : Node) : P (option SyntaxKind) :=
  v <- getProp "kind" n ;;
  ret (match v with Some (VKind k) => Some k | _ => None end).

(** [node.pos] *)
Definition readPos (n : Node) : P (option Z) :=
  v <- getProp "pos" n ;;
  ret (match v with Some (VNum z) => Some z | _ => None end).

Definition kindIs (k : SyntaxKind) (o : option SyntaxKind) : bool :=
  match o with
  | Some k' => kind_eqb k' k
  | None => false
  end.

(** A node, [undefined] for [None]. *)
Definition optionalNode (o : option Node) : Value :=
  match o with
  | Some n => VNode n
  | None => VNode JsUndefined
  end.

(** A node list, [undefined] for [None]. *)
Definition optionalList (o : option (NodeList Node)) : Value :=
  match o with
  | Some l => VList l
  | None => VNode JsUndefined
  end.

(** Truthiness of what the callbacks of [tryParse] and [lookAhead] return. *)
Definition truthyBool (b : bool) : bool := b.
Definition truthyOption {A} (o : option A) : bool :=
  match o with Some _ => true | None => false end.
Definition truthyKind (k : SyntaxKind) : bool := negb (kindCode k =? 0).
Definition truthyNode (n : Node) : bool :=
  match n with JsUndefined => false | Obj _ => true end.

Definition andM (a b : P bool) : P bool :=
  x <- a ;; if x then b else ret false.

Definition orM (a b : P bool) : P bool :=
  x <- a ;; if x then ret true else b.

(** *** State, nodes and tokens *)

Definition NodeInitializer (kind : SyntaxKind) (pos end_ : Z) : Node :=
  Obj [("pos", VNum pos); ("end", VNum end_); ("kind", VKind kind);
       ("flags", VNum NodeFlags.None)].

Definition finishNode (node : Node) (end_ : option Z) : P Node :=
  startPos <- onScanner Scanner.startPos ;;
  node <- setProp "end"
            (VNum (match end_ with Some e => e | None => startPos end)) node ;;
  contextFlags <- gets contextFlags ;;
  if negb (contextFlags =? 0) then
    flags <- getProp "flags" node ;;
    setProp "flags"
      (VNum (Z.lor (match flags with Some (VNum f) => f | _ => 0 end)
                   contextFlags)) node
  else ret node.

Definition initializeState (_sourceText : jsstring) : P unit :=
  modify (set_sourceText (Some _sourceText)) ;;;
  modify (set_parsingContext 0) ;;;
  modify (set_nodeCount 0) ;;;
  modify (set_contextFlags NodeFlags.None) ;;;
  liftScanner (Scanner.resetText _sourceText) ;;;
  liftScanner (modify (Scanner.setOnError true)).

Definition clearState : P unit :=
  liftScanner (Scanner.resetText []) ;;;
  liftScanner (modify (Scanner.setOnError false)) ;;;
  modify (set_sourceFile JsUndefined) ;;;
  modify (set_sourceText None).

Definition initializeSourceFile (fileName : string) : P Node :=
  text <- gets sourceText ;;
  match text with
  | None => throw (TypeError "Cannot read property 'length' of undefined")
  | Some sourceText =>
      let sourceFile := NodeInitializer SourceFile 0 (jslength sourceText) in
      modify (fun st => set_nodeCount (nodeCount st + 1) st) ;;;
      sourceFile <- setProp "text" (VText (Str sourceText)) sourceFile ;;
      setProp "fileName" (VString fileName) sourceFile
  end.

(** [error(msg)]: two lines on the console, the message and the file name
    with [scanner.tokenPos]. *)
Definition error (msg : string) : P unit :=
  tokenPos <- onScanner Scanner.tokenPos ;;
  modify (fun st => set_console (console st ++ [(msg, tokenPos)]) st).

Definition protectContextHelper {T} (truthy : T -> bool) (callback : P T)
    (alwaysRestore : bool) : P T :=
  saveToken <- gets token ;;
  saveContextFlags <- gets contextFlags ;;
  result <- (if alwaysRestore
             then Scanner.lookAhead State scanner set_scanner callback
             else Scanner.tryScan State scanner set_scanner truthy callback) ;;
  currentFlags <- gets contextFlags ;;
  assert (saveContextFlags =? currentFlags) ;;;
  (if negb (truthy result) || alwaysRestore
   then modify (set_token saveToken)
   else ret tt) ;;;
  ret result.

Definition lookAhead {T} (truthy : T -> bool) (callback : P T) : P T :=
  protectContextHelper truthy callback true.

Definition tryParse {T} (truthy : T -> bool) (callback : P T) : P T :=
  protectContextHelper truthy callback false.

(** [nextToken()]: [scan] always returns (see [scan_terminates]); the
    fuel of its loop never runs out. *)
Definition nextToken : P SyntaxKind :=
  fun st =>
    match Scanner.scan (scanner st) with
    | Some sc => Ok (Scanner.token sc) (set_token (Scanner.token sc) (set_scanner sc st))
    | None => OutOfFuel
    end.

Definition createNode (kind : SyntaxKind) (pos : option Z) : P Node :=
  modify (fun st => set_nodeCount (nodeCount st + 1) st) ;;;
  startPos <- onScanner Scanner.startPos ;;
  let p := match pos with
           | Some p => if p >=? 0 then p else startPos
           | None => startPos
           end in
  ret (NodeInitializer kind p p).

Definition tokenIs (kind : SyntaxKind) : P bool :=
  t <- gets token ;; ret (kind_eqb t kind).

Definition parseExpected (kind : SyntaxKind) : P bool :=
  t <- gets token ;;
  if kind_eqb t kind then nextToken ;;; ret true
  else
    error ("Unexpected " ++ kindName t ++ ", expected " ++ kindName kind) ;;;
    ret false.

Definition parseOptional (kind : SyntaxKind) : P bool :=
  t <- gets token ;;
  if kind_eqb t kind then nextToken ;;; ret true else ret false.

Definition parseTokenNode : P Node :=
  t <- gets token ;;
  node <- createNode t None ;;
  nextToken ;;;
  finishNode node None.

Definition parseExpectedToken (t : SyntaxKind) : P Node :=
  current <- gets token ;;
  if kind_eqb current t then parseTokenNode
  else
    error ("Unexpected " ++ kindName t ++ ", expected " ++ kindName t) ;;;
    ret JsUndefined.

Definition parseOptionalToken (t : SyntaxKind) : P Node :=
  current <- gets token ;;
  if kind_eqb current t then parseTokenNode else ret JsUndefined.

Definition createNodeList (elements : list Node) (pos : Z) (end_ : option Z)
  : P (NodeList Node) :=
  startPos <- onScanner Scanner.startPos ;;
  ret (mkNodeList elements pos
         (match end_ with Some e => e | None => startPos end) false).

Definition isListTerminator (kind : ParsingContext.t) : P bool :=
  t <- gets token ;;
  if kind_eqb t EndOfFileToken then ret true
  else
    ret (match kind with
         | ParsingContext.BlockStatements
         | ParsingContext.SwitchClauses
         | ParsingContext.ObjectLiteralMembers
         | ParsingContext.NodeBlock => kind_eqb t CloseBraceToken
         | ParsingContext.SwitchClauseStatements =>
             kind_eqb t CloseBraceToken || kind_eqb t CaseKeyword
             || kind_eqb t DefaultKeyword
         | ParsingContext.ArrayLiteralMembers => kind_eqb t CloseBracketToken
         | ParsingContext.Parameters
         | ParsingContext.ArgumentExpressions => kind_eqb t CloseParenToken
         | ParsingContext.VariableDeclarations =>
             kind_eqb t SemicolonToken || kind_eqb t OpenBraceToken
         | _ => false
         end).

Definition parseIdentifier : P Node :=
  isIdentifier <- onScanner Scanner.isIdentifier ;;
  if negb isIdentifier then
    t <- gets token ;;
    error ("Identifier expected, but got " ++ kindName t) ;;;
    node <- createNode Identifier None ;;
    node <- setProp "text" (VText (Str [])) node ;;
    finishNode node None
  else
    node <- createNode Identifier None ;;
    tokenValue <- onScanner Scanner.tokenValue ;;
    node <- setProp "text" (VText tokenValue) node ;;
    t <- gets token ;;
    node <- (if negb (kind_eqb t Identifier)
             then setProp "originalKeywordKind" (VKind t) node
             else ret node) ;;
    nextToken ;;;
    finishNode node None.

Definition parseSemicolon : P bool := parseExpected SemicolonToken.

Definition parseEmptyStatement : P Node :=
  node <- createNode EmptyStatement None ;;
  parseExpected SemicolonToken ;;;
  finishNode node None.

Definition parseBreakOrContinueStatement (kind : SyntaxKind) : P Node :=
  node <- createNode kind None ;;
  parseExpected (if kind_eqb kind BreakStatement
                 then BreakKeyword else ContinueKeyword) ;;;
  t <- gets token ;;
  node <- (if negb (kind_eqb t SemicolonToken)
           then label <- parseIdentifier ;; setProp "label" (VNode label) node
           else ret node) ;;
  parseExpected SemicolonToken ;;;
  finishNode node None.

Definition parseFallThroughStatement : P Node :=
  node <- createNode FallThroughStatement None ;;
  parseExpected FallThroughKeyword ;;;
  parseSemicolon ;;;
  finishNode node None.

Definition parseDebuggerStatement : P Node :=
  node <- createNode DebuggerStatement None ;;
  parseExpected DebuggerKeyword ;;;
  parseSemicolon ;;;
  finishNode node None.

Definition isCurrentTokenVLC : P bool :=
  t <- gets token ;;
  ret (kind_eqb t VarKeyword || kind_eqb t LetKeyword || kind_eqb t ConstKeyword).

(** *** The recursive productions

    The productions call each other through [R : Rec], which answers a
    [Call]: [knot] below ties it with one unit of fuel for each level of
    calls.  [r_parseStatement R] is the call of [parseStatement], and so
    on.  A [while] loop is a call of its own that calls itself for the
    next turn. *)
(** The productions that [parseList] and [parseDelimitedList] receive as
    [parseElement]. *)
Inductive Production : Type :=
| ParseStatement
| ParseCaseOrDefaultClause
| ParseNodeStatement
| ParseParameter
| ParseArgument
| ParseArrayElement
| ParseObjectDefinition
| ParseVariableBinding.

(** A call of a recursive production (or of the loop of one), with its
    arguments; the index is the type of what it returns. *)
Inductive Call : Type -> Type :=
| C_parseListLoop : ParsingContext.t -> Production -> list Node -> Call (list Node)
| C_parseList : ParsingContext.t -> Production -> Call (NodeList Node)
| C_parseDelimitedListLoop : ParsingContext.t -> Production -> list Node -> Z -> Call (list Node * Z)
| C_parseDelimitedList : ParsingContext.t -> Production -> Call (NodeList Node)
| C_parseStatement : Call Node
| C_parseBlock : Call Node
| C_parseExpressionOrLabeledStatement : Call Node
| C_parseReturnStatement : Call Node
| C_parseElifClauses : option (list Node) -> Call (option (list Node))
| C_parseIfStatement : Call Node
| C_parseForOrForInOrForOfStatement : Call Node
| C_parseSwitchStatement : Call Node
| C_parseCaseOrDefaultClause : Call Node
| C_parseCaseClause : Call Node
| C_parseDefaultClause : Call Node
| C_parseTryStatement : Call Node
| C_parseCatchClause : Call Node
| C_parseUsingTargets : list Node -> Call (list Node)
| C_parseUsingStatement : Call Node
| C_tryParseWalrusDeclaration : bool -> Call (option Node)
| C_parseExpressionRest : Node -> Call Node
| C_parseExpression : Call Node
| C_parseConnectExpRest : Node -> Call Node
| C_parseConnectExp : Call Node
| C_parseAssignExp : Call Node
| C_parseConditionalExpRest : Node -> Call Node
| C_parseYieldExpression : Call Node
| C_parseArrowFunction : Call Node
| C_addCallSignature : Node -> Call Node
| C_parseParameter : Call Node
| C_balanceParentheses : Z -> Call bool
| C_isStartOfParenthesizedArrowFunction : Call bool
| C_balanceAngleBrackets : Z -> Call bool
| C_isStartOfArrowFunctionWithCallSignature : Call bool
| C_parseBinaryExp : Z -> Call Node
| C_parseBinaryExpRest : Z -> Node -> Call Node
| C_parseUnaryExp : Call Node
| C_parseTypeAssertion : Call Node
| C_parseUpdateExp : Call Node
| C_parseLeftHandExp : Call Node
| C_parseMemberExp : Call Node
| C_parseMemberExpRest : Node -> Call Node
| C_parseCallExpRest : Node -> Call Node
| C_parseTypeArgumentsInExpression : Call (option (NodeList Node))
| C_parseArguments : Call Node
| C_parseArgument : Call Node
| C_parsePrimaryExp : Call Node
| C_parseParenthesizedExpression : Call Node
| C_parseArrayLiteralExpression : Call Node
| C_parseArrayElement : Call Node
| C_parseObjectLiteralExpression : Call Node
| C_parseObjectDefinition : Call Node
| C_parseNewExpression : Call Node
| C_parseTypeParametersLoop : list Node -> Call (option (list Node))
| C_parseTypeParameters : Call (option (NodeList Node))
| C_parseTypeArgumentListLoop : SyntaxKind -> list Node -> Call (option (list Node))
| C_parseTypeArgumentList : bool -> Call (option (NodeList Node))
| C_parseVariableDeclarationWithoutModifiers : bool -> option Node -> Call Node
| C_parseVariableBinding : Call Node
| C_parseFunctionExpressionWithoutModifiers : option Node -> Call Node
| C_parseFunctionWithoutModifiers : Node -> Call Node
| C_isStartOfNode_Parentheses : Z -> Call bool
| C_isStartOfNode_Worker : Call bool
| C_isStartOfNode_ : Call bool
| C_parseNodeExpressionWithoutModifiers : option Node -> Call Node
| C_parseNode_WithoutModifiers : Node -> Call Node
| C_parseNodeStatement : Call Node
| C_isDeclaration : Call bool
| C_isStartOfDeclaration : Call bool
| C_parseDeclaration : Call Node
| C_parseDecoratorsLoop : option (list Node) -> Call (option (list Node))
| C_parseDecorators : Call (option (NodeList Node))
| C_parseModifiersLoop : option (list Node) -> Call (option (list Node))
| C_parseModifiers : Call (option (NodeList Node))
| C_parseDeclarationWorker : Node -> Call Node.

Definition Rec : Type := forall A : Type, Call A -> P A.

Definition r_parseListLoop (R : Rec) (a0 : ParsingContext.t) (a1 : Production) (a2 : list Node) : P (list Node) :=
  R _ (C_parseListLoop a0 a1 a2).
Definition r_parseList (R : Rec) (a0 : ParsingContext.t) (a1 : Production) : P (NodeList Node) :=
  R _ (C_parseList a0 a1).
Definition r_parseDelimitedListLoop (R : Rec) (a0 : ParsingContext.t) (a1 : Production) (a2 : list Node) (a3 : Z) : P (list Node * Z) :=
  R _ (C_parseDelimitedListLoop a0 a1 a2 a3).
Definition r_parseDelimitedList (R : Rec) (a0 : ParsingContext.t) (a1 : Production) : P (NodeList Node) :=
  R _ (C_parseDelimitedList a0 a1).
Definition r_parseStatement (R : Rec) : P Node :=
  R _ (C_parseStatement).
Definition r_parseBlock (R : Rec) : P Node :=
  R _ (C_parseBlock).
Definition r_parseExpressionOrLabeledStatement (R : Rec) : P Node :=
  R _ (C_parseExpressionOrLabeledStatement).
Definition r_parseReturnStatement (R : Rec) : P Node :=
  R _ (C_parseReturnStatement).
Definition r_parseElifClauses (R : Rec) (a0 : option (list Node)) : P (option (list Node)) :=
  R _ (C_parseElifClauses a0).
Definition r_parseIfStatement (R : Rec) : P Node :=
  R _ (C_parseIfStatement).
Definition r_parseForOrForInOrForOfStatement (R : Rec) : P Node :=
  R _ (C_parseForOrForInOrForOfStatement).
Definition r_parseSwitchStatement (R : Rec) : P Node :=
  R _ (C_parseSwitchStatement).
Definition r_parseCaseOrDefaultClause (R : Rec) : P Node :=
  R _ (C_parseCaseOrDefaultClause).
Definition r_parseCaseClause (R : Rec) : P Node :=
  R _ (C_parseCaseClause).
Definition r_parseDefaultClause (R : Rec) : P Node :=
  R _ (C_parseDefaultClause).
Definition r_parseTryStatement (R : Rec) : P Node :=
  R _ (C_parseTryStatement).
Definition r_parseCatchClause (R : Rec) : P Node :=
  R _ (C_parseCatchClause).
Definition r_parseUsingTargets (R : Rec) (a0 : list Node) : P (list Node) :=
  R _ (C_parseUsingTargets a0).
Definition r_parseUsingStatement (R : Rec) : P Node :=
  R _ (C_parseUsingStatement).
Definition r_tryParseWalrusDeclaration (R : Rec) (a0 : bool) : P (option Node) :=
  R _ (C_tryParseWalrusDeclaration a0).
Definition r_parseExpressionRest (R : Rec) (a0 : Node) : P Node :=
  R _ (C_parseExpressionRest a0).
Definition r_parseExpression (R : Rec) : P Node :=
  R _ (C_parseExpression).
Definition r_parseConnectExpRest (R : Rec) (a0 : Node) : P Node :=
  R _ (C_parseConnectExpRest a0).
Definition r_parseConnectExp (R : Rec) : P Node :=
  R _ (C_parseConnectExp).
Definition r_parseAssignExp (R : Rec) : P Node :=
  R _ (C_parseAssignExp).
Definition r_parseConditionalExpRest (R : Rec) (a0 : Node) : P Node :=
  R _ (C_parseConditionalExpRest a0).
Definition r_parseYieldExpression (R : Rec) : P Node :=
  R _ (C_parseYieldExpression).
Definition r_parseArrowFunction (R : Rec) : P Node :=
  R _ (C_parseArrowFunction).
Definition r_addCallSignature (R : Rec) (a0 : Node) : P Node :=
  R _ (C_addCallSignature a0).
Definition r_parseParameter (R : Rec) : P Node :=
  R _ (C_parseParameter).
Definition r_balanceParentheses (R : Rec) (a0 : Z) : P bool :=
  R _ (C_balanceParentheses a0).
Definition r_isStartOfParenthesizedArrowFunction (R : Rec) : P bool :=
  R _ (C_isStartOfParenthesizedArrowFunction).
Definition r_balanceAngleBrackets (R : Rec) (a0 : Z) : P bool :=
  R _ (C_balanceAngleBrackets a0).
Definition r_isStartOfArrowFunctionWithCallSignature (R : Rec) : P bool :=
  R _ (C_isStartOfArrowFunctionWithCallSignature).
Definition r_parseBinaryExp (R : Rec) (a0 : Z) : P Node :=
  R _ (C_parseBinaryExp a0).
Definition r_parseBinaryExpRest (R : Rec) (a0 : Z) (a1 : Node) : P Node :=
  R _ (C_parseBinaryExpRest a0 a1).
Definition r_parseUnaryExp (R : Rec) : P Node :=
  R _ (C_parseUnaryExp).
Definition r_parseTypeAssertion (R : Rec) : P Node :=
  R _ (C_parseTypeAssertion).
Definition r_parseUpdateExp (R : Rec) : P Node :=
  R _ (C_parseUpdateExp).
Definition r_parseLeftHandExp (R : Rec) : P Node :=
  R _ (C_parseLeftHandExp).
Definition r_parseMemberExp (R : Rec) : P Node :=
  R _ (C_parseMemberExp).
Definition r_parseMemberExpRest (R : Rec) (a0 : Node) : P Node :=
  R _ (C_parseMemberExpRest a0).
Definition r_parseCallExpRest (R : Rec) (a0 : Node) : P Node :=
  R _ (C_parseCallExpRest a0).
Definition r_parseTypeArgumentsInExpression (R : Rec) : P (option (NodeList Node)) :=
  R _ (C_parseTypeArgumentsInExpression).
Definition r_parseArguments (R : Rec) : P Node :=
  R _ (C_parseArguments).
Definition r_parseArgument (R : Rec) : P Node :=
  R _ (C_parseArgument).
Definition r_parsePrimaryExp (R : Rec) : P Node :=
  R _ (C_parsePrimaryExp).
Definition r_parseParenthesizedExpression (R : Rec) : P Node :=
  R _ (C_parseParenthesizedExpression).
Definition r_parseArrayLiteralExpression (R : Rec) : P Node :=
  R _ (C_parseArrayLiteralExpression).
Definition r_parseArrayElement (R : Rec) : P Node :=
  R _ (C_parseArrayElement).
Definition r_parseObjectLiteralExpression (R : Rec) : P Node :=
  R _ (C_parseObjectLiteralExpression).
Definition r_parseObjectDefinition (R : Rec) : P Node :=
  R _ (C_parseObjectDefinition).
Definition r_parseNewExpression (R : Rec) : P Node :=
  R _ (C_parseNewExpression).
Definition r_parseTypeParametersLoop (R : Rec) (a0 : list Node) : P (option (list Node)) :=
  R _ (C_parseTypeParametersLoop a0).
Definition r_parseTypeParameters (R : Rec) : P (option (NodeList Node)) :=
  R _ (C_parseTypeParameters).
Definition r_parseTypeArgumentListLoop (R : Rec) (a0 : SyntaxKind) (a1 : list Node) : P (option (list Node)) :=
  R _ (C_parseTypeArgumentListLoop a0 a1).
Definition r_parseTypeArgumentList (R : Rec) (a0 : bool) : P (option (NodeList Node)) :=
  R _ (C_parseTypeArgumentList a0).
Definition r_parseVariableDeclarationWithoutModifiers (R : Rec) (a0 : bool) (a1 : option Node) : P Node :=
  R _ (C_parseVariableDeclarationWithoutModifiers a0 a1).
Definition r_parseVariableBinding (R : Rec) : P Node :=
  R _ (C_parseVariableBinding).
Definition r_parseFunctionExpressionWithoutModifiers (R : Rec) (a0 : option Node) : P Node :=
  R _ (C_parseFunctionExpressionWithoutModifiers a0).
Definition r_parseFunctionWithoutModifiers (R : Rec) (a0 : Node) : P Node :=
  R _ (C_parseFunctionWithoutModifiers a0).
Definition r_isStartOfNode_Parentheses (R : Rec) (a0 : Z) : P bool :=
  R _ (C_isStartOfNode_Parentheses a0).
Definition r_isStartOfNode_Worker (R : Rec) : P bool :=
  R _ (C_isStartOfNode_Worker).
Definition r_isStartOfNode_ (R : Rec) : P bool :=
  R _ (C_isStartOfNode_).
Definition r_parseNodeExpressionWithoutModifiers (R : Rec) (a0 : option Node) : P Node :=
  R _ (C_parseNodeExpressionWithoutModifiers a0).
Definition r_parseNode_WithoutModifiers (R : Rec) (a0 : Node) : P Node :=
  R _ (C_parseNode_WithoutModifiers a0).
Definition r_parseNodeStatement (R : Rec) : P Node :=
  R _ (C_parseNodeStatement).
Definition r_isDeclaration (R : Rec) : P bool :=
  R _ (C_isDeclaration).
Definition r_isStartOfDeclaration (R : Rec) : P bool :=
  R _ (C_isStartOfDeclaration).
Definition r_parseDeclaration (R : Rec) : P Node :=
  R _ (C_parseDeclaration).
Definition r_parseDecoratorsLoop (R : Rec) (a0 : option (list Node)) : P (option (list Node)) :=
  R _ (C_parseDecoratorsLoop a0).
Definition r_parseDecorators (R : Rec) : P (option (NodeList Node)) :=
  R _ (C_parseDecorators).
Definition r_parseModifiersLoop (R : Rec) (a0 : option (list Node)) : P (option (list Node)) :=
  R _ (C_parseModifiersLoop a0).
Definition r_parseModifiers (R : Rec) : P (option (NodeList Node)) :=
  R _ (C_parseModifiers).
Definition r_parseDeclarationWorker (R : Rec) (a0 : Node) : P Node :=
  R _ (C_parseDeclarationWorker a0).

Section Productions.
Variable R : Rec.

(** [parseElement()] *)
Definition r_parseElement (parseElement : Production) : P Node :=
  match parseElement with
  | ParseStatement => r_parseStatement R
  | ParseCaseOrDefaultClause => r_parseCaseOrDefaultClause R
  | ParseNodeStatement => r_parseNodeStatement R
  | ParseParameter => r_parseParameter R
  | ParseArgument => r_parseArgument R
  | ParseArrayElement => r_parseArrayElement R
  | ParseObjectDefinition => r_parseObjectDefinition R
  | ParseVariableBinding => r_parseVariableBinding R
  end.

Definition parseSourceFileWorker (fileName : string) : P Node :=
  file <- initializeSourceFile fileName ;;
  modify (set_sourceFile file) ;;;
  file <- gets sourceFile ;;
  file <- setProp "flags" (VNum NodeFlags.None) file ;;
  modify (set_sourceFile file) ;;;
  nextToken ;;;
  statements <- r_parseList R ParsingContext.SourceElements ParseStatement ;;
  file <- gets sourceFile ;;
  file <- setProp "statements" (VList statements) file ;;
  modify (set_sourceFile file) ;;;
  t <- gets token ;;
  assert (kind_eqb t EndOfFileToken) ;;;
  count <- gets nodeCount ;;
  file <- gets sourceFile ;;
  file <- setProp "nodeCount" (VNum count) file ;;
  modify (set_sourceFile file) ;;;
  gets sourceFile.

(** The [while (!isListTerminator(kind))] of [parseList]. *)
Definition parseListLoop (kind : ParsingContext.t) (parseElement : Production)
    (items : list Node) : P (list Node) :=
  stop <- isListTerminator kind ;;
  if stop then ret items
  else
    element <- r_parseElement parseElement ;;
    r_parseListLoop R kind parseElement (items ++ [element]).

Definition parseList (kind : ParsingContext.t) (parseElement : Production)
  : P (NodeList Node) :=
  saveParsingContext <- gets parsingContext ;;
  modify (set_parsingContext
            (Z.lor saveParsingContext (Z.shiftl 1 (ParsingContext.code kind)))) ;;;
  listPos <- onScanner Scanner.startPos ;;
  items <- r_parseListLoop R kind parseElement [] ;;
  modify (set_parsingContext saveParsingContext) ;;;
  createNodeList items listPos None.

(** The loop of [parseDelimitedList]; [items] is its [list]. *)
Definition parseDelimitedListLoop (kind : ParsingContext.t)
    (parseElement : Production) (items : list Node) (commaStart : Z)
  : P (list Node * Z) :=
  stop <- isListTerminator kind ;;
  if stop then ret (items, commaStart)
  else
    element <- r_parseElement parseElement ;;
    let items := items ++ [element] in
    commaStart <- onScanner Scanner.tokenPos ;;
    comma <- parseOptional CommaToken ;;
    if comma then r_parseDelimitedListLoop R kind parseElement items commaStart
    else
      let commaStart := -1 in
      stop <- isListTerminator kind ;;
      if stop then ret (items, commaStart)
      else
        error "Comma expected." ;;;
        r_parseDelimitedListLoop R kind parseElement items commaStart.

Definition parseDelimitedList (kind : ParsingContext.t)
    (parseElement : Production) : P (NodeList Node) :=
  saveParsingContext <- gets parsingContext ;;
  modify (set_parsingContext
            (Z.lor saveParsingContext (Z.shiftl 1 (ParsingContext.code kind)))) ;;;
  listPos <- onScanner Scanner.startPos ;;
  '(items, commaStart) <- r_parseDelimitedListLoop R kind parseElement [] (-1) ;;
  modify (set_parsingContext saveParsingContext) ;;;
  result <- createNodeList items listPos None ;;
  ret (if commaStart >=? 0
       then mkNodeList (elements result) (rangePos result) (rangeEnd result) true
       else result).

Definition parseStatement : P Node :=
  t <- gets token ;;
  match t with
  | SemicolonToken => parseEmptyStatement
  | OpenBraceToken => r_parseBlock R
  | ContinueKeyword => parseBreakOrContinueStatement ContinueStatement
  | BreakKeyword => parseBreakOrContinueStatement BreakStatement
  | FallThroughKeyword => parseFallThroughStatement
  | ReturnKeyword => r_parseReturnStatement R
  | DebuggerKeyword => parseDebuggerStatement
  | IfKeyword => r_parseIfStatement R
  | ForKeyword => r_parseForOrForInOrForOfStatement R
  | SwitchKeyword => r_parseSwitchStatement R
  | TryKeyword => r_parseTryStatement R
  | UsingKeyword => r_parseUsingStatement R
  | AtToken => r_parseDeclaration R
  | ImportKeyword | ExportKeyword | VarKeyword | LetKeyword | ConstKeyword
  | AbstractKeyword | ClassKeyword | AsyncKeyword | FunctionKeyword
  | NodeKeyword | SubnetKeyword | InterfaceKeyword | TypeKeyword
  | EnumKeyword | NamespaceKeyword =>
      declaration <- r_isStartOfDeclaration R ;;
      if declaration then r_parseDeclaration R
      else r_parseExpressionOrLabeledStatement R
  | _ => r_parseExpressionOrLabeledStatement R
  end.

Definition parseBlock : P Node :=
  node <- createNode Block None ;;
  parseExpected OpenBraceToken ;;;
  statements <- r_parseList R ParsingContext.BlockStatements ParseStatement ;;
  node <- setProp "statements" (VList statements) node ;;
  parseExpected CloseBraceToken ;;;
  finishNode node None.

Definition parseExpressionOrLabeledStatement : P Node :=
  node <- createNode Unknown None ;;
  expression <- r_parseExpression R ;;
  kind <- readKind expression ;;
  label <- (if kindIs Identifier kind then parseOptional ColonToken
            else ret false) ;;
  node <- (if label then
             node <- setProp "kind" (VKind LabeledStatement) node ;;
             node <- setProp "label" (VNode expression) node ;;
             statement <- r_parseStatement R ;;
             setProp "statement" (VNode statement) node
           else
             node <- setProp "kind" (VKind ExpressionStatement) node ;;
             node <- setProp "expression" (VNode expression) node ;;
             parseSemicolon ;;;
             ret node) ;;
  finishNode node None.

Definition parseReturnStatement : P Node :=
  node <- createNode ReturnStatement None ;;
  parseExpected ReturnKeyword ;;;
  t <- gets token ;;
  node <- (if negb (kind_eqb t SemicolonToken)
           then expression <- r_parseExpression R ;;
                setProp "expression" (VNode expression) node
           else ret node) ;;
  parseSemicolon ;;;
  finishNode node None.

(** [walrus || isCurrentTokenVLC() && parseVariableDeclarationWithoutModifiers()] *)
Definition headerDeclaration (walrus : option Node) : P (option Node) :=
  match walrus with
  | Some declaration => ret (Some declaration)
  | None =>
      vlc <- isCurrentTokenVLC ;;
      if vlc then
        declaration <- r_parseVariableDeclarationWithoutModifiers R false None ;;
        ret (if truthyNode declaration then Some declaration else None)
      else ret None
  end.

(** The [while (true)] over [elif] clauses of [parseIfStatement]. *)
Definition parseElifClauses (elifClauseList : option (list Node))
  : P (option (list Node)) :=
  t <- gets token ;;
  if negb (kind_eqb t ElifKeyword) then ret elifClauseList
  else
    let items := match elifClauseList with Some l => l | None => [] end in
    elifClause <- createNode ElifClause None ;;
    nextToken ;;;
    _walrus <- r_tryParseWalrusDeclaration R false ;;
    _variableDeclaration <- headerDeclaration _walrus ;;
    elifClause <- match _variableDeclaration with
                  | Some d => setProp "variableDeclaration" (VNode d) elifClause
                  | None => ret elifClause
                  end ;;
    expression <- r_parseExpression R ;;
    elifClause <- setProp "expression" (VNode expression) elifClause ;;
    thenBlock <- r_parseBlock R ;;
    elifClause <- setProp "thenBlock" (VNode thenBlock) elifClause ;;
    r_parseElifClauses R (Some (items ++ [elifClause])).

Definition parseIfStatement : P Node :=
  node <- createNode IfStatement None ;;
  parseExpected IfKeyword ;;;
  walrus <- r_tryParseWalrusDeclaration R false ;;
  variableDeclaration <- headerDeclaration walrus ;;
  node <- match variableDeclaration with
          | Some d => setProp "variableDeclaration" (VNode d) node
          | None => ret node
          end ;;
  expression <- r_parseExpression R ;;
  node <- setProp "expression" (VNode expression) node ;;
  thenBlock <- r_parseBlock R ;;
  node <- setProp "thenBlock" (VNode thenBlock) node ;;
  elifClausesPos <- onScanner Scanner.startPos ;;
  elifClauseList <- r_parseElifClauses R None ;;
  elifClauses <- match elifClauseList with
                 | Some l =>
                     nl <- createNodeList l elifClausesPos None ;;
                     ret (VList nl)
                 | None => ret (VNode JsUndefined)
                 end ;;
  node <- setProp "elifClauses" elifClauses node ;;
  hasElse <- parseOptional ElseKeyword ;;
  elseBlock <- (if hasElse then r_parseBlock R else ret JsUndefined) ;;
  node <- setProp "elseBlock" (VNode elseBlock) node ;;
  finishNode node None.

Definition parseForOrForInOrForOfStatement : P Node :=
  pos <- onScanner Scanner.startPos ;;
  parseExpected ForKeyword ;;;
  t <- gets token ;;
  if kind_eqb t OpenBraceToken then
    node <- createNode ForStatement (Some pos) ;;
    block <- r_parseBlock R ;;
    node <- setProp "block" (VNode block) node ;;
    finishNode node None
  else
    inOrOf <- andM isCurrentTokenVLC
                (lookAhead truthyBool
                   (nextToken ;;;
                    isIdentifier <- onScanner Scanner.isIdentifier ;;
                    if negb isIdentifier then ret false
                    else
                      nextToken ;;;
                      t <- gets token ;;
                      ret (kind_eqb t InKeyword || kind_eqb t OfKeyword))) ;;
    if inOrOf then
      node <- createNode Unknown (Some pos) ;;
      t <- gets token ;;
      node <- setProp "vlc" (VKind t) node ;;
      identifier <- parseIdentifier ;;
      node <- setProp "identifier" (VNode identifier) node ;;
      t <- gets token ;;
      node <- (if kind_eqb t InKeyword then
                 node <- setProp "kind" (VKind ForInStatement) node ;;
                 nextToken ;;;
                 expression <- r_parseExpression R ;;
                 setProp "expression" (VNode expression) node
               else
                 node <- setProp "kind" (VKind ForOfStatement) node ;;
                 nextToken ;;;
                 expression <- r_parseConnectExp R ;;
                 setProp "expression" (VNode expression) node) ;;
      block <- r_parseBlock R ;;
      node <- setProp "block" (VNode block) node ;;
      finishNode node None
    else
      node <- createNode ForStatement (Some pos) ;;
      walrus <- r_tryParseWalrusDeclaration R false ;;
      variableDeclaration <- headerDeclaration walrus ;;
      t <- gets token ;;
      node <- (if negb (kind_eqb t SemicolonToken) then
                 match variableDeclaration with
                 | Some d => setProp "initializer" (VNode d) node
                 | None =>
                     expression <- r_parseExpression R ;;
                     setProp "initializer" (VNode expression) node
                 end
               else ret node) ;;
      node <- match variableDeclaration with
              | Some _ =>
                  condition <- r_parseExpression R ;;
                  node <- setProp "condition" (VNode condition) node ;;
                  parseSemicolon ;;;
                  t <- gets token ;;
                  if negb (kind_eqb t OpenBraceToken) then
                    incrementor <- r_parseExpression R ;;
                    setProp "incrementor" (VNode incrementor) node
                  else ret node
              | None =>
                  second <- parseOptional SemicolonToken ;;
                  if second then
                    condition <- r_parseExpression R ;;
                    node <- setProp "condition" (VNode condition) node ;;
                    parseSemicolon ;;;
                    t <- gets token ;;
                    if negb (kind_eqb t OpenBraceToken) then
                      incrementor <- r_parseExpression R ;;
                      setProp "incrementor" (VNode incrementor) node
                    else ret node
                  else
                    initializer <- getProp "initializer" node ;;
                    node <- setProp "condition"
                              (match initializer with
                               | Some v => v
                               | None => VNode JsUndefined
                               end) node ;;
                    setProp "initializer" (VNode JsUndefined) node
              end ;;
      block <- r_parseBlock R ;;
      node <- setProp "block" (VNode block) node ;;
      finishNode node None.

Definition parseSwitchStatement : P Node :=
  node <- createNode SwitchStatement None ;;
  parseExpected SwitchKeyword ;;;
  walrus <- r_tryParseWalrusDeclaration R false ;;
  variableDeclaration <- headerDeclaration walrus ;;
  node <- match variableDeclaration with
          | Some d => setProp "variableDeclaration" (VNode d) node
          | None => ret node
          end ;;
  expression <- r_parseExpression R ;;
  node <- setProp "expression" (VNode expression) node ;;
  caseBlock <- createNode CaseBlock None ;;
  parseExpected OpenBraceToken ;;;
  clauses <- r_parseList R ParsingContext.SwitchClauses
               ParseCaseOrDefaultClause ;;
  caseBlock <- setProp "clauses" (VList clauses) caseBlock ;;
  parseExpected CloseBraceToken ;;;
  caseBlock <- finishNode caseBlock None ;;
  node <- setProp "caseBlock" (VNode caseBlock) node ;;
  finishNode node None.

Definition parseCaseOrDefaultClause : P Node :=
  t <- gets token ;;
  if kind_eqb t CaseKeyword then r_parseCaseClause R
  else r_parseDefaultClause R.

Definition parseCaseClause : P Node :=
  node <- createNode CaseClause None ;;
  parseExpected CaseKeyword ;;;
  expression <- r_parseExpression R ;;
  node <- setProp "expression" (VNode expression) node ;;
  parseExpected ColonToken ;;;
  statements <- r_parseList R ParsingContext.SwitchClauseStatements
                  ParseStatement ;;
  node <- setProp "statements" (VList statements) node ;;
  finishNode node None.

Definition parseDefaultClause : P Node :=
  node <- createNode DefaultClause None ;;
  parseExpected DefaultKeyword ;;;
  parseExpected ColonToken ;;;
  statements <- r_parseList R ParsingContext.SwitchClauseStatements
                  ParseStatement ;;
  node <- setProp "statements" (VList statements) node ;;
  finishNode node None.

Definition parseTryStatement : P Node :=
  node <- createNode TryStatement None ;;
  parseExpected TryKeyword ;;;
  tryBlock <- r_parseBlock R ;;
  node <- setProp "tryBlock" (VNode tryBlock) node ;;
  t <- gets token ;;
  catchClause <- (if kind_eqb t CatchKeyword then r_parseCatchClause R
                  else ret JsUndefined) ;;
  node <- setProp "catchClause" (VNode catchClause) node ;;
  t <- gets token ;;
  node <- (if negb (truthyNode catchClause) || kind_eqb t FinallyKeyword then
             parseExpected FinallyKeyword ;;;
             finallyBlock <- r_parseBlock R ;;
             setProp "finallyBlock" (VNode finallyBlock) node
           else ret node) ;;
  finishNode node None.

Definition parseCatchClause : P Node :=
  result <- createNode CatchClause None ;;
  parseExpected CatchKeyword ;;;
  t <- gets token ;;
  result <- (if negb (kind_eqb t OpenBraceToken) then
               identifier <- parseIdentifier ;;
               setProp "identifier" (VNode identifier) result
             else ret result) ;;
  block <- r_parseBlock R ;;
  result <- setProp "block" (VNode block) result ;;
  finishNode result None.

(** The [while (true)] over the targets of [parseUsingStatement]. *)
Definition parseUsingTargets (targetList : list Node) : P (list Node) :=
  t <- gets token ;;
  if kind_eqb t OpenBraceToken then ret targetList
  else
    isIdentifier <- onScanner Scanner.isIdentifier ;;
    target <- (if isIdentifier then
                 walrus <- r_tryParseWalrusDeclaration R true ;;
                 match walrus with
                 | Some declaration => ret declaration
                 | None => parseIdentifier
                 end
               else r_parseVariableDeclarationWithoutModifiers R true None) ;;
    let targetList := targetList ++ [target] in
    more <- parseOptional SemicolonToken ;;
    if negb more then ret targetList
    else r_parseUsingTargets R targetList.

Definition parseUsingStatement : P Node :=
  node <- createNode UsingStatement None ;;
  parseExpected UsingKeyword ;;;
  targetListPos <- onScanner Scanner.startPos ;;
  targetList <- r_parseUsingTargets R [] ;;
  usingTargets <- createNodeList targetList targetListPos None ;;
  node <- setProp "usingTargets" (VList usingTargets) node ;;
  block <- r_parseBlock R ;;
  node <- setProp "block" (VNode block) node ;;
  finishNode node None.

(** [None] is the [false] of the source.  [binding.parent = node] is the
    one assignment of a back-reference; it is left out with [parent]. *)
Definition tryParseWalrusDeclaration (notParseSemicolon : bool)
  : P (option Node) :=
  isIdentifier <- onScanner Scanner.isIdentifier ;;
  if negb isIdentifier then ret None
  else
    notWalrus <- lookAhead truthyBool
                   (nextToken ;;;
                    t <- gets token ;;
                    ret (negb (kind_eqb t ColonEqualsToken))) ;;
    if notWalrus then ret None
    else
      node <- createNode VariableDeclaration None ;;
      node <- setProp "isWalrus" (VBool true) node ;;
      pos <- onScanner Scanner.startPos ;;
      binding <- createNode VariableBinding None ;;
      name <- parseIdentifier ;;
      binding <- setProp "name" (VNode name) binding ;;
      parseExpected ColonEqualsToken ;;;
      initializer <- r_parseConnectExp R ;;
      binding <- setProp "initializer" (VNode initializer) binding ;;
      binding <- finishNode binding None ;;
      declarations <- createNodeList [binding] pos None ;;
      node <- setProp "declarations" (VList declarations) node ;;
      (if negb notParseSemicolon then parseSemicolon else ret false) ;;;
      node <- finishNode node None ;;
      ret (Some node).

(** The [while (parseOptionalToken(CommaToken))] of [parseExpression]. *)
Definition parseExpressionRest (expr : Node) : P Node :=
  comma <- parseOptionalToken CommaToken ;;
  if negb (truthyNode comma) then ret expr
  else
    let left := expr in
    pos <- readPos expr ;;
    expr <- createNode CommaExpression pos ;;
    expr <- setProp "left" (VNode left) expr ;;
    right <- r_parseConnectExp R ;;
    expr <- setProp "right" (VNode right) expr ;;
    expr <- finishNode expr None ;;
    r_parseExpressionRest R expr.

Definition parseExpression : P Node :=
  expr <- r_parseConnectExp R ;;
  r_parseExpressionRest R expr.

(** The [while (parseOptionalToken(MinusGreaterThanToken))] of
    [parseConnectExp]. *)
Definition parseConnectExpRest (expr : Node) : P Node :=
  arrow <- parseOptionalToken MinusGreaterThanToken ;;
  if negb (truthyNode arrow) then ret expr
  else
    let left := expr in
    pos <- readPos expr ;;
    expr <- createNode ConnectionExpression pos ;;
    expr <- setProp "left" (VNode left) expr ;;
    right <- r_parseAssignExp R ;;
    expr <- setProp "right" (VNode right) expr ;;
    expr <- finishNode expr None ;;
    r_parseConnectExpRest R expr.

Definition parseConnectExp : P Node :=
  expr <- r_parseAssignExp R ;;
  r_parseConnectExpRest R expr.

Definition isLeftHandExp (node : Node) : P bool :=
  kind <- readKind node ;;
  ret (match kind with
       | Some PropertyAccessExpression
       | Some ElementAccessExpression
       | Some NewExpression
       | Some NewTargetExpression
       | Some CallExpression
       | Some TaggedTemplateExpression
       | Some ArrayLiteralExpression
       | Some ParenthesizedExpression
       | Some ObjectLiteralExpression
       | Some ClassExpression
       | Some FunctionExpression
       | Some NodeExpression
       | Some Identifier
       | Some NumericLiteral
       | Some StringLiteral
       | Some FalseKeyword
       | Some NullKeyword
       | Some ThisKeyword
       | Some TrueKeyword
       | Some SuperKeyword
       | Some ImportKeyword => true
       | _ => false
       end).

(** [isAssignOp(t)] tests the variable [token], not its argument. *)
Definition isAssignOp (t : SyntaxKind) : P bool :=
  token <- gets token ;;
  ret ((kindCode token >=? kindCode SyntaxKindMarker.FirstAssignment)
       && (kindCode token <=? kindCode SyntaxKindMarker.LastAssignment)).

Definition reScanGreaterToken : P SyntaxKind :=
  fun st =>
    let sc := Scanner.reScanGreaterToken (scanner st) in
    Ok (Scanner.token sc) (set_token (Scanner.token sc) (set_scanner sc st)).

Definition makeAssignmentExpression (left operatorToken right : Node) : P Node :=
  node <- createNode AssignmentExpression None ;;
  node <- setProp "left" (VNode left) node ;;
  node <- setProp "operatorToken" (VNode operatorToken) node ;;
  node <- setProp "right" (VNode right) node ;;
  finishNode node None.

Definition nextTokenIsOpenParenOrDot : P bool :=
  t <- nextToken ;;
  ret (match t with
       | OpenParenToken | DotToken => true
       | _ => false
       end).

Definition isStartOfLeftHandExp : P bool :=
  t <- gets token ;;
  match t with
  | ThisKeyword | SuperKeyword | NullKeyword | TrueKeyword | FalseKeyword
  | NumericLiteral | StringLiteral | OpenParenToken | OpenBracketToken
  | OpenBraceToken | FunctionKeyword | ClassKeyword | NodeKeyword
  | SubnetKeyword | NewKeyword | Identifier => ret true
  | ImportKeyword => lookAhead truthyBool nextTokenIsOpenParenOrDot
  | _ => onScanner Scanner.isIdentifier
  end.

Definition isStartOfExpression : P bool :=
  start <- isStartOfLeftHandExp ;;
  if start then ret true
  else
    t <- gets token ;;
    match t with
    | PlusPlusToken | MinusMinusToken | DeleteKeyword | VoidKeyword
    | TypeOfKeyword | AwaitKeyword | PlusToken | MinusToken | TildeToken
    | ExclamationToken | LessThanToken | YieldKeyword | AsyncKeyword =>
        ret true
    | _ => onScanner Scanner.isIdentifier
    end.

Definition parseAssignExp : P Node :=
  t <- gets token ;;
  if kind_eqb t YieldKeyword then r_parseYieldExpression R
  else
    arrow <-
      orM (andM (tokenIs AsyncKeyword)
             (lookAhead truthyBool
                (next <- nextToken ;;
                 t <- gets token ;;
                 ret (truthyKind next
                      && negb (kind_eqb t FunctionKeyword)
                      && negb (kind_eqb t NodeKeyword)
                      && negb (kind_eqb t SubnetKeyword)))))
      (orM (andM (onScanner Scanner.isIdentifier)
              (lookAhead truthyBool
                 (next <- nextToken ;;
                  ret (kind_eqb next EqualsGreaterThanToken))))
      (orM (andM (tokenIs LessThanToken)
              (lookAhead truthyBool
                 (r_isStartOfArrowFunctionWithCallSignature R)))
           (lookAhead truthyBool (r_isStartOfParenthesizedArrowFunction R)))) ;;
    if arrow then r_parseArrowFunction R
    else
      expr <- r_parseBinaryExp R 0 ;;
      assignment <- andM (isLeftHandExp expr)
                      (t <- reScanGreaterToken ;; isAssignOp t) ;;
      if assignment then
        operatorToken <- parseTokenNode ;;
        right <- r_parseAssignExp R ;;
        makeAssignmentExpression expr operatorToken right
      else r_parseConditionalExpRest R expr.

Definition parseConditionalExpRest (expr : Node) : P Node :=
  question <- parseOptional QuestionToken ;;
  if negb question then ret expr
  else
    pos <- readPos expr ;;
    node <- createNode ConditionalExpression pos ;;
    node <- setProp "condition" (VNode expr) node ;;
    whenTrue <- r_parseAssignExp R ;;
    node <- setProp "whenTrue" (VNode whenTrue) node ;;
    parseExpected ColonToken ;;;
    whenFalse <- r_parseAssignExp R ;;
    node <- setProp "whenFalse" (VNode whenFalse) node ;;
    finishNode node None.

Definition parseYieldExpression : P Node :=
  node <- createNode YieldExpression None ;;
  nextToken ;;;
  t <- gets token ;;
  node <- (if kind_eqb t AsteriskToken then
             nextToken ;;;
             setProp "hasAsterisk" (VBool true) node
           else setProp "hasAsterisk" (VBool false) node) ;;
  start <- isStartOfExpression ;;
  node <- (if start then
             expression <- r_parseAssignExp R ;;
             setProp "expression" (VNode expression) node
           else ret node) ;;
  finishNode node None.

Definition canBeType (t : SyntaxKind) : bool :=
  match t with
  | AnyKeyword | UnknownKeyword | NumberKeyword | BigIntKeyword
  | ObjectKeyword | BooleanKeyword | StringKeyword | SymbolKeyword
  | ThisKeyword | VoidKeyword | UndefinedKeyword | NullKeyword
  | NeverKeyword => true
  | _ => false
  end.

Definition parseType : P Node :=
  t <- gets token ;;
  if negb (canBeType t) then
    error "Type literal expected." ;;;
    node <- createNode UnknownKeyword None ;;
    finishNode node None
  else
    node <- createNode t None ;;
    nextToken ;;;
    finishNode node None.

Definition parseArrowFunction : P Node :=
  node <- createNode ArrowFunction None ;;
  isAsync <- parseOptional AsyncKeyword ;;
  node <- setProp "isAsync" (VBool isAsync) node ;;
  isIdentifier <- onScanner Scanner.isIdentifier ;;
  node <- (if isIdentifier then
             singleParameter <- createNode Parameter_ None ;;
             name <- parseIdentifier ;;
             singleParameter <- setProp "name" (VNode name) singleParameter ;;
             singleParameter <- finishNode singleParameter None ;;
             pos <- readPos singleParameter ;;
             parameters <- createNodeList [singleParameter]
                             (match pos with Some p => p | None => 0 end)
                             None ;;
             setProp "parameters" (VList parameters) node
           else r_addCallSignature R node) ;;
  equalsGreaterThanToken <- parseExpectedToken EqualsGreaterThanToken ;;
  equalsGreaterThanToken <-
    (if negb (truthyNode equalsGreaterThanToken) then
       error "expected =>" ;;;
       created <- createNode EqualsGreaterThanToken None ;;
       finishNode created None
     else ret equalsGreaterThanToken) ;;
  node <- setProp "equalsGreaterThanToken" (VNode equalsGreaterThanToken) node ;;
  t <- gets token ;;
  body <- (if kind_eqb t OpenBraceToken then r_parseBlock R
           else r_parseConnectExp R) ;;
  node <- setProp "body" (VNode body) node ;;
  finishNode node None.

Definition addCallSignature (node : Node) : P Node :=
  t <- gets token ;;
  node <- (if kind_eqb t LessThanToken then
             typeParameters <- r_parseTypeParameters R ;;
             setProp "typeParameters" (optionalList typeParameters) node
           else ret node) ;;
  parseExpected OpenParenToken ;;;
  parameters <- r_parseDelimitedList R ParsingContext.Parameters
                  ParseParameter ;;
  node <- setProp "parameters" (VList parameters) node ;;
  parseExpected CloseParenToken ;;;
  colon <- parseOptional ColonToken ;;
  if colon then
    type <- parseType ;;
    setProp "type" (VNode type) node
  else ret node.

Definition parseParameter : P Node :=
  node <- createNode Parameter_ None ;;
  t <- gets token ;;
  node <- (if kind_eqb t ThisKeyword then
             idThis <- createNode Identifier None ;;
             tokenValue <- onScanner Scanner.tokenValue ;;
             idThis <- setProp "text" (VText tokenValue) idThis ;;
             idThis <- setProp "originalKeywordKind" (VKind t) idThis ;;
             nextToken ;;;
             idThis <- finishNode idThis None ;;
             setProp "name" (VNode idThis) node
           else
             name <- parseIdentifier ;;
             setProp "name" (VNode name) node) ;;
  questionToken <- parseOptionalToken QuestionToken ;;
  node <- setProp "questionToken" (VNode questionToken) node ;;
  colon <- parseOptional ColonToken ;;
  node <- (if colon then
             type <- parseType ;;
             setProp "type" (VNode type) node
           else ret node) ;;
  equals <- parseOptional EqualsToken ;;
  node <- (if equals then
             initializer <- r_parseConnectExp R ;;
             setProp "initializer" (VNode initializer) node
           else ret node) ;;
  finishNode node None.

(** The [while (true)] of [isStartOfParenthesizedArrowFunction]: [true]
    when it is left by [break], [false] when it returns [false]. *)
Definition balanceParentheses (paren : Z) : P bool :=
  t <- nextToken ;;
  match t with
  | OpenParenToken =>
      let paren := paren + 1 in
      if paren =? 0 then nextToken ;;; ret true
      else r_balanceParentheses R paren
  | CloseParenToken =>
      let paren := paren - 1 in
      if paren =? 0 then nextToken ;;; ret true
      else r_balanceParentheses R paren
  | EndOfFileToken =>
      error "Unmatched parentheses" ;;;
      ret false
  | _ => r_balanceParentheses R paren
  end.

Definition isStartOfParenthesizedArrowFunction : P bool :=
  t <- gets token ;;
  if negb (kind_eqb t OpenParenToken) then ret false
  else
    balanced <- r_balanceParentheses R 1 ;;
    if negb balanced then ret false
    else
      orM (andM (tokenIs ColonToken)
             (andM (next <- nextToken ;; ret (canBeType next))
                   (next <- nextToken ;;
                    ret (kind_eqb next EqualsGreaterThanToken))))
          (tokenIs EqualsGreaterThanToken).

(** The [while (true)] of [isStartOfArrowFunctionWithCallSignature]. *)
Definition balanceAngleBrackets (angleBracket : Z) : P bool :=
  t <- nextToken ;;
  match t with
  | LessThanToken =>
      let angleBracket := angleBracket + 1 in
      if angleBracket =? 0 then nextToken ;;; ret true
      else r_balanceAngleBrackets R angleBracket
  | GreaterThanToken =>
      let angleBracket := angleBracket - 1 in
      if angleBracket =? 0 then nextToken ;;; ret true
      else r_balanceAngleBrackets R angleBracket
  | EndOfFileToken =>
      error "Unmatched angle bracket" ;;;
      ret false
  | _ => r_balanceAngleBrackets R angleBracket
  end.

Definition isStartOfArrowFunctionWithCallSignature : P bool :=
  lessThan <- parseOptional LessThanToken ;;
  if negb lessThan then ret false
  else
    balanced <- r_balanceAngleBrackets R 1 ;;
    if negb balanced then ret false
    else r_isStartOfParenthesizedArrowFunction R.

Definition parseBinaryExp (precedence : Z) : P Node :=
  leftOperand <- r_parseUnaryExp R ;;
  r_parseBinaryExpRest R precedence leftOperand.

Definition getBinaryOperatorPrecedence (kind : SyntaxKind) : Z :=
  match kind with
  | QuestionQuestionToken => 4
  | BarBarToken => 5
  | AmpersandAmpersandToken => 6
  | BarToken => 7
  | CaretToken => 8
  | AmpersandToken => 9
  | EqualsEqualsToken | ExclamationEqualsToken | EqualsEqualsEqualsToken
  | ExclamationEqualsEqualsToken => 10
  | LessThanToken | GreaterThanToken | LessThanEqualsToken
  | GreaterThanEqualsToken | InstanceOfKeyword | InKeyword | AsKeyword => 11
  | LessThanLessThanToken | GreaterThanGreaterThanToken
  | GreaterThanGreaterThanGreaterThanToken => 12
  | PlusToken | MinusToken => 13
  | AsteriskToken | SlashToken | PercentToken => 14
  | AsteriskAsteriskToken => 15
  | _ => -1
  end.

Definition makeAsExpression (left operatorToken right : Node) : P Node :=
  pos <- readPos left ;;
  node <- createNode AsExpression pos ;;
  node <- setProp "left" (VNode left) node ;;
  node <- setProp "operatorToken" (VNode operatorToken) node ;;
  node <- setProp "right" (VNode right) node ;;
  finishNode node None.

Definition makeBinaryExpression (left operatorToken right : Node) : P Node :=
  pos <- readPos left ;;
  node <- createNode BinaryExpression pos ;;
  node <- setProp "left" (VNode left) node ;;
  node <- setProp "operatorToken" (VNode operatorToken) node ;;
  node <- setProp "right" (VNode right) node ;;
  finishNode node None.

(** One turn of the [while (true)] of [parseBinaryExpRest]. *)
Definition parseBinaryExpRest (precedence : Z) (leftOperand : Node) : P Node :=
  reScanGreaterToken ;;;
  t <- gets token ;;
  let newPrecedence := getBinaryOperatorPrecedence t in
  let consumeCurrentOperator :=
    if kind_eqb t AsteriskAsteriskToken
    then newPrecedence >=? precedence
    else newPrecedence >? precedence in
  if negb consumeCurrentOperator then ret leftOperand
  else
    leftOperand <-
      (if kind_eqb t AsKeyword then
         operatorToken <- parseTokenNode ;;
         right <- parseType ;;
         makeAsExpression leftOperand operatorToken right
       else
         operatorToken <- parseTokenNode ;;
         right <- r_parseBinaryExp R newPrecedence ;;
         makeBinaryExpression leftOperand operatorToken right) ;;
    r_parseBinaryExpRest R precedence leftOperand.

Definition parseUnaryExp : P Node :=
  t <- gets token ;;
  match t with
  | DeleteKeyword | VoidKeyword | TypeOfKeyword | AwaitKeyword
  | PlusToken | MinusToken | TildeToken | ExclamationToken =>
      node <- createNode PrefixUnaryExpression None ;;
      node <- setProp "operator" (VKind t) node ;;
      nextToken ;;;
      operand <- r_parseUnaryExp R ;;
      node <- setProp "operand" (VNode operand) node ;;
      finishNode node None
  | LessThanToken => r_parseTypeAssertion R
  | _ => r_parseUpdateExp R
  end.

Definition parseTypeAssertion : P Node :=
  node <- createNode TypeAssertionExpression None ;;
  parseExpected LessThanToken ;;;
  type <- parseType ;;
  node <- setProp "type" (VNode type) node ;;
  parseExpected GreaterThanToken ;;;
  operand <- r_parseUnaryExp R ;;
  node <- setProp "operand" (VNode operand) node ;;
  finishNode node None.

Definition parseUpdateExp : P Node :=
  t <- gets token ;;
  if kind_eqb t PlusPlusToken || kind_eqb t MinusMinusToken then
    node <- createNode PrefixUpdateExpression None ;;
    node <- setProp "operator" (VKind t) node ;;
    nextToken ;;;
    operand <- r_parseUnaryExp R ;;
    node <- setProp "operand" (VNode operand) node ;;
    finishNode node None
  else
    expr <- r_parseLeftHandExp R ;;
    leftHand <- isLeftHandExp expr ;;
    assert leftHand ;;;
    t <- gets token ;;
    if kind_eqb t PlusPlusToken || kind_eqb t MinusMinusToken then
      pos <- readPos expr ;;
      node <- createNode PostfixUpdateExpression pos ;;
      node <- setProp "operand" (VNode expr) node ;;
      node <- setProp "operator" (VKind t) node ;;
      nextToken ;;;
      finishNode node None
    else ret expr.

Definition parseLeftHandExp : P Node :=
  expr <- r_parseMemberExp R ;;
  r_parseCallExpRest R expr.

Definition parseMemberExp : P Node :=
  newTarget <-
    andM (tokenIs NewKeyword)
      (lookAhead truthyBool
         (andM (next <- nextToken ;; ret (kind_eqb next DotToken))
            (andM (next <- nextToken ;; ret (truthyKind next))
               (tokenValue <- onScanner Scanner.tokenValue ;;
                ret (match tokenValue with
                     | Str s => jsstring_eqb s (js "target")
                     | _ => false
                     end))))) ;;
  if newTarget then
    node <- createNode NewTargetExpression None ;;
    nextToken ;;;
    nextToken ;;;
    nextToken ;;;
    finishNode node None
  else
    expr <- r_parsePrimaryExp R ;;
    r_parseMemberExpRest R expr.

(** The callback of the [lookAhead] in [parseMemberExpRest]: it returns
    nothing and assigns [isAccess], [isPropertyAccess], [isOptionalChain]. *)
Definition classifyAccess : P (bool * bool * bool) :=
  t <- gets token ;;
  if kind_eqb t DotToken then
    property <- andM (next <- nextToken ;; ret (truthyKind next))
                     (onScanner Scanner.isIdentifier) ;;
    ret (property, property, false)
  else if kind_eqb t OpenBracketToken then ret (true, false, false)
  else if kind_eqb t QuestionDotToken then
    nextToken ;;;
    t <- gets token ;;
    if kind_eqb t OpenBracketToken then ret (true, false, true)
    else if kind_eqb t Identifier then ret (true, true, true)
    else ret (false, false, true)
  else ret (false, false, false).

(** One turn of the [while (true)] of [parseMemberExpRest]. *)
Definition parseMemberExpRest (expr : Node) : P Node :=
  '(isAccess, isPropertyAccess, isOptionalChain) <-
     lookAhead (fun _ => false) classifyAccess ;;
  if negb isAccess then ret expr
  else if isPropertyAccess then
    pos <- readPos expr ;;
    node <- createNode PropertyAccessExpression pos ;;
    node <- setProp "expression" (VNode expr) node ;;
    questionDotToken <- (if isOptionalChain
                         then parseOptionalToken QuestionDotToken
                         else nextToken ;;; ret JsUndefined) ;;
    node <- setProp "questionDotToken" (VNode questionDotToken) node ;;
    name <- parseIdentifier ;;
    node <- setProp "name" (VNode name) node ;;
    expr <- finishNode node None ;;
    r_parseMemberExpRest R expr
  else
    pos <- readPos expr ;;
    node <- createNode ElementAccessExpression pos ;;
    node <- setProp "expression" (VNode expr) node ;;
    questionDotToken <- (if isOptionalChain
                         then parseOptionalToken QuestionDotToken
                         else ret JsUndefined) ;;
    node <- setProp "questionDotToken" (VNode questionDotToken) node ;;
    nextToken ;;;
    argumentExpression <- r_parseExpression R ;;
    node <- setProp "argumentExpression" (VNode argumentExpression) node ;;
    parseExpected CloseBracketToken ;;;
    expr <- finishNode node None ;;
    r_parseMemberExpRest R expr.

(** One turn of the [while (true)] of [parseCallExpRest]. *)
Definition parseCallExpRest (expr : Node) : P Node :=
  expr <- r_parseMemberExpRest R expr ;;
  questionDotToken <- parseOptionalToken QuestionDotToken ;;
  let noCall :=
    (if truthyNode questionDotToken then error "Identifier expected."
     else ret tt) ;;;
    ret expr in
  t <- gets token ;;
  if kind_eqb t LessThanToken then
    typeArguments <- tryParse truthyOption (r_parseTypeArgumentsInExpression R) ;;
    match typeArguments with
    | Some typeArguments =>
        pos <- readPos expr ;;
        callExpr <- createNode CallExpression pos ;;
        callExpr <- setProp "expression" (VNode expr) callExpr ;;
        callExpr <- setProp "questionDotToken" (VNode questionDotToken) callExpr ;;
        callExpr <- setProp "typeArguments" (VList typeArguments) callExpr ;;
        arguments <- r_parseArguments R ;;
        callExpr <- setProp "arguments" (VNode arguments) callExpr ;;
        expr <- finishNode callExpr None ;;
        r_parseCallExpRest R expr
    | None => noCall
    end
  else if kind_eqb t OpenParenToken then
    pos <- readPos expr ;;
    callExpr <- createNode CallExpression pos ;;
    callExpr <- setProp "expression" (VNode expr) callExpr ;;
    callExpr <- setProp "questionDotToken" (VNode questionDotToken) callExpr ;;
    arguments <- r_parseArguments R ;;
    callExpr <- setProp "arguments" (VNode arguments) callExpr ;;
    expr <- finishNode callExpr None ;;
    r_parseCallExpRest R expr
  else noCall.

Definition parseTypeArgumentsInExpression : P (option (NodeList Node)) :=
  lessThan <- parseOptional LessThanToken ;;
  if negb lessThan then ret None
  else
    typeArguments <- r_parseTypeArgumentList R false ;;
    match typeArguments with
    | None => ret None
    | Some typeArguments =>
        greaterThan <- parseOptional GreaterThanToken ;;
        if negb greaterThan then ret None
        else
          t <- gets token ;;
          if negb (kind_eqb t OpenParenToken) then ret None
          else ret (Some typeArguments)
    end.

Definition parseArguments : P Node :=
  node <- createNode Arguments None ;;
  parseExpected OpenParenToken ;;;
  args <- r_parseDelimitedList R ParsingContext.ArgumentExpressions
            ParseArgument ;;
  node <- setProp "list" (VList args) node ;;
  parseExpected CloseParenToken ;;;
  finishNode node None.

Definition parseArgument : P Node :=
  t <- gets token ;;
  if kind_eqb t DotDotDotToken then
    node <- createNode SpreadExpression None ;;
    nextToken ;;;
    expression <- r_parseConnectExp R ;;
    node <- setProp "expression" (VNode expression) node ;;
    finishNode node None
  else r_parseConnectExp R.

(** The literal of [parsePrimaryExp] and [parseObjectDefinition]. *)
Definition parseLiteral : P Node :=
  t <- gets token ;;
  node <- createNode t None ;;
  tokenText <- onScanner Scanner.tokenText ;;
  node <- setProp "text" (VText (Str tokenText)) node ;;
  node <- (if kind_eqb t NumericLiteral then
             tokenFlags <- onScanner Scanner.tokenFlags ;;
             setProp "numericLiteralFlags" (VNum tokenFlags) node
           else ret node) ;;
  nextToken ;;;
  finishNode node None.

(** [return undefined as any] *)
Definition parseClassExpression : P Node := ret JsUndefined.

Definition parsePrimaryExp : P Node :=
  t <- gets token ;;
  match t with
  | NumericLiteral | StringLiteral => parseLiteral
  | ThisKeyword | SuperKeyword | NullKeyword | TrueKeyword | FalseKeyword
  | ImportKeyword => parseTokenNode
  | OpenParenToken => r_parseParenthesizedExpression R
  | OpenBracketToken => r_parseArrayLiteralExpression R
  | OpenBraceToken => r_parseObjectLiteralExpression R
  | ClassKeyword => parseClassExpression
  | FunctionKeyword => r_parseFunctionExpressionWithoutModifiers R None
  | NodeKeyword | SubnetKeyword =>
      start <- r_isStartOfNode_ R ;;
      if negb start then parseIdentifier
      else r_parseNodeExpressionWithoutModifiers R None
  | AsyncKeyword =>
      next <- lookAhead truthyKind nextToken ;;
      if kind_eqb next FunctionKeyword then
        pos <- onScanner Scanner.startPos ;;
        modifier <- parseTokenNode ;;
        modifiers <- createNodeList [modifier] pos None ;;
        node <- createNode FunctionExpression (Some pos) ;;
        node <- setProp "modifiers" (VList modifiers) node ;;
        r_parseFunctionExpressionWithoutModifiers R (Some node)
      else if kind_eqb next NodeKeyword || kind_eqb next SubnetKeyword then
        pos <- onScanner Scanner.startPos ;;
        modifier <- parseTokenNode ;;
        modifiers <- createNodeList [modifier] pos None ;;
        node <- createNode NodeExpression (Some pos) ;;
        node <- setProp "modifiers" (VList modifiers) node ;;
        r_parseNodeExpressionWithoutModifiers R (Some node)
      else parseIdentifier
  | _ => parseIdentifier
  end.

Definition parseParenthesizedExpression : P Node :=
  node <- createNode ParenthesizedExpression None ;;
  parseExpected OpenParenToken ;;;
  expression <- r_parseExpression R ;;
  node <- setProp "expression" (VNode expression) node ;;
  parseExpected CloseParenToken ;;;
  finishNode node None.

Definition parseArrayLiteralExpression : P Node :=
  node <- createNode ArrayLiteralExpression None ;;
  parseExpected OpenBracketToken ;;;
  members <- r_parseDelimitedList R ParsingContext.ArrayLiteralMembers
               ParseArrayElement ;;
  node <- setProp "elements" (VList members) node ;;
  parseExpected CloseBracketToken ;;;
  finishNode node None.

Definition parseArrayElement : P Node :=
  t <- gets token ;;
  if kind_eqb t DotDotDotToken then
    node <- createNode SpreadExpression None ;;
    nextToken ;;;
    expression <- r_parseConnectExp R ;;
    node <- setProp "expression" (VNode expression) node ;;
    finishNode node None
  else if negb (kind_eqb t CommaToken) then r_parseConnectExp R
  else createNode OmittedExpression None.

Definition parseObjectLiteralExpression : P Node :=
  node <- createNode ObjectLiteralExpression None ;;
  parseExpected OpenBraceToken ;;;
  properties <- r_parseDelimitedList R ParsingContext.ObjectLiteralMembers
                  ParseObjectDefinition ;;
  node <- setProp "properties" (VList properties) node ;;
  parseExpected CloseBraceToken ;;;
  finishNode node None.

Definition parseObjectDefinition : P Node :=
  node <- createNode Unknown None ;;
  spread <- parseOptional DotDotDotToken ;;
  if spread then
    node <- setProp "kind" (VKind SpreadExpression) node ;;
    expression <- r_parseConnectExp R ;;
    node <- setProp "expression" (VNode expression) node ;;
    finishNode node None
  else
    shorthand <- andM (tokenIs Identifier)
                   (lookAhead truthyBool
                      (next <- nextToken ;;
                       ret (negb (kind_eqb next ColonToken)))) ;;
    if shorthand then
      node <- setProp "kind" (VKind ShorthandPropertyAssignment) node ;;
      name <- parseIdentifier ;;
      node <- setProp "name" (VNode name) node ;;
      finishNode node None
    else
      node <- setProp "kind" (VKind PropertyAssignment) node ;;
      t <- gets token ;;
      node <-
        (if kind_eqb t OpenBracketToken then
           computedPropertyName <- createNode ComputedPropertyName None ;;
           nextToken ;;;
           expression <- r_parseConnectExp R ;;
           computedPropertyName <-
             setProp "expression" (VNode expression) computedPropertyName ;;
           parseExpected CloseBracketToken ;;;
           computedPropertyName <- finishNode computedPropertyName None ;;
           setProp "name" (VNode computedPropertyName) node
         else
           isIdentifier <- onScanner Scanner.isIdentifier ;;
           if isIdentifier then
             name <- parseIdentifier ;;
             setProp "name" (VNode name) node
           else if kind_eqb t StringLiteral || kind_eqb t NumericLiteral then
             literal <- parseLiteral ;;
             setProp "name" (VNode literal) node
           else
             error "Expect valid ObjectPropertyName." ;;;
             ret node) ;;
      parseExpected ColonToken ;;;
      initializer <- r_parseConnectExp R ;;
      node <- setProp "initializer" (VNode initializer) node ;;
      finishNode node None.

Definition parseNewExpression : P Node :=
  node <- createNode NewExpression None ;;
  parseExpected NewKeyword ;;;
  expression <- r_parseMemberExp R ;;
  node <- setProp "expression" (VNode expression) node ;;
  typeArguments <- tryParse truthyOption (r_parseTypeArgumentsInExpression R) ;;
  node <- match typeArguments with
          | Some l => setProp "typeArguments" (VList l) node
          | None => ret node
          end ;;
  arguments <- r_parseArguments R ;;
  node <- setProp "arguments" (VNode arguments) node ;;
  finishNode node None.

(** The [while (token !== GreaterThanToken)] of [parseTypeParameters];
    [None] when the function returns [undefined] from inside it. *)
Definition parseTypeParametersLoop (items : list Node)
  : P (option (list Node)) :=
  t <- gets token ;;
  if kind_eqb t GreaterThanToken then ret (Some items)
  else
    node <- createNode TypeParameter None ;;
    isIdentifier <- onScanner Scanner.isIdentifier ;;
    if negb isIdentifier then ret None
    else
      name <- parseIdentifier ;;
      node <- setProp "name" (VNode name) node ;;
      t <- gets token ;;
      constrained <-
        (if kind_eqb t ExtendsKeyword then
           nextToken ;;;
           t <- gets token ;;
           if negb (canBeType t) then ret None
           else
             constraint <- parseType ;;
             node <- setProp "constraint" (VNode constraint) node ;;
             ret (Some node)
         else ret (Some node)) ;;
      match constrained with
      | None => ret None
      | Some node =>
          node <- finishNode node None ;;
          let items := items ++ [node] in
          comma <- parseOptional CommaToken ;;
          if negb comma then ret (Some items)
          else r_parseTypeParametersLoop R items
      end.

Definition parseTypeParameters : P (option (NodeList Node)) :=
  lessThan <- parseOptional LessThanToken ;;
  if negb lessThan then ret None
  else
    listPos <- onScanner Scanner.startPos ;;
    items <- r_parseTypeParametersLoop R [] ;;
    match items with
    | None => ret None
    | Some items =>
        greaterThan <- parseOptional GreaterThanToken ;;
        if negb greaterThan then ret None
        else
          result <- createNodeList items listPos None ;;
          ret (Some result)
    end.

(** The [while (token !== listTerminator)] of [parseTypeArgumentList]. *)
Definition parseTypeArgumentListLoop (listTerminator : SyntaxKind)
    (items : list Node) : P (option (list Node)) :=
  t <- gets token ;;
  if kind_eqb t listTerminator then ret (Some items)
  else if negb (canBeType t) then ret None
  else
    type <- parseType ;;
    let items := items ++ [type] in
    comma <- parseOptional CommaToken ;;
    if negb comma then ret (Some items)
    else r_parseTypeArgumentListLoop R listTerminator items.

Definition parseTypeArgumentList (listTerminatorIsSemicolon : bool)
  : P (option (NodeList Node)) :=
  listPos <- onScanner Scanner.startPos ;;
  let listTerminator :=
    if listTerminatorIsSemicolon then SemicolonToken else GreaterThanToken in
  items <- r_parseTypeArgumentListLoop R listTerminator [] ;;
  match items with
  | None => ret None
  | Some items =>
      result <- createNodeList items listPos None ;;
      ret (Some result)
  end.

(** [opts] is the pair of [notParseSemicolon] and [node]. *)
Definition parseVariableDeclarationWithoutModifiers
    (notParseSemicolon : bool) (node : option Node) : P Node :=
  node <- match node with
          | Some node => ret node
          | None => createNode VariableDeclaration None
          end ;;
  vlc <- isCurrentTokenVLC ;;
  node <- (if negb vlc then
             error "var/let/const expected." ;;;
             setProp "vlc" (VKind LetKeyword) node
           else
             t <- gets token ;;
             node <- setProp "vlc" (VKind t) node ;;
             nextToken ;;;
             ret node) ;;
  node <- setProp "isWalrus" (VBool false) node ;;
  declarations <- r_parseDelimitedList R ParsingContext.VariableDeclarations
                    ParseVariableBinding ;;
  node <- setProp "declarations" (VList declarations) node ;;
  (if negb notParseSemicolon then parseExpected SemicolonToken
   else ret false) ;;;
  finishNode node None.

Definition parseVariableBinding : P Node :=
  node <- createNode VariableBinding None ;;
  name <- parseIdentifier ;;
  node <- setProp "name" (VNode name) node ;;
  equals <- parseOptional EqualsToken ;;
  node <- (if equals then
             initializer <- r_parseConnectExp R ;;
             setProp "initializer" (VNode initializer) node
           else ret node) ;;
  finishNode node None.

Definition parseFunctionExpressionWithoutModifiers (node : option Node)
  : P Node :=
  node <- match node with
          | Some node => ret node
          | None => createNode FunctionExpression None
          end ;;
  fn <- r_parseFunctionWithoutModifiers R node ;;
  body <- getProp "body" fn ;;
  (match body with
   | Some (VNode JsUndefined) | None =>
       error "Function expression must have body block."
   | Some _ => ret tt
   end) ;;;
  ret fn.

Definition parseFunctionWithoutModifiers (node : Node) : P Node :=
  parseExpected FunctionKeyword ;;;
  asteriskToken <- parseOptionalToken AsteriskToken ;;
  node <- setProp "asteriskToken" (VNode asteriskToken) node ;;
  isIdentifier <- onScanner Scanner.isIdentifier ;;
  node <- (if isIdentifier then
             name <- parseIdentifier ;;
             setProp "name" (VNode name) node
           else ret node) ;;
  node <- r_addCallSignature R node ;;
  t <- gets token ;;
  match t with
  | SemicolonToken =>
      nextToken ;;;
      finishNode node None
  | OpenBraceToken =>
      body <- r_parseBlock R ;;
      node <- setProp "body" (VNode body) node ;;
      finishNode node None
  | _ =>
      error "; or block expected." ;;;
      finishNode node None
  end.

(** The [while (true)] of [isStartOfNode_Worker]: [true] when it is left
    by [break], [false] when it returns [false]. *)
Definition isStartOfNode_Parentheses (paren : Z) : P bool :=
  t <- nextToken ;;
  match t with
  | EndOfFileToken => ret false
  | _ =>
      let paren :=
        match t with
        | OpenParenToken => paren + 1
        | CloseParenToken => paren - 1
        | _ => paren
        end in
      if paren =? 0 then ret true
      else r_isStartOfNode_Parentheses R paren
  end.

Definition isStartOfNode_Worker : P bool :=
  t <- gets token ;;
  if negb (kind_eqb t NodeKeyword) && negb (kind_eqb t SubnetKeyword)
  then ret false
  else
    nextToken ;;;
    isIdentifier <- onScanner Scanner.isIdentifier ;;
    t <- gets token ;;
    if isIdentifier || kind_eqb t OpenBraceToken then ret true
    else if kind_eqb t OpenParenToken then
      balanced <- r_isStartOfNode_Parentheses R 1 ;;
      if negb balanced then ret false
      else
        next <- nextToken ;;
        ret (kind_eqb next OpenBraceToken)
    else ret false.

Definition isStartOfNode_ : P bool :=
  lookAhead truthyBool (r_isStartOfNode_Worker R).

Definition parseNodeExpressionWithoutModifiers (node : option Node) : P Node :=
  node <- match node with
          | Some node => ret node
          | None => createNode NodeExpression None
          end ;;
  r_parseNode_WithoutModifiers R node.

Definition parseNode_WithoutModifiers (node : Node) : P Node :=
  t <- gets token ;;
  if negb (kind_eqb t NodeKeyword) && negb (kind_eqb t SubnetKeyword) then
    error "node or subnet expected." ;;;
    finishNode node None
  else
    node <- setProp "isSubnet" (VBool (kind_eqb t SubnetKeyword)) node ;;
    nextToken ;;;
    isIdentifier <- onScanner Scanner.isIdentifier ;;
    node <- (if isIdentifier then
               name <- parseIdentifier ;;
               setProp "name" (VNode name) node
             else ret node) ;;
    openParen <- parseOptional OpenParenToken ;;
    node <- (if openParen then
               parameters <- r_parseDelimitedList R ParsingContext.Parameters
                               ParseParameter ;;
               node <- setProp "parameters" (VList parameters) node ;;
               parseExpected CloseParenToken ;;;
               ret node
             else ret node) ;;
    nodeBlock <- createNode NodeBlock None ;;
    parseExpected OpenBraceToken ;;;
    statements <- r_parseList R ParsingContext.NodeBlock
                    ParseNodeStatement ;;
    nodeBlock <- setProp "statements" (VList statements) nodeBlock ;;
    parseExpected CloseBraceToken ;;;
    nodeBlock <- finishNode nodeBlock None ;;
    node <- setProp "nodeBlock" (VNode nodeBlock) node ;;
    finishNode node None.

Definition nextTokenIsColon : P bool :=
  next <- nextToken ;; ret (kind_eqb next ColonToken).

Definition parseNodeStatement : P Node :=
  state <- andM (tokenIs StateKeyword) (lookAhead truthyBool nextTokenIsColon) ;;
  if state then
    node <- createNode NodeStateDeclaration None ;;
    node <- setProp "kind" (VKind NodeStateDeclaration) node ;;
    nextToken ;;;
    nextToken ;;;
    expression <- r_parseAssignExp R ;;
    node <- setProp "expression" (VNode expression) node ;;
    parseSemicolon ;;;
    finishNode node None
  else
    t <- gets token ;;
    whichKind <-
      (if kind_eqb t Identifier then
         name <- onScanner Scanner.tokenValue ;;
         match name with
         | undefined =>
             throw (TypeError "Cannot read property 'charAt' of undefined")
         | NumberString _ _ => ret 0
         | Str name =>
             if jsstring_eqb name (js "$$")
                || (charCodeAt name 0 =? CharacterCodes.dollar) then
               colon <- lookAhead truthyBool nextTokenIsColon ;;
               if colon then
                 ret (if jsstring_eqb name (js "$$") then 1 else 2)
               else ret 0
             else ret 0
         end
       else ret 0) ;;
    if whichKind =? 0 then r_parseStatement R
    else if whichKind =? 1 then
      node <- createNode NodeAllPortTypeDeclaration None ;;
      nextToken ;;;
      nextToken ;;;
      types <- r_parseTypeArgumentList R true ;;
      (match types with
       | None => error "Expected list of type argument."
       | Some _ => ret tt
       end) ;;;
      node <- setProp "types" (optionalList types) node ;;
      parseSemicolon ;;;
      finishNode node None
    else
      node <- createNode NodePortTypeDeclaration None ;;
      portName <- parseIdentifier ;;
      node <- setProp "portName" (VNode portName) node ;;
      nextToken ;;;
      type <- parseType ;;
      node <- setProp "type" (VNode type) node ;;
      parseSemicolon ;;;
      finishNode node None.

(** One turn of the [while (true)] of [isDeclaration]. *)
Definition isDeclaration : P bool :=
  t <- gets token ;;
  match t with
  | VarKeyword | LetKeyword | ConstKeyword | FunctionKeyword | ClassKeyword
  | EnumKeyword => ret true
  | NodeKeyword | SubnetKeyword => r_isStartOfNode_ R
  | InterfaceKeyword | TypeKeyword =>
      nextToken ;;;
      onScanner Scanner.isIdentifier
  | NamespaceKeyword =>
      nextToken ;;;
      orM (onScanner Scanner.isIdentifier) (tokenIs StringLiteral)
  | AbstractKeyword | AsyncKeyword =>
      nextToken ;;;
      r_isDeclaration R
  | ImportKeyword =>
      nextToken ;;;
      orM (tokenIs StringLiteral)
        (orM (tokenIs AsteriskToken)
           (orM (tokenIs OpenBraceToken) (onScanner Scanner.isIdentifier)))
  | ExportKeyword =>
      nextToken ;;;
      t <- gets token ;;
      if kind_eqb t AsteriskToken || kind_eqb t OpenBraceToken
         || kind_eqb t DefaultKeyword
      then ret true
      else r_isDeclaration R
  | _ => ret false
  end.

Definition isStartOfDeclaration : P bool :=
  lookAhead truthyBool (r_isDeclaration R).

Definition parseDeclaration : P Node :=
  node <- createNode Unknown None ;;
  decorators <- r_parseDecorators R ;;
  modifiers <- r_parseModifiers R ;;
  node <- match decorators with
          | Some l => setProp "decorators" (VList l) node
          | None => ret node
          end ;;
  node <- match modifiers with
          | Some l => setProp "modifiers" (VList l) node
          | None => ret node
          end ;;
  r_parseDeclarationWorker R node.

(** The [while (true)] of [parseDecorators]; [None] is the unassigned
    [list]. *)
Definition parseDecoratorsLoop (items : option (list Node))
  : P (option (list Node)) :=
  decoratorStart <- onScanner Scanner.startPos ;;
  at_ <- parseOptional AtToken ;;
  if negb at_ then ret items
  else
    decorator <- createNode Decorator (Some decoratorStart) ;;
    expression <- r_parseLeftHandExp R ;;
    decorator <- setProp "expression" (VNode expression) decorator ;;
    decorator <- finishNode decorator None ;;
    r_parseDecoratorsLoop R
      (Some (match items with Some l => l | None => [] end ++ [decorator])).

Definition parseDecorators : P (option (NodeList Node)) :=
  listPos <- onScanner Scanner.startPos ;;
  items <- r_parseDecoratorsLoop R None ;;
  match items with
  | None => ret None
  | Some items =>
      result <- createNodeList items listPos None ;;
      ret (Some result)
  end.

Definition isModifierKind (token : SyntaxKind) : bool :=
  match token with
  | AbstractKeyword | AsyncKeyword | ConstKeyword | DefaultKeyword
  | ExportKeyword => true
  | _ => false
  end.

Definition nextTokenIsClassKeyword : P bool :=
  nextToken ;;;
  tokenIs ClassKeyword.

Definition nextTokenIsFunctionOrNodeOrSubnetKeyword : P bool :=
  nextToken ;;;
  t <- gets token ;;
  ret (kind_eqb t FunctionKeyword || kind_eqb t NodeKeyword
       || kind_eqb t SubnetKeyword).

Definition tokenCanFollowDefaultKeyword : P bool :=
  orM (tokenIs ClassKeyword)
    (orM (tokenIs FunctionKeyword)
       (orM (tokenIs NodeKeyword)
          (orM (tokenIs SubnetKeyword)
             (orM (andM (tokenIs AbstractKeyword)
                     (lookAhead truthyBool nextTokenIsClassKeyword))
                  (andM (tokenIs AsyncKeyword)
                     (lookAhead truthyBool
                        nextTokenIsFunctionOrNodeOrSubnetKeyword)))))).

Definition nextTokenIsIdentifier : P bool :=
  nextToken ;;;
  onScanner Scanner.isIdentifier.

Definition nextTokenIsIdentifierOrStringLiteral : P bool :=
  nextToken ;;;
  orM (onScanner Scanner.isIdentifier) (tokenIs StringLiteral).

Definition tokenCanFollowExportKeyword : P bool :=
  follows <- tokenCanFollowDefaultKeyword ;;
  if follows then ret true
  else
    orM (andM (tokenIs InterfaceKeyword)
           (lookAhead truthyBool nextTokenIsIdentifier))
      (orM (andM (tokenIs TypeKeyword)
              (lookAhead truthyBool nextTokenIsIdentifier))
         (orM (andM (tokenIs EnumKeyword)
                 (lookAhead truthyBool nextTokenIsIdentifier))
              (andM (tokenIs NamespaceKeyword)
                 (lookAhead truthyBool
                    nextTokenIsIdentifierOrStringLiteral)))).

Definition nextTokenCanFollowModifier : P bool :=
  t <- gets token ;;
  match t with
  | ConstKeyword =>
      next <- nextToken ;;
      ret (kind_eqb next EnumKeyword)
  | ExportKeyword =>
      nextToken ;;;
      t <- gets token ;;
      if kind_eqb t DefaultKeyword then
        lookAhead truthyBool (nextToken ;;; tokenCanFollowDefaultKeyword)
      else tokenCanFollowExportKeyword
  | DefaultKeyword =>
      nextToken ;;;
      tokenCanFollowDefaultKeyword
  | AbstractKeyword =>
      next <- nextToken ;;
      ret (kind_eqb next ClassKeyword)
  | AsyncKeyword =>
      nextToken ;;;
      t <- gets token ;;
      ret (kind_eqb t FunctionKeyword || kind_eqb t NodeKeyword
           || kind_eqb t SubnetKeyword)
  | _ => ret false
  end.

Definition parseAnyContextualModifier : P bool :=
  t <- gets token ;;
  if isModifierKind t then tryParse truthyBool nextTokenCanFollowModifier
  else ret false.

(** The [while (true)] of [parseModifiers]. *)
Definition parseModifiersLoop (items : option (list Node))
  : P (option (list Node)) :=
  modifierStart <- onScanner Scanner.startPos ;;
  modifierKind <- gets token ;;
  isModifier <- parseAnyContextualModifier ;;
  if negb isModifier then ret items
  else
    created <- createNode modifierKind (Some modifierStart) ;;
    modifier <- finishNode created None ;;
    r_parseModifiersLoop R
      (Some (match items with Some l => l | None => [] end ++ [modifier])).

Definition parseModifiers : P (option (NodeList Node)) :=
  listPos <- onScanner Scanner.startPos ;;
  items <- r_parseModifiersLoop R None ;;
  match items with
  | None => ret None
  | Some items =>
      result <- createNodeList items listPos None ;;
      ret (Some result)
  end.

(** [{} as any] is the object without properties. *)
Definition parseDeclarationWorker (node : Node) : P Node :=
  t <- gets token ;;
  match t with
  | VarKeyword | LetKeyword | ConstKeyword =>
      node <- setProp "kind" (VKind VariableDeclaration) node ;;
      r_parseVariableDeclarationWithoutModifiers R false (Some node)
  | FunctionKeyword =>
      node <- setProp "kind" (VKind FunctionDeclaration) node ;;
      r_parseFunctionWithoutModifiers R node
  | NodeKeyword | SubnetKeyword =>
      node <- setProp "kind" (VKind NodeDeclaration) node ;;
      r_parseNode_WithoutModifiers R node
  | _ => ret (Obj [])
  end.

End Productions.

(** *** Tying the recursion *)

Definition bottom : Rec := fun _ _ => outOfFuel.

Definition unfold (R : Rec) : Rec :=
  fun A call =>
    match call in Call A return P A with
    | C_parseListLoop a0 a1 a2 => parseListLoop R a0 a1 a2
    | C_parseList a0 a1 => parseList R a0 a1
    | C_parseDelimitedListLoop a0 a1 a2 a3 => parseDelimitedListLoop R a0 a1 a2 a3
    | C_parseDelimitedList a0 a1 => parseDelimitedList R a0 a1
    | C_parseStatement => parseStatement R
    | C_parseBlock => parseBlock R
    | C_parseExpressionOrLabeledStatement => parseExpressionOrLabeledStatement R
    | C_parseReturnStatement => parseReturnStatement R
    | C_parseElifClauses a0 => parseElifClauses R a0
    | C_parseIfStatement => parseIfStatement R
    | C_parseForOrForInOrForOfStatement => parseForOrForInOrForOfStatement R
    | C_parseSwitchStatement => parseSwitchStatement R
    | C_parseCaseOrDefaultClause => parseCaseOrDefaultClause R
    | C_parseCaseClause => parseCaseClause R
    | C_parseDefaultClause => parseDefaultClause R
    | C_parseTryStatement => parseTryStatement R
    | C_parseCatchClause => parseCatchClause R
    | C_parseUsingTargets a0 => parseUsingTargets R a0
    | C_parseUsingStatement => parseUsingStatement R
    | C_tryParseWalrusDeclaration a0 => tryParseWalrusDeclaration R a0
    | C_parseExpressionRest a0 => parseExpressionRest R a0
    | C_parseExpression => parseExpression R
    | C_parseConnectExpRest a0 => parseConnectExpRest R a0
    | C_parseConnectExp => parseConnectExp R
    | C_parseAssignExp => parseAssignExp R
    | C_parseConditionalExpRest a0 => parseConditionalExpRest R a0
    | C_parseYieldExpression => parseYieldExpression R
    | C_parseArrowFunction => parseArrowFunction R
    | C_addCallSignature a0 => addCallSignature R a0
    | C_parseParameter => parseParameter R
    | C_balanceParentheses a0 => balanceParentheses R a0
    | C_isStartOfParenthesizedArrowFunction => isStartOfParenthesizedArrowFunction R
    | C_balanceAngleBrackets a0 => balanceAngleBrackets R a0
    | C_isStartOfArrowFunctionWithCallSignature => isStartOfArrowFunctionWithCallSignature R
    | C_parseBinaryExp a0 => parseBinaryExp R a0
    | C_parseBinaryExpRest a0 a1 => parseBinaryExpRest R a0 a1
    | C_parseUnaryExp => parseUnaryExp R
    | C_parseTypeAssertion => parseTypeAssertion R
    | C_parseUpdateExp => parseUpdateExp R
    | C_parseLeftHandExp => parseLeftHandExp R
    | C_parseMemberExp => parseMemberExp R
    | C_parseMemberExpRest a0 => parseMemberExpRest R a0
    | C_parseCallExpRest a0 => parseCallExpRest R a0
    | C_parseTypeArgumentsInExpression => parseTypeArgumentsInExpression R
    | C_parseArguments => parseArguments R
    | C_parseArgument => parseArgument R
    | C_parsePrimaryExp => parsePrimaryExp R
    | C_parseParenthesizedExpression => parseParenthesizedExpression R
    | C_parseArrayLiteralExpression => parseArrayLiteralExpression R
    | C_parseArrayElement => parseArrayElement R
    | C_parseObjectLiteralExpression => parseObjectLiteralExpression R
    | C_parseObjectDefinition => parseObjectDefinition R
    | C_parseNewExpression => parseNewExpression R
    | C_parseTypeParametersLoop a0 => parseTypeParametersLoop R a0
    | C_parseTypeParameters => parseTypeParameters R
    | C_parseTypeArgumentListLoop a0 a1 => parseTypeArgumentListLoop R a0 a1
    | C_parseTypeArgumentList a0 => parseTypeArgumentList R a0
    | C_parseVariableDeclarationWithoutModifiers a0 a1 => parseVariableDeclarationWithoutModifiers R a0 a1
    | C_parseVariableBinding => parseVariableBinding R
    | C_parseFunctionExpressionWithoutModifiers a0 => parseFunctionExpressionWithoutModifiers R a0
    | C_parseFunctionWithoutModifiers a0 => parseFunctionWithoutModifiers R a0
    | C_isStartOfNode_Parentheses a0 => isStartOfNode_Parentheses R a0
    | C_isStartOfNode_Worker => isStartOfNode_Worker R
    | C_isStartOfNode_ => isStartOfNode_ R
    | C_parseNodeExpressionWithoutModifiers a0 => parseNodeExpressionWithoutModifiers R a0
    | C_parseNode_WithoutModifiers a0 => parseNode_WithoutModifiers R a0
    | C_parseNodeStatement => parseNodeStatement R
    | C_isDeclaration => isDeclaration R
    | C_isStartOfDeclaration => isStartOfDeclaration R
    | C_parseDeclaration => parseDeclaration R
    | C_parseDecoratorsLoop a0 => parseDecoratorsLoop R a0
    | C_parseDecorators => parseDecorators R
    | C_parseModifiersLoop a0 => parseModifiersLoop R a0
    | C_parseModifiers => parseModifiers R
    | C_parseDeclarationWorker a0 => parseDeclarationWorker R a0
    end.

(** [knot fuel]: the productions with [fuel] levels of calls. *)
Fixpoint knot (fuel : nat) : Rec :=
  match fuel with
  | O => bottom
  | S fuel' => unfold (knot fuel')
  end.

Definition parseSourceFile (fuel : nat) (fileName : string)
    (sourceText : jsstring) : P Node :=
  initializeState sourceText ;;;
  result <- parseSourceFileWorker (knot fuel) fileName ;;
  clearState ;;;
  ret result.

End Parser.

(** * Properties of the scanner *)

Module ScannerFacts.
Import Scanner.

Lemma charCodeAt_in_range (s : jsstring) (i : Z) :
  0 <= charCodeAt s i -> 0 <= i < jslength s.
Proof.
  unfold charCodeAt, jslength, NaN.
  destruct (Z.ltb_spec i 0) as [Hneg | Hpos]; [lia |].
  intros Hc.
  destruct (Nat.lt_ge_cases (Z.to_nat i) (List.length s)) as [Hlt | Hge]; [lia |].
  rewrite nth_overflow in Hc by exact Hge. lia.
Qed.

Lemma charCodeAt_eqb_in_range (s : jsstring) (i c : Z) :
  0 <= c -> (charCodeAt s i =? c) = true -> 0 <= i < jslength s.
Proof.
  intros Hc Heq. apply Z.eqb_eq in Heq.
  apply charCodeAt_in_range. lia.
Qed.

Lemma charCodeAt_skipn (s : jsstring) (i : Z) :
  0 <= i ->
  charCodeAt s i = match skipn (Z.to_nat i) s with c :: _ => c | [] => NaN end.
Proof.
  intros Hi. unfold charCodeAt.
  destruct (Z.ltb_spec i 0); [lia |].
  generalize (Z.to_nat i) as n. clear.
  intros n; revert s; induction n as [| n IH]; intros [| c s]; simpl; auto.
Qed.

Lemma skipWhile_ge (p : Z -> bool) (l : jsstring) (i : Z) :
  i <= skipWhile p l i <= i + jslength l.
Proof.
  revert i; induction l as [| c l IH]; intros i; simpl.
  - unfold jslength; simpl; lia.
  - unfold jslength in *; simpl length.
    destruct (p c); [specialize (IH (i + 1)) |]; lia.
Qed.

Lemma skipWhile_first (p : Z -> bool) (c : Z) (l : jsstring) (i : Z) :
  p c = true -> i + 1 <= skipWhile p (c :: l) i.
Proof.
  intros Hp; simpl; rewrite Hp.
  pose proof (skipWhile_ge p l (i + 1)); lia.
Qed.

(** What a piece of [scan] may change: the text and the range never. *)
Definition sameText (s s' : t) : Prop :=
  text s' = text s /\ end_ s' = end_ s.

Lemma sameText_refl s : sameText s s.
Proof. split; reflexivity. Qed.

Lemma sameText_trans s1 s2 s3 :
  sameText s1 s2 -> sameText s2 s3 -> sameText s1 s3.
Proof. unfold sameText; intros [? ?] [? ?]; split; congruence. Qed.

Lemma error_sameText msg s : sameText s (error msg s) /\ pos (error msg s) = pos s.
Proof. unfold error, sameText; destruct (onError s); simpl; auto. Qed.

Lemma advanceWhile_spec (p : Z -> bool) (s : t) :
  sameText s (advanceWhile p s)
  /\ pos s <= pos (advanceWhile p s)
  /\ (0 <= pos s <= jslength (text s) ->
      pos (advanceWhile p s) <= jslength (text s))
  /\ (p (charCodeAt (text s) (pos s)) = true -> 0 <= charCodeAt (text s) (pos s) ->
      pos s + 1 <= pos (advanceWhile p s)).
Proof.
  unfold advanceWhile, sameText.
  destruct (Z.ltb_spec (pos s) 0) as [Hneg | Hpos]; simpl.
  - repeat split; try lia.
    intros _ Hc. apply charCodeAt_in_range in Hc. lia.
  - pose proof (skipWhile_ge p (skipn (Z.to_nat (pos s)) (text s)) (pos s)) as Hge.
    repeat split; try lia.
    + intros [_ Hle].
      unfold jslength in *. rewrite length_skipn in Hge. lia.
    + intros Hp Hc. rewrite charCodeAt_skipn in Hp, Hc by exact Hpos.
      destruct (skipn (Z.to_nat (pos s)) (text s)) as [| c l] eqn:E.
      * unfold NaN in Hc; lia.
      * apply skipWhile_first; exact Hp.
Qed.

(** [s'] is [s] after some characters were consumed: the text, the range
    and the start of the token are kept, the cursor did not move back,
    and it stays inside a range that ends where the text ends. *)
Definition advances (s s' : t) : Prop :=
  text s' = text s /\ end_ s' = end_ s /\ startPos s' = startPos s
  /\ tokenPos s' = tokenPos s /\ pos s <= pos s'
  /\ (0 <= pos s <= end_ s -> end_ s = jslength (text s) -> pos s' <= end_ s).

Lemma advances_refl s : advances s s.
Proof. unfold advances; repeat split; lia. Qed.

Lemma advances_trans s1 s2 s3 :
  advances s1 s2 -> advances s2 s3 -> advances s1 s3.
Proof.
  unfold advances.
  intros (T1 & E1 & S1 & K1 & P1 & B1) (T2 & E2 & S2 & K2 & P2 & B2).
  repeat split; try congruence; try lia.
  intros Hp He. rewrite E1, T1 in *.
  specialize (B1 Hp He). apply B2; lia.
Qed.

Lemma advances_error msg s : advances s (error msg s).
Proof.
  unfold error; destruct (onError s); [| apply advances_refl].
  unfold advances; simpl; repeat split; lia.
Qed.

Lemma advances_set_pos s n :
  0 <= n -> (end_ s = jslength (text s) -> pos s + n <= jslength (text s)) ->
  advances s (set_pos (pos s + n) s).
Proof.
  unfold advances; simpl; intros Hn Hb; repeat split; lia.
Qed.

Lemma advances_set_token k s : advances s (set_token k s).
Proof. unfold advances; simpl; repeat split; lia. Qed.

Lemma advances_set_tokenValue v s : advances s (set_tokenValue v s).
Proof. unfold advances; simpl; repeat split; lia. Qed.

Lemma advances_set_tokenFlags f s : advances s (set_tokenFlags f s).
Proof. unfold advances; simpl; repeat split; lia. Qed.

Lemma advances_advanceWhile p s : advances s (advanceWhile p s).
Proof.
  destruct (advanceWhile_spec p s) as ((T & E) & P & B & _).
  unfold advances; repeat split; auto.
  - unfold advanceWhile; destruct (pos s <? 0); reflexivity.
  - unfold advanceWhile; destruct (pos s <? 0); reflexivity.
  - intros Hp He. rewrite He in *. apply B; lia.
Qed.

Lemma advanceWhile_token p s : token (advanceWhile p s) = token s.
Proof. unfold advanceWhile; destruct (pos s <? 0); reflexivity. Qed.

Lemma error_token msg s : token (error msg s) = token s.
Proof. unfold error; destruct (onError s); reflexivity. Qed.

Create HintDb scanner.

#[local] Hint Resolve advances_refl advances_error advances_set_token
  advances_set_tokenValue advances_set_tokenFlags advances_advanceWhile
  : scanner.

(** Everything [advanceWhile] leaves alone, and how far it goes. *)
Lemma advanceWhile_facts (p : Z -> bool) (s : t) :
  let s' := advanceWhile p s in
  text s' = text s /\ end_ s' = end_ s /\ startPos s' = startPos s
  /\ tokenPos s' = tokenPos s /\ token s' = token s
  /\ tokenFlags s' = tokenFlags s /\ onError s' = onError s
  /\ diagnostics s' = diagnostics s
  /\ pos s <= pos s'
  /\ (0 <= pos s <= jslength (text s) -> pos s' <= jslength (text s))
  /\ (p (charCodeAt (text s) (pos s)) = true -> 0 <= charCodeAt (text s) (pos s) ->
      pos s + 1 <= pos s')
  /\ (p (charCodeAt (text s) (pos s)) = false -> pos s' = pos s).
Proof.
  cbv zeta.
  destruct (advanceWhile_spec p s) as ((T & E) & P & B & Q).
  assert (Z0 : p (charCodeAt (text s) (pos s)) = false ->
               pos (advanceWhile p s) = pos s).
  { intros Hp. unfold advanceWhile.
    destruct (Z.ltb_spec (pos s) 0) as [Hneg | Hpos]; [reflexivity |]. simpl.
    rewrite charCodeAt_skipn in Hp by exact Hpos.
    destruct (skipn (Z.to_nat (pos s)) (text s)) as [| c l]; [reflexivity |].
    simpl. rewrite Hp. reflexivity. }
  assert (F : startPos (advanceWhile p s) = startPos s
              /\ tokenPos (advanceWhile p s) = tokenPos s
              /\ token (advanceWhile p s) = token s
              /\ tokenFlags (advanceWhile p s) = tokenFlags s
              /\ onError (advanceWhile p s) = onError s
              /\ diagnostics (advanceWhile p s) = diagnostics s)
    by (unfold advanceWhile; destruct (pos s <? 0); repeat split).
  destruct F as (F1 & F2 & F3 & F4 & F5 & F6).
  repeat split; assumption.
Qed.

Lemma isDigit_nonneg ch : isDigit ch = true -> 0 <= ch.
Proof.
  unfold isDigit, CharacterCodes._0. intros H.
  apply andb_prop in H as [H _]. apply Z.geb_le in H. lia.
Qed.

Lemma scanNumberFragment_facts (s : t) (fragment : jsstring) (s' : t) :
  scanNumberFragment s = (fragment, s') ->
  text s' = text s /\ end_ s' = end_ s /\ startPos s' = startPos s
  /\ tokenPos s' = tokenPos s /\ token s' = token s
  /\ pos s <= pos s'
  /\ (0 <= pos s <= jslength (text s) -> pos s' <= jslength (text s))
  /\ (isDigit (charCodeAt (text s) (pos s)) = true -> pos s + 1 <= pos s')
  /\ (isDigit (charCodeAt (text s) (pos s)) = false -> pos s' = pos s).
Proof.
  unfold scanNumberFragment. intros E. inversion E; subst. clear E.
  destruct (advanceWhile_facts isDigit s) as (T & En & S & K & Tk & _ & _ & _ & P & B & Q & Z0).
  repeat (split; [assumption |]). split; [| exact Z0].
  intros Hd. apply Q; [exact Hd | apply isDigit_nonneg; exact Hd].
Qed.

(** From a successful comparison of the character at an offset: the
    offset is inside the text. *)
Ltac char_range :=
  repeat match goal with
  | H : (charCodeAt ?s ?i =? ?c) = true |- _ =>
      lazymatch goal with
      | _ : 0 <= i < jslength s |- _ => fail
      | _ => let R := fresh "R" in
             assert (R : 0 <= i < jslength s)
               by (apply (charCodeAt_eqb_in_range s i c);
                   [cbv; discriminate | exact H])
      end
  end.

Ltac bool_split :=
  repeat match goal with
  | H : (_ || _) = true |- _ => apply orb_prop in H; destruct H as [H | H]
  | H : (_ && _) = true |- _ => apply andb_prop in H; destruct H as [? H]
  end.

Ltac same_text :=
  repeat match goal with
  | H : text ?a = text ?b |- _ => rewrite H in *; clear H
  | H : end_ ?a = end_ ?b |- _ => rewrite H in *; clear H
  end.

Lemma error_facts msg s :
  text (error msg s) = text s /\ end_ (error msg s) = end_ s
  /\ startPos (error msg s) = startPos s /\ tokenPos (error msg s) = tokenPos s
  /\ token (error msg s) = token s /\ pos (error msg s) = pos s
  /\ tokenValue (error msg s) = tokenValue s
  /\ tokenFlags (error msg s) = tokenFlags s.
Proof. unfold error; destruct (onError s); simpl; repeat split. Qed.

Lemma error_text msg s : text (error msg s) = text s.
Proof. apply error_facts. Qed.
Lemma error_end msg s : end_ (error msg s) = end_ s.
Proof. apply error_facts. Qed.
Lemma error_startPos msg s : startPos (error msg s) = startPos s.
Proof. apply error_facts. Qed.
Lemma error_tokenPos msg s : tokenPos (error msg s) = tokenPos s.
Proof. apply error_facts. Qed.
Lemma error_pos msg s : pos (error msg s) = pos s.
Proof. apply error_facts. Qed.
Lemma error_tokenValue msg s : tokenValue (error msg s) = tokenValue s.
Proof. apply error_facts. Qed.
Lemma error_tokenFlags msg s : tokenFlags (error msg s) = tokenFlags s.
Proof. apply error_facts. Qed.

Create HintDb scan_rw.

#[local] Hint Rewrite error_text error_end error_startPos error_tokenPos
  error_token error_pos error_tokenValue error_tokenFlags : scan_rw.

#[local] Arguments error : simpl never.
#[local] Arguments advanceWhile : simpl never.

(** Close a goal about positions from the facts at hand. *)
Ltac positions :=
  unfold advances in *; simpl in *; autorewrite with scan_rw in *;
  simpl in *; same_text;
  intuition (try congruence; try discriminate; lia).

Lemma scanNumber_spec s :
  advances s (snd (scanNumber s))
  /\ token (snd (scanNumber s)) = token s
  /\ ((isDigit (charCodeAt (text s) (pos s)) = true
       \/ charCodeAt (text s) (pos s) = CharacterCodes.dot) ->
      pos s + 1 <= pos (snd (scanNumber s))).
Proof.
  unfold scanNumber. cbv zeta.
  destruct (scanNumberFragment s) as [mainFragment s1] eqn:E1.
  apply scanNumberFragment_facts in E1.
  destruct E1 as (T1 & N1 & S1 & K1 & Tk1 & P1 & B1 & Q1 & Z1).
  assert (Hdot : charCodeAt (text s) (pos s) = CharacterCodes.dot ->
                 pos s1 = pos s
                 /\ (charCodeAt (text s1) (pos s1) =? CharacterCodes.dot) = true).
  { intros Hd. assert (Hp : pos s1 = pos s).
    { apply Z1. rewrite Hd. reflexivity. }
    split; [exact Hp |]. rewrite Hp, T1, Hd. reflexivity. }
  destruct (charCodeAt (text s1) (pos s1) =? CharacterCodes.dot) eqn:Ed.
  - destruct (scanNumberFragment (set_pos (pos s1 + 1) s1)) as [fr s2] eqn:E2.
    apply scanNumberFragment_facts in E2. simpl in E2.
    destruct E2 as (T2 & N2 & S2 & K2 & Tk2 & P2 & B2 & _ & _).
    char_range.
    destruct ((charCodeAt (text s2) (pos s2) =? CharacterCodes.E)
              || (charCodeAt (text s2) (pos s2) =? CharacterCodes.e)) eqn:Ee.
    + set (sb := set_tokenFlags _ (set_pos (pos s2 + 1) s2)).
      destruct ((charCodeAt (text sb) (pos sb) =? CharacterCodes.plus)
                || (charCodeAt (text sb) (pos sb) =? CharacterCodes.minus)) eqn:Es;
        match goal with
        | |- context [scanNumberFragment ?x] =>
            destruct (scanNumberFragment x) as [ff sd] eqn:Ef;
            apply scanNumberFragment_facts in Ef; simpl in Ef;
            destruct Ef as (T3 & N3 & S3 & K3 & Tk3 & P3 & B3 & _ & _)
        end;
        subst sb; simpl in *; bool_split; char_range;
        destruct (isEmpty ff); simpl;
        try (destruct (error_facts "Digit expected" sd) as (ET & EN & ES & EK & ETk & EP & _));
        unfold advances; same_text; intuition (try congruence; lia).
    + simpl. unfold advances; same_text; intuition (try congruence; lia).
  - assert (Hnd : charCodeAt (text s) (pos s) = CharacterCodes.dot -> False).
    { intros Hd. destruct (Hdot Hd) as [_ H]. discriminate H. }
    destruct ((charCodeAt (text s1) (pos s1) =? CharacterCodes.E)
              || (charCodeAt (text s1) (pos s1) =? CharacterCodes.e)) eqn:Ee.
    + set (sb := set_tokenFlags _ (set_pos (pos s1 + 1) s1)).
      destruct ((charCodeAt (text sb) (pos sb) =? CharacterCodes.plus)
                || (charCodeAt (text sb) (pos sb) =? CharacterCodes.minus)) eqn:Es;
        match goal with
        | |- context [scanNumberFragment ?x] =>
            destruct (scanNumberFragment x) as [ff sd] eqn:Ef;
            apply scanNumberFragment_facts in Ef; simpl in Ef;
            destruct Ef as (T3 & N3 & S3 & K3 & Tk3 & P3 & B3 & _ & _)
        end;
        subst sb; simpl in *; bool_split; char_range;
        destruct (isEmpty ff); simpl;
        try (destruct (error_facts "Digit expected" sd) as (ET & EN & ES & EK & ETk & EP & _));
        try match goal with
            | |- context [negb ?c] => destruct (negb c); simpl
            end;
        unfold advances; same_text; intuition (try congruence; lia).
    + match goal with
      | |- context [negb ?c] => destruct (negb c); simpl
      end;
      unfold advances; same_text; intuition (try congruence; lia).
Qed.

Lemma scanDigits_facts (p : Z -> bool) (s : t) :
  let s' := advanceWhile p s in
  advances s s' /\ token s' = token s
  /\ (p (charCodeAt (text s) (pos s)) = true -> 0 <= charCodeAt (text s) (pos s) ->
      pos s + 1 <= pos s').
Proof.
  destruct (advanceWhile_facts p s) as (T & En & S & K & Tk & _ & _ & _ & P & B & Q & _).
  cbv zeta. unfold advances. same_text. intuition lia.
Qed.

(** The prefixed radixes: two characters and the digits. *)
Lemma scanRadix_spec (p : Z -> bool) expected radix flag s :
  pos s + 2 < end_ s ->
  forall digits,
    (forall x, digits x = (substring (text (advanceWhile p x)) (pos x)
                             (pos (advanceWhile p x)), advanceWhile p x)) ->
    exists s', scanRadix digits expected radix flag s = Return s'
               /\ advances s s' /\ token s' = NumericLiteral
               /\ pos s + 2 <= pos s'.
Proof.
  intros Hb digits Hd. unfold scanRadix. rewrite Hd.
  set (x := set_pos (pos s + 2) s).
  destruct (scanDigits_facts p x) as (A & K & _).
  set (y := advanceWhile p x) in *.
  assert (Ax : advances s x).
  { unfold x. apply advances_set_pos; lia. }
  destruct (isEmpty _); unfold numericLiteral; eexists; (split; [reflexivity |]).
  - destruct (error_facts expected y) as (ET & EN & ES & EK & ETk & EP & _).
    unfold advances in *. simpl in *. same_text.
    intuition (try congruence; lia).
  - unfold advances in *. simpl in *. same_text.
    intuition (try congruence; lia).
Qed.

Lemma scanEscapeSequence_facts s :
  let s' := snd (scanEscapeSequence s) in
  text s' = text s /\ end_ s' = end_ s /\ startPos s' = startPos s
  /\ tokenPos s' = tokenPos s /\ token s' = token s
  /\ pos s + 1 <= pos s' /\ (pos s < end_ s -> pos s' <= end_ s).
Proof.
  unfold scanEscapeSequence. cbv zeta.
  destruct (pos (set_pos (pos s + 1) s) >=? end_ (set_pos (pos s + 1) s)) eqn:E.
  - positions.
  - simpl in E. rewrite Z.geb_leb in E. apply Z.leb_gt in E.
    repeat match goal with
           | |- context [if ?c then _ else _] => destruct c
           end; positions.
Qed.

Lemma scanStringLoop_spec (fuel : nat) :
  forall quote result start s,
    (Z.to_nat (end_ s - pos s) < fuel)%nat ->
    exists v s', scanStringLoop fuel quote result start s = Some (v, s')
      /\ text s' = text s /\ end_ s' = end_ s /\ startPos s' = startPos s
      /\ tokenPos s' = tokenPos s /\ token s' = token s
      /\ pos s <= pos s' /\ (pos s <= end_ s -> pos s' <= end_ s).
Proof.
  induction fuel as [| fuel IH]; intros quote result start s Hf; [lia |].
  simpl.
  destruct (Z.geb_spec (pos s) (end_ s)) as [Hge | Hlt].
  - destruct (error_facts "Unterminated string literal" s)
      as (ET & EN & ES & EK & ETk & EP & _).
    eexists _, _. split; [reflexivity |]. intuition (try congruence; lia).
  - destruct (charCodeAt (text s) (pos s) =? quote).
    + eexists _, _. split; [reflexivity |]. simpl. intuition lia.
    + destruct (charCodeAt (text s) (pos s) =? CharacterCodes.backslash).
      * destruct (scanEscapeSequence s) as [escaped s1] eqn:E.
        pose proof (scanEscapeSequence_facts s) as F. rewrite E in F. simpl in F.
        destruct F as (T & En & S & K & Tk & P & B).
        destruct (IH quote ((result ++ substring (text s) start (pos s)) ++ escaped)
                    (pos s1) s1) as (v & s' & Ev & T' & En' & S' & K' & Tk' & P' & B').
        { rewrite En. lia. }
        exists v, s'. split; [exact Ev |].
        same_text. intuition (try congruence; lia).
      * destruct (isLineBreak (charCodeAt (text s) (pos s))).
        -- destruct (error_facts "Unterminated string literal" s)
             as (ET & EN & ES & EK & ETk & EP & _).
           eexists _, _. split; [reflexivity |]. intuition (try congruence; lia).
        -- destruct (IH quote result start (set_pos (pos s + 1) s))
             as (v & s' & Ev & T' & En' & S' & K' & Tk' & P' & B').
           { simpl. lia. }
           exists v, s'. split; [exact Ev |]. simpl in *.
           intuition (try congruence; lia).
Qed.

Lemma scanString_spec s :
  pos s < end_ s ->
  exists v s', scanString s = Some (v, s')
    /\ text s' = text s /\ end_ s' = end_ s /\ startPos s' = startPos s
    /\ tokenPos s' = tokenPos s /\ token s' = token s
    /\ pos s + 1 <= pos s' /\ pos s' <= end_ s.
Proof.
  intros Hlt. unfold scanString. cbv zeta.
  destruct (scanStringLoop_spec
              (S (Z.to_nat (end_ (set_pos (pos s + 1) s) - pos (set_pos (pos s + 1) s))))
              (charCodeAt (text s) (pos s)) [] (pos (set_pos (pos s + 1) s))
              (set_pos (pos s + 1) s))
    as (v & s' & Ev & T' & En' & S' & K' & Tk' & P' & B'); [lia |].
  exists v, s'. split; [exact Ev |]. simpl in *. intuition lia.
Qed.

Lemma skipSingleLineComment_facts (fuel : nat) :
  forall s,
    let s' := skipSingleLineComment fuel s in
    text s' = text s /\ end_ s' = end_ s /\ startPos s' = startPos s
    /\ tokenPos s' = tokenPos s /\ token s' = token s
    /\ pos s <= pos s' /\ (pos s <= end_ s -> pos s' <= end_ s).
Proof.
  induction fuel as [| fuel IH]; intros s; simpl; [intuition lia |].
  destruct (Z.ltb_spec (pos s) (end_ s)); [| intuition lia].
  destruct (isLineBreak _); [intuition lia |].
  specialize (IH (set_pos (pos s + 1) s)). simpl in IH.
  intuition (try congruence; lia).
Qed.

Lemma skipMultiLineComment_facts (fuel : nat) :
  forall s,
    let s' := snd (skipMultiLineComment fuel s) in
    text s' = text s /\ end_ s' = end_ s /\ startPos s' = startPos s
    /\ tokenPos s' = tokenPos s /\ token s' = token s
    /\ pos s <= pos s'
    /\ (0 <= pos s <= end_ s -> end_ s = jslength (text s) -> pos s' <= end_ s).
Proof.
  induction fuel as [| fuel IH]; intros s; simpl; [intuition lia |].
  destruct (Z.ltb_spec (pos s) (end_ s)); [| simpl; intuition lia].
  destruct ((charCodeAt (text s) (pos s) =? CharacterCodes.asterisk)
            && (charCodeAt (text s) (pos s + 1) =? CharacterCodes.slash)) eqn:E.
  - bool_split. char_range. simpl. intuition lia.
  - match goal with
    | |- context [skipMultiLineComment fuel ?x] => specialize (IH x)
    end.
    destruct (isLineBreak _); simpl in *; intuition (try congruence; lia).
Qed.

Lemma skipIdentifierParts_facts (fuel : nat) :
  forall s,
    let s' := skipIdentifierParts fuel s in
    text s' = text s /\ end_ s' = end_ s /\ startPos s' = startPos s
    /\ tokenPos s' = tokenPos s /\ token s' = token s
    /\ pos s <= pos s' /\ (pos s <= end_ s -> pos s' <= end_ s).
Proof.
  induction fuel as [| fuel IH]; intros s; simpl; [intuition lia |].
  destruct ((pos s <? end_ s) && isIdentifierPart _) eqn:E; [| intuition lia].
  apply andb_prop in E as [E _]. apply Z.ltb_lt in E.
  specialize (IH (set_pos (pos s + 1) s)). simpl in IH.
  intuition (try congruence; lia).
Qed.

Lemma lookupKeyword_In tbl s k :
  lookupKeyword tbl s = Some k -> In (s, k) (map (fun e => (js (fst e), snd e)) tbl).
Proof.
  induction tbl as [| [name k'] tbl IH]; simpl; [discriminate |].
  destruct (jsstring_eqb (js name) s) eqn:E.
  - intros H; inversion H; subst. left. f_equal.
    clear - E. revert E. generalize (js name) as a. intros a; revert s.
    induction a as [| x a IH]; intros [| y s]; simpl; try discriminate; auto.
    intros H. apply andb_prop in H as [H1 H2].
    apply Z.eqb_eq in H1. subst. f_equal. apply IH. exact H2.
  - intros H. right. apply IH. exact H.
Qed.

(** An identifier is never classified as end of file or as the walrus. *)
Lemma checkReservedWord_kind v :
  checkReservedWord v <> EndOfFileToken
  /\ checkReservedWord v <> ColonEqualsToken
  /\ checkReservedWord v <> Unknown.
Proof.
  unfold checkReservedWord.
  destruct (_ && _); [| repeat split; discriminate].
  destruct (textToKeyword v) as [k |] eqn:E; [| repeat split; discriminate].
  unfold textToKeyword in E. apply lookupKeyword_In in E.
  apply (in_map snd) in E.
  vm_compute in E.
  repeat (destruct E as [E | E]; [subst k; repeat split; discriminate |]).
  contradiction.
Qed.

(** *** One turn of [scan] *)

Definition stepSpec (s : t) (st : Step) : Prop :=
  match st with
  | Continue s' =>
      advances (set_tokenPos (pos s) s) s' /\ pos s < pos s' /\ pos s < end_ s
  | Return s' =>
      advances (set_tokenPos (pos s) s) s'
      /\ (token s' = EndOfFileToken /\ pos s' = pos s /\ end_ s <= pos s
          \/ token s' <> EndOfFileToken /\ pos s < pos s' /\ pos s < end_ s)
      /\ token s' <> ColonEqualsToken
  end.

Ltac clear_false :=
  repeat match goal with
  | H : _ = false |- _ => clear H
  end.

Ltac step_leaf :=
  clear_false;
  unfold produce, stepSpec;
  eexists; (split; [reflexivity |]);
  bool_split; char_range; positions.

Lemma scanStep_spec (s : t) :
  exists st, scanStep s = Some st /\ stepSpec s st.
Proof.
  unfold scanStep. cbv zeta.
  set (s0 := set_tokenPos (pos s) s).
  assert (Hs0 : text s0 = text s /\ end_ s0 = end_ s /\ pos s0 = pos s
                /\ startPos s0 = startPos s /\ tokenPos s0 = pos s)
    by (repeat split).
  destruct Hs0 as (T0 & E0 & P0 & S0 & K0).
  destruct (Z.geb_spec (pos s0) (end_ s0)) as [Hge | Hlt].
  { unfold stepSpec. eexists; split; [reflexivity |]. subst s0. positions. }
  set (ch := codePointAt (text s0) (pos s0)).
  repeat match goal with
  | |- exists st, (if ?c then _ else _) = Some st /\ _ => destruct c eqn:?
  end;
  clear_false;
  try solve [subst s0; step_leaf].
  - (* a number after a dot *)
    destruct (scanNumber_spec s0) as (A & K & P).
      destruct (scanNumber s0) as [v s'] eqn:E. simpl in A, K, P.
      assert (Hdot : charCodeAt (text s0) (pos s0) = CharacterCodes.dot).
      { unfold ch, codePointAt in *.
        match goal with
        | H : ((if ?c then _ else _) =? CharacterCodes.dot) = true |- _ =>
            destruct c eqn:Ec; [| apply Z.eqb_eq in H; exact H]
        end.
        exfalso. bool_split.
        match goal with
        | H : (_ =? CharacterCodes.dot) = true |- _ =>
            apply Z.eqb_eq in H; unfold CharacterCodes.dot in H
        end.
        repeat match goal with
               | H : (_ <=? _) = true |- _ => apply Z.leb_le in H
               end. lia. }
      specialize (P (or_intror Hdot)).
      unfold stepSpec. eexists; split; [reflexivity |]. subst s0. positions.
  - (* a single-line comment *)
    unfold stepSpec. eexists; split; [reflexivity |].
    match goal with
    | |- context [skipSingleLineComment ?n ?x] =>
        pose proof (skipSingleLineComment_facts n x) as F; cbv zeta in F;
        set (s2 := skipSingleLineComment n x) in *
    end.
    bool_split. char_range. subst s0. positions.
  - (* a multi-line comment *)
    match goal with
    | |- context [skipMultiLineComment ?n ?x] =>
        pose proof (skipMultiLineComment_facts n x) as F; cbv zeta in F;
        destruct (skipMultiLineComment n x) as [closed s2]
    end.
    unfold stepSpec. eexists; split; [reflexivity |].
    bool_split. char_range. subst s0. destruct closed; positions.
  - (* a string *)
    destruct (scanString_spec s0 Hlt) as (v & s' & Ev & F).
    rewrite Ev. unfold stepSpec. eexists; split; [reflexivity |].
    subst s0. positions.
  - destruct (scanRadix_spec isHexDigit "Hexadecimal digit expected" 16
                TokenFlags.HexSpecifier s0) with (digits := scanHexDigits)
      as (s' & Es & A & K & P);
      [bool_split; apply Z.ltb_lt; assumption | reflexivity |].
    rewrite Es. unfold stepSpec. eexists; split; [reflexivity |].
    subst s0. positions.
  - destruct (scanRadix_spec isBinaryDigit "Binary digit expected" 2
                TokenFlags.BinarySpecifier s0) with (digits := scanBinaryDigits)
      as (s' & Es & A & K & P);
      [bool_split; apply Z.ltb_lt; assumption | reflexivity |].
    rewrite Es. unfold stepSpec. eexists; split; [reflexivity |].
    subst s0. positions.
  - destruct (scanRadix_spec isOctalDigit "Octal digit expected" 8
                TokenFlags.OctalSpecifier s0) with (digits := scanOctalDigits)
      as (s' & Es & A & K & P);
      [bool_split; apply Z.ltb_lt; assumption | reflexivity |].
    rewrite Es. unfold stepSpec. eexists; split; [reflexivity |].
    subst s0. positions.
  - (* a legacy octal literal *)
    unfold scanOctalDigits, numericLiteral. cbv zeta.
    destruct (scanDigits_facts isOctalDigit s0) as (A & K & P).
    set (s1 := advanceWhile isOctalDigit s0) in *.
    assert (Hc : charCodeAt (text s0) (pos s0) = CharacterCodes._0).
    { unfold ch, codePointAt in *.
      match goal with
      | H : ((if ?c then _ else _) =? CharacterCodes._0) = true |- _ =>
          destruct c eqn:Ec; [| apply Z.eqb_eq in H; exact H]
      end.
      exfalso. bool_split.
      match goal with
      | H : (_ =? CharacterCodes._0) = true |- _ =>
          apply Z.eqb_eq in H; unfold CharacterCodes._0 in H
      end.
      repeat match goal with
             | H : (_ <=? _) = true |- _ => apply Z.leb_le in H
             end. lia. }
    rewrite Hc in P. specialize (P eq_refl ltac:(cbv; discriminate)).
    unfold stepSpec. eexists; split; [reflexivity |]. subst s0. positions.
  - (* a number that starts with 0 *)
    destruct (scanNumber_spec s0) as (A & K & P).
    destruct (scanNumber s0) as [v s'] eqn:E. simpl in A, K, P.
    assert (Hc : charCodeAt (text s0) (pos s0) = CharacterCodes._0).
    { unfold ch, codePointAt in *.
      match goal with
      | H : ((if ?c then _ else _) =? CharacterCodes._0) = true |- _ =>
          destruct c eqn:Ec; [| apply Z.eqb_eq in H; exact H]
      end.
      exfalso. bool_split.
      match goal with
      | H : (_ =? CharacterCodes._0) = true |- _ =>
          apply Z.eqb_eq in H; unfold CharacterCodes._0 in H
      end.
      repeat match goal with
             | H : (_ <=? _) = true |- _ => apply Z.leb_le in H
             end. lia. }
    assert (Hd : isDigit (charCodeAt (text s0) (pos s0)) = true)
      by (rewrite Hc; reflexivity).
    specialize (P (or_introl Hd)).
    unfold stepSpec. eexists; split; [reflexivity |]. subst s0. positions.
  - (* a number that starts with 1 .. 9 *)
    destruct (scanNumber_spec s0) as (A & K & P).
    destruct (scanNumber s0) as [v s'] eqn:E. simpl in A, K, P.
    assert (Hc : isDigit (charCodeAt (text s0) (pos s0)) = true).
    { unfold ch, codePointAt in *.
      match goal with
      | H : ((CharacterCodes._1 <=? (if ?c then _ else _)) && _) = true |- _ =>
          destruct c eqn:Ec
      end.
      - exfalso. bool_split.
        unfold CharacterCodes._9 in *.
        repeat match goal with
               | H : (_ <=? _) = true |- _ => apply Z.leb_le in H
               end. lia.
      - unfold isDigit. bool_split.
        unfold CharacterCodes._1, CharacterCodes._0, CharacterCodes._9 in *.
        repeat match goal with
               | H : (_ <=? _) = true |- _ => apply Z.leb_le in H
               end.
        apply andb_true_intro; split; [apply Z.geb_le | apply Z.leb_le]; lia. }
    specialize (P (or_introl Hc)).
    unfold stepSpec. eexists; split; [reflexivity |]. subst s0. positions.
  - (* an identifier or a keyword *)
    match goal with
    | |- context [skipIdentifierParts ?n ?x] =>
        pose proof (skipIdentifierParts_facts n x) as F; cbv zeta in F;
        set (s2 := skipIdentifierParts n x) in *
    end.
    unfold stepSpec. eexists; split; [reflexivity |].
    destruct (checkReservedWord_kind (substring (text s2) (tokenPos s2) (pos s2)))
      as (N1 & N2 & N3).
    subst s0. positions.
Qed.

(** *** [scan] returns, and where *)

Lemma scanLoop_spec (fuel : nat) :
  forall s,
    (remaining s < fuel)%nat ->
    exists s', scanLoop fuel s = Some s'
      /\ text s' = text s /\ end_ s' = end_ s /\ startPos s' = startPos s
      /\ pos s <= tokenPos s' <= pos s'
      /\ (token s' = EndOfFileToken /\ pos s' = tokenPos s' /\ end_ s <= pos s'
          \/ token s' <> EndOfFileToken /\ tokenPos s' < pos s' /\ tokenPos s' < end_ s)
      /\ token s' <> ColonEqualsToken
      /\ (0 <= pos s <= end_ s -> end_ s = jslength (text s) -> pos s' <= end_ s).
Proof.
  induction fuel as [| fuel IH]; intros s Hf; [lia |].
  simpl. destruct (scanStep_spec s) as (st & Est & Hst). rewrite Est.
  destruct st as [s1 | s1]; unfold stepSpec in Hst.
  - destruct Hst as (A & P & L).
    destruct (IH s1) as (s' & Es & T & E & S & K & D & N & B).
    { unfold remaining in *. unfold advances in A. simpl in A.
      destruct A as (_ & E1 & _). rewrite E1. lia. }
    exists s'. split; [exact Es |].
    unfold advances in A. simpl in A.
    destruct A as (T1 & E1 & S1 & K1 & P1 & B1).
    rewrite T1, E1 in *.
    repeat split; try congruence; lia.
  - destruct Hst as (A & D & N).
    exists s1. split; [reflexivity |].
    unfold advances in A. simpl in A.
    destruct A as (T1 & E1 & S1 & K1 & P1 & B1).
    repeat split; try congruence; try lia.
    destruct D as [D | D]; [left | right]; intuition lia.
Qed.

(** More fuel than the loop needs changes nothing. *)
Lemma scanLoop_more_fuel (fuel : nat) :
  forall s s', scanLoop fuel s = Some s' ->
               forall fuel', (fuel <= fuel')%nat -> scanLoop fuel' s = Some s'.
Proof.
  induction fuel as [| fuel IH]; intros s s' H fuel' Hle; [discriminate |].
  destruct fuel' as [| fuel']; [lia |].
  simpl in *. destruct (scanStep s) as [[s1 | s1] |]; try discriminate.
  - apply IH with (fuel' := fuel') in H; [exact H | lia].
  - exact H.
Qed.

Lemma scan_spec (s : t) :
  exists s', scan s = Some s'
    /\ text s' = text s /\ end_ s' = end_ s /\ startPos s' = pos s
    /\ pos s <= tokenPos s' <= pos s'
    /\ (token s' = EndOfFileToken /\ pos s' = tokenPos s' /\ end_ s <= pos s'
        \/ token s' <> EndOfFileToken /\ tokenPos s' < pos s' /\ tokenPos s' < end_ s)
    /\ token s' <> ColonEqualsToken
    /\ (0 <= pos s <= end_ s -> end_ s = jslength (text s) -> pos s' <= end_ s).
Proof.
  unfold scan.
  destruct (scanLoop_spec (S (remaining s))
              (set_tokenFlags TokenFlags.None (set_startPos (pos s) s)))
    as (s' & Es & F).
  { unfold remaining; simpl; lia. }
  exists s'. split; [exact Es |]. simpl in F. exact F.
Qed.

(** The labels of the [switch] of [scan]. *)
Definition switchCases : list Z :=
  [CharacterCodes.lineFeed; CharacterCodes.carriageReturn;
   CharacterCodes.tab; CharacterCodes.verticalTab; CharacterCodes.formFeed;
   CharacterCodes.space; CharacterCodes.exclamation; CharacterCodes.percent;
   CharacterCodes.ampersand; CharacterCodes.openParen;
   CharacterCodes.closeParen; CharacterCodes.asterisk; CharacterCodes.plus;
   CharacterCodes.comma; CharacterCodes.minus; CharacterCodes.dot;
   CharacterCodes.slash; CharacterCodes.colon; CharacterCodes.semicolon;
   CharacterCodes.lessThan; CharacterCodes.greaterThan; CharacterCodes.equals;
   CharacterCodes.question; CharacterCodes.openBracket;
   CharacterCodes.closeBracket; CharacterCodes.caret; CharacterCodes.openBrace;
   CharacterCodes.bar; CharacterCodes.closeBrace; CharacterCodes.tilde;
   CharacterCodes.at_; CharacterCodes.backslash; CharacterCodes.doubleQuote;
   CharacterCodes.singleQuote; CharacterCodes._0; CharacterCodes._1;
   CharacterCodes._2; CharacterCodes._3; CharacterCodes._4; CharacterCodes._5;
   CharacterCodes._6; CharacterCodes._7; CharacterCodes._8; CharacterCodes._9].

(** A character that no case takes and that starts no identifier. *)
Definition unclassifiable (ch : Z) : Prop :=
  ~ In ch switchCases /\ isIdentifierStart ch = false.

Lemma In_by_eqb (c : Z) (l : list Z) :
  existsb (Z.eqb c) l = true -> In c l.
Proof.
  intros H. apply existsb_exists in H as (x & Hx & E).
  apply Z.eqb_eq in E. subst. exact Hx.
Qed.

Lemma scanStep_unclassifiable (s : t) :
  pos s < end_ s ->
  unclassifiable (codePointAt (text s) (pos s)) ->
  scanStep s
  = Some (produce 1 Unknown (error "Invalid character" (set_tokenPos (pos s) s))).
Proof.
  intros Hlt [Hn Hi]. unfold scanStep. cbv zeta.
  replace (pos (set_tokenPos (pos s) s) >=? end_ (set_tokenPos (pos s) s))
    with false by (simpl; symmetry; rewrite Z.geb_leb; apply Z.leb_gt; exact Hlt).
  change (text (set_tokenPos (pos s) s)) with (text s).
  change (pos (set_tokenPos (pos s) s)) with (pos s).
  set (ch := codePointAt (text s) (pos s)) in *.
  assert (F : forall c, In c switchCases -> (ch =? c) = false).
  { intros c Hc. apply Z.eqb_neq. intros ->. exact (Hn Hc). }
  assert (D : ((CharacterCodes._1 <=? ch) && (ch <=? CharacterCodes._9)) = false).
  { destruct ((CharacterCodes._1 <=? ch) && (ch <=? CharacterCodes._9)) eqn:E;
      [| reflexivity].
    exfalso. apply andb_prop in E as [E1 E2].
    apply Z.leb_le in E1, E2.
    unfold CharacterCodes._1, CharacterCodes._9 in *.
    pose proof (F 49 (In_by_eqb 49 switchCases eq_refl)) as F1.
    pose proof (F 50 (In_by_eqb 50 switchCases eq_refl)) as F2.
    pose proof (F 51 (In_by_eqb 51 switchCases eq_refl)) as F3.
    pose proof (F 52 (In_by_eqb 52 switchCases eq_refl)) as F4.
    pose proof (F 53 (In_by_eqb 53 switchCases eq_refl)) as F5.
    pose proof (F 54 (In_by_eqb 54 switchCases eq_refl)) as F6.
    pose proof (F 55 (In_by_eqb 55 switchCases eq_refl)) as F7.
    pose proof (F 56 (In_by_eqb 56 switchCases eq_refl)) as F8.
    pose proof (F 57 (In_by_eqb 57 switchCases eq_refl)) as F9.
    apply Z.eqb_neq in F1, F2, F3, F4, F5, F6, F7, F8, F9. lia. }
  rewrite D, Hi.
  repeat match goal with
  | |- context [ch =? ?c] =>
      rewrite (F c) by (apply In_by_eqb; reflexivity)
  end.
  reflexivity.
Qed.

(** *** Termination and progress of [scan] *)

(** C9: [scan] returns on every scanner state (its loop needs no more
    turns than there are characters left); when the token returned is not
    [EndOfFileToken], [pos] is strictly greater than at the call; and when
    the character under the cursor is taken by no case of the switch and
    starts no identifier, the token is [Unknown], [pos] has advanced by
    exactly one, and the callback (if one is registered) has received
    "Invalid character" once. *)
Theorem scan_terminates_and_advances (s : t) :
  exists s',
    scan s = Some s'
    /\ (token s' <> EndOfFileToken -> pos s < pos s')
    /\ (pos s < end_ s ->
        unclassifiable (codePointAt (text s) (pos s)) ->
        token s' = Unknown
        /\ pos s' = pos s + 1
        /\ diagnostics s'
           = if onError s
             then diagnostics s ++ [mkDiagnostic "Invalid character" (pos s) 0]
             else diagnostics s).
Proof.
  destruct (scan_spec s) as (s' & Es & _ & _ & _ & K & D & _).
  exists s'. split; [exact Es |]. split.
  - intros Hn. destruct D as [(E & _) | (_ & L & _)]; [contradiction | lia].
  - intros Hlt Hu.
    unfold scan in Es. simpl scanLoop in Es.
    rewrite scanStep_unclassifiable in Es by (simpl; assumption).
    unfold produce in Es. injection Es as <-.
    unfold error. simpl. destruct (onError s); simpl; repeat split.
Qed.

(** The character [#] is such a character: scanning "#" with a callback
    registered. *)
Lemma scan_terminates_and_advances_witness :
  exists s',
    scan (setOnError true (set_end 1 (set_text (js "#") initial))) = Some s'
    /\ token s' = Unknown /\ pos s' = 1
    /\ diagnostics s' = [mkDiagnostic "Invalid character" 0 0].
Proof.
  destruct (scan_terminates_and_advances
              (setOnError true (set_end 1 (set_text (js "#") initial))))
    as (s' & Es & _ & U).
  exists s'. split; [exact Es |].
  apply U.
  - simpl. lia.
  - split; [| reflexivity].
    vm_compute. intuition discriminate.
Defined.
(** *** Token positions and the text range *)

(** [n] calls of [scan] in a row. *)
Fixpoint scanTimes (n : nat) (s : t) : option t :=
  match n with
  | O => Some s
  | S n' =>
      match scan s with
      | Some s' => scanTimes n' s'
      | None => None
      end
  end.

(** C8: with a range that stops before the end of the text, [scan] runs
    past it.  In the text "123" restricted to its first character by
    [setTextRange], the loop over the digits goes on to the end of the
    text: [pos] ends at 3 with [end] at 1, and the token text is "123",
    of which only "1" lies in the range.  The loop over the characters of
    an identifier does stop at [end]: in "abc" restricted in the same way
    the token text is "a" and [pos] ends at 1. *)
Lemma scan_leaves_restricted_range :
  (exists s1 s2 s',
     resetText (js "123") initial = Ok tt s1
     /\ setTextRange 0 (Some 1) s1 = Ok tt s2
     /\ scan s2 = Some s'
     /\ token s' = NumericLiteral
     /\ tokenText s' = js "123"
     /\ end_ s' = 1 /\ pos s' = 3)
  /\ (exists s1 s2 s',
        resetText (js "abc") initial = Ok tt s1
        /\ setTextRange 0 (Some 1) s1 = Ok tt s2
        /\ scan s2 = Some s'
        /\ token s' = Identifier
        /\ tokenText s' = js "a"
        /\ end_ s' = 1 /\ pos s' = 1).
Proof.
  split.
  - eexists; eexists; eexists.
    split; [vm_compute; reflexivity |].
    split; [vm_compute; reflexivity |].
    split; [vm_compute; reflexivity |].
    vm_compute. repeat split.
  - eexists; eexists; eexists.
    split; [vm_compute; reflexivity |].
    split; [vm_compute; reflexivity |].
    split; [vm_compute; reflexivity |].
    vm_compute. repeat split.
Qed.

(** Where the tokens lie, in any range: after one call of [scan] or more
    from a position that is not negative, the text and [end] are what
    they were, the token text is the substring of the text from
    [tokenPos] to [pos], and [startPos], [tokenPos] and [pos] come in
    this order, none before the position the scans started from.  When
    the range ends where the text ends and the scans started inside it,
    [pos] does not pass [end]. *)
Theorem token_positions (n : nat) :
  forall s : t,
    0 <= pos s ->
    exists s',
      scanTimes (S n) s = Some s'
      /\ text s' = text s /\ end_ s' = end_ s
      /\ tokenText s' = substring (text s) (tokenPos s') (pos s')
      /\ pos s <= startPos s' <= tokenPos s'
      /\ tokenPos s' <= pos s'
      /\ (pos s <= end_ s -> end_ s = jslength (text s) -> pos s' <= end_ s).
Proof.
  induction n as [| n IH]; intros s P.
  - destruct (scan_spec s) as (s' & Es & T' & E' & S' & K' & _ & _ & B).
    exists s'. simpl. rewrite Es.
    unfold tokenText. rewrite T'.
    repeat split; try assumption; try lia.
  - destruct (scan_spec s) as (s1 & E1 & T1 & En1 & S1 & K1 & _ & _ & B1).
    destruct (IH s1) as (s' & Es & T' & E' & Tx & S' & K' & B'); [lia |].
    exists s'. change (scanTimes (S (S n)) s)
      with (match scan s with
            | Some s0 => scanTimes (S n) s0
            | None => None
            end).
    rewrite E1. split; [exact Es |].
    rewrite T', E', T1, En1 in *.
    repeat split; try assumption; try lia.
Qed.

(** The second token of "ab cd", from the position after the first. *)
Lemma token_positions_witness :
  exists s',
    scanTimes 1 (mk (js "ab cd") 0 0 2 5 Identifier (Str (js "ab")) 0 false [])
    = Some s'
    /\ tokenText s' = substring (js "ab cd") (tokenPos s') (pos s')
    /\ 2 <= startPos s' <= tokenPos s'
    /\ tokenPos s' <= pos s'
    /\ pos s' <= 5.
Proof.
  destruct (token_positions 0
              (mk (js "ab cd") 0 0 2 5 Identifier (Str (js "ab")) 0 false []))
    as (s' & E & _ & _ & Tx & S & K & B).
  - simpl. lia.
  - exists s'. repeat split; try assumption; try apply S.
    apply B; [simpl; lia | reflexivity].
Defined.

(** *** Unterminated strings *)

Lemma charCodeAt_app (pre : jsstring) (c : Z) (rest : jsstring) :
  charCodeAt (pre ++ c :: rest) (jslength pre) = c.
Proof.
  unfold charCodeAt, jslength.
  destruct (Z.ltb_spec (Z.of_nat (List.length pre)) 0); [lia |].
  rewrite Nat2Z.id, app_nth2 by lia.
  rewrite Nat.sub_diag. reflexivity.
Qed.

Lemma charCodeAt_app_end (pre : jsstring) :
  charCodeAt pre (jslength pre) = NaN.
Proof.
  unfold charCodeAt, jslength.
  destruct (Z.ltb_spec (Z.of_nat (List.length pre)) 0); [lia |].
  rewrite Nat2Z.id. apply nth_overflow. lia.
Qed.

Lemma substring_middle (a b c : jsstring) :
  substring (a ++ b ++ c) (jslength a) (jslength a + jslength b) = b.
Proof.
  unfold substring, clampIndex, jslength.
  rewrite !length_app.
  rewrite !Nat2Z.inj_add.
  set (la := Z.of_nat (List.length a)).
  set (lb := Z.of_nat (List.length b)).
  set (lc := Z.of_nat (List.length c)).
  assert (0 <= la /\ 0 <= lb /\ 0 <= lc) as (Ha & Hb & Hc)
    by (unfold la, lb, lc; lia).
  replace (Z.min (Z.min (Z.max la 0) (la + (lb + lc)))
                 (Z.min (Z.max (la + lb) 0) (la + (lb + lc)))) with la by lia.
  replace (Z.max (Z.min (Z.max la 0) (la + (lb + lc)))
                 (Z.min (Z.max (la + lb) 0) (la + (lb + lc)))) with (la + lb) by lia.
  replace (la + lb - la) with lb by lia.
  unfold la, lb. rewrite !Nat2Z.id.
  rewrite skipn_app, skipn_all, Nat.sub_diag. simpl.
  rewrite firstn_app, firstn_all, Nat.sub_diag. simpl.
  apply app_nil_r.
Qed.

Lemma set_pos_same (s : t) (p : Z) : p = pos s -> set_pos p s = s.
Proof. intros ->. destruct s; reflexivity. Qed.

(** A character that neither ends nor escapes in a string quoted by [q]. *)
Definition ordinary (q c : Z) : Prop :=
  c <> q /\ c <> CharacterCodes.backslash /\ isLineBreak c = false.

(** What may follow the characters of a string that is not closed: the
    end of the text, or a line break. *)
Definition breaksOff (tail : jsstring) : Prop :=
  tail = [] \/ exists lb rest, tail = lb :: rest /\ isLineBreak lb = true.

Lemma scanStringLoop_unterminated (todo : jsstring) :
  forall fuel q result start s pre tail,
    text s = pre ++ todo ++ tail ->
    pos s = jslength pre ->
    end_ s = jslength (text s) ->
    isLineBreak q = false ->
    Forall (ordinary q) todo ->
    breaksOff tail ->
    (List.length todo < fuel)%nat ->
    scanStringLoop fuel q result start s
    = Some (result ++ substring (text s) start (pos s + jslength todo),
            error "Unterminated string literal"
              (set_pos (pos s + jslength todo) s)).
Proof.
  induction todo as [| c todo IH];
    intros fuel q result start s pre tail T P E Q O B F;
    (destruct fuel as [| fuel]; [simpl in F; lia |]).
  - simpl app in T. change (jslength []) with 0. rewrite Z.add_0_r.
    rewrite set_pos_same by reflexivity.
    simpl scanStringLoop.
    destruct B as [-> | (lb & rest & -> & L)].
    + rewrite app_nil_r in T.
      replace (pos s >=? end_ s) with true; [reflexivity |].
      symmetry. rewrite Z.geb_leb. apply Z.leb_le. rewrite E, P, T. lia.
    + replace (pos s >=? end_ s) with false.
      2:{ symmetry. rewrite Z.geb_leb. apply Z.leb_gt.
          rewrite E, P, T. unfold jslength. rewrite length_app. simpl. lia. }
      rewrite T, P, charCodeAt_app.
      replace (lb =? q) with false.
      2:{ symmetry. apply Z.eqb_neq. intros ->. congruence. }
      replace (lb =? CharacterCodes.backslash) with false.
      2:{ symmetry. apply Z.eqb_neq. intros ->. discriminate L. }
      rewrite L. reflexivity.
  - inversion O as [| c' todo' (N1 & N2 & N3) O']; subst c' todo'.
    simpl scanStringLoop.
    replace (pos s >=? end_ s) with false.
    2:{ symmetry. rewrite Z.geb_leb. apply Z.leb_gt.
        rewrite E, P, T. unfold jslength. rewrite length_app. simpl. lia. }
    assert (C : charCodeAt (text s) (pos s) = c).
    { rewrite T, P. simpl. apply charCodeAt_app. }
    rewrite C.
    replace (c =? q) with false by (symmetry; apply Z.eqb_neq; exact N1).
    replace (c =? CharacterCodes.backslash) with false
      by (symmetry; apply Z.eqb_neq; exact N2).
    rewrite N3.
    rewrite (IH fuel q result start (set_pos (pos s + 1) s) (pre ++ [c]) tail).
    + simpl. f_equal. unfold jslength. simpl length.
      replace (pos s + 1 + Z.of_nat (List.length todo))
        with (pos s + Z.of_nat (S (List.length todo))) by lia.
      reflexivity.
    + simpl. rewrite T. rewrite <- app_assoc. reflexivity.
    + simpl. rewrite P. unfold jslength. rewrite length_app. simpl. lia.
    + exact E.
    + exact Q.
    + exact O'.
    + exact B.
    + simpl in F. lia.
Qed.

Lemma codePointAt_small (l : jsstring) (i : Z) :
  charCodeAt l i < 55296 -> codePointAt l i = charCodeAt l i.
Proof.
  intros H. unfold codePointAt.
  destruct (Z.leb_spec 55296 (charCodeAt l i)); [lia | reflexivity].
Qed.

Lemma scanStep_unterminated (s : t) (pre body tail : jsstring) (q : Z) :
  q = CharacterCodes.singleQuote \/ q = CharacterCodes.doubleQuote ->
  text s = pre ++ q :: body ++ tail ->
  pos s = jslength pre ->
  end_ s = jslength (text s) ->
  Forall (ordinary q) body ->
  breaksOff tail ->
  scanStep s
  = Some (Return
            (set_token StringLiteral
               (set_tokenValue (Str body)
                  (error "Unterminated string literal"
                     (set_pos (pos s + 1 + jslength body)
                        (set_tokenPos (pos s) s)))))).
Proof.
  intros Hq T P E O B.
  assert (C : charCodeAt (text s) (pos s) = q)
    by (rewrite T, P; apply charCodeAt_app).
  assert (L : pos s < end_ s).
  { rewrite E, P, T. unfold jslength. rewrite length_app. simpl. lia. }
  assert (S1 : scanString (set_tokenPos (pos s) s)
               = Some (body, error "Unterminated string literal"
                               (set_pos (pos s + 1 + jslength body)
                                  (set_tokenPos (pos s) s)))).
  { unfold scanString. cbv zeta.
    rewrite (scanStringLoop_unterminated body _ _ _ _ _ (pre ++ [q]) tail).
    - simpl. f_equal. f_equal.
      rewrite T, P.
      replace (pre ++ q :: body ++ tail) with ((pre ++ [q]) ++ body ++ tail)
        by (rewrite <- app_assoc; reflexivity).
      replace (jslength pre + 1) with (jslength (pre ++ [q]))
        by (unfold jslength; rewrite length_app; simpl; lia).
      apply substring_middle.
    - simpl. rewrite T, <- app_assoc. reflexivity.
    - simpl. rewrite P. unfold jslength. rewrite length_app. simpl. lia.
    - exact E.
    - simpl. rewrite C. destruct Hq as [-> | ->]; reflexivity.
    - simpl. rewrite C. exact O.
    - exact B.
    - simpl. rewrite E, P, T. unfold jslength.
      rewrite !length_app. simpl. rewrite length_app. lia. }
  unfold scanStep. cbv zeta. rewrite S1.
  replace (pos (set_tokenPos (pos s) s) >=? end_ (set_tokenPos (pos s) s))
    with false by (simpl; symmetry; rewrite Z.geb_leb; apply Z.leb_gt; exact L).
  change (text (set_tokenPos (pos s) s)) with (text s).
  change (pos (set_tokenPos (pos s) s)) with (pos s).
  rewrite codePointAt_small
    by (rewrite C; destruct Hq as [-> | ->]; reflexivity).
  rewrite C.
  destruct Hq as [-> | ->]; reflexivity.
Qed.

(** C7: a string that is opened by a quote and whose characters run, with
    no closing quote and no backslash, to the end of the text or to a line
    break: [scan] returns a [StringLiteral] whose value is the characters
    read so far, stops at the point where the string broke off, and
    reports "Unterminated string literal" there to the callback. *)
Theorem scan_unterminated_string (s : t) (pre body tail : jsstring) (q : Z) :
  q = CharacterCodes.singleQuote \/ q = CharacterCodes.doubleQuote ->
  text s = pre ++ q :: body ++ tail ->
  pos s = jslength pre ->
  end_ s = jslength (text s) ->
  Forall (ordinary q) body ->
  breaksOff tail ->
  exists s',
    scan s = Some s'
    /\ token s' = StringLiteral
    /\ tokenValue s' = Str body
    /\ pos s' = pos s + 1 + jslength body
    /\ diagnostics s'
       = if onError s
         then diagnostics s
              ++ [mkDiagnostic "Unterminated string literal"
                    (pos s + 1 + jslength body) 0]
         else diagnostics s.
Proof.
  intros Hq T P E O B.
  eexists. split.
  - unfold scan. simpl scanLoop.
    rewrite (scanStep_unterminated _ pre body tail q); try assumption.
    reflexivity.
  - unfold error. simpl. destruct (onError s); simpl; repeat split.
Qed.

(** The text ['abc], scanned from its start with a callback registered. *)
Lemma scan_unterminated_string_witness :
  exists s',
    scan (setOnError true (set_end 4 (set_text (js "'abc") initial))) = Some s'
    /\ token s' = StringLiteral
    /\ tokenValue s' = Str (js "abc")
    /\ pos s' = 4
    /\ diagnostics s' = [mkDiagnostic "Unterminated string literal" 4 0].
Proof.
  apply (scan_unterminated_string
           (setOnError true (set_end 4 (set_text (js "'abc") initial)))
           [] (js "abc") [] CharacterCodes.singleQuote).
  - left; reflexivity.
  - reflexivity.
  - reflexivity.
  - reflexivity.
  - repeat constructor; discriminate.
  - left; reflexivity.
Defined.

(** The same with a line feed after ['ab]: the token is the string "ab",
    and the cursor stays on the line feed. *)
Lemma scan_string_broken_by_line :
  scan (setOnError true
          (set_end 7 (set_text (js "'ab" ++ [10] ++ js "cd'") initial)))
  = Some (mk (js "'ab" ++ [10] ++ js "cd'") 0 0 3 7 StringLiteral
             (Str (js "ab")) TokenFlags.None true
             [mkDiagnostic "Unterminated string literal" 3 0]).
Proof. vm_compute. reflexivity. Qed.

(** *** Numeric literals *)

Lemma skipWhile_run (p : Z -> bool) (run tail : jsstring) (i : Z) :
  Forall (fun c => p c = true) run ->
  match tail with [] => True | c :: _ => p c = false end ->
  skipWhile p (run ++ tail) i = i + jslength run.
Proof.
  intros Hr Ht. revert i.
  induction Hr as [| c run Hc Hr IH]; intros i; simpl.
  - destruct tail as [| c tail]; simpl; [| rewrite Ht]; unfold jslength; simpl; lia.
  - rewrite Hc, IH. unfold jslength. simpl length. lia.
Qed.

Lemma skipn_jslength (pre rest : jsstring) :
  skipn (Z.to_nat (jslength pre)) (pre ++ rest) = rest.
Proof.
  unfold jslength. rewrite Nat2Z.id, skipn_app, skipn_all, Nat.sub_diag.
  reflexivity.
Qed.

Lemma advanceWhile_run (p : Z -> bool) (s : t) (pre run tail : jsstring) :
  text s = pre ++ run ++ tail ->
  pos s = jslength pre ->
  Forall (fun c => p c = true) run ->
  match tail with [] => True | c :: _ => p c = false end ->
  advanceWhile p s = set_pos (pos s + jslength run) s.
Proof.
  intros T P Hr Ht. unfold advanceWhile.
  destruct (Z.ltb_spec (pos s) 0) as [N | _];
    [rewrite P in N; unfold jslength in N; lia |].
  rewrite T, P, skipn_jslength, skipWhile_run by assumption.
  reflexivity.
Qed.

(** What may follow the digits of a literal that has neither a fraction
    nor an exponent. *)
Definition endsDigits (tail : jsstring) : Prop :=
  match tail with
  | [] => True
  | c :: _ =>
      isDigit c = false /\ c <> CharacterCodes.dot
      /\ c <> CharacterCodes.E /\ c <> CharacterCodes.e
  end.

Lemma charCodeAt_after (pre tail : jsstring) (c : Z) :
  0 <= c ->
  match tail with [] => True | d :: _ => d <> c end ->
  (charCodeAt (pre ++ tail) (jslength pre) =? c) = false.
Proof.
  intros Hc Ht. apply Z.eqb_neq.
  destruct tail as [| d tail].
  - rewrite app_nil_r, charCodeAt_app_end. unfold NaN. lia.
  - rewrite charCodeAt_app. exact Ht.
Qed.

Lemma scanNumber_plain (s : t) (pre digits tail : jsstring) :
  text s = pre ++ digits ++ tail ->
  pos s = jslength pre ->
  Forall (fun c => isDigit c = true) digits ->
  endsDigits tail ->
  Z.land (tokenFlags s) TokenFlags.Scientific = 0 ->
  scanNumber s = (Str digits, set_pos (pos s + jslength digits) s).
Proof.
  intros T P D Et F.
  assert (A : advanceWhile isDigit s = set_pos (pos s + jslength digits) s).
  { apply (advanceWhile_run isDigit s pre digits tail); try assumption.
    destruct tail; [exact I | apply Et]. }
  assert (L : jslength (pre ++ digits) = pos s + jslength digits)
    by (rewrite P; unfold jslength; rewrite length_app; lia).
  assert (T2 : text s = (pre ++ digits) ++ tail)
    by (rewrite T, app_assoc; reflexivity).
  assert (C : forall c, 0 <= c ->
              match tail with [] => True | d :: _ => d <> c end ->
              (charCodeAt (text s) (pos s + jslength digits) =? c) = false).
  { intros c Hc Hd. rewrite <- L, T2. apply charCodeAt_after; assumption. }
  unfold scanNumber, scanNumberFragment. cbv zeta. rewrite A. simpl.
  rewrite (C CharacterCodes.dot)
    by (try (destruct tail; [exact I | apply Et]); unfold CharacterCodes.dot; lia).
  simpl.
  rewrite (C CharacterCodes.E)
    by (try (destruct tail; [exact I | apply Et]); unfold CharacterCodes.E; lia).
  rewrite (C CharacterCodes.e)
    by (try (destruct tail; [exact I | apply Et]); unfold CharacterCodes.e; lia).
  simpl. rewrite F. simpl. f_equal. f_equal.
  rewrite T, P. apply substring_middle.
Qed.

(** How a decimal literal may start: with a digit from 1 to 9, or with a 0
    that no radix letter and no octal digit follows. *)
Definition decimalStart (digits tail : jsstring) : Prop :=
  match digits with
  | [] => False
  | d :: ds =>
      CharacterCodes._1 <= d <= CharacterCodes._9
      \/ d = CharacterCodes._0
         /\ match ds ++ tail with
            | [] => True
            | c :: _ =>
                isOctalDigit c = false
                /\ ~ In c [CharacterCodes.X; CharacterCodes.x; CharacterCodes.B;
                           CharacterCodes.b; CharacterCodes.O; CharacterCodes.o]
            end
  end.

Lemma scanStep_decimal (s : t) (pre digits tail : jsstring) :
  text s = pre ++ digits ++ tail ->
  pos s = jslength pre ->
  pos s < end_ s ->
  decimalStart digits tail ->
  Forall (fun c => isDigit c = true) digits ->
  endsDigits tail ->
  Z.land (tokenFlags s) TokenFlags.Scientific = 0 ->
  scanStep s
  = Some (Return
            (set_token NumericLiteral
               (set_tokenValue (Str digits)
                  (set_pos (pos s + jslength digits)
                     (set_tokenPos (pos s) s))))).
Proof.
  intros T P L S D Et F.
  assert (N : scanNumber (set_tokenPos (pos s) s)
              = (Str digits,
                 set_pos (pos s + jslength digits) (set_tokenPos (pos s) s)))
    by (apply (scanNumber_plain (set_tokenPos (pos s) s) pre digits tail);
        assumption).
  destruct digits as [| d ds]; [contradiction |].
  assert (C : charCodeAt (text s) (pos s) = d)
    by (rewrite T, P; apply charCodeAt_app).
  assert (Dd : CharacterCodes._0 <= d <= CharacterCodes._9).
  { inversion D as [| ? ? Hd _]; subst. unfold isDigit in Hd.
    apply andb_prop in Hd as [H1 H2].
    rewrite Z.geb_leb in H1. apply Z.leb_le in H1, H2. lia. }
  unfold scanStep. cbv zeta. rewrite N.
  replace (pos (set_tokenPos (pos s) s) >=? end_ (set_tokenPos (pos s) s))
    with false by (simpl; symmetry; rewrite Z.geb_leb; apply Z.leb_gt; exact L).
  change (text (set_tokenPos (pos s) s)) with (text s).
  change (pos (set_tokenPos (pos s) s)) with (pos s).
  change (end_ (set_tokenPos (pos s) s)) with (end_ s).
  rewrite codePointAt_small
    by (rewrite C; unfold CharacterCodes._9 in Dd; lia).
  rewrite C.
  destruct S as [S | (-> & S)].
  - unfold CharacterCodes._0, CharacterCodes._1, CharacterCodes._9 in *.
    assert (E : d = 49 \/ d = 50 \/ d = 51 \/ d = 52 \/ d = 53 \/ d = 54
                \/ d = 55 \/ d = 56 \/ d = 57) by lia.
    clear C N D Dd S T.
    repeat (destruct E as [-> | E]; [reflexivity |]). rewrite E. reflexivity.
  - assert (T2 : text s = (pre ++ [CharacterCodes._0]) ++ ds ++ tail)
      by (rewrite T, <- app_assoc; reflexivity).
    assert (P2 : pos s + 1 = jslength (pre ++ [CharacterCodes._0]))
      by (rewrite P; unfold jslength; rewrite length_app; simpl; lia).
    assert (X : forall c,
               In c [CharacterCodes.X; CharacterCodes.x; CharacterCodes.B;
                     CharacterCodes.b; CharacterCodes.O; CharacterCodes.o] ->
               (charCodeAt (text s) (pos s + 1) =? c) = false).
    { intros c Hc. rewrite T2, P2. apply charCodeAt_after.
      - simpl in Hc. unfold CharacterCodes.X, CharacterCodes.x, CharacterCodes.B,
          CharacterCodes.b, CharacterCodes.O, CharacterCodes.o in Hc.
        intuition lia.
      - destruct (ds ++ tail) as [| c' r]; [exact I |].
        intros ->. apply S. exact Hc. }
    assert (O : isOctalDigit (charCodeAt (text s) (pos s + 1)) = false).
    { rewrite T2, P2. destruct (ds ++ tail) as [| c' r].
      - rewrite app_nil_r, charCodeAt_app_end. reflexivity.
      - rewrite charCodeAt_app. apply S. }
    rewrite (X CharacterCodes.X), (X CharacterCodes.x), (X CharacterCodes.B),
      (X CharacterCodes.b), (X CharacterCodes.O), (X CharacterCodes.o)
      by (simpl; auto 10).
    rewrite O.
    rewrite !andb_false_r. reflexivity.
Qed.

(** The first token of a text: [resetText] and one [scan]. *)
Definition firstToken (txt : jsstring) : option t :=
  match resetText txt initial with
  | Ok _ s => scan s
  | _ => None
  end.

(** C6: the first token of "0x1A" is a numeric literal of value "26" with
    the flag [HexSpecifier]; of "0o17", "15" with [OctalSpecifier]; of
    "0755", "493" with [Octal]; of "1.5e2", "150" (with [Scientific]); and
    wherever the cursor stands on a decimal literal that has neither a
    fraction nor an exponent, [scan] returns a numeric literal whose value
    is the digits as they are written, and stops after them. *)
Theorem scan_numeric_literals :
  (exists s', firstToken (js "0x1A") = Some s'
              /\ token s' = NumericLiteral
              /\ tokenValue s' = Str (js "26")
              /\ tokenFlags s' = TokenFlags.HexSpecifier)
  /\ (exists s', firstToken (js "0o17") = Some s'
                 /\ token s' = NumericLiteral
                 /\ tokenValue s' = Str (js "15")
                 /\ tokenFlags s' = TokenFlags.OctalSpecifier)
  /\ (exists s', firstToken (js "0755") = Some s'
                 /\ token s' = NumericLiteral
                 /\ tokenValue s' = Str (js "493")
                 /\ tokenFlags s' = TokenFlags.Octal)
  /\ (exists s', firstToken (js "1.5e2") = Some s'
                 /\ token s' = NumericLiteral
                 /\ tokenValue s' = Str (js "150")
                 /\ tokenFlags s' = TokenFlags.Scientific)
  /\ (forall (s : t) (pre digits tail : jsstring),
        text s = pre ++ digits ++ tail ->
        pos s = jslength pre ->
        pos s < end_ s ->
        decimalStart digits tail ->
        Forall (fun c => isDigit c = true) digits ->
        endsDigits tail ->
        exists s', scan s = Some s'
                   /\ token s' = NumericLiteral
                   /\ tokenValue s' = Str digits
                   /\ tokenPos s' = pos s
                   /\ pos s' = pos s + jslength digits
                   /\ tokenFlags s' = TokenFlags.None).
Proof.
  split; [eexists; split; [vm_compute; reflexivity | repeat split] |].
  split; [eexists; split; [vm_compute; reflexivity | repeat split] |].
  split; [eexists; split; [vm_compute; reflexivity | repeat split] |].
  split; [eexists; split; [vm_compute; reflexivity | repeat split] |].
  intros s pre digits tail T P L S D Et.
  eexists. split.
  - unfold scan. simpl scanLoop.
    rewrite (scanStep_decimal _ pre digits tail); try assumption; reflexivity.
  - repeat split.
Qed.

(** The general part at the text "123;" and at the text "0". *)
Lemma scan_numeric_literals_witness :
  (exists s', firstToken (js "123;") = Some s'
              /\ token s' = NumericLiteral
              /\ tokenValue s' = Str (js "123")
              /\ tokenPos s' = 0 /\ pos s' = 3
              /\ tokenFlags s' = TokenFlags.None)
  /\ (exists s', firstToken (js "0") = Some s'
                 /\ token s' = NumericLiteral
                 /\ tokenValue s' = Str (js "0")
                 /\ tokenPos s' = 0 /\ pos s' = 1
                 /\ tokenFlags s' = TokenFlags.None).
Proof.
  destruct scan_numeric_literals as (_ & _ & _ & _ & G).
  split.
  - apply (G (set_tokenFlags TokenFlags.None
                (set_tokenValue undefined
                   (set_token Unknown
                      (set_tokenPos 0
                         (set_startPos 0
                            (set_pos 0
                               (set_end 4 (set_text (js "123;") initial))))))))
             [] (js "123") (js ";")).
    + reflexivity.
    + reflexivity.
    + reflexivity.
    + left. unfold CharacterCodes._1, CharacterCodes._9. simpl. lia.
    + repeat constructor.
    + repeat split; discriminate.
  - apply (G (set_tokenFlags TokenFlags.None
                (set_tokenValue undefined
                   (set_token Unknown
                      (set_tokenPos 0
                         (set_startPos 0
                            (set_pos 0
                               (set_end 1 (set_text (js "0") initial))))))))
             [] (js "0") []).
    + reflexivity.
    + reflexivity.
    + reflexivity.
    + right. split; [reflexivity | exact I].
    + repeat constructor.
    + exact I.
Defined.

(** *** Keyword tokens *)

(** The value that comes with a keyword token. *)
Definition keywordValue (s' : t) : Prop :=
  tokenValue s' = Str (tokenText s')
  /\ checkReservedWord (tokenText s') = token s'.

Ltac keyword_leaf :=
  let H := fresh "H" in
  let K := fresh "K" in
  intros H K;
  first
    [ discriminate H
    | injection H as <-; simpl in K; discriminate K
    | injection H as <-; split; reflexivity ].

Lemma scanStep_keyword (s s' : t) :
  scanStep s = Some (Return s') ->
  (kindCode SyntaxKindMarker.FirstKeyword <=? kindCode (token s')) = true ->
  keywordValue s'.
Proof.
  unfold scanStep. cbv zeta.
  set (s0 := set_tokenPos (pos s) s).
  repeat match goal with
  | |- (if ?c then _ else _) = Some _ -> _ => destruct c eqn:?
  end;
  clear_false;
  unfold produce, scanRadix, numericLiteral;
  repeat match goal with
  | |- context [match ?x with _ => _ end] => destruct x
  end;
  keyword_leaf.
Qed.

Lemma scanLoop_last (fuel : nat) :
  forall s s', scanLoop fuel s = Some s' ->
               exists s1, scanStep s1 = Some (Return s').
Proof.
  induction fuel as [| fuel IH]; intros s s' H; [discriminate |].
  simpl in H. destruct (scanStep s) as [[s1 | s1] |] eqn:E; try discriminate.
  - apply IH in H. exact H.
  - injection H as <-. exists s. exact E.
Qed.

Lemma scan_keyword (s s' : t) :
  scan s = Some s' ->
  (kindCode SyntaxKindMarker.FirstKeyword <=? kindCode (token s')) = true ->
  keywordValue s'.
Proof.
  intros H K. unfold scan in H.
  apply scanLoop_last in H as (s1 & H).
  exact (scanStep_keyword s1 s' H K).
Qed.
End ScannerFacts.

(** * Properties of the parser *)

Module ParserFacts.
Import Parser.

#[local] Arguments Scanner.scan : simpl never.

(** The parser state when [parseSourceFile] starts on a text. *)
Definition startOn (txt : jsstring) : State :=
  match initializeState txt initial with
  | Ok _ st => st
  | _ => initial
  end.

Lemma nextToken_inv (st0 st : State) (k : SyntaxKind) :
  nextToken st0 = Ok k st ->
  exists sc,
    Scanner.scan (scanner st0) = Some sc
    /\ k = Scanner.token sc
    /\ st = set_token (Scanner.token sc) (set_scanner sc st0).
Proof.
  unfold nextToken. destruct (Scanner.scan (scanner st0)) as [sc |];
    [| discriminate].
  intros H. injection H as <- <-. exists sc. repeat split.
Qed.

Lemma nextToken_returns (st : State) :
  exists sc,
    Scanner.scan (scanner st) = Some sc
    /\ nextToken st
       = Ok (Scanner.token sc) (set_token (Scanner.token sc) (set_scanner sc st)).
Proof.
  destruct (ScannerFacts.scan_spec (scanner st)) as (sc & E & _).
  exists sc. split; [exact E |]. unfold nextToken. rewrite E. reflexivity.
Qed.

Lemma checkReservedWord_keyword (v : jsstring) (k : SyntaxKind) :
  checkReservedWord v = k ->
  kindCode SyntaxKindMarker.FirstKeyword <= kindCode k ->
  textToKeyword v = Some k.
Proof.
  unfold checkReservedWord. cbv zeta. intros H K.
  destruct (_ && _); [| subst k; simpl in K; lia].
  destruct (textToKeyword v) as [k' |]; [congruence |].
  subst k; simpl in K; lia.
Qed.

(** Let [nextToken] have returned the token [k].  If [k] lies above
    [LastReservedWord], the scanner's [isIdentifier] is true, [k] is the
    keyword that the token text spells, and [parseIdentifier] returns an
    [Identifier] node whose text is that token text and whose
    [originalKeywordKind] is [k]; the node runs from [startPos] to the end
    of the token, one node is counted, the token is consumed and nothing
    else changes.  If [k] is a reserved word, [isIdentifier] is false and
    [parseIdentifier] prints "Identifier expected, but got" with the name
    of [k], consumes no token, counts one node and returns an [Identifier]
    node whose text is empty, of length 0 at [startPos]. *)
Theorem parseIdentifier_keywords (st0 st : State) (k : SyntaxKind) :
  nextToken st0 = Ok k st ->
  (kindCode k > kindCode SyntaxKindMarker.LastReservedWord ->
   Scanner.isIdentifier (scanner st) = true
   /\ textToKeyword (Scanner.tokenText (scanner st)) = Some k
   /\ exists node sc',
        Scanner.scan (scanner st) = Some sc'
        /\ parseIdentifier st
           = Ok node
               (set_token (Scanner.token sc')
                  (set_scanner sc' (set_nodeCount (nodeCount st + 1) st)))
        /\ kindOf node = Some Identifier
        /\ textOf node = Some (Str (Scanner.tokenText (scanner st)))
        /\ prop "originalKeywordKind" node = Some (VKind k)
        /\ prop "pos" node = Some (VNum (Scanner.startPos (scanner st)))
        /\ prop "end" node = Some (VNum (Scanner.pos (scanner st))))
  /\ (kindCode SyntaxKindMarker.FirstReservedWord <= kindCode k
      <= kindCode SyntaxKindMarker.LastReservedWord ->
      Scanner.isIdentifier (scanner st) = false
      /\ exists node,
           parseIdentifier st
           = Ok node
               (set_nodeCount (nodeCount st + 1)
                  (set_console
                     (console st
                      ++ [(("Identifier expected, but got " ++ kindName k)%string,
                           Scanner.tokenPos (scanner st))]) st))
           /\ kindOf node = Some Identifier
           /\ textOf node = Some (Str [])
           /\ prop "originalKeywordKind" node = None
           /\ prop "pos" node = Some (VNum (Scanner.startPos (scanner st)))
           /\ prop "end" node = Some (VNum (Scanner.startPos (scanner st)))).
Proof.
  intros H. apply nextToken_inv in H as (sc & E & -> & ->).
  change (scanner (set_token (Scanner.token sc) (set_scanner sc st0))) with sc.
  split.
  - intros K. simpl in K.
    assert (KV : ScannerFacts.keywordValue sc).
    { apply (ScannerFacts.scan_keyword _ _ E). apply Z.leb_le. simpl. lia. }
    destruct KV as (V & C).
    assert (NI : kind_eqb (Scanner.token sc) Identifier = false)
      by (apply Z.eqb_neq; simpl; lia).
    assert (I : Scanner.isIdentifier sc = true).
    { unfold Scanner.isIdentifier. rewrite NI. simpl. apply Z.gtb_lt. lia. }
    split; [exact I |].
    split; [apply checkReservedWord_keyword; [exact C | simpl; lia] |].
    destruct (ScannerFacts.scan_spec sc) as (sc' & E' & _ & _ & S' & _).
    unfold parseIdentifier. cbn. rewrite I. cbn. rewrite NI. cbn.
    unfold bind at 1, nextToken. cbn. rewrite E'. cbn. rewrite V, S'.
    destruct (contextFlags st0 =? 0); cbn;
      eexists; exists sc'; (split; [reflexivity |]);
      (split; [reflexivity |]); repeat split.
  - intros K. simpl in K.
    assert (I : Scanner.isIdentifier sc = false).
    { unfold Scanner.isIdentifier. apply orb_false_iff. split.
      - apply Z.eqb_neq. simpl. lia.
      - simpl. rewrite Z.gtb_ltb. apply Z.ltb_ge. lia. }
    split; [exact I |].
    unfold parseIdentifier. cbn. rewrite I. cbn.
    destruct (contextFlags st0 =? 0); cbn;
      eexists; (split; [reflexivity |]); repeat split.
Qed.

(** The text "state": its first token is the contextual keyword [state],
    and [parseIdentifier] makes an identifier of it. *)
Lemma parseIdentifier_keywords_witness :
  exists st node st',
    nextToken (startOn (js "state")) = Ok StateKeyword st
    /\ Scanner.isIdentifier (scanner st) = true
    /\ parseIdentifier st = Ok node st'
    /\ kindOf node = Some Identifier
    /\ textOf node = Some (Str (js "state"))
    /\ prop "originalKeywordKind" node = Some (VKind StateKeyword).
Proof.
  destruct (nextToken (startOn (js "state"))) as [k st | e st |] eqn:E;
    [| vm_compute in E; discriminate E ..].
  destruct (parseIdentifier_keywords _ _ _ E) as [A _].
  assert (Hk : k = StateKeyword /\ Scanner.tokenText (scanner st) = js "state").
  { vm_compute in E. injection E as <- <-. split; reflexivity. }
  destruct Hk as (-> & Ht).
  destruct A as (I & _ & node & sc' & _ & P1 & P2 & P3 & P4 & _); [simpl; lia |].
  exists st, node. eexists. rewrite <- Ht.
  split; [reflexivity |]. split; [exact I |]. split; [exact P1 |].
  repeat split; assumption.
Defined.

(** A reserved word in the same place: the text "while". *)
Lemma parseIdentifier_reserved_word :
  exists st node st',
    nextToken (startOn (js "while")) = Ok WhileKeyword st
    /\ parseIdentifier st = Ok node st'
    /\ textOf node = Some (Str [])
    /\ console st' = [("Identifier expected, but got WhileKeyword", 0)]
    /\ token st' = WhileKeyword.
Proof.
  do 3 eexists. split; [vm_compute; reflexivity |].
  split; [vm_compute; reflexivity |].
  repeat split.
Qed.

(** *** Checkpoints *)

(** What a checkpoint of the scanner covers: the end of the range, the
    three positions, and the token with its value and flags. *)
Definition observable (sc : Scanner.t)
  : Z * Z * Z * Z * SyntaxKind * TokenValue * Z :=
  (Scanner.end_ sc, Scanner.pos sc, Scanner.startPos sc, Scanner.tokenPos sc,
   Scanner.token sc, Scanner.tokenValue sc, Scanner.tokenFlags sc).

Lemma observable_restore (saved current : Scanner.t) :
  observable (Scanner.restore saved current) = observable saved.
Proof. reflexivity. Qed.

Section ScannerCheckpoint.
Variable W : Type.
Variable scannerOf : W -> Scanner.t.
Variable withScanner : Scanner.t -> W -> W.
Hypothesis scannerOf_withScanner :
  forall sc w, scannerOf (withScanner sc w) = sc.

(** [lookAhead] of the scanner returns exactly when its callback does,
    with the callback's value, and puts the saved variables back. *)
Lemma scanner_lookAhead_spec (T : Type) (cb : M W T) (w w' : W) (r : T) :
  Scanner.lookAhead W scannerOf withScanner cb w = Ok r w' <->
  exists w1,
    cb w = Ok r w1
    /\ w' = withScanner (Scanner.restore (scannerOf w) (scannerOf w1)) w1.
Proof.
  unfold Scanner.lookAhead. split.
  - destruct (cb w) as [r1 w1 | e w1 |]; try discriminate.
    intros H. injection H as <- <-. exists w1. split; reflexivity.
  - intros (w1 & -> & ->). reflexivity.
Qed.

Lemma scanner_lookAhead_restores (T : Type) (cb : M W T) (w w' : W) (r : T) :
  Scanner.lookAhead W scannerOf withScanner cb w = Ok r w' ->
  observable (scannerOf w') = observable (scannerOf w).
Proof.
  intros H. apply scanner_lookAhead_spec in H as (w1 & _ & ->).
  rewrite scannerOf_withScanner. apply observable_restore.
Qed.
End ScannerCheckpoint.

(** [lookAhead] of the parser returns when the callback returns and has
    left [contextFlags] as they were. *)
Lemma lookAhead_returns {T : Type} (truthy : T -> bool) (cb : P T)
    (st st1 : State) (r : T) :
  cb st = Ok r st1 ->
  contextFlags st1 = contextFlags st ->
  lookAhead truthy cb st
  = Ok r (set_token (token st)
            (set_scanner (Scanner.restore (scanner st) (scanner st1)) st1)).
Proof.
  intros H C. unfold lookAhead, protectContextHelper, Scanner.lookAhead.
  cbn. unfold bind at 1. rewrite H. cbn. rewrite C, Z.eqb_refl. cbn.
  rewrite orb_true_r. reflexivity.
Qed.

(** When [lookAhead] returns, whatever its callback did and returned,
    the end of the range, [pos], [startPos], [tokenPos], the token, its
    value and its flags in the scanner, and the parser's own [token], are
    what they were before the call; and the value returned is the
    callback's. *)
Theorem lookAhead_restores {T : Type} (truthy : T -> bool) (cb : P T)
    (st st' : State) (r : T) :
  lookAhead truthy cb st = Ok r st' ->
  Scanner.end_ (scanner st') = Scanner.end_ (scanner st)
  /\ Scanner.pos (scanner st') = Scanner.pos (scanner st)
  /\ Scanner.startPos (scanner st') = Scanner.startPos (scanner st)
  /\ Scanner.tokenPos (scanner st') = Scanner.tokenPos (scanner st)
  /\ Scanner.token (scanner st') = Scanner.token (scanner st)
  /\ Scanner.tokenValue (scanner st') = Scanner.tokenValue (scanner st)
  /\ Scanner.tokenFlags (scanner st') = Scanner.tokenFlags (scanner st)
  /\ token st' = token st
  /\ exists st1, cb st = Ok r st1.
Proof.
  unfold lookAhead, protectContextHelper. cbn. unfold bind at 1.
  destruct (Scanner.lookAhead State scanner set_scanner cb st)
    as [r1 st2 | e st2 |] eqn:E; try discriminate.
  pose proof (scanner_lookAhead_restores State scanner set_scanner
                (fun _ _ => eq_refl) T cb st st2 r1 E) as O.
  apply scanner_lookAhead_spec in E as (st1 & E1 & _).
  cbn. destruct (contextFlags st =? contextFlags st2); cbn; try discriminate.
  rewrite orb_true_r. cbn. intros H. injection H as <- <-.
  unfold observable in O. injection O as O1 O2 O3 O4 O5 O6 O7.
  cbn. repeat split; try assumption. exists st1. exact E1.
Qed.

(** Looking one token ahead in the text "a b": the callback moves the
    scanner to [b], and [lookAhead] returns with the scanner on [a]. *)
Lemma lookAhead_restores_witness :
  exists st st1 st',
    nextToken (startOn (js "a b")) = Ok Identifier st
    /\ nextToken st = Ok Identifier st1
    /\ Scanner.pos (scanner st1) = 3
    /\ lookAhead truthyKind nextToken st = Ok Identifier st'
    /\ Scanner.pos (scanner st') = 1
    /\ Scanner.tokenValue (scanner st') = Str (js "a")
    /\ token st' = Identifier.
Proof.
  destruct (nextToken (startOn (js "a b"))) as [k st | |] eqn:E0;
    [| vm_compute in E0; discriminate E0 ..].
  destruct (lookAhead truthyKind nextToken st) as [k' st' | |] eqn:E;
    [| vm_compute in E0; injection E0 as <- <-;
       vm_compute in E; discriminate E ..].
  destruct (lookAhead_restores _ _ _ _ _ E)
    as (_ & P1 & _ & _ & _ & P2 & _ & P3 & st1 & E1).
  exists st, st1, st'.
  vm_compute in E0. injection E0 as <- <-.
  assert (K : k' = Identifier /\ Scanner.pos (scanner st1) = 3).
  { vm_compute in E1. injection E1 as <- <-. split; reflexivity. }
  destruct K as (-> & K).
  repeat split; try assumption; try reflexivity.
Defined.

(** C4: the checkpoint law.  When [lookAhead] returns, whatever its
    callback did and whatever value it returned, the scanner's observable
    state (the end of the range, [pos], [startPos], [tokenPos], the token,
    its value and its flags) and the parser's own [token] are what they
    were before the call.  The state is the one the callback left with
    these put back, and the value is the callback's. *)
Theorem lookAhead_checkpoint_law {T : Type} (truthy : T -> bool) (cb : P T)
    (st st' : State) (r : T) :
  lookAhead truthy cb st = Ok r st' ->
  observable (scanner st') = observable (scanner st)
  /\ token st' = token st
  /\ exists st1,
       cb st = Ok r st1
       /\ st' = set_token (token st)
                  (set_scanner (Scanner.restore (scanner st) (scanner st1))
                     st1).
Proof.
  unfold lookAhead, protectContextHelper. cbn. unfold bind at 1.
  destruct (Scanner.lookAhead State scanner set_scanner cb st)
    as [r1 st2 | e st2 |] eqn:E; try discriminate.
  apply scanner_lookAhead_spec in E as (st1 & E1 & ->).
  cbn. destruct (contextFlags st =? contextFlags st1); cbn; try discriminate.
  rewrite orb_true_r. cbn. intros H. injection H as <- <-.
  split; [reflexivity |]. split; [reflexivity |].
  exists st1. split; [exact E1 | reflexivity].
Qed.

(** Looking two tokens ahead in the text "a + b": the callback leaves the
    scanner on [b], and [lookAhead] returns its value with the scanner
    back on [a]. *)
Lemma lookAhead_checkpoint_law_witness :
  exists st st',
    nextToken (startOn (js "a + b")) = Ok Identifier st
    /\ lookAhead truthyKind (nextToken ;;; nextToken)%m st = Ok Identifier st'
    /\ observable (scanner st') = observable (scanner st)
    /\ Scanner.tokenValue (scanner st') = Str (js "a")
    /\ token st' = Identifier.
Proof.
  destruct (nextToken (startOn (js "a + b"))) as [k st | |] eqn:E0;
    [| vm_compute in E0; discriminate E0 ..].
  destruct (lookAhead truthyKind (nextToken ;;; nextToken)%m st)
    as [k' st' | |] eqn:E;
    [| vm_compute in E0; injection E0 as <- <-;
       vm_compute in E; discriminate E ..].
  destruct (lookAhead_checkpoint_law _ _ _ _ _ E) as (O & K & st1 & E1 & _).
  exists st, st'.
  vm_compute in E0. injection E0 as <- <-.
  assert (F : k' = Identifier).
  { vm_compute in E1. injection E1 as <- _. reflexivity. }
  subst k'. split; [reflexivity |]. split; [exact E |].
  split; [exact O |]. split; [| exact K].
  unfold observable in O. cbn in O. injection O as _ _ _ _ _ V _. exact V.
Defined.

(** [tryParse] returns exactly when its callback returns and has left
    [contextFlags] alone; on a truthy value the state is the callback's,
    on a falsy one the scanner's saved variables and the parser's token
    are put back. *)
Theorem tryParse_keeps_or_restores {T : Type} (truthy : T -> bool) (cb : P T)
    (st st' : State) (r : T) :
  tryParse truthy cb st = Ok r st' <->
  exists st1,
    cb st = Ok r st1
    /\ contextFlags st1 = contextFlags st
    /\ st' = if truthy r then st1
             else set_token (token st)
                    (set_scanner (Scanner.restore (scanner st) (scanner st1)) st1).
Proof.
  unfold tryParse, protectContextHelper, Scanner.tryScan. cbn.
  unfold bind at 1. split.
  - destruct (cb st) as [r1 st1 | e st1 |]; try discriminate.
    destruct (truthy r1) eqn:Tr; cbn;
      (destruct (Z.eqb_spec (contextFlags st) (contextFlags st1)) as [C | C];
       cbn; [| discriminate]);
      rewrite Tr; cbn; intros H; injection H as <- <-;
      exists st1; rewrite Tr; repeat split; congruence.
  - intros (st1 & -> & C & ->).
    destruct (truthy r) eqn:Tr; cbn; rewrite C, Z.eqb_refl; cbn;
      rewrite Tr; reflexivity.
Qed.

(** When the callback has changed [contextFlags], both [lookAhead] and
    [tryParse] fail the assertion; the scanner has been handled already,
    the parser's token has not. *)
Theorem checkpoint_asserts_contextFlags {T : Type} (truthy : T -> bool)
    (cb : P T) (alwaysRestore : bool) (st st1 : State) (r : T) :
  cb st = Ok r st1 ->
  contextFlags st1 <> contextFlags st ->
  protectContextHelper truthy cb alwaysRestore st
  = Throw AssertionError
      (if alwaysRestore || negb (truthy r)
       then set_scanner (Scanner.restore (scanner st) (scanner st1)) st1
       else st1).
Proof.
  intros H C. unfold protectContextHelper, Scanner.lookAhead, Scanner.tryScan.
  cbn. unfold bind at 1.
  destruct alwaysRestore; rewrite H; [| destruct (truthy r)]; cbn;
    (destruct (Z.eqb_spec (contextFlags st) (contextFlags st1)) as [E | E];
     [congruence | reflexivity]).
Qed.

(** A callback that sets a context flag, under [lookAhead] in the text
    "a b". *)
Lemma checkpoint_asserts_contextFlags_witness :
  exists st',
    lookAhead truthyKind
      (modify (set_contextFlags 1) ;;; nextToken)%m (startOn (js "a b"))
    = Throw AssertionError st'
    /\ Scanner.pos (scanner st') = 0
    /\ contextFlags st' = 1.
Proof.
  destruct ((modify (set_contextFlags 1) ;;; nextToken)%m (startOn (js "a b")))
    as [k st1 | |] eqn:E; [| vm_compute in E; discriminate E ..].
  assert (C : contextFlags st1 <> contextFlags (startOn (js "a b")))
    by (vm_compute in E; injection E as _ <-; vm_compute; discriminate).
  pose proof (checkpoint_asserts_contextFlags truthyKind _ true _ _ _ E C) as H.
  eexists. split; [exact H |].
  vm_compute in E. injection E as _ <-. split; reflexivity.
Defined.

(** *** [scanRange] *)

Section ScanRange.
Variable W : Type.
Variable scannerOf : W -> Scanner.t.
Variable withScanner : Scanner.t -> W -> W.
Hypothesis scannerOf_withScanner :
  forall sc w, scannerOf (withScanner sc w) = sc.

(** The scanner that the callback of [scanRange] starts with. *)
Definition ranged (start length : Z) (sc : Scanner.t) : Scanner.t :=
  Scanner.mk (Scanner.text sc) start start start (start + length) Unknown
    undefined TokenFlags.None (Scanner.onError sc) (Scanner.diagnostics sc).

(** [scanRange] with a start that is not negative runs its callback on
    the range from [start] to [start + length], with no token yet; when
    the callback returns, [scanRange] returns its value and the
    scanner's saved variables are back.  With a negative start it fails
    the assertion before the callback runs, and [end] is left at
    [start + length]. *)
Theorem scanRange_spec (T : Type) (start length : Z) (cb : M W T) (w : W) :
  (0 <= start ->
   forall r w1,
     cb (withScanner (ranged start length (scannerOf w)) w) = Ok r w1 ->
     exists w',
       Scanner.scanRange W scannerOf withScanner start length cb w = Ok r w'
       /\ observable (scannerOf w') = observable (scannerOf w)
       /\ Scanner.text (scannerOf w') = Scanner.text (scannerOf w1)
       /\ Scanner.diagnostics (scannerOf w')
          = Scanner.diagnostics (scannerOf w1))
  /\ (start < 0 ->
      Scanner.scanRange W scannerOf withScanner start length cb w
      = Throw AssertionError
          (withScanner (Scanner.set_end (start + length) (scannerOf w)) w)).
Proof.
  unfold Scanner.scanRange, Scanner.setTextRange, Scanner.resetPos, assert.
  cbn. split.
  - intros Hs r w1 H.
    destruct (Z.geb_spec start 0) as [_ | N]; [| lia]. cbn.
    change (Scanner.set_tokenFlags _ _) with (ranged start length (scannerOf w)).
    rewrite H. eexists. split; [reflexivity |].
    rewrite scannerOf_withScanner. repeat split.
  - intros Hs. destruct (Z.geb_spec start 0) as [N | _]; [lia |]. reflexivity.
Qed.
End ScanRange.

(** [scanRange] over the scanner alone: one [scan] of the two characters
    from position 2 of the text "ab cd ef". *)
Lemma scanRange_spec_witness :
  exists sc sc',
    ScannerFacts.firstToken (js "ab cd ef") = Some sc
    /\ Scanner.scanRange Scanner.t (fun s => s) (fun s _ => s) 2 3
         (fun s => match Scanner.scan s with
                   | Some s' => Ok (Scanner.tokenValue s') s'
                   | None => OutOfFuel
                   end) sc
       = Ok (Str (js "cd")) sc'
    /\ observable sc' = observable sc.
Proof.
  destruct (ScannerFacts.firstToken (js "ab cd ef")) as [sc |] eqn:E;
    [| vm_compute in E; discriminate E].
  destruct (scanRange_spec Scanner.t (fun s => s) (fun s _ => s)
              (fun _ _ => eq_refl) TokenValue 2 3
              (fun s => match Scanner.scan s with
                        | Some s' => Ok (Scanner.tokenValue s') s'
                        | None => OutOfFuel
                        end) sc) as [A _].
  vm_compute in E. injection E as <-.
  match type of A with
  | _ -> forall r w1, ?c = _ -> _ =>
      destruct c as [r w1 | |] eqn:Ec; [| vm_compute in Ec; discriminate Ec ..]
  end.
  destruct (A ltac:(lia) r w1 eq_refl) as (sc' & R & O & _).
  assert (Hr : r = Str (js "cd"))
    by (vm_compute in Ec; injection Ec as <- _; reflexivity).
  subst r. eexists. exists sc'. split; [reflexivity |].
  split; [exact R | exact O].
Defined.

(** *** The walrus *)

Lemma tryParseWalrusDeclaration_none (R : Rec) (notParseSemicolon : bool)
    (st : State) :
  exists st' sc,
    tryParseWalrusDeclaration R notParseSemicolon st = Ok None st'
    /\ token st' = token st
    /\ observable (scanner st') = observable (scanner st)
    /\ nodeCount st' = nodeCount st
    /\ console st' = console st
    /\ Scanner.scan (scanner st) = Some sc
    /\ Scanner.diagnostics (scanner st')
       = if Scanner.isIdentifier (scanner st)
         then Scanner.diagnostics sc
         else Scanner.diagnostics (scanner st).
Proof.
  destruct (ScannerFacts.scan_spec (scanner st))
    as (sc & E & _ & _ & _ & _ & _ & N & _).
  unfold tryParseWalrusDeclaration. cbn.
  destruct (Scanner.isIdentifier (scanner st)); cbn;
    [| exists st, sc; repeat split; exact E].
  assert (L : lookAhead truthyBool
                (nextToken;;;
                 t <- gets token;; ret (negb (kind_eqb t ColonEqualsToken)))%m st
              = Ok true
                  (set_token (token st)
                     (set_scanner (Scanner.restore (scanner st) sc)
                        (set_token (Scanner.token sc) (set_scanner sc st))))).
  { apply (lookAhead_returns truthyBool _ st
             (set_token (Scanner.token sc) (set_scanner sc st)) true);
      [| reflexivity].
    unfold bind, nextToken. rewrite E. cbn.
    destruct (kind_eqb (Scanner.token sc) ColonEqualsToken) eqn:K;
      [exfalso | reflexivity].
    apply Z.eqb_eq in K. apply N.
    destruct (Scanner.token sc); try discriminate K. reflexivity. }
  unfold bind at 1. rewrite L. cbn. eexists. exists sc.
  repeat split. exact E.
Qed.

Lemma scanStep_colon_equals (s : Scanner.t) (pre tail : jsstring) :
  Scanner.text s = pre ++ [CharacterCodes.colon; CharacterCodes.equals] ++ tail ->
  Scanner.pos s = jslength pre ->
  Scanner.pos s < Scanner.end_ s ->
  Scanner.scanStep s
  = Some (Scanner.produce 2 ColonToken (Scanner.set_tokenPos (Scanner.pos s) s)).
Proof.
  intros T P L.
  assert (C : charCodeAt (Scanner.text s) (Scanner.pos s) = CharacterCodes.colon)
    by (rewrite T, P; apply ScannerFacts.charCodeAt_app).
  assert (C1 : charCodeAt (Scanner.text s) (Scanner.pos s + 1)
               = CharacterCodes.equals).
  { rewrite T, P.
    replace (pre ++ [CharacterCodes.colon; CharacterCodes.equals] ++ tail)
      with ((pre ++ [CharacterCodes.colon]) ++ CharacterCodes.equals :: tail)
      by (rewrite <- app_assoc; reflexivity).
    replace (jslength pre + 1) with (jslength (pre ++ [CharacterCodes.colon]))
      by (unfold jslength; rewrite length_app; simpl; lia).
    apply ScannerFacts.charCodeAt_app. }
  unfold Scanner.scanStep. cbv zeta.
  replace (Scanner.pos (Scanner.set_tokenPos (Scanner.pos s) s)
           >=? Scanner.end_ (Scanner.set_tokenPos (Scanner.pos s) s))
    with false by (simpl; symmetry; rewrite Z.geb_leb; apply Z.leb_gt; exact L).
  change (Scanner.text (Scanner.set_tokenPos (Scanner.pos s) s))
    with (Scanner.text s).
  change (Scanner.pos (Scanner.set_tokenPos (Scanner.pos s) s))
    with (Scanner.pos s).
  rewrite ScannerFacts.codePointAt_small by (rewrite C; reflexivity).
  rewrite C, C1. reflexivity.
Qed.

(** No call of [scan] returns [ColonEqualsToken]: the characters [:=] are
    scanned as one [ColonToken] two characters long.  So
    [tryParseWalrusDeclaration] returns [false] in every state, and
    leaves the token, the scanner's position and the node count as they
    were.  The parser's [error] prints nothing; the scanner's error
    callback has been called for what the scan of the next token reports
    when the current token is an identifier, and not at all when it is
    not. *)
Theorem walrus_is_never_recognised :
  (forall s, exists s',
      Scanner.scan s = Some s' /\ Scanner.token s' <> ColonEqualsToken)
  /\ (forall s pre tail,
        Scanner.text s
        = pre ++ [CharacterCodes.colon; CharacterCodes.equals] ++ tail ->
        Scanner.pos s = jslength pre ->
        Scanner.pos s < Scanner.end_ s ->
        exists s',
          Scanner.scan s = Some s'
          /\ Scanner.token s' = ColonToken
          /\ Scanner.tokenPos s' = Scanner.pos s
          /\ Scanner.pos s' = Scanner.pos s + 2)
  /\ (forall R notParseSemicolon st,
        exists st',
          tryParseWalrusDeclaration R notParseSemicolon st = Ok None st'
          /\ token st' = token st
          /\ observable (scanner st') = observable (scanner st)
          /\ nodeCount st' = nodeCount st
          /\ console st' = console st
          /\ exists sc,
               Scanner.scan (scanner st) = Some sc
               /\ Scanner.diagnostics (scanner st')
                  = if Scanner.isIdentifier (scanner st)
                    then Scanner.diagnostics sc
                    else Scanner.diagnostics (scanner st)).
Proof.
  split; [| split].
  - intros s.
    destruct (ScannerFacts.scan_spec s) as (s' & E & _ & _ & _ & _ & _ & N & _).
    exists s'. split; assumption.
  - intros s pre tail T P L. eexists. split.
    + unfold Scanner.scan. simpl Scanner.scanLoop.
      rewrite (scanStep_colon_equals _ pre tail); try assumption; reflexivity.
    + repeat split.
  - intros R notParseSemicolon st.
    destruct (tryParseWalrusDeclaration_none R notParseSemicolon st)
      as (st' & sc & P & T & O & Nc & C & E & D).
    exists st'. repeat split; try assumption.
    exists sc. split; assumption.
Qed.

(** *** Tokens and nodes *)

Lemma kindOfCode_kindCode (k : SyntaxKind) : kindOfCode (kindCode k) = Some k.
Proof. destruct k; reflexivity. Qed.

Lemma kind_eqb_eq (a b : SyntaxKind) : kind_eqb a b = true <-> a = b.
Proof.
  unfold kind_eqb. rewrite Z.eqb_eq. split; [| intros ->; reflexivity].
  intros H. apply (f_equal kindOfCode) in H.
  rewrite !kindOfCode_kindCode in H. congruence.
Qed.

Lemma kind_eqb_neq (a b : SyntaxKind) : kind_eqb a b = false <-> a <> b.
Proof.
  rewrite <- kind_eqb_eq. destruct (kind_eqb a b); split; congruence.
Qed.

(** The state after [nextToken] has consumed the token [sc] was scanned to. *)
Definition consumed (sc : Scanner.t) (st : State) : State :=
  set_token (Scanner.token sc) (set_scanner sc st).

(** [parseExpected] and [parseOptional]: when the current token is the
    kind asked for, both consume exactly that token and return [true];
    when it is not, neither moves the scanner, [parseOptional] is silent
    and [parseExpected] prints what it found and what it expected, with
    the position of the token found. *)
Theorem parseExpected_consumes_or_reports (kind : SyntaxKind) (st : State) :
  (token st = kind ->
   exists sc,
     Scanner.scan (scanner st) = Some sc
     /\ parseExpected kind st = Ok true (consumed sc st)
     /\ parseOptional kind st = Ok true (consumed sc st))
  /\ (token st <> kind ->
      parseExpected kind st
      = Ok false
          (set_console
             (console st
              ++ [(("Unexpected " ++ kindName (token st) ++ ", expected "
                    ++ kindName kind)%string,
                   Scanner.tokenPos (scanner st))]) st)
      /\ parseOptional kind st = Ok false st).
Proof.
  unfold parseExpected, parseOptional. cbn. split.
  - intros E. apply kind_eqb_eq in E. rewrite E.
    destruct (nextToken_returns st) as (sc & Es & N).
    exists sc. unfold bind. rewrite N. repeat split. exact Es.
  - intros E. apply kind_eqb_neq in E. rewrite E. split; reflexivity.
Qed.

(** [parseExpectedToken] reports a missing token by naming the expected
    kind twice (the token found is not in the message), returns
    [undefined] and creates no node; [parseOptionalToken] returns
    [undefined] in silence. *)
Theorem parseExpectedToken_reports_expected_kind_twice (t : SyntaxKind)
    (st : State) :
  token st <> t ->
  parseExpectedToken t st
  = Ok JsUndefined
      (set_console
         (console st
          ++ [(("Unexpected " ++ kindName t ++ ", expected " ++ kindName t)%string,
               Scanner.tokenPos (scanner st))]) st)
  /\ parseOptionalToken t st = Ok JsUndefined st.
Proof.
  intros E. apply kind_eqb_neq in E.
  unfold parseExpectedToken, parseOptionalToken. cbn. rewrite E.
  split; reflexivity.
Qed.

(** A semicolon asked for where the text "x" has an identifier. *)
Lemma parseExpectedToken_reports_expected_kind_twice_witness :
  exists st st',
    nextToken (startOn (js "x")) = Ok Identifier st
    /\ parseExpectedToken SemicolonToken st = Ok JsUndefined st'
    /\ console st'
       = [("Unexpected SemicolonToken, expected SemicolonToken", 0)].
Proof.
  destruct (nextToken (startOn (js "x"))) as [k st | |] eqn:E;
    [| vm_compute in E; discriminate E ..].
  assert (K : k = Identifier /\ token st = Identifier
              /\ console st = [] /\ Scanner.tokenPos (scanner st) = 0)
    by (vm_compute in E; injection E as <- <-; repeat split).
  destruct K as (-> & K & C & P).
  destruct (parseExpectedToken_reports_expected_kind_twice SemicolonToken st)
    as [H _]; [rewrite K; discriminate |].
  do 2 eexists. split; [reflexivity |]. split; [exact H |].
  cbn. rewrite C, P. reflexivity.
Defined.

(** The range of a token node: [parseTokenNode] on a state whose scanner
    has its token between [tokenPos] and [pos], after the white space that
    starts at [startPos], returns a node of the token's kind that runs
    from [startPos] to [pos], counts one node and consumes the token. *)
Theorem parseTokenNode_range (st : State) :
  exists sc node,
    Scanner.scan (scanner st) = Some sc
    /\ parseTokenNode st
       = Ok node (set_nodeCount (nodeCount st + 1) (consumed sc st))
    /\ kindOf node = Some (token st)
    /\ prop "pos" node = Some (VNum (Scanner.startPos (scanner st)))
    /\ prop "end" node = Some (VNum (Scanner.pos (scanner st)))
    /\ Scanner.startPos sc = Scanner.pos (scanner st).
Proof.
  destruct (ScannerFacts.scan_spec (scanner st))
    as (sc & E & _ & _ & S & _).
  unfold parseTokenNode, createNode. cbn.
  unfold bind at 1, nextToken. cbn. rewrite E. cbn. rewrite S.
  destruct (contextFlags st =? 0) eqn:C; cbn;
    do 2 eexists; (split; [reflexivity |]); repeat split; exact S.
Qed.

(** *** A member access after [?.] *)

(** The parser as [parseSourceFileWorker] leaves it at its first token. *)
Definition parsing (fileName : string) (txt : jsstring) : State :=
  match (initializeState txt ;;;
         file <- initializeSourceFile fileName ;;
         modify (set_sourceFile file) ;;;
         nextToken)%m initial with
  | Ok _ st => st
  | _ => initial
  end.

Lemma classifyAccess_dot (st : State) (sc : Scanner.t) :
  token st = DotToken ->
  Scanner.scan (scanner st) = Some sc ->
  Scanner.isIdentifier sc = true ->
  kindCode (Scanner.token sc) <> 0 ->
  classifyAccess st = Ok (true, true, false) (consumed sc st).
Proof.
  intros T E I K. unfold classifyAccess, bind at 1. cbn. rewrite T. cbn.
  unfold andM, bind, nextToken. rewrite E. cbn.
  unfold truthyKind. rewrite (proj2 (Z.eqb_neq _ _) K). cbn.
  rewrite I. reflexivity.
Qed.

Lemma classifyAccess_questionDot (st : State) (sc : Scanner.t) :
  token st = QuestionDotToken ->
  Scanner.scan (scanner st) = Some sc ->
  Scanner.token sc <> OpenBracketToken ->
  Scanner.token sc <> Identifier ->
  classifyAccess st = Ok (false, false, true) (consumed sc st).
Proof.
  intros T E B I. unfold classifyAccess, bind at 1. cbn. rewrite T. cbn.
  unfold bind, nextToken. rewrite E. cbn.
  rewrite (proj2 (kind_eqb_neq _ _) B), (proj2 (kind_eqb_neq _ _) I).
  reflexivity.
Qed.

(** C10: a contextual keyword where a property name is required.  Let
    the token after the current one be a keyword above [LastReservedWord]
    (so that the scanner's [isIdentifier] holds of it).  After a [.] the
    look-ahead of [parseMemberExpRest] finds a property access.  After a
    [?.] it finds none, since it compares the token with [Identifier]:
    [parseMemberExpRest] returns the expression as it is, with the [?.]
    still the current token, no node counted and nothing printed. *)
Theorem optional_chain_rejects_contextual_keyword (R : Rec) (expr : Node)
    (st : State) (sc : Scanner.t) :
  Scanner.scan (scanner st) = Some sc ->
  kindCode (Scanner.token sc) > kindCode SyntaxKindMarker.LastReservedWord ->
  Scanner.isIdentifier sc = true
  /\ (token st = DotToken ->
      exists st',
        lookAhead (fun _ => false) classifyAccess st
        = Ok (true, true, false) st')
  /\ (token st = QuestionDotToken ->
      (exists st',
          lookAhead (fun _ => false) classifyAccess st
          = Ok (false, false, true) st')
      /\ exists st',
           parseMemberExpRest R expr st = Ok expr st'
           /\ token st' = QuestionDotToken
           /\ observable (scanner st') = observable (scanner st)
           /\ nodeCount st' = nodeCount st
           /\ console st' = console st).
Proof.
  intros E K. simpl in K.
  assert (I : Scanner.isIdentifier sc = true).
  { unfold Scanner.isIdentifier. apply orb_true_iff. right.
    apply Z.gtb_lt. simpl. lia. }
  split; [exact I |]. split.
  - intros T. eexists.
    apply (lookAhead_returns _ _ st (consumed sc st)); [| reflexivity].
    apply classifyAccess_dot; try assumption. lia.
  - intros T.
    assert (C : classifyAccess st = Ok (false, false, true) (consumed sc st)).
    { apply classifyAccess_questionDot; try assumption;
        intros F; rewrite F in K; simpl in K; lia. }
    assert (L : lookAhead (fun _ : bool * bool * bool => false)
                  classifyAccess st
                = Ok (false, false, true)
                    (set_token (token st)
                       (set_scanner
                          (Scanner.restore (scanner st)
                             (scanner (consumed sc st)))
                          (consumed sc st))))
      by (apply lookAhead_returns; [exact C | reflexivity]).
    split; [eexists; exact L |].
    unfold parseMemberExpRest, bind at 1. rewrite L. cbn.
    eexists. split; [reflexivity |]. repeat split. exact T.
Qed.

(** The text "a?.state" after its first token: the [?.] is the current
    token and [state] follows.  No access is parsed, and
    [parseCallExpRest] then consumes the [?.] and prints "Identifier
    expected." at the keyword.  In "a.state" the same keyword is taken as
    the name of a property access, and nothing is printed. *)
Lemma optional_chain_rejects_contextual_keyword_witness :
  exists st sc st1 st2,
    nextToken (parsing "a.gn" (js "a?.state")) = Ok QuestionDotToken st
    /\ Scanner.scan (scanner st) = Some sc
    /\ Scanner.token sc = StateKeyword
    /\ Scanner.isIdentifier sc = true
    /\ parseMemberExpRest (knot 3) (NodeInitializer Identifier 0 1) st
       = Ok (NodeInitializer Identifier 0 1) st1
    /\ token st1 = QuestionDotToken
    /\ parseCallExpRest (knot 4) (NodeInitializer Identifier 0 1) st
       = Ok (NodeInitializer Identifier 0 1) st2
    /\ token st2 = StateKeyword
    /\ console st2 = [("Identifier expected.", 3)]
    /\ exists st' access st3,
         nextToken (parsing "a.gn" (js "a.state")) = Ok DotToken st'
         /\ parseCallExpRest (knot 4) (NodeInitializer Identifier 0 1) st'
            = Ok access st3
         /\ kindOf access = Some PropertyAccessExpression
         /\ textOf (child "name" access) = Some (Str (js "state"))
         /\ console st3 = [].
Proof.
  destruct (nextToken (parsing "a.gn" (js "a?.state"))) as [k st | |] eqn:N;
    [| vm_compute in N; discriminate N ..].
  destruct (Scanner.scan (scanner st)) as [sc |] eqn:E;
    [| vm_compute in N; injection N as _ <-; vm_compute in E; discriminate E].
  assert (F : k = QuestionDotToken /\ token st = QuestionDotToken
              /\ Scanner.token sc = StateKeyword).
  { vm_compute in N. injection N as <- <-. vm_compute in E.
    injection E as <-. repeat split. }
  destruct F as (-> & T & K).
  destruct (optional_chain_rejects_contextual_keyword (knot 3)
              (NodeInitializer Identifier 0 1) st sc E)
    as (I & _ & Q); [rewrite K; simpl; lia |].
  destruct (Q T) as (_ & st1 & M & T1 & _).
  exists st, sc, st1.
  destruct (parseCallExpRest (knot 4) (NodeInitializer Identifier 0 1) st)
    as [r st2 | |] eqn:C;
    [| vm_compute in N; injection N as <-; vm_compute in C; discriminate C ..].
  exists st2.
  split; [reflexivity |]. split; [exact E |]. split; [exact K |].
  split; [exact I |]. split; [exact M |]. split; [exact T1 |].
  assert (G : r = NodeInitializer Identifier 0 1 /\ token st2 = StateKeyword
              /\ console st2 = [("Identifier expected.", 3)]).
  { clear -N C. vm_compute in N. injection N as <-. vm_compute in C.
    injection C as <- <-. repeat split. }
  destruct G as (-> & T2 & C2).
  split; [reflexivity |]. split; [exact T2 |]. split; [exact C2 |].
  do 3 eexists. split; [vm_compute; reflexivity |].
  split; [vm_compute; reflexivity |]. repeat split.
Defined.

(** *** More fuel changes no result

    A result other than [OutOfFuel] stays what it is when the fuel grows:
    the fuel bounds the depth of calls and nothing else. *)

(** [m'] does what [m] does, wherever [m] does not run out of fuel. *)
Definition leP {A : Type} (m m' : P A) : Prop :=
  forall st, m st = OutOfFuel \/ m st = m' st.

Definition leRec (R R' : Rec) : Prop :=
  forall (A : Type) (c : Call A), leP (R A c) (R' A c).

Lemma leP_refl {A : Type} (m : P A) : leP m m.
Proof. intros st. right. reflexivity. Qed.

Lemma leP_bind {A B : Type} (m m' : P A) (k k' : A -> P B) :
  leP m m' -> (forall a, leP (k a) (k' a)) -> leP (bind m k) (bind m' k').
Proof.
  intros Hm Hk st. unfold bind.
  destruct (Hm st) as [E | E]; [left; rewrite E; reflexivity |].
  rewrite <- E. destruct (m st) as [a s | e s |]; [apply Hk | right | left];
    reflexivity.
Qed.

Lemma leP_scanner_lookAhead {A : Type} (cb cb' : P A) :
  leP cb cb' ->
  leP (Scanner.lookAhead State scanner set_scanner cb)
      (Scanner.lookAhead State scanner set_scanner cb').
Proof.
  intros H st. unfold Scanner.lookAhead.
  destruct (H st) as [E | E]; [left; rewrite E; reflexivity |].
  rewrite <- E. right. reflexivity.
Qed.

Lemma leP_scanner_tryScan {A : Type} (truthy : A -> bool) (cb cb' : P A) :
  leP cb cb' ->
  leP (Scanner.tryScan State scanner set_scanner truthy cb)
      (Scanner.tryScan State scanner set_scanner truthy cb').
Proof.
  intros H st. unfold Scanner.tryScan.
  destruct (H st) as [E | E]; [left; rewrite E; reflexivity |].
  rewrite <- E. right. reflexivity.
Qed.

Lemma leP_protectContextHelper {A : Type} (truthy : A -> bool) (cb cb' : P A)
    (alwaysRestore : bool) :
  leP cb cb' ->
  leP (protectContextHelper truthy cb alwaysRestore)
      (protectContextHelper truthy cb' alwaysRestore).
Proof.
  intros H. unfold protectContextHelper.
  apply leP_bind; [apply leP_refl | intros saveToken].
  apply leP_bind; [apply leP_refl | intros saveContextFlags].
  apply leP_bind; [| intros result; apply leP_refl].
  destruct alwaysRestore;
    [apply leP_scanner_lookAhead | apply leP_scanner_tryScan]; exact H.
Qed.

Lemma leP_lookAhead {A : Type} (truthy : A -> bool) (cb cb' : P A) :
  leP cb cb' -> leP (lookAhead truthy cb) (lookAhead truthy cb').
Proof. apply leP_protectContextHelper. Qed.

Lemma leP_tryParse {A : Type} (truthy : A -> bool) (cb cb' : P A) :
  leP cb cb' -> leP (tryParse truthy cb) (tryParse truthy cb').
Proof. apply leP_protectContextHelper. Qed.

Ltac head_of t :=
  lazymatch t with
  | ?f _ => head_of f
  | _ => t
  end.

(** One step of a proof that a production is monotone in [R]: by the
    shape of the program. *)
Ltac mono_step HR :=
  match goal with
  | |- leP ?m ?m => apply leP_refl
  | |- leP (bind _ _) (bind _ _) => apply leP_bind; [| intro]
  | |- leP (lookAhead _ _) (lookAhead _ _) => apply leP_lookAhead
  | |- leP (tryParse _ _) (tryParse _ _) => apply leP_tryParse
  | |- leP (if ?b then _ else _) (if ?b then _ else _) => destruct b
  | |- leP (match ?x with _ => _ end) (match ?x with _ => _ end) => destruct x
  | |- leP (?R ?A ?c) (?R' ?A ?c) => is_var R; apply HR
  | |- leP ?m _ => let h := head_of m in unfold h; cbv beta zeta
  end.

Ltac mono HR := repeat mono_step HR.

Lemma unfold_mono (R R' : Rec) : leRec R R' -> leRec (unfold R) (unfold R').
Proof.
  intros HR A c. destruct c; cbn [unfold].
  all: mono HR.
Qed.

Lemma leP_trans {A : Type} (m1 m2 m3 : P A) :
  leP m1 m2 -> leP m2 m3 -> leP m1 m3.
Proof.
  intros H12 H23 st.
  destruct (H12 st) as [E | E]; [left; exact E |].
  destruct (H23 st) as [E' | E']; [left | right]; congruence.
Qed.

Lemma knot_step (n : nat) : leRec (knot n) (knot (S n)).
Proof.
  induction n as [| n IH].
  - intros A c st. left. reflexivity.
  - change (leRec (unfold (knot n)) (unfold (knot (S n)))).
    apply unfold_mono. exact IH.
Qed.

Lemma knot_le (n m : nat) : (n <= m)%nat -> leRec (knot n) (knot m).
Proof.
  induction 1 as [| m _ IH].
  - intros A c. apply leP_refl.
  - intros A c. exact (leP_trans _ _ _ (IH A c) (knot_step m A c)).
Qed.

Lemma parseSourceFile_le (n m : nat) (fileName : string) (txt : jsstring) :
  (n <= m)%nat ->
  leP (parseSourceFile n fileName txt) (parseSourceFile m fileName txt).
Proof.
  intros H. pose proof (knot_le n m H) as HR.
  unfold parseSourceFile. revert HR.
  generalize (knot n), (knot m). intros R R' HR. mono HR.
Qed.

(** A result of [parseSourceFile] other than [OutOfFuel] is its result
    with any greater fuel. *)
Lemma parseSourceFile_stable (n k : nat) (fileName : string) (txt : jsstring)
    (st : State) (r : Result State Node) :
  parseSourceFile n fileName txt st = r ->
  r <> OutOfFuel ->
  parseSourceFile (n + k) fileName txt st = r.
Proof.
  intros E N.
  destruct (parseSourceFile_le n (n + k) fileName txt ltac:(lia) st) as [O | O];
    congruence.
Qed.

(** What [parseSourceFile] returns with little fuel, if it returns, it
    returns with more. *)
Lemma parseSourceFile_determined (n m : nat) (fileName : string)
    (txt : jsstring) (st : State) :
  parseSourceFile n fileName txt st <> OutOfFuel ->
  parseSourceFile m fileName txt st <> OutOfFuel ->
  parseSourceFile n fileName txt st = parseSourceFile m fileName txt st.
Proof.
  intros Hn Hm.
  destruct (Nat.le_ge_cases n m) as [L | L].
  - destruct (parseSourceFile_le n m fileName txt L st); congruence.
  - destruct (parseSourceFile_le m n fileName txt L st); congruence.
Qed.

(** *** Precedence and associativity *)

(** An expression tree as far as the operators go: literals, names, and
    binary and assignment nodes with their operator. *)
Inductive Expr : Type :=
| Lit (text : jsstring)
| Name (text : jsstring)
| Binary (kind : SyntaxKind) (left : Expr) (operator : SyntaxKind) (right : Expr)
| Unread.

Fixpoint exprOf (depth : nat) (n : Node) : Expr :=
  match depth with
  | O => Unread
  | S d =>
      match kindOf n, textOf n with
      | Some NumericLiteral, Some (Str t) => Lit t
      | Some Identifier, Some (Str t) => Name t
      | Some BinaryExpression, _ | Some AssignmentExpression, _ =>
          Binary (match kindOf n with Some k => k | None => Unknown end)
                 (exprOf d (child "left" n))
                 (match kindOf (child "operatorToken" n) with
                  | Some o => o
                  | None => Unknown
                  end)
                 (exprOf d (child "right" n))
      | _, _ => Unread
      end
  end.

(** The expression of the one expression statement that a text parses to. *)
Definition parsedExpression (fuel : nat) (txt : jsstring) : option Expr :=
  match parseSourceFile fuel "f" txt initial with
  | Ok file _ =>
      match children "statements" file with
      | [statement] =>
          if hasKind ExpressionStatement statement
          then Some (exprOf 8 (child "expression" statement))
          else None
      | _ => None
      end
  | _ => None
  end.

Lemma parsedExpression_stable (n k : nat) (txt : jsstring) (e : Expr) :
  parsedExpression n txt = Some e ->
  parsedExpression (n + k) txt = Some e.
Proof.
  unfold parsedExpression. intros H.
  rewrite (parseSourceFile_stable n k "f" txt initial
             (parseSourceFile n "f" txt initial) eq_refl); [exact H |].
  intros O. rewrite O in H. discriminate H.
Qed.

(** C5: with fuel for 20 levels of calls or more, "1+2*3" parses to the
    sum of 1 and the product 2*3; "2**3**2" to the power of 2 and 3**2;
    "a=b=c" to the assignment of b=c to a. *)
Theorem precedence_and_associativity (k : nat) :
  parsedExpression (20 + k) (js "1+2*3")
  = Some (Binary BinaryExpression
            (Lit (js "1")) PlusToken
            (Binary BinaryExpression (Lit (js "2")) AsteriskToken (Lit (js "3"))))
  /\ parsedExpression (20 + k) (js "2**3**2")
     = Some (Binary BinaryExpression
               (Lit (js "2")) AsteriskAsteriskToken
               (Binary BinaryExpression
                  (Lit (js "3")) AsteriskAsteriskToken (Lit (js "2"))))
  /\ parsedExpression (20 + k) (js "a=b=c")
     = Some (Binary AssignmentExpression
               (Name (js "a")) EqualsToken
               (Binary AssignmentExpression
                  (Name (js "b")) EqualsToken (Name (js "c")))).
Proof.
  repeat split; apply parsedExpression_stable; vm_compute; reflexivity.
Qed.

(** *** The walrus token *)

(** The statements that a text parses to. *)
Definition parsedStatements (fuel : nat) (txt : jsstring) : option (list Node) :=
  match parseSourceFile fuel "f" txt initial with
  | Ok file _ => Some (children "statements" file)
  | _ => None
  end.

Lemma parsedStatements_stable (n k : nat) (txt : jsstring) (l : list Node) :
  parsedStatements n txt = Some l ->
  parsedStatements (n + k) txt = Some l.
Proof.
  unfold parsedStatements. intros H.
  rewrite (parseSourceFile_stable n k "f" txt initial
             (parseSourceFile n "f" txt initial) eq_refl); [exact H |].
  intros O. rewrite O in H. discriminate H.
Qed.

(** C2: the characters [:=] are scanned as one token two characters
    long, and its kind is [ColonToken], not [ColonEqualsToken].  So on
    the text "x := 1", with [x] the current token,
    [tryParseWalrusDeclaration] returns [false] and leaves [x] the
    current token; and the text parses, with fuel for 20 levels of calls
    or more, to one statement labeled [x] whose body is the expression
    [1]. *)
Theorem colon_equals_is_scanned_as_colon :
  (exists s',
      ScannerFacts.firstToken (js ":=") = Some s'
      /\ Scanner.token s' = ColonToken
      /\ Scanner.tokenText s' = js ":="
      /\ Scanner.tokenPos s' = 0 /\ Scanner.pos s' = 2)
  /\ (token (parsing "a.gn" (js "x := 1")) = Identifier
      /\ forall R notParseSemicolon,
           exists st',
             tryParseWalrusDeclaration R notParseSemicolon
               (parsing "a.gn" (js "x := 1"))
             = Ok None st'
             /\ token st' = Identifier
             /\ observable (scanner st')
                = observable (scanner (parsing "a.gn" (js "x := 1"))))
  /\ (forall k, exists statement,
        parsedStatements (20 + k) (js "x := 1") = Some [statement]
        /\ kindOf statement = Some LabeledStatement
        /\ exprOf 2 (child "label" statement) = Name (js "x")
        /\ exprOf 2 (child "expression" (child "statement" statement))
           = Lit (js "1")).
Proof.
  split; [| split].
  - eexists. split; [vm_compute; reflexivity | repeat split].
  - split; [reflexivity |]. intros R notParseSemicolon.
    destruct (tryParseWalrusDeclaration_none R notParseSemicolon
                (parsing "a.gn" (js "x := 1")))
      as (st' & sc & P & T & O & _).
    exists st'. split; [exact P |]. split; [exact T | exact O].
  - intros k. eexists. split.
    + apply parsedStatements_stable. vm_compute. reflexivity.
    + repeat split.
Qed.

(** *** Declarations that are not parsed *)

Lemma knot_settled (N n : nat) (A : Type) (c : Call A) (st : State) :
  knot N A c st <> OutOfFuel ->
  knot n A c st = OutOfFuel \/ knot n A c st = knot N A c st.
Proof.
  intros H. destruct (Nat.le_ge_cases n N) as [L | L].
  - exact (knot_le n N L A c st).
  - destruct (knot_le N n L A c st) as [O | O]; [contradiction | right; congruence].
Qed.

(** The parser stands on [class] or on [enum], at the start of a
    statement. *)
Definition onUnparsedDeclaration (st : State) : Prop :=
  (token st = ClassKeyword \/ token st = EnumKeyword) /\ contextFlags st = 0.

Lemma parseStatement_unparsed_declaration (st : State) :
  onUnparsedDeclaration st ->
  exists st',
    knot 6 _ C_parseStatement st = Ok (Obj []) st'
    /\ onUnparsedDeclaration st'
    /\ observable (scanner st') = observable (scanner st)
    /\ console st' = console st.
Proof.
  destruct st as [sc sf tok txt nc cf pc con].
  intros (T & C). simpl in T, C. subst cf.
  destruct T as [-> | ->]; vm_compute; eexists;
    (split; [reflexivity |]); repeat split; auto.
Qed.

(** The statement list of a source file never ends there: each turn of
    the loop of [parseList] gets the empty object for a statement and
    finds the same token again. *)
Lemma parseListLoop_unparsed_declaration (n : nat) :
  forall (items : list Node) (st : State),
    onUnparsedDeclaration st ->
    knot n _ (C_parseListLoop ParsingContext.SourceElements ParseStatement items) st
    = OutOfFuel.
Proof.
  induction n as [| n IH]; intros items st F; [reflexivity |].
  change (parseListLoop (knot n) ParsingContext.SourceElements ParseStatement
            items st = OutOfFuel).
  unfold parseListLoop, bind.
  assert (L : isListTerminator ParsingContext.SourceElements st = Ok false st).
  { unfold isListTerminator. cbn.
    destruct F as ([-> | ->] & _); reflexivity. }
  rewrite L.
  change (r_parseElement (knot n) ParseStatement st)
    with (knot n _ C_parseStatement st).
  destruct (parseStatement_unparsed_declaration st F) as (st' & E & F' & _).
  destruct (knot_settled 6 n _ C_parseStatement st) as [O | O];
    [rewrite E; discriminate | rewrite O; reflexivity |].
  rewrite O, E.
  apply IH. exact F'.
Qed.

(** The scanner as [initializeState] leaves it: at the start of the text,
    with the parser's callback registered. *)
Definition freshScanner (txt : jsstring) (sc : Scanner.t) : Scanner.t :=
  Scanner.mk txt 0 0 0 (jslength txt) Unknown undefined TokenFlags.None true
    (Scanner.diagnostics sc).

Lemma parseList_unparsed_declaration (n : nat) (st : State) :
  onUnparsedDeclaration st ->
  knot n _ (C_parseList ParsingContext.SourceElements ParseStatement) st
  = OutOfFuel.
Proof.
  intros F. destruct n as [| n]; [reflexivity |].
  change (parseList (knot n) ParsingContext.SourceElements ParseStatement st
          = OutOfFuel).
  unfold parseList. cbn. unfold bind at 1.
  change (r_parseListLoop (knot n) ParsingContext.SourceElements
            ParseStatement [])
    with (knot n _ (C_parseListLoop ParsingContext.SourceElements
                      ParseStatement [])).
  rewrite parseListLoop_unparsed_declaration; [reflexivity | exact F].
Qed.

(** A source text whose first token is [class] or [enum] is never parsed
    to the end: for these keywords [parseDeclarationWorker] returns the
    empty object without consuming anything, and the loop of [parseList]
    has no other way on.  Whatever the fuel, [parseSourceFile] runs out
    of it. *)
Theorem unparsed_declaration_never_returns (fuel : nat) (fileName : string)
    (txt : jsstring) (st0 : State) (sc : Scanner.t) :
  Scanner.scan (freshScanner txt (scanner st0)) = Some sc ->
  Scanner.token sc = ClassKeyword \/ Scanner.token sc = EnumKeyword ->
  parseSourceFile fuel fileName txt st0 = OutOfFuel.
Proof.
  intros E K.
  unfold parseSourceFile, parseSourceFileWorker, initializeState,
    initializeSourceFile. cbn.
  unfold bind, nextToken. cbn.
  change (Scanner.scan _) with (Scanner.scan (freshScanner txt (scanner st0))).
  rewrite E. cbn.
  change (r_parseList (knot fuel) ParsingContext.SourceElements ParseStatement)
    with (knot fuel _ (C_parseList ParsingContext.SourceElements ParseStatement)).
  rewrite parseList_unparsed_declaration; [reflexivity |].
  split; [exact K | reflexivity].
Qed.

(** The text "class A {}", with fuel for a hundred levels of calls. *)
Lemma unparsed_declaration_never_returns_witness :
  parseSourceFile 100 "a.gn" (js "class A {}") initial = OutOfFuel.
Proof.
  destruct (Scanner.scan (freshScanner (js "class A {}") (scanner initial)))
    as [sc |] eqn:E; [| vm_compute in E; discriminate E].
  apply (unparsed_declaration_never_returns 100 _ _ _ sc E).
  vm_compute in E. injection E as <-. left. reflexivity.
Defined.

(** *** A closing parenthesis where a statement starts *)

(** The parser and the scanner stand on the token [k], at the start of a
    statement. *)
Definition strandedOn (k : SyntaxKind) (st : State) : Prop :=
  token st = k /\ Scanner.token (scanner st) = k /\ contextFlags st = 0.

Lemma parseStatement_closeParen (st : State) :
  strandedOn CloseParenToken st ->
  exists node st',
    knot 30 _ C_parseStatement st = Ok node st'
    /\ strandedOn CloseParenToken st'
    /\ observable (scanner st') = observable (scanner st).
Proof.
  destruct st as [sc sf tok txt nc cf pc con].
  destruct sc as [t sp tp p e tk tv tf oe dg].
  intros (T & K & C). simpl in T, K, C. subst tok tk cf.
  vm_compute. do 2 eexists. split; [reflexivity |]. repeat split.
Qed.

(** A statement list of the source file or of a block never ends on a
    closing parenthesis: each turn of the loop of [parseList] parses an
    expression statement without consuming anything and finds the same
    token again. *)
Lemma parseListLoop_closeParen (n : nat) :
  forall (kind : ParsingContext.t) (items : list Node) (st : State),
    kind = ParsingContext.SourceElements
    \/ kind = ParsingContext.BlockStatements ->
    strandedOn CloseParenToken st ->
    knot n _ (C_parseListLoop kind ParseStatement items) st = OutOfFuel.
Proof.
  induction n as [| n IH]; intros kind items st Hk F; [reflexivity |].
  change (parseListLoop (knot n) kind ParseStatement items st = OutOfFuel).
  unfold parseListLoop, bind.
  assert (L : isListTerminator kind st = Ok false st).
  { unfold isListTerminator. cbn.
    destruct F as (-> & _). destruct Hk as [-> | ->]; reflexivity. }
  rewrite L.
  change (r_parseElement (knot n) ParseStatement st)
    with (knot n _ C_parseStatement st).
  destruct (parseStatement_closeParen st F) as (node & st' & E & F' & _).
  destruct (knot_settled 30 n _ C_parseStatement st) as [O | O];
    [rewrite E; discriminate | rewrite O; reflexivity |].
  rewrite O, E.
  apply IH; assumption.
Qed.

Lemma parseList_closeParen (n : nat) (st : State) :
  strandedOn CloseParenToken st ->
  knot n _ (C_parseList ParsingContext.SourceElements ParseStatement) st
  = OutOfFuel.
Proof.
  intros F. destruct n as [| n]; [reflexivity |].
  change (parseList (knot n) ParsingContext.SourceElements ParseStatement st
          = OutOfFuel).
  unfold parseList. cbn. unfold bind at 1.
  change (r_parseListLoop (knot n) ParsingContext.SourceElements
            ParseStatement [])
    with (knot n _ (C_parseListLoop ParsingContext.SourceElements
                      ParseStatement [])).
  rewrite parseListLoop_closeParen; [reflexivity | left; reflexivity |].
  destruct F as (T & K & C). repeat split; assumption.
Qed.

Lemma parseSourceFile_closeParen (fuel : nat) (fileName : string)
    (txt : jsstring) (st0 : State) (sc : Scanner.t) :
  Scanner.scan (freshScanner txt (scanner st0)) = Some sc ->
  Scanner.token sc = CloseParenToken ->
  parseSourceFile fuel fileName txt st0 = OutOfFuel.
Proof.
  intros E K.
  unfold parseSourceFile, parseSourceFileWorker, initializeState,
    initializeSourceFile. cbn.
  unfold bind, nextToken. cbn.
  change (Scanner.scan _) with (Scanner.scan (freshScanner txt (scanner st0))).
  rewrite E. cbn.
  change (r_parseList (knot fuel) ParsingContext.SourceElements ParseStatement)
    with (knot fuel _ (C_parseList ParsingContext.SourceElements ParseStatement)).
  rewrite parseList_closeParen; [reflexivity |].
  repeat split; exact K.
Qed.

(** C1: two kinds of source text for which [parseSourceFile] returns no
    [SourceFile].  A text whose first token is a closing parenthesis is
    never parsed to the end: no statement starts with this token, and
    [parseStatement] reports it twice and consumes nothing, so that the
    loop of [parseList] meets it again at every turn; whatever the fuel,
    [parseSourceFile] runs out of it.  And on the text "(class)", with
    fuel for 30 levels of calls or more, [parseSourceFile] throws a
    [TypeError]: [parseClassExpression] returns [undefined], of which
    [isLeftHandExp] reads the kind; nothing has been reported before. *)
Theorem parseSourceFile_hangs_or_throws :
  (forall (fuel : nat) (fileName : string) (txt : jsstring) (st0 : State)
          (sc : Scanner.t),
      Scanner.scan (freshScanner txt (scanner st0)) = Some sc ->
      Scanner.token sc = CloseParenToken ->
      parseSourceFile fuel fileName txt st0 = OutOfFuel)
  /\ (forall k : nat, exists st,
        parseSourceFile (30 + k) "a.gn" (js "(class)") initial
        = Throw (TypeError "Cannot read property 'kind' of undefined") st
        /\ token st = ClassKeyword
        /\ console st = []
        /\ Scanner.diagnostics (scanner st) = []).
Proof.
  split.
  - exact parseSourceFile_closeParen.
  - intros k. eexists. split.
    + apply (parseSourceFile_stable 30 k); [vm_compute; reflexivity | discriminate].
    + repeat split.
Qed.

(** The text ")", with fuel for a hundred levels of calls; and what one
    turn of the loop prints. *)
Lemma parseSourceFile_hangs_or_throws_witness :
  parseSourceFile 100 "a.gn" (js ")") initial = OutOfFuel
  /\ exists node st',
       knot 30 _ C_parseStatement (parsing "a.gn" (js ")")) = Ok node st'
       /\ kindOf node = Some ExpressionStatement
       /\ console st'
          = [("Identifier expected, but got CloseParenToken", 0);
             ("Unexpected CloseParenToken, expected SemicolonToken", 0)]
       /\ observable (scanner st')
          = observable (scanner (parsing "a.gn" (js ")"))).
Proof.
  split.
  - destruct (Scanner.scan (freshScanner (js ")") (scanner initial)))
      as [sc |] eqn:E; [| vm_compute in E; discriminate E].
    apply (proj1 parseSourceFile_hangs_or_throws 100%nat _ _ _ sc E).
    vm_compute in E. injection E as <-. reflexivity.
  - do 2 eexists. split; [vm_compute; reflexivity |]. repeat split.
Defined.

(** *** Parses that never return

    A call that exhausts every fuel never returns.  To show that a parse
    runs into such a call, the call is replaced by a throw of a chosen
    exception: if the parse then ends in that throw, for two different
    exceptions, it cannot have ended in any other way with the call in
    place. *)

(** [parseSourceFile] over any productions. *)
Definition parseSourceFileWith (R : Rec) (fileName : string)
    (sourceText : jsstring) : P Node :=
  (initializeState sourceText ;;;
   result <- parseSourceFileWorker R fileName ;;
   clearState ;;;
   ret result)%m.

Lemma parseSourceFileWith_mono (R R' : Rec) (fileName : string)
    (txt : jsstring) :
  leRec R R' ->
  leP (parseSourceFileWith R fileName txt) (parseSourceFileWith R' fileName txt).
Proof. intros HR. unfold parseSourceFileWith. mono HR. Qed.

Lemma parseSourceFile_with (n : nat) (fileName : string) (txt : jsstring) :
  parseSourceFile n fileName txt = parseSourceFileWith (knot n) fileName txt.
Proof. unfold parseSourceFile, parseSourceFileWith. reflexivity. Qed.

Section Trap.
Variable target : forall A : Type, Call A -> State -> bool.
Hypothesis target_diverges :
  forall n A (c : Call A) st, target A c st = true -> knot n A c st = OutOfFuel.

Definition trap (e : Exn) (R : Rec) : Rec :=
  fun A c st => if target A c st then Throw e st else R A c st.

Fixpoint knotT (e : Exn) (fuel : nat) : Rec :=
  match fuel with
  | O => bottom
  | S fuel' => trap e (unfold (knotT e fuel'))
  end.

Lemma trap_mono (e : Exn) (R R' : Rec) :
  leRec R R' -> leRec (trap e R) (trap e R').
Proof.
  intros HR A c st. unfold trap.
  destruct (target A c st); [right; reflexivity | apply HR].
Qed.

Lemma knot_knotT (e : Exn) (n : nat) : leRec (knot n) (knotT e n).
Proof.
  induction n as [| n IH]; [intros A c; apply leP_refl |].
  intros A c st. cbn [knotT]. unfold trap.
  destruct (target A c st) eqn:T.
  - left. apply target_diverges. exact T.
  - exact (unfold_mono _ _ IH A c st).
Qed.

Lemma knotT_step (e : Exn) (n : nat) : leRec (knotT e n) (knotT e (S n)).
Proof.
  induction n as [| n IH]; [intros A c st; left; reflexivity |].
  change (leRec (trap e (unfold (knotT e n)))
                (trap e (unfold (knotT e (S n))))).
  apply trap_mono, unfold_mono, IH.
Qed.

Lemma knotT_le (e : Exn) (n m : nat) :
  (n <= m)%nat -> leRec (knotT e n) (knotT e m).
Proof.
  induction 1 as [| m _ IH]; [intros A c; apply leP_refl |].
  intros A c. exact (leP_trans _ _ _ (IH A c) (knotT_step e m A c)).
Qed.

Lemma trapped_or_out (e : Exn) (N n : nat) (fileName : string)
    (txt : jsstring) (st s : State) :
  parseSourceFileWith (knotT e N) fileName txt st = Throw e s ->
  parseSourceFileWith (knot n) fileName txt st = OutOfFuel
  \/ parseSourceFileWith (knot n) fileName txt st = Throw e s.
Proof.
  intros H.
  pose proof (parseSourceFileWith_mono _ _ fileName txt (knot_knotT e n) st)
    as A.
  assert (B : parseSourceFileWith (knotT e n) fileName txt st = OutOfFuel
              \/ parseSourceFileWith (knotT e n) fileName txt st = Throw e s).
  { destruct (Nat.le_ge_cases n N) as [L | L].
    - pose proof (parseSourceFileWith_mono _ _ fileName txt
                    (knotT_le e n N L) st) as C.
      rewrite H in C. exact C.
    - pose proof (parseSourceFileWith_mono _ _ fileName txt
                    (knotT_le e N n L) st) as C.
      rewrite H in C. destruct C as [C | C]; [discriminate C |].
      right. symmetry. exact C. }
  revert A B.
  generalize (parseSourceFileWith (knot n) fileName txt st).
  generalize (parseSourceFileWith (knotT e n) fileName txt st).
  intros r' r [A | A] [B | B]; subst; auto.
Qed.

Lemma never_returns (N : nat) (fileName : string) (txt : jsstring)
    (st s1 s2 : State) (e1 e2 : Exn) :
  e1 <> e2 ->
  parseSourceFileWith (knotT e1 N) fileName txt st = Throw e1 s1 ->
  parseSourceFileWith (knotT e2 N) fileName txt st = Throw e2 s2 ->
  forall n, parseSourceFile n fileName txt st = OutOfFuel.
Proof.
  intros Hne H1 H2 n.
  pose proof (trapped_or_out e1 N n fileName txt st s1 H1) as O1.
  pose proof (trapped_or_out e2 N n fileName txt st s2 H2) as O2.
  rewrite parseSourceFile_with.
  revert O1 O2.
  generalize (parseSourceFileWith (knot n) fileName txt st).
  intros r [O1 | O1] [O2 | O2]; try assumption.
  subst r. injection O2 as E _. contradiction.
Qed.
End Trap.

(** *** The header of a [for] statement *)

Lemma parseVariableBinding_stranded (k : SyntaxKind) (st : State) :
  k = InKeyword \/ k = CloseParenToken ->
  strandedOn k st ->
  exists node st',
    knot 5 _ C_parseVariableBinding st = Ok node st'
    /\ strandedOn k st'.
Proof.
  destruct st as [sc sf tok txt nc cf pc con].
  destruct sc as [t sp tp p e tk tv tf oe dg].
  intros Hk (T & K & C). simpl in T, K, C. subst tok tk cf.
  destruct Hk as [-> | ->]; vm_compute; do 2 eexists;
    (split; [reflexivity |]); repeat split.
Qed.

(** The list of the bindings of a declaration never ends on [in] or on a
    closing parenthesis: each turn of the loop of [parseDelimitedList]
    gets a binding with an empty name, asks for a comma and finds the
    same token again. *)
Lemma parseDelimitedListLoop_stranded (n : nat) :
  forall (k : SyntaxKind) (items : list Node) (commaStart : Z) (st : State),
    k = InKeyword \/ k = CloseParenToken ->
    strandedOn k st ->
    knot n _ (C_parseDelimitedListLoop ParsingContext.VariableDeclarations
                ParseVariableBinding items commaStart) st
    = OutOfFuel.
Proof.
  induction n as [| n IH]; intros k items commaStart st Hk F; [reflexivity |].
  change (parseDelimitedListLoop (knot n) ParsingContext.VariableDeclarations
            ParseVariableBinding items commaStart st = OutOfFuel).
  unfold parseDelimitedListLoop. unfold bind at 1.
  assert (L : forall s,
             strandedOn k s ->
             isListTerminator ParsingContext.VariableDeclarations s
             = Ok false s).
  { intros s (T & _). unfold isListTerminator. cbn. rewrite T.
    destruct Hk as [-> | ->]; reflexivity. }
  rewrite (L st F). cbv iota. unfold bind at 1.
  change (r_parseElement (knot n) ParseVariableBinding st)
    with (knot n _ C_parseVariableBinding st).
  destruct (parseVariableBinding_stranded k st Hk F) as (node & st' & E & F').
  destruct (knot_settled 5 n _ C_parseVariableBinding st) as [O | O];
    [rewrite E; discriminate | rewrite O; reflexivity |].
  rewrite O, E.
  assert (C : parseOptional CommaToken st' = Ok false st').
  { unfold parseOptional. cbn. destruct F' as (T & _). rewrite T.
    destruct Hk as [-> | ->]; reflexivity. }
  cbn. unfold bind at 1. rewrite C. cbv iota. unfold bind at 1.
  rewrite (L st' F'). cbv iota.
  unfold bind at 1, error. cbn.
  apply (IH k); [exact Hk |].
  destruct F' as (T & K & Cf). repeat split; assumption.
Qed.

Definition strandedOnb (k : SyntaxKind) (st : State) : bool :=
  kind_eqb (token st) k && kind_eqb (Scanner.token (scanner st)) k
  && (contextFlags st =? 0).

Lemma strandedOnb_true (k : SyntaxKind) (st : State) :
  strandedOnb k st = true -> strandedOn k st.
Proof.
  unfold strandedOnb, strandedOn. intros H.
  apply andb_prop in H as [H C]. apply andb_prop in H as [T K].
  apply kind_eqb_eq in T, K. apply Z.eqb_eq in C. repeat split; assumption.
Qed.

(** The calls that never return: the loop of a statement list on a
    closing parenthesis, and the loop of the bindings of a declaration on
    [in] or on a closing parenthesis. *)
Definition strandedLoop (A : Type) (c : Call A) (st : State) : bool :=
  match c with
  | C_parseListLoop ParsingContext.SourceElements ParseStatement _
  | C_parseListLoop ParsingContext.BlockStatements ParseStatement _ =>
      strandedOnb CloseParenToken st
  | C_parseDelimitedListLoop ParsingContext.VariableDeclarations
      ParseVariableBinding _ _ =>
      strandedOnb InKeyword st || strandedOnb CloseParenToken st
  | _ => false
  end.

Lemma strandedLoop_diverges (n : nat) (A : Type) (c : Call A) (st : State) :
  strandedLoop A c st = true -> knot n A c st = OutOfFuel.
Proof.
  destruct c; try discriminate; simpl.
  - destruct t; try discriminate; destruct p; try discriminate;
      intros H; apply strandedOnb_true in H;
      apply parseListLoop_closeParen; auto.
  - destruct t; try discriminate; destruct p; try discriminate.
    intros H. apply orb_prop in H as [H | H]; apply strandedOnb_true in H.
    + apply (parseDelimitedListLoop_stranded n InKeyword); auto.
    + apply (parseDelimitedListLoop_stranded n CloseParenToken); auto.
Qed.

(** *** The header of a for statement *)

(** Parsing a text never returns when, with some fuel, it reaches one of
    the stranded loops. *)
Lemma stranded_never_returns (N : nat) (txt : jsstring) (s1 s2 : State) :
  parseSourceFileWith (knotT strandedLoop AssertionError N) "f" txt initial
  = Throw AssertionError s1 ->
  parseSourceFileWith (knotT strandedLoop (TypeError "stranded") N) "f" txt
    initial
  = Throw (TypeError "stranded") s2 ->
  forall fuel, parseSourceFile fuel "f" txt initial = OutOfFuel.
Proof.
  intros E1 E2.
  apply (never_returns strandedLoop strandedLoop_diverges N "f" txt initial
           s1 s2 AssertionError (TypeError "stranded")); [discriminate | exact E1 | exact E2].
Qed.

(** The three texts with a header in parentheses are never parsed to the
    end: after [for], the parenthesis starts an expression.  And the
    header [let x in obj] without parentheses gives a [ForOfStatement]
    whose identifier is empty, since [let] is still the current token
    when the identifier is parsed; the expression is then [x in obj]. *)
Lemma for_header_in_parentheses :
  (forall fuel,
      parseSourceFile fuel "f" (js "for (let x in obj) {}") initial = OutOfFuel)
  /\ (forall fuel,
        parseSourceFile fuel "f" (js "for (let x of obj) {}") initial = OutOfFuel)
  /\ (forall fuel,
        parseSourceFile fuel "f" (js "for (;;) {}") initial = OutOfFuel)
  /\ (forall k, exists file st statement,
        parseSourceFile (30 + k) "f" (js "for let x in obj {}") initial
        = Ok file st
        /\ children "statements" file = [statement]
        /\ kindOf statement = Some ForOfStatement
        /\ prop "vlc" statement = Some (VKind LetKeyword)
        /\ textOf (child "identifier" statement) = Some (Str [])
        /\ exprOf 3 (child "expression" statement)
           = Binary BinaryExpression (Name (js "x")) InKeyword (Name (js "obj"))
        /\ console st = [("Identifier expected, but got LetKeyword", 4)]).
Proof.
  split; [| split; [| split]].
  - eapply (stranded_never_returns 60); vm_compute; reflexivity.
  - eapply (stranded_never_returns 60); vm_compute; reflexivity.
  - eapply (stranded_never_returns 60); vm_compute; reflexivity.
  - intros k. do 3 eexists. split.
    + apply (parseSourceFile_stable 30 k); [vm_compute; reflexivity | discriminate].
    + repeat split.
Qed.

(** C3: the header of a for statement is written without parentheses.
    With fuel for 30 levels of calls or more, "for {}" parses to one
    [ForStatement] that has a block and no initializer, condition or
    incrementor, and "for a; b; c {}" to one [ForStatement] whose
    initializer, condition and incrementor are the names [a], [b] and
    [c]; neither reports an error. *)
Theorem for_header_without_parentheses (k : nat) :
  (exists file st statement,
      parseSourceFile (30 + k) "f" (js "for {}") initial = Ok file st
      /\ children "statements" file = [statement]
      /\ kindOf statement = Some ForStatement
      /\ prop "initializer" statement = None
      /\ prop "condition" statement = None
      /\ prop "incrementor" statement = None
      /\ kindOf (child "block" statement) = Some Block
      /\ children "statements" (child "block" statement) = []
      /\ console st = [] /\ Scanner.diagnostics (scanner st) = [])
  /\ (exists file st statement,
        parseSourceFile (30 + k) "f" (js "for a; b; c {}") initial = Ok file st
        /\ children "statements" file = [statement]
        /\ kindOf statement = Some ForStatement
        /\ exprOf 2 (child "initializer" statement) = Name (js "a")
        /\ exprOf 2 (child "condition" statement) = Name (js "b")
        /\ exprOf 2 (child "incrementor" statement) = Name (js "c")
        /\ kindOf (child "block" statement) = Some Block
        /\ children "statements" (child "block" statement) = []
        /\ console st = [] /\ Scanner.diagnostics (scanner st) = []).
Proof.
  split.
  - do 3 eexists. split.
    + apply (parseSourceFile_stable 30 k); [vm_compute; reflexivity | discriminate].
    + repeat split.
  - do 3 eexists. split.
    + apply (parseSourceFile_stable 30 k); [vm_compute; reflexivity | discriminate].
    + repeat split.
Qed.

(** *** The source file *)

(** Whatever the text and the state before, a parse that returns leaves
    the module cleared: the scanner holds the empty text at position 0
    with no callback registered, and [sourceFile] and [sourceText] are
    [undefined]. *)
Theorem parseSourceFile_clears_state (fuel : nat) (fileName : string)
    (txt : jsstring) (st st' : State) (file : Node) :
  parseSourceFile fuel fileName txt st = Ok file st' ->
  Scanner.text (scanner st') = []
  /\ observable (scanner st') = (0, 0, 0, 0, Unknown, undefined, TokenFlags.None)
  /\ Scanner.onError (scanner st') = false
  /\ sourceFile st' = JsUndefined
  /\ sourceText st' = None.
Proof.
  unfold parseSourceFile. unfold bind at 1.
  destruct (initializeState txt st) as [u st1 | e st1 |]; try discriminate.
  unfold bind at 1.
  destruct (parseSourceFileWorker (knot fuel) fileName st1)
    as [r st2 | e st2 |]; try discriminate.
  cbn. intros H. injection H as <- <-. repeat split.
Qed.

Lemma parseSourceFile_clears_state_witness :
  exists file st',
    parseSourceFile 20 "a.gn" (js "debugger;") initial = Ok file st'
    /\ Scanner.text (scanner st') = []
    /\ Scanner.onError (scanner st') = false
    /\ sourceFile st' = JsUndefined
    /\ sourceText st' = None.
Proof.
  destruct (parseSourceFile 20 "a.gn" (js "debugger;") initial)
    as [file st' | |] eqn:E; [| vm_compute in E; discriminate E ..].
  destruct (parseSourceFile_clears_state _ _ _ _ _ _ E) as (A & _ & B & C & D).
  exists file, st'. repeat split; assumption.
Defined.

(** A text with nothing to parse (its first token is the end of the file:
    the empty text, white space, comments): with fuel for two levels of
    calls or more, [parseSourceFile] returns a [SourceFile] node from 0 to
    the length of the text, with the text and the file name, no
    statements and a node count of 1.  The parser's [error] prints
    nothing, and the scanner's error callback has been called for what
    the scan of that one token reports (an unclosed comment, for
    instance) and for nothing else. *)
Theorem parseSourceFile_nothing_to_parse (k : nat) (fileName : string)
    (txt : jsstring) (st0 : State) (sc : Scanner.t) :
  Scanner.scan (freshScanner txt (scanner st0)) = Some sc ->
  Scanner.token sc = EndOfFileToken ->
  exists file st',
    parseSourceFile (2 + k) fileName txt st0 = Ok file st'
    /\ kindOf file = Some SourceFile
    /\ prop "pos" file = Some (VNum 0)
    /\ prop "end" file = Some (VNum (jslength txt))
    /\ textOf file = Some (Str txt)
    /\ prop "fileName" file = Some (VString fileName)
    /\ children "statements" file = []
    /\ prop "nodeCount" file = Some (VNum 1)
    /\ console st' = console st0
    /\ Scanner.diagnostics (scanner st') = Scanner.diagnostics sc.
Proof.
  intros E K.
  unfold parseSourceFile, parseSourceFileWorker, initializeState,
    initializeSourceFile. cbn.
  unfold bind, nextToken. cbn.
  change (Scanner.scan _) with (Scanner.scan (freshScanner txt (scanner st0))).
  rewrite E. cbn.
  change (r_parseList (knot (S (S k))) ParsingContext.SourceElements
            ParseStatement)
    with (parseList (knot (S k)) ParsingContext.SourceElements ParseStatement).
  unfold parseList. cbn. unfold bind.
  change (r_parseListLoop (knot (S k)) ParsingContext.SourceElements
            ParseStatement [])
    with (parseListLoop (knot k) ParsingContext.SourceElements
            ParseStatement []).
  unfold parseListLoop, isListTerminator. cbn. rewrite K. cbn.
  do 2 eexists. split; [reflexivity |]. repeat split.
Qed.

(** White space and a comment. *)
Lemma parseSourceFile_nothing_to_parse_witness :
  exists file st',
    parseSourceFile 2 "a.gn" (js "  /* nothing */ ") initial = Ok file st'
    /\ children "statements" file = []
    /\ prop "end" file = Some (VNum 16)
    /\ prop "nodeCount" file = Some (VNum 1).
Proof.
  destruct (Scanner.scan (freshScanner (js "  /* nothing */ ") (scanner initial)))
    as [sc |] eqn:E; [| vm_compute in E; discriminate E].
  destruct (parseSourceFile_nothing_to_parse 0 "a.gn" _ initial sc E)
    as (file & st' & P & _ & _ & Pe & _ & _ & Ps & Pn & _).
  - vm_compute in E. injection E as <-. reflexivity.
  - exists file, st'. repeat split; assumption.
Defined.
End ParserFacts.

(** * More properties of the scanner *)

Module ScannerLaws.
Import Scanner.
Import ScannerFacts.

(** ** Identifiers and keywords *)

Lemma isIdentifierPart_small (c : Z) : isIdentifierPart c = true -> 0 <= c <= 122.
Proof.
  unfold isIdentifierPart, CharacterCodes.A, CharacterCodes.Z, CharacterCodes.a,
    CharacterCodes.z, CharacterCodes._0, CharacterCodes._9,
    CharacterCodes.dollar, CharacterCodes.underscore.
  intros H.
  repeat match goal with
         | H : _ || _ = true |- _ => apply orb_prop in H; destruct H as [H | H]
         | H : _ && _ = true |- _ => apply andb_prop in H; destruct H as [? ?]
         | H : (_ >=? _) = true |- _ => rewrite Z.geb_leb in H; apply Z.leb_le in H
         | H : (_ <=? _) = true |- _ => apply Z.leb_le in H
         | H : (_ =? _) = true |- _ => apply Z.eqb_eq in H
         end; lia.
Qed.

Lemma isIdentifierStart_part (c : Z) :
  isIdentifierStart c = true -> isIdentifierPart c = true.
Proof.
  unfold isIdentifierStart, isIdentifierPart. intros H.
  repeat match goal with
         | H : _ || _ = true |- _ => apply orb_prop in H; destruct H as [H | H]
         end; rewrite H; repeat rewrite orb_true_r; reflexivity.
Qed.

(** The code point at a position whose code unit is no part of an
    identifier is no part of one either. *)
Lemma isIdentifierPart_codePointAt (l : jsstring) (i : Z) :
  isIdentifierPart (charCodeAt l i) = false ->
  isIdentifierPart (codePointAt l i) = false.
Proof.
  intros H. unfold codePointAt.
  set (a := charCodeAt l i) in *. set (b := charCodeAt l (i + 1)).
  destruct ((55296 <=? a) && (a <=? 56319) && (56320 <=? b) && (b <=? 57343))
    eqn:E; [| exact H].
  apply andb_prop in E as [E _]. apply andb_prop in E as [E Eb].
  apply andb_prop in E as [Ea _]. apply Z.leb_le in Ea, Eb.
  destruct (isIdentifierPart ((a - 55296) * 1024 + (b - 56320) + 65536)) eqn:P;
    [| reflexivity].
  apply isIdentifierPart_small in P. lia.
Qed.

(** Where an identifier stops. *)
Definition stopsIdentifier (tail : jsstring) : Prop :=
  match tail with
  | [] => True
  | d :: _ => isIdentifierPart d = false
  end.

Lemma charCodeAt_stops (pre tail : jsstring) :
  stopsIdentifier tail ->
  isIdentifierPart (charCodeAt (pre ++ tail) (jslength pre)) = false.
Proof.
  destruct tail as [| d tail]; intros H.
  - rewrite app_nil_r, charCodeAt_app_end. reflexivity.
  - rewrite charCodeAt_app. exact H.
Qed.

Lemma skipIdentifierParts_run (cs : jsstring) :
  forall (fuel : nat) (s : t) (pre tail : jsstring),
    text s = pre ++ cs ++ tail ->
    pos s = jslength pre ->
    Forall (fun d => isIdentifierPart d = true) cs ->
    pos s + jslength cs <= end_ s ->
    (List.length cs <= fuel)%nat ->
    end_ s = pos s + jslength cs \/ stopsIdentifier tail ->
    skipIdentifierParts fuel s = set_pos (pos s + jslength cs) s.
Proof.
  induction cs as [| c cs IH]; intros fuel s pre tail T P F B L S.
  - change (jslength []) with 0 in *. rewrite Z.add_0_r in *.
    rewrite set_pos_same by reflexivity.
    destruct fuel as [| fuel]; [reflexivity |]. simpl.
    destruct S as [S | S].
    + replace (pos s <? end_ s) with false
        by (symmetry; apply Z.ltb_ge; lia). reflexivity.
    + rewrite isIdentifierPart_codePointAt
        by (rewrite T, P; apply charCodeAt_stops; exact S).
      rewrite andb_false_r. reflexivity.
  - destruct fuel as [| fuel]; [simpl in L; lia |].
    inversion F as [| ? ? Fc Fcs]; subst.
    assert (Len : jslength (c :: cs) = 1 + jslength cs)
      by (unfold jslength; simpl length; lia).
    assert (0 <= jslength cs) by (unfold jslength; lia).
    simpl skipIdentifierParts.
    replace (pos s <? end_ s) with true by (symmetry; apply Z.ltb_lt; lia).
    assert (C : charCodeAt (text s) (pos s) = c)
      by (rewrite T, P; apply charCodeAt_app).
    rewrite codePointAt_small
      by (rewrite C; apply isIdentifierPart_small in Fc; lia).
    rewrite C, Fc. cbv beta iota. change (true && true) with true. cbv iota.
    rewrite (IH fuel (set_pos (pos s + 1) s) (pre ++ [c]) tail).
    + rewrite Len. unfold set_pos. cbn [pos text startPos tokenPos end_ token
        tokenValue tokenFlags onError diagnostics]. f_equal. lia.
    + simpl. rewrite T, <- app_assoc. reflexivity.
    + simpl. rewrite P. unfold jslength. rewrite length_app. simpl. lia.
    + exact Fcs.
    + cbn [pos end_ set_pos]. lia.
    + simpl in L. lia.
    + cbn [pos end_ set_pos]. destruct S as [S | S]; [left; lia | right; exact S].
Qed.

Lemma switchCases_not_identifierStart (c : Z) :
  isIdentifierStart c = true -> ~ In c switchCases.
Proof.
  intros H Hin.
  assert (F : forallb (fun x => negb (isIdentifierStart x)) switchCases = true)
    by reflexivity.
  rewrite forallb_forall in F. specialize (F c Hin).
  rewrite H in F. discriminate F.
Qed.

(** The [default] of the switch of [scan]. *)
Lemma scanStep_default (s : t) :
  pos s < end_ s ->
  ~ In (codePointAt (text s) (pos s)) switchCases ->
  scanStep s
  = let s0 := set_tokenPos (pos s) s in
    if isIdentifierStart (codePointAt (text s) (pos s)) then
      let s1 := set_pos (pos s0 + 1) s0 in
      let s2 := skipIdentifierParts (remaining s1) s1 in
      let v := substring (text s2) (tokenPos s2) (pos s2) in
      Some (Return (set_token (checkReservedWord v) (set_tokenValue (Str v) s2)))
    else Some (produce 1 Unknown (error "Invalid character" s0)).
Proof.
  intros Hlt Hn. unfold scanStep. cbv zeta.
  replace (pos (set_tokenPos (pos s) s) >=? end_ (set_tokenPos (pos s) s))
    with false by (simpl; symmetry; rewrite Z.geb_leb; apply Z.leb_gt; exact Hlt).
  change (text (set_tokenPos (pos s) s)) with (text s).
  change (pos (set_tokenPos (pos s) s)) with (pos s).
  set (ch := codePointAt (text s) (pos s)) in *.
  assert (F : forall c, In c switchCases -> (ch =? c) = false).
  { intros c Hc. apply Z.eqb_neq. intros ->. exact (Hn Hc). }
  assert (D : ((CharacterCodes._1 <=? ch) && (ch <=? CharacterCodes._9)) = false).
  { destruct ((CharacterCodes._1 <=? ch) && (ch <=? CharacterCodes._9)) eqn:E;
      [| reflexivity].
    exfalso. apply andb_prop in E as [E1 E2].
    apply Z.leb_le in E1, E2.
    unfold CharacterCodes._1, CharacterCodes._9 in *.
    assert (Hd : ch = 49 \/ ch = 50 \/ ch = 51 \/ ch = 52 \/ ch = 53
                 \/ ch = 54 \/ ch = 55 \/ ch = 56 \/ ch = 57) by lia.
    apply Hn. apply In_by_eqb.
    repeat (destruct Hd as [-> | Hd]; [reflexivity |]). rewrite Hd. reflexivity. }
  rewrite D.
  repeat match goal with
  | |- context [ch =? ?c] =>
      rewrite (F c) by (apply In_by_eqb; reflexivity)
  end.
  reflexivity.
Qed.

(** An identifier or keyword under the cursor: a start character and
    part characters, up to the end of the range or to a character that is
    no part.  [scan] returns what [checkReservedWord] makes of the word,
    with the word as the value, reports nothing and stops after it. *)
Theorem scan_identifier_or_keyword (s : t) (pre tail : jsstring)
    (c : Z) (cs : jsstring) :
  text s = pre ++ (c :: cs) ++ tail ->
  pos s = jslength pre ->
  pos s + jslength (c :: cs) <= end_ s ->
  isIdentifierStart c = true ->
  Forall (fun d => isIdentifierPart d = true) cs ->
  end_ s = pos s + jslength (c :: cs) \/ stopsIdentifier tail ->
  exists s',
    scan s = Some s'
    /\ token s' = checkReservedWord (c :: cs)
    /\ tokenValue s' = Str (c :: cs)
    /\ tokenPos s' = pos s
    /\ pos s' = pos s + jslength (c :: cs)
    /\ tokenFlags s' = TokenFlags.None
    /\ diagnostics s' = diagnostics s.
Proof.
  intros T P B St Pt S.
  assert (Len : jslength (c :: cs) = 1 + jslength cs)
    by (unfold jslength; simpl length; lia).
  assert (0 <= jslength cs) by (unfold jslength; lia).
  assert (C : charCodeAt (text s) (pos s) = c)
    by (rewrite T, P; apply charCodeAt_app).
  assert (Cp : codePointAt (text s) (pos s) = c).
  { rewrite codePointAt_small; [exact C |].
    rewrite C. apply isIdentifierStart_part, isIdentifierPart_small in St. lia. }
  set (s0 := set_tokenFlags TokenFlags.None (set_startPos (pos s) s)).
  assert (R : skipIdentifierParts
                (remaining (set_pos (pos s + 1) (set_tokenPos (pos s) s0)))
                (set_pos (pos s + 1) (set_tokenPos (pos s) s0))
              = set_pos (pos s + 1 + jslength cs)
                  (set_pos (pos s + 1) (set_tokenPos (pos s) s0))).
  { change (pos s + 1 + jslength cs)
      with (pos (set_pos (pos s + 1) (set_tokenPos (pos s) s0)) + jslength cs).
    apply (skipIdentifierParts_run cs _ _ (pre ++ [c]) tail).
    - simpl. rewrite T, <- app_assoc. reflexivity.
    - simpl. rewrite P. unfold jslength. rewrite length_app. simpl. lia.
    - exact Pt.
    - simpl. lia.
    - unfold remaining. simpl. unfold jslength in *. lia.
    - simpl. destruct S as [S | S]; [left; lia | right; exact S]. }
  eexists. split.
  - unfold scan. fold s0. simpl scanLoop.
    rewrite (scanStep_default s0)
      by first
           [ solve [simpl; lia]
           | change (text s0) with (text s); change (pos s0) with (pos s);
             rewrite Cp; apply switchCases_not_identifierStart, St ].
    cbv zeta.
    change (text s0) with (text s). change (pos s0) with (pos s).
    rewrite Cp, St.
    change (pos (set_tokenPos (pos s) s0)) with (pos s).
    rewrite R. reflexivity.
  - simpl.
    assert (V : substring (text s) (pos s) (pos s + 1 + jslength cs) = c :: cs).
    { rewrite T, P.
      replace (jslength pre + 1 + jslength cs)
        with (jslength pre + jslength (c :: cs)) by lia.
      apply substring_middle. }
    rewrite V. repeat split. lia.
Qed.

(** The word [state] in "a state;": a contextual keyword. *)
Lemma scan_identifier_or_keyword_witness :
  exists s',
    scan (mk (js "a state;") 0 0 2 8 Identifier (Str (js "a")) 0 false [])
    = Some s'
    /\ token s' = StateKeyword
    /\ tokenValue s' = Str (js "state")
    /\ tokenPos s' = 2 /\ pos s' = 7.
Proof.
  destruct (scan_identifier_or_keyword
              (mk (js "a state;") 0 0 2 8 Identifier (Str (js "a")) 0 false [])
              (js "a ") (js ";") 115 (js "tate"))
    as (s' & E & K & V & P1 & P2 & _).
  - reflexivity.
  - reflexivity.
  - simpl. unfold jslength. simpl. lia.
  - reflexivity.
  - repeat constructor.
  - right. reflexivity.
  - exists s'. repeat split; assumption.
Defined.

(** ** The keyword table *)

Lemma keywordTable_checked :
  forallb (fun e : string * SyntaxKind =>
             kind_eqb (checkReservedWord (js (fst e))) (snd e)
             && (kindCode SyntaxKindMarker.FirstKeyword <=? kindCode (snd e))
             && (kindCode (snd e) <=? kindCode SyntaxKindMarker.LastKeyword))
          keywordTable
  = true.
Proof. vm_compute. reflexivity. Qed.

(** [textToKeyword] and [checkReservedWord] against the kinds: every
    entry of the table is found again under its text, and its kind lies
    between [FirstKeyword] and [LastKeyword]; every kind in that range
    has an entry; and a word is classified as [Identifier] or as the kind
    of the entry that spells it, whatever the word. *)
Theorem keywords_round_trip :
  (forall name k,
      In (name, k) keywordTable ->
      checkReservedWord (js name) = k
      /\ textToKeyword (js name) = Some k
      /\ kindCode SyntaxKindMarker.FirstKeyword <= kindCode k
         <= kindCode SyntaxKindMarker.LastKeyword)
  /\ (forall k,
        kindCode SyntaxKindMarker.FirstKeyword <= kindCode k
        <= kindCode SyntaxKindMarker.LastKeyword ->
        exists name, In (name, k) keywordTable)
  /\ (forall v,
        checkReservedWord v = Identifier
        \/ exists name,
             v = js name /\ In (name, checkReservedWord v) keywordTable).
Proof.
  split; [| split].
  - intros name k Hin.
    pose proof keywordTable_checked as F. rewrite forallb_forall in F.
    specialize (F (name, k) Hin). cbn [fst snd] in F.
    apply andb_prop in F as [F R2]. apply andb_prop in F as [E R1].
    apply ParserFacts.kind_eqb_eq in E. apply Z.leb_le in R1, R2.
    split; [exact E |]. split; [| lia].
    apply ParserFacts.checkReservedWord_keyword; [exact E | exact R1].
  - intros k R.
    assert (E : existsb (fun e : string * SyntaxKind => kind_eqb (snd e) k)
                  keywordTable = true).
    { destruct k; try (simpl in R; lia); reflexivity. }
    apply existsb_exists in E as ([name k'] & Hin & E).
    apply ParserFacts.kind_eqb_eq in E. simpl in E. subst k'.
    exists name. exact Hin.
  - intros v. unfold checkReservedWord. cbv zeta.
    destruct (_ && _); [| left; reflexivity].
    destruct (textToKeyword v) as [k |] eqn:E; [| left; reflexivity].
    right. unfold textToKeyword in E. apply lookupKeyword_In in E.
    apply in_map_iff in E as ([name k'] & Eq & Hin).
    cbn [fst snd] in Eq. injection Eq as <- <-.
    exists name. split; [reflexivity | exact Hin].
Qed.

(** ** String literals *)

(** What a string literal is written with: plain characters, and
    characters after a backslash. *)
Inductive Piece : Type :=
| Plain (c : Z)
| Escaped (e : Z).

Definition written (p : Piece) : jsstring :=
  match p with
  | Plain c => [c]
  | Escaped e => [CharacterCodes.backslash; e]
  end.

(** The character that stands for an escape, as JavaScript reads the
    string literals of [scanEscapeSequence]; [None] for any other
    character after the backslash. *)
Definition escapeValue (e : Z) : option Z :=
  if e =? CharacterCodes._0 then Some 0
  else if e =? CharacterCodes.b then Some 8
  else if e =? CharacterCodes.t then Some 9
  else if e =? CharacterCodes.n then Some 10
  else if e =? CharacterCodes.v then Some 11
  else if e =? CharacterCodes.f then Some 12
  else if e =? CharacterCodes.r then Some 13
  else if e =? CharacterCodes.singleQuote then Some 39
  else if e =? CharacterCodes.doubleQuote then Some 34
  else None.

Definition decoded (p : Piece) : jsstring :=
  match p with
  | Plain c => [c]
  | Escaped e => match escapeValue e with Some v => [v] | None => [] end
  end.

Definition wellFormed (q : Z) (p : Piece) : Prop :=
  match p with
  | Plain c => ordinary q c
  | Escaped _ => True
  end.

Definition knownEscape (p : Piece) : Prop :=
  match p with
  | Plain _ => True
  | Escaped e => escapeValue e <> None
  end.

(** What the pieces of [scan] leave alone while they move the cursor. *)
Definition sameButPos (s s' : t) : Prop :=
  text s' = text s /\ end_ s' = end_ s /\ startPos s' = startPos s
  /\ tokenPos s' = tokenPos s /\ tokenFlags s' = tokenFlags s
  /\ onError s' = onError s.

Lemma sameButPos_error (msg : string) (s : t) : sameButPos s (error msg s).
Proof. unfold sameButPos, error. destruct (onError s) eqn:E; simpl; auto 10. Qed.

Lemma sameButPos_trans (s1 s2 s3 : t) :
  sameButPos s1 s2 -> sameButPos s2 s3 -> sameButPos s1 s3.
Proof.
  unfold sameButPos. intros (A1 & A2 & A3 & A4 & A5 & A6) (B1 & B2 & B3 & B4 & B5 & B6).
  repeat split; congruence.
Qed.

Lemma scanEscapeSequence_spec (s : t) (e : Z) :
  pos s + 1 < end_ s ->
  charCodeAt (text s) (pos s + 1) = e ->
  exists s',
    scanEscapeSequence s = (decoded (Escaped e), s')
    /\ sameButPos s s'
    /\ pos s' = pos s + 2
    /\ (escapeValue e <> None -> diagnostics s' = diagnostics s).
Proof.
  intros L C. unfold scanEscapeSequence. cbv zeta.
  replace (pos (set_pos (pos s + 1) s) >=? end_ (set_pos (pos s + 1) s))
    with false by (simpl; symmetry; rewrite Z.geb_leb; apply Z.leb_gt; lia).
  change (text (set_pos (pos s + 1) s)) with (text s).
  change (pos (set_pos (pos s + 1) s)) with (pos s + 1).
  rewrite C. unfold decoded, escapeValue.
  repeat match goal with
         | |- context [if ?e =? ?c then _ else _] =>
             destruct (e =? c);
             [eexists; split; [reflexivity |];
              unfold sameButPos; simpl; repeat split; lia |]
         end.
  eexists. split; [reflexivity |].
  split; [| split].
  - apply (sameButPos_trans _ (set_pos (pos s + 1 + 1) s));
      [unfold sameButPos; simpl; auto 10 | apply sameButPos_error].
  - rewrite error_pos. simpl. lia.
  - intros N. contradiction.
Qed.

Lemma jslength_app (a b : jsstring) : jslength (a ++ b) = jslength a + jslength b.
Proof. unfold jslength. rewrite length_app. lia. Qed.

Lemma jslength_nonneg (a : jsstring) : 0 <= jslength a.
Proof. unfold jslength. lia. Qed.

Lemma scanStringLoop_closed (pieces : list Piece) :
  forall (fuel : nat) (q : Z) (result : jsstring) (s : t)
         (pre seg tail : jsstring),
    text s = pre ++ seg ++ flat_map written pieces ++ q :: tail ->
    pos s = jslength pre + jslength seg ->
    pos s + jslength (flat_map written pieces) < end_ s ->
    isLineBreak q = false ->
    q <> CharacterCodes.backslash ->
    Forall (wellFormed q) pieces ->
    (List.length pieces < fuel)%nat ->
    exists s',
      scanStringLoop fuel q result (jslength pre) s
      = Some (result ++ seg ++ flat_map decoded pieces, s')
      /\ sameButPos s s'
      /\ pos s' = pos s + jslength (flat_map written pieces) + 1
      /\ (Forall knownEscape pieces -> diagnostics s' = diagnostics s).
Proof.
  induction pieces as [| p pieces IH];
    intros fuel q result s pre seg tail T P B Q Qb W F;
    (destruct fuel as [| fuel]; [simpl in F; lia |]).
  - simpl in T, B |- *. rewrite Z.add_0_r in *.
    replace (pos s >=? end_ s) with false
      by (symmetry; rewrite Z.geb_leb; apply Z.leb_gt; lia).
    assert (C : charCodeAt (text s) (pos s) = q).
    { rewrite T, P, app_assoc, <- jslength_app. apply charCodeAt_app. }
    rewrite C, Z.eqb_refl.
    eexists. split; [| split; [| split]].
    + f_equal. f_equal. rewrite app_nil_r. f_equal.
      rewrite T, P. apply substring_middle.
    + unfold sameButPos. simpl. auto 10.
    + reflexivity.
    + reflexivity.
  - inversion W as [| ? ? Wp Wps]; subst.
    pose proof (jslength_nonneg (flat_map written pieces)) as Hn.
    destruct p as [c | e].
    + (* a plain character *)
      destruct Wp as (N1 & N2 & N3).
      assert (Bc : pos s + 1 + jslength (flat_map written pieces) < end_ s).
      { simpl in B. change (c :: flat_map written pieces)
          with ([c] ++ flat_map written pieces) in B.
        rewrite jslength_app in B. change (jslength [c]) with 1 in B. lia. }
      simpl scanStringLoop.
      replace (pos s >=? end_ s) with false
        by (symmetry; rewrite Z.geb_leb; apply Z.leb_gt; lia).
      assert (C : charCodeAt (text s) (pos s) = c).
      { rewrite T, P, app_assoc, <- jslength_app. apply charCodeAt_app. }
      rewrite C.
      replace (c =? q) with false by (symmetry; apply Z.eqb_neq; exact N1).
      replace (c =? CharacterCodes.backslash) with false
        by (symmetry; apply Z.eqb_neq; exact N2).
      rewrite N3.
      destruct (IH fuel q result (set_pos (pos s + 1) s) pre (seg ++ [c]) tail)
        as (s' & E & K & P' & D).
      * simpl. rewrite T. simpl. rewrite <- !app_assoc. reflexivity.
      * simpl. rewrite P, jslength_app. change (jslength [c]) with 1. lia.
      * simpl. lia.
      * exact Q.
      * exact Qb.
      * exact Wps.
      * simpl in F. lia.
      * exists s'. split; [| split; [| split]].
        -- rewrite E. f_equal. f_equal. simpl. rewrite <- !app_assoc. reflexivity.
        -- unfold sameButPos in *. simpl in K. exact K.
        -- rewrite P'. simpl.
           change (c :: flat_map written pieces)
             with ([c] ++ flat_map written pieces).
           rewrite jslength_app. change (jslength [c]) with 1. lia.
        -- intros Kn. inversion Kn; subst. apply D in H2. exact H2.
    + (* an escape *)
      change (flat_map written (Escaped e :: pieces))
        with ([CharacterCodes.backslash; e] ++ flat_map written pieces) in *.
      assert (Be : pos s + 2 + jslength (flat_map written pieces) < end_ s).
      { rewrite jslength_app in B.
        change (jslength [CharacterCodes.backslash; e]) with 2 in B. lia. }
      simpl scanStringLoop.
      replace (pos s >=? end_ s) with false
        by (symmetry; rewrite Z.geb_leb; apply Z.leb_gt; lia).
      assert (C : charCodeAt (text s) (pos s) = CharacterCodes.backslash).
      { rewrite T, P, app_assoc, <- jslength_app. apply charCodeAt_app. }
      assert (Ce : charCodeAt (text s) (pos s + 1) = e).
      { rewrite T, P.
        replace (pre ++ seg ++ ([CharacterCodes.backslash; e]
                   ++ flat_map written pieces) ++ q :: tail)
          with ((pre ++ seg ++ [CharacterCodes.backslash])
                  ++ e :: flat_map written pieces ++ q :: tail)
          by (rewrite <- !app_assoc; reflexivity).
        replace (jslength pre + jslength seg + 1)
          with (jslength (pre ++ seg ++ [CharacterCodes.backslash]))
          by (rewrite !jslength_app;
              change (jslength [CharacterCodes.backslash]) with 1; lia).
        apply charCodeAt_app. }
      rewrite C.
      replace (CharacterCodes.backslash =? q) with false
        by (symmetry; apply Z.eqb_neq; congruence).
      rewrite Z.eqb_refl.
      destruct (scanEscapeSequence_spec s e ltac:(lia) Ce)
        as (s1 & E1 & K1 & P1 & D1).
      rewrite E1.
      assert (V : substring (text s) (jslength pre) (pos s) = seg)
        by (rewrite T, P; apply substring_middle).
      rewrite V.
      destruct K1 as (T1 & En1 & S1 & Tk1 & Tf1 & O1).
      replace (pos s1) with (jslength (pre ++ seg ++ [CharacterCodes.backslash; e]))
        by (rewrite P1, P, !jslength_app;
            change (jslength [CharacterCodes.backslash; e]) with 2; lia).
      destruct (IH fuel q ((result ++ seg) ++ decoded (Escaped e)) s1
                  (pre ++ seg ++ [CharacterCodes.backslash; e]) [] tail)
        as (s' & E & K & P' & D).
      * rewrite T1, T. simpl. rewrite <- !app_assoc. reflexivity.
      * rewrite P1, P, !jslength_app. change (jslength []) with 0.
        change (jslength [CharacterCodes.backslash; e]) with 2. lia.
      * rewrite P1, En1. lia.
      * exact Q.
      * exact Qb.
      * exact Wps.
      * simpl in F. lia.
      * exists s'. split; [| split; [| split]].
        -- rewrite E. f_equal. f_equal.
           change (flat_map decoded (Escaped e :: pieces))
             with (decoded (Escaped e) ++ flat_map decoded pieces).
           rewrite <- !app_assoc. reflexivity.
        -- apply (sameButPos_trans _ s1); [| exact K].
           unfold sameButPos. auto 10.
        -- rewrite P', P1.
           rewrite jslength_app.
           change (jslength [CharacterCodes.backslash; e]) with 2. lia.
        -- intros Kn. inversion Kn as [| ? ? Ke Kps]; subst.
           rewrite (D Kps). apply D1. exact Ke.
Qed.

Lemma written_length (pieces : list Piece) :
  Z.of_nat (List.length pieces) <= jslength (flat_map written pieces).
Proof.
  induction pieces as [| p pieces IH]; [unfold jslength; simpl; lia |].
  change (flat_map written (p :: pieces))
    with (written p ++ flat_map written pieces).
  rewrite jslength_app. simpl length.
  assert (1 <= jslength (written p)) by (destruct p; unfold jslength; simpl; lia).
  lia.
Qed.

(** A string literal that is closed within the range: [scan] returns a
    [StringLiteral] whose value is the plain characters as they stand and,
    for each backslash, the character its escape stands for (nothing for
    an unknown escape); the cursor ends after the closing quote; and when
    every escape is a known one, nothing is reported. *)
Theorem scan_string_literal (s : t) (pre tail : jsstring) (q : Z)
    (pieces : list Piece) :
  q = CharacterCodes.singleQuote \/ q = CharacterCodes.doubleQuote ->
  text s = pre ++ q :: flat_map written pieces ++ q :: tail ->
  pos s = jslength pre ->
  pos s + 1 + jslength (flat_map written pieces) < end_ s ->
  Forall (wellFormed q) pieces ->
  exists s',
    scan s = Some s'
    /\ token s' = StringLiteral
    /\ tokenValue s' = Str (flat_map decoded pieces)
    /\ tokenPos s' = pos s
    /\ pos s' = pos s + jslength (flat_map written pieces) + 2
    /\ (Forall knownEscape pieces -> diagnostics s' = diagnostics s).
Proof.
  intros Hq T P B W.
  pose proof (jslength_nonneg (flat_map written pieces)) as Hn.
  pose proof (written_length pieces) as Hl.
  set (x := set_tokenFlags TokenFlags.None (set_startPos (pos s) s)).
  set (s0 := set_tokenPos (pos x) x).
  assert (C : charCodeAt (text s0) (pos s0) = q)
    by (simpl; rewrite T, P; apply charCodeAt_app).
  destruct (scanStringLoop_closed pieces
              (S (Z.to_nat (end_ s0 - (pos s0 + 1)))) q []
              (set_pos (pos s0 + 1) s0) (pre ++ [q]) [] tail)
    as (s' & E & K & P' & D).
  { simpl. rewrite T, <- app_assoc. reflexivity. }
  { simpl. rewrite P, jslength_app. change (jslength [q]) with 1.
    change (jslength []) with 0. lia. }
  { simpl. lia. }
  { destruct Hq as [-> | ->]; reflexivity. }
  { destruct Hq as [-> | ->]; discriminate. }
  { exact W. }
  { simpl. lia. }
  assert (St : scanStep x
               = Some (Return (set_token StringLiteral
                                 (set_tokenValue (Str (flat_map decoded pieces))
                                    s')))).
  { unfold scanStep. cbv zeta. fold s0.
    assert (S1 : scanString s0 = Some (flat_map decoded pieces, s')).
    { unfold scanString. cbv zeta. rewrite C.
      change (pos (set_pos (pos s0 + 1) s0)) with (pos s0 + 1).
      change (end_ (set_pos (pos s0 + 1) s0)) with (end_ s0).
      replace (pos s0 + 1) with (jslength (pre ++ [q])) at 2
        by (simpl; rewrite P, jslength_app; reflexivity).
      rewrite E. reflexivity. }
    rewrite S1.
    replace (pos s0 >=? end_ s0) with false
      by (simpl; symmetry; rewrite Z.geb_leb; apply Z.leb_gt; lia).
    rewrite codePointAt_small
      by (rewrite C; destruct Hq as [-> | ->]; reflexivity).
    rewrite C.
    destruct Hq as [-> | ->]; reflexivity. }
  eexists. split.
  - unfold scan. fold x. simpl scanLoop. rewrite St. reflexivity.
  - destruct K as (K1 & K2 & K3 & K4 & K5 & K6). simpl in *.
    repeat split; try assumption. lia.
Qed.

(** The literal ['a\tb\'c'] followed by a semicolon. *)
Lemma scan_string_literal_witness :
  exists s',
    firstToken (js "'a\tb\'c';") = Some s'
    /\ token s' = StringLiteral
    /\ tokenValue s' = Str [97; 9; 98; 39; 99]
    /\ pos s' = 9
    /\ diagnostics s' = [].
Proof.
  destruct (scan_string_literal
              (set_tokenFlags TokenFlags.None
                 (set_tokenValue undefined
                    (set_token Unknown
                       (set_tokenPos 0
                          (set_startPos 0
                             (set_pos 0
                                (set_end 10
                                   (set_text (js "'a\tb\'c';") initial))))))))
              [] (js ";") CharacterCodes.singleQuote
              [Plain 97; Escaped 116; Plain 98; Escaped 39; Plain 99])
    as (s' & E & K & V & _ & P & D).
  - left. reflexivity.
  - reflexivity.
  - reflexivity.
  - reflexivity.
  - repeat constructor; discriminate.
  - exists s'. split; [exact E |]. repeat split; try assumption.
    apply D. repeat constructor; discriminate.
Defined.

(** *** Comments *)

Lemma charCodeAt_skip (pre l : jsstring) (k : Z) :
  0 <= k -> charCodeAt (pre ++ l) (jslength pre + k) = charCodeAt l k.
Proof.
  intros K. unfold charCodeAt, jslength.
  destruct (Z.ltb_spec (Z.of_nat (List.length pre) + k) 0); [lia |].
  destruct (Z.ltb_spec k 0); [lia |].
  replace (Z.to_nat (Z.of_nat (List.length pre) + k))
    with (List.length pre + Z.to_nat k)%nat by lia.
  apply app_nth2_plus.
Qed.

Lemma jslength_cons (c : Z) (l : jsstring) : jslength (c :: l) = 1 + jslength l.
Proof. unfold jslength. simpl List.length. lia. Qed.

Lemma scanLoop_S (fuel : nat) (s : t) :
  scanLoop (S fuel) s
  = match scanStep s with
    | Some (Continue s') => scanLoop fuel s'
    | Some (Return s') => Some s'
    | None => None
    end.
Proof. reflexivity. Qed.

Lemma scanStep_end (s : t) :
  end_ s <= pos s ->
  scanStep s = Some (Return (set_token EndOfFileToken (set_tokenPos (pos s) s))).
Proof.
  intros H. unfold scanStep. cbv zeta.
  replace (pos (set_tokenPos (pos s) s) >=? end_ (set_tokenPos (pos s) s))
    with true by (simpl; symmetry; rewrite Z.geb_leb; apply Z.leb_le; exact H).
  reflexivity.
Qed.

(** Whether the two characters that close a comment occur in [l]. *)
Fixpoint closesComment (l : jsstring) : bool :=
  match l with
  | [] => false
  | a :: l' =>
      ((a =? CharacterCodes.asterisk)
       && match l' with
          | b :: _ => b =? CharacterCodes.slash
          | [] => false
          end)
      || closesComment l'
  end.

(** [tokenFlags |= PrecedingLineBreak] for every line break of [l]. *)
Definition lineBreakSeen (flags : Z) (l : jsstring) : Z :=
  if existsb isLineBreak l
  then Z.lor flags TokenFlags.PrecedingLineBreak
  else flags.

Lemma lor_PrecedingLineBreak_twice (f : Z) :
  Z.lor (Z.lor f TokenFlags.PrecedingLineBreak) TokenFlags.PrecedingLineBreak
  = Z.lor f TokenFlags.PrecedingLineBreak.
Proof. rewrite <- Z.lor_assoc. reflexivity. Qed.

Lemma skipMultiLineComment_open (body : jsstring) :
  forall (fuel : nat) (s : t) (pre rest : jsstring),
    text s = pre ++ body ++ rest ->
    pos s = jslength pre ->
    end_ s = pos s + jslength body ->
    closesComment (body ++ firstn 1 rest) = false ->
    (List.length body <= fuel)%nat ->
    skipMultiLineComment fuel s
    = (false,
       set_pos (end_ s) (set_tokenFlags (lineBreakSeen (tokenFlags s) body) s)).
Proof.
  induction body as [| c body IH]; intros fuel s pre rest T P En H Hf.
  - assert (L : (pos s <? end_ s) = false)
      by (apply Z.ltb_ge; rewrite En; unfold jslength; simpl; lia).
    assert (Ee : end_ s = pos s) by (rewrite En; unfold jslength; simpl; lia).
    destruct fuel; simpl; rewrite ?L; rewrite Ee;
      destruct s; reflexivity.
  - destruct fuel as [| fuel]; [simpl in Hf; lia |].
    rewrite jslength_cons in En.
    pose proof (jslength_nonneg body) as Nn.
    simpl skipMultiLineComment.
    assert (L : (pos s <? end_ s) = true) by (apply Z.ltb_lt; lia).
    rewrite L.
    assert (C : charCodeAt (text s) (pos s) = c)
      by (rewrite T, P; apply charCodeAt_app).
    assert (C1 : charCodeAt (text s) (pos s + 1)
                 = match body ++ firstn 1 rest with
                   | b :: _ => b
                   | [] => NaN
                   end).
    { rewrite T, P, charCodeAt_skip by lia.
      destruct body; [destruct rest |]; reflexivity. }
    cbn [closesComment app] in H. apply orb_false_iff in H.
    destruct H as [H1 H2].
    rewrite C, C1.
    replace ((c =? CharacterCodes.asterisk)
             && (match body ++ firstn 1 rest with
                 | b :: _ => b
                 | [] => NaN
                 end =? CharacterCodes.slash))
      with false
      by (rewrite <- H1; destruct (body ++ firstn 1 rest); reflexivity).
    set (s1 := if isLineBreak c
               then set_tokenFlags
                      (Z.lor (tokenFlags s) TokenFlags.PrecedingLineBreak) s
               else s).
    assert (F1 : text s1 = text s /\ pos s1 = pos s /\ end_ s1 = end_ s)
      by (unfold s1; destruct (isLineBreak c); repeat split).
    destruct F1 as (T1 & P1 & E1).
    rewrite (IH fuel (set_pos (pos s1 + 1) s1) (pre ++ [c]) rest).
    + f_equal. unfold s1, lineBreakSeen. simpl existsb.
      destruct s; simpl in *.
      destruct (isLineBreak c); simpl;
        destruct (existsb isLineBreak body); simpl;
        rewrite ?lor_PrecedingLineBreak_twice; reflexivity.
    + simpl. rewrite T1, T, <- app_assoc. reflexivity.
    + simpl. rewrite P1, P, jslength_app. reflexivity.
    + simpl. rewrite E1, P1. lia.
    + exact H2.
    + simpl in Hf. lia.
Qed.

Lemma scanStep_comment (s : t) :
  pos s < end_ s ->
  charCodeAt (text s) (pos s) = CharacterCodes.slash ->
  charCodeAt (text s) (pos s + 1) = CharacterCodes.asterisk ->
  scanStep s
  = let s1 := set_pos (pos s + 2) (set_tokenPos (pos s) s) in
    let '(commentClosed, s2) := skipMultiLineComment (remaining s1) s1 in
    Some (Continue (if commentClosed then s2 else error commentNotClosed s2)).
Proof.
  intros L C C1. unfold scanStep. cbv zeta.
  replace (pos (set_tokenPos (pos s) s) >=? end_ (set_tokenPos (pos s) s))
    with false by (simpl; symmetry; rewrite Z.geb_leb; apply Z.leb_gt; exact L).
  change (text (set_tokenPos (pos s) s)) with (text s).
  change (pos (set_tokenPos (pos s) s)) with (pos s).
  rewrite codePointAt_small by (rewrite C; reflexivity).
  rewrite C, C1. reflexivity.
Qed.

(** A multi-line comment that is not closed before the end of the range:
    the scanner reports that the closing characters are expected, once, at
    the end of the range, and returns the end-of-file token there.  The
    line breaks inside the comment count as preceding the token. *)
Theorem scan_unterminated_comment (s : t) (pre body rest : jsstring) :
  text s
  = pre ++ [CharacterCodes.slash; CharacterCodes.asterisk] ++ body ++ rest ->
  pos s = jslength pre ->
  end_ s = pos s + 2 + jslength body ->
  closesComment (body ++ firstn 1 rest) = false ->
  exists s',
    scan s = Some s'
    /\ token s' = EndOfFileToken
    /\ startPos s' = pos s /\ tokenPos s' = end_ s /\ pos s' = end_ s
    /\ hasPrecedingLineBreak s' = existsb isLineBreak body
    /\ diagnostics s'
       = diagnostics s
         ++ (if onError s
             then [mkDiagnostic commentNotClosed (end_ s) 0]
             else []).
Proof.
  intros T P En H.
  pose proof (jslength_nonneg body) as Nn.
  unfold scan.
  set (x := set_tokenFlags TokenFlags.None (set_startPos (pos s) s)).
  assert (R : remaining s = S (S (List.length body))).
  { unfold remaining. rewrite En. unfold jslength. lia. }
  rewrite R, scanLoop_S.
  rewrite (scanStep_comment x).
  - cbv zeta.
    set (s1 := set_pos (pos x + 2) (set_tokenPos (pos x) x)).
    rewrite (skipMultiLineComment_open body (remaining s1) s1
               (pre ++ [CharacterCodes.slash; CharacterCodes.asterisk]) rest).
    + rewrite scanLoop_S, scanStep_end.
      * eexists. split; [reflexivity |].
        unfold error, hasPrecedingLineBreak, lineBreakSeen.
        destruct s; simpl in *.
        destruct onError0; simpl;
          destruct (existsb isLineBreak body); simpl;
          rewrite ?app_nil_r; repeat split.
      * unfold error. destruct (onError _); simpl; lia.
    + simpl. rewrite T, <- app_assoc. reflexivity.
    + simpl. rewrite P, jslength_app. reflexivity.
    + simpl. lia.
    + exact H.
    + unfold remaining. simpl. rewrite En. unfold jslength. lia.
  - simpl. lia.
  - simpl. rewrite T, P. apply charCodeAt_app.
  - simpl. rewrite T, P, charCodeAt_skip by lia. reflexivity.
Qed.

(** A comment with a line break that runs to the end of the text. *)
Lemma scan_unterminated_comment_witness :
  exists s',
    scan (mk (js "a /* b" ++ [10] ++ js "c") 0 0 2 8 Identifier (Str (js "a")) 0 true [])
    = Some s'
    /\ token s' = EndOfFileToken
    /\ pos s' = 8
    /\ hasPrecedingLineBreak s' = true
    /\ diagnostics s' = [mkDiagnostic commentNotClosed 8 0].
Proof.
  destruct (scan_unterminated_comment
              (mk (js "a /* b" ++ [10] ++ js "c") 0 0 2 8 Identifier (Str (js "a")) 0 true [])
              (js "a ") [32; 98; 10; 99] [])
    as (s' & E & K & _ & _ & P & B & D).
  - reflexivity.
  - reflexivity.
  - reflexivity.
  - reflexivity.
  - exists s'. repeat split; assumption.
Defined.

(** *** White space and line breaks *)

(** The characters of the second [case] group of [scan]. *)
Definition isBlank (ch : Z) : bool :=
  (ch =? CharacterCodes.tab) || (ch =? CharacterCodes.verticalTab)
  || (ch =? CharacterCodes.formFeed) || (ch =? CharacterCodes.space).

(** The characters [scan] passes over without a token. *)
Definition skipped (ch : Z) : bool := isLineBreak ch || isBlank ch.

Lemma advanceWhile_tokenFlags (p : Z -> bool) (s : t) :
  tokenFlags (advanceWhile p s) = tokenFlags s.
Proof. apply (advanceWhile_facts p s). Qed.

Lemma land_lor_even (f k : Z) :
  Z.land k TokenFlags.PrecedingLineBreak = 0 ->
  Z.land (Z.lor f k) TokenFlags.PrecedingLineBreak
  = Z.land f TokenFlags.PrecedingLineBreak.
Proof. intros H. rewrite Z.land_lor_distr_l, H, Z.lor_0_r. reflexivity. Qed.

Ltac flags_leaf :=
  cbn [snd fst tokenFlags set_pos set_tokenFlags set_token set_tokenValue
       set_tokenPos];
  rewrite ?error_tokenFlags, ?advanceWhile_tokenFlags;
  cbn [snd fst tokenFlags set_pos set_tokenFlags set_token set_tokenValue
       set_tokenPos];
  rewrite ?error_tokenFlags, ?advanceWhile_tokenFlags;
  cbn [snd fst tokenFlags set_pos set_tokenFlags set_token set_tokenValue
       set_tokenPos];
  rewrite ?land_lor_even by reflexivity;
  try reflexivity.

Lemma scanNumber_lineBreak (s : t) :
  Z.land (tokenFlags (snd (scanNumber s))) TokenFlags.PrecedingLineBreak
  = Z.land (tokenFlags s) TokenFlags.PrecedingLineBreak.
Proof.
  unfold scanNumber, scanNumberFragment.
  repeat (cbv beta iota zeta;
          match goal with
          | |- context [if ?c then _ else _] => destruct c
          end);
    cbv beta iota zeta; flags_leaf.
Qed.

Lemma scanEscapeSequence_tokenFlags (s : t) :
  tokenFlags (snd (scanEscapeSequence s)) = tokenFlags s.
Proof.
  unfold scanEscapeSequence.
  repeat (cbv beta iota zeta;
          match goal with
          | |- context [if ?c then _ else _] => destruct c
          end);
    cbv beta iota zeta; flags_leaf.
Qed.

Lemma scanStringLoop_tokenFlags (fuel : nat) :
  forall quote result start s v s',
    scanStringLoop fuel quote result start s = Some (v, s') ->
    tokenFlags s' = tokenFlags s.
Proof.
  induction fuel as [| fuel IH]; intros quote result start s v s' H;
    [discriminate |].
  simpl in H.
  destruct (pos s >=? end_ s).
  { injection H as _ <-. apply error_tokenFlags. }
  destruct (charCodeAt (text s) (pos s) =? quote).
  { injection H as _ <-. reflexivity. }
  destruct (charCodeAt (text s) (pos s) =? CharacterCodes.backslash).
  { pose proof (scanEscapeSequence_tokenFlags s) as F.
    destruct (scanEscapeSequence s) as [escaped s1]. simpl in F.
    apply IH in H. congruence. }
  destruct (isLineBreak (charCodeAt (text s) (pos s))).
  { injection H as _ <-. apply error_tokenFlags. }
  apply IH in H. exact H.
Qed.

Lemma skipIdentifierParts_tokenFlags (fuel : nat) :
  forall s, tokenFlags (skipIdentifierParts fuel s) = tokenFlags s.
Proof.
  induction fuel as [| fuel IH]; intros s; simpl; [reflexivity |].
  destruct ((pos s <? end_ s) && isIdentifierPart _); [| reflexivity].
  rewrite IH. reflexivity.
Qed.

(** A turn of [scan] that returns a token leaves the line-break flag as
    it found it. *)
Lemma scanStep_return_lineBreak (s s' : t) :
  scanStep s = Some (Return s') ->
  Z.land (tokenFlags s') TokenFlags.PrecedingLineBreak
  = Z.land (tokenFlags s) TokenFlags.PrecedingLineBreak.
Proof.
  unfold scanStep. cbv zeta.
  set (s0 := set_tokenPos (pos s) s).
  change (tokenFlags s) with (tokenFlags s0).
  pose proof (scanNumber_lineBreak s0) as Fn.
  pose proof (scanStringLoop_tokenFlags
                (S (Z.to_nat (end_ (set_pos (pos s0 + 1) s0)
                              - pos (set_pos (pos s0 + 1) s0))))
                (charCodeAt (text s0) (pos s0)) [] (pos (set_pos (pos s0 + 1) s0))
                (set_pos (pos s0 + 1) s0)) as Fs.
  unfold scanString.
  unfold produce, scanRadix, numericLiteral, scanHexDigits, scanBinaryDigits,
    scanOctalDigits.
  cbv zeta.
  clearbody s0.
  repeat (cbv beta iota zeta;
          match goal with
          | |- (if ?c then _ else _) = _ -> _ => destruct c
          | |- (let '(_, _) := (if ?c then _ else _) in _) = _ -> _ => destruct c
          end);
    cbv beta iota zeta;
    try (intros H; injection H as <-; flags_leaf;
         rewrite ?skipIdentifierParts_tokenFlags; flags_leaf; fail);
    try (intros H; discriminate H).
  all: try (destruct (scanNumber s0) as [v s1]; simpl in Fn;
            intros H; injection H as <-; flags_leaf; exact Fn).
  all: try (match goal with
            | |- match ?x with _ => _ end = _ -> _ =>
                destruct x as [[v s1] |] eqn:E; [| discriminate]
            end;
            intros H; injection H as <-; flags_leaf;
            rewrite (Fs v s1 eq_refl); flags_leaf).
  all: try (destruct (skipMultiLineComment _ _) as [closed s2];
            intros H; discriminate H).
  all: destruct (isEmpty _); cbv beta iota zeta;
    intros H; injection H as <-; flags_leaf.
Qed.

(** A turn of [scan] that continues has passed a line break, a blank or
    the start of a comment. *)
Lemma scanStep_continue (s s' : t) :
  scanStep s = Some (Continue s') ->
  pos s < end_ s
  /\ (skipped (codePointAt (text s) (pos s))
      || (codePointAt (text s) (pos s) =? CharacterCodes.slash)) = true.
Proof.
  unfold scanStep. cbv zeta.
  set (s0 := set_tokenPos (pos s) s).
  change (pos s) with (pos s0). change (text s) with (text s0).
  change (end_ s) with (end_ s0).
  clearbody s0.
  destruct (Z.geb_spec (pos s0) (end_ s0)) as [Hge | Hlt];
    [intros H; discriminate H |].
  set (ch := codePointAt (text s0) (pos s0)).
  unfold skipped, isLineBreak, isBlank.
  destruct ((ch =? CharacterCodes.lineFeed) || (ch =? CharacterCodes.carriageReturn));
    [intros _; split; [exact Hlt | reflexivity] |].
  destruct ((ch =? CharacterCodes.tab) || (ch =? CharacterCodes.verticalTab)
            || (ch =? CharacterCodes.formFeed) || (ch =? CharacterCodes.space));
    [intros _; split; [exact Hlt | reflexivity] |].
  destruct (ch =? CharacterCodes.slash) eqn:Es;
    [intros _; split; [exact Hlt | reflexivity] |].
  unfold produce, scanRadix, numericLiteral, scanHexDigits, scanBinaryDigits,
    scanOctalDigits.
  repeat (cbv beta iota zeta;
          match goal with
          | |- (if ?c then _ else _) = _ -> _ => destruct c
          | |- (let '(_, _) := (if ?c then _ else _) in _) = _ -> _ => destruct c
          end);
    cbv beta iota zeta;
    try (intros H; discriminate H).
  all: try (destruct (scanNumber s0) as [v s1]; intros H; discriminate H).
  all: try (destruct (scanString s0) as [[v s1] |]; intros H; discriminate H).
  all: destruct (isEmpty _); intros H; discriminate H.
Qed.

Lemma lineBreakSeen_cons (f c : Z) (l : jsstring) :
  lineBreakSeen (lineBreakSeen f [c]) l = lineBreakSeen f (c :: l).
Proof.
  unfold lineBreakSeen. simpl existsb.
  destruct (isLineBreak c); simpl; destruct (existsb isLineBreak l);
    rewrite ?lor_PrecedingLineBreak_twice; reflexivity.
Qed.

Lemma scanStep_skipped (s : t) (c : Z) :
  pos s < end_ s ->
  charCodeAt (text s) (pos s) = c ->
  skipped c = true ->
  scanStep s
  = Some (Continue
            (set_pos (pos s + 1)
               (set_tokenFlags (lineBreakSeen (tokenFlags s) [c])
                  (set_tokenPos (pos s) s)))).
Proof.
  intros L C K.
  assert (Small : c < 55296).
  { unfold skipped, isLineBreak, isBlank in K.
    repeat match goal with
           | H : (_ || _) = true |- _ =>
               apply orb_prop in H; destruct H as [H | H]
           end;
      apply Z.eqb_eq in K; rewrite K; reflexivity. }
  unfold scanStep. cbv zeta.
  replace (pos (set_tokenPos (pos s) s) >=? end_ (set_tokenPos (pos s) s))
    with false by (simpl; symmetry; rewrite Z.geb_leb; apply Z.leb_gt; exact L).
  change (text (set_tokenPos (pos s) s)) with (text s).
  change (pos (set_tokenPos (pos s) s)) with (pos s).
  rewrite codePointAt_small by (rewrite C; exact Small).
  rewrite C.
  unfold skipped, isLineBreak, isBlank in K.
  unfold lineBreakSeen. simpl existsb. rewrite orb_false_r.
  unfold isLineBreak.
  destruct ((c =? CharacterCodes.lineFeed) || (c =? CharacterCodes.carriageReturn)).
  - reflexivity.
  - simpl in K. rewrite K. destruct s; reflexivity.
Qed.

Lemma scanStep_tokenPos (k : Z) (s : t) : scanStep (set_tokenPos k s) = scanStep s.
Proof. reflexivity. Qed.

(** The turns of [scan] over a run of line breaks and blanks. *)
Lemma scanLoop_skipped (ws : jsstring) :
  forall (fuel : nat) (s : t) (pre rest : jsstring),
    text s = pre ++ ws ++ rest ->
    pos s = jslength pre ->
    pos s + jslength ws <= end_ s ->
    forallb skipped ws = true ->
    exists k,
      scanLoop (List.length ws + S fuel) s
      = scanLoop (S fuel)
          (set_tokenPos k
             (set_pos (pos s + jslength ws)
                (set_tokenFlags (lineBreakSeen (tokenFlags s) ws) s))).
Proof.
  induction ws as [| c ws IH]; intros fuel s pre rest T P En K.
  - exists (tokenPos s). simpl plus.
    replace (pos s + jslength []) with (pos s) by (unfold jslength; simpl; lia).
    destruct s; reflexivity.
  - rewrite jslength_cons in *.
    pose proof (jslength_nonneg ws) as Nn.
    simpl in K. apply andb_prop in K. destruct K as [Kc K].
    change (List.length (c :: ws) + S fuel)%nat
      with (S (List.length ws + S fuel)).
    rewrite scanLoop_S.
    rewrite (scanStep_skipped s c);
      [| lia | rewrite T, P; apply charCodeAt_app | exact Kc].
    set (s1 := set_pos (pos s + 1)
                 (set_tokenFlags (lineBreakSeen (tokenFlags s) [c])
                    (set_tokenPos (pos s) s))).
    destruct (IH fuel s1 (pre ++ [c]) rest) as (k & E).
    + simpl. rewrite T, <- app_assoc. reflexivity.
    + simpl. rewrite P, jslength_app. reflexivity.
    + simpl. lia.
    + exact K.
    + exists k. rewrite E. f_equal.
      unfold s1. cbn [tokenFlags pos set_pos set_tokenFlags set_tokenPos].
      rewrite lineBreakSeen_cons.
      replace (pos s + 1 + jslength ws) with (pos s + (1 + jslength ws)) by lia.
      destruct s; reflexivity.
Qed.

(** Line breaks and blanks before a token are passed over: the token
    starts right after them, [startPos] is where the scan began, and
    [hasPrecedingLineBreak] tells whether a line break was among them.
    When they run to the end of the range the token is the end of file. *)
Theorem scan_skips_blanks (s : t) (pre ws rest : jsstring) :
  text s = pre ++ ws ++ rest ->
  pos s = jslength pre ->
  pos s + jslength ws <= end_ s ->
  forallb skipped ws = true ->
  (end_ s <= pos s + jslength ws
   \/ (skipped (codePointAt (text s) (pos s + jslength ws))
       || (codePointAt (text s) (pos s + jslength ws) =? CharacterCodes.slash))
      = false) ->
  exists s',
    scan s = Some s'
    /\ startPos s' = pos s
    /\ tokenPos s' = pos s + jslength ws
    /\ hasPrecedingLineBreak s' = existsb isLineBreak ws
    /\ (token s' = EndOfFileToken <-> end_ s <= pos s + jslength ws).
Proof.
  intros T P En K Stop.
  pose proof (jslength_nonneg ws) as Nn.
  unfold scan.
  set (x := set_tokenFlags TokenFlags.None (set_startPos (pos s) s)).
  assert (R : S (remaining s)
              = (List.length ws + S (remaining s - List.length ws))%nat).
  { unfold remaining, jslength in *. lia. }
  rewrite R.
  destruct (scanLoop_skipped ws (remaining s - List.length ws) x pre rest)
    as (k & E); try assumption.
  rewrite E, scanLoop_S, scanStep_tokenPos.
  set (y := set_pos (pos x + jslength ws)
              (set_tokenFlags (lineBreakSeen (tokenFlags x) ws) x)).
  destruct (scanStep_spec y) as (st & Est & Spec).
  rewrite Est.
  destruct st as [s1 | s1].
  - exfalso. apply scanStep_continue in Est. simpl in Est.
    destruct Est as [L C]. destruct Stop as [Stop | Stop]; [lia |].
    rewrite Stop in C. discriminate C.
  - exists s1. split; [reflexivity |].
    apply scanStep_return_lineBreak in Est.
    unfold stepSpec, advances in Spec. simpl in Spec.
    destruct Spec as ((_ & _ & Sp & Tp & _) & D & _).
    split; [exact Sp |]. split; [exact Tp |].
    split.
    + unfold hasPrecedingLineBreak. rewrite Est. simpl.
      unfold lineBreakSeen. destruct (existsb isLineBreak ws); reflexivity.
    + destruct D as [(D1 & D2 & D3) | (D1 & D2 & D3)]; split; intros H;
        try assumption; try lia. contradiction.
Qed.

(** A line break and two blanks before a semicolon. *)
Lemma scan_skips_blanks_witness :
  exists s',
    scan (mk (js "a" ++ [10; 32; 32] ++ js ";") 0 0 1 5 Identifier (Str (js "a")) 0 false [])
    = Some s'
    /\ startPos s' = 1 /\ tokenPos s' = 4
    /\ hasPrecedingLineBreak s' = true.
Proof.
  destruct (scan_skips_blanks
              (mk (js "a" ++ [10; 32; 32] ++ js ";") 0 0 1 5 Identifier (Str (js "a")) 0 false [])
              (js "a") [10; 32; 32] (js ";"))
    as (s' & E & S & K & B & _).
  - reflexivity.
  - reflexivity.
  - simpl. unfold jslength. simpl. lia.
  - reflexivity.
  - right. reflexivity.
  - exists s'. repeat split; assumption.
Defined.

(** *** Literals with a radix prefix *)

(** The three prefixed notations of the [case CharacterCodes._0]. *)
Inductive Radix : Type := Hexadecimal | Binary | Octal.

Definition radixLetters (r : Radix) : list Z :=
  match r with
  | Hexadecimal => [CharacterCodes.X; CharacterCodes.x]
  | Binary => [CharacterCodes.B; CharacterCodes.b]
  | Octal => [CharacterCodes.O; CharacterCodes.o]
  end.

Definition radixDigit (r : Radix) : Z -> bool :=
  match r with
  | Hexadecimal => isHexDigit
  | Binary => isBinaryDigit
  | Octal => isOctalDigit
  end.

Definition radixDigits (r : Radix) : t -> jsstring * t :=
  match r with
  | Hexadecimal => scanHexDigits
  | Binary => scanBinaryDigits
  | Octal => scanOctalDigits
  end.

Definition radixBase (r : Radix) : Z :=
  match r with Hexadecimal => 16 | Binary => 2 | Octal => 8 end.

Definition radixFlag (r : Radix) : Z :=
  match r with
  | Hexadecimal => TokenFlags.HexSpecifier
  | Binary => TokenFlags.BinarySpecifier
  | Octal => TokenFlags.OctalSpecifier
  end.

Definition radixExpected (r : Radix) : string :=
  match r with
  | Hexadecimal => "Hexadecimal digit expected"
  | Binary => "Binary digit expected"
  | Octal => "Octal digit expected"
  end.

Lemma charCodeAt_second (pre : jsstring) (a b : Z) (rest : jsstring) :
  charCodeAt (pre ++ [a; b] ++ rest) (jslength pre + 1) = b.
Proof. rewrite charCodeAt_skip by lia. reflexivity. Qed.

Lemma scanStep_radix (r : Radix) (s : t) (letter : Z) :
  pos s + 2 < end_ s ->
  charCodeAt (text s) (pos s) = CharacterCodes._0 ->
  charCodeAt (text s) (pos s + 1) = letter ->
  In letter (radixLetters r) ->
  scanStep s
  = Some (scanRadix (radixDigits r) (radixExpected r) (radixBase r)
            (radixFlag r) (set_tokenPos (pos s) s)).
Proof.
  intros L C C1 Hl.
  unfold scanStep. cbv zeta.
  replace (pos (set_tokenPos (pos s) s) >=? end_ (set_tokenPos (pos s) s))
    with false by (simpl; symmetry; rewrite Z.geb_leb; apply Z.leb_gt; lia).
  change (text (set_tokenPos (pos s) s)) with (text s).
  change (pos (set_tokenPos (pos s) s)) with (pos s).
  change (end_ (set_tokenPos (pos s) s)) with (end_ s).
  rewrite codePointAt_small by (rewrite C; reflexivity).
  rewrite C, C1.
  rewrite (proj2 (Z.ltb_lt _ _) L).
  destruct r; simpl in Hl; destruct Hl as [<- | [<- | []]]; reflexivity.
Qed.

Lemma scanRadix_run (r : Radix) (s : t) (pre digits tail : jsstring) (a b : Z) :
  text s = pre ++ [a; b] ++ digits ++ tail ->
  pos s = jslength pre ->
  Forall (fun c => radixDigit r c = true) digits ->
  match tail with [] => True | c :: _ => radixDigit r c = false end ->
  radixDigits r (set_pos (pos s + 2) s)
  = (digits, set_pos (pos s + 2 + jslength digits) s).
Proof.
  intros T P D E.
  assert (A : advanceWhile (radixDigit r) (set_pos (pos s + 2) s)
              = set_pos (pos s + 2 + jslength digits) s).
  { rewrite (advanceWhile_run (radixDigit r) (set_pos (pos s + 2) s)
               (pre ++ [a; b]) digits tail); try assumption.
    - reflexivity.
    - simpl. rewrite T, <- app_assoc. reflexivity.
    - simpl. rewrite P, jslength_app. reflexivity. }
  assert (S : substring (text s) (pos s + 2) (pos s + 2 + jslength digits)
              = digits).
  { rewrite T, P.
    replace (pre ++ [a; b] ++ digits ++ tail)
      with ((pre ++ [a; b]) ++ digits ++ tail)
      by (rewrite <- app_assoc; reflexivity).
    replace (jslength pre + 2) with (jslength (pre ++ [a; b]))
      by (rewrite jslength_app; reflexivity).
    apply substring_middle. }
  destruct r; unfold radixDigits, scanHexDigits, scanBinaryDigits,
    scanOctalDigits; cbv zeta; simpl radixDigit in A; rewrite A;
    cbn [text pos set_pos]; rewrite S; reflexivity.
Qed.

(** [0x], [0b] and [0o] (in either case) followed by digits of the radix,
    with at least one character of the range after the prefix: the token
    is a numeric literal that ends where the digits end, wherever the
    range ends; its value is the digits read in the radix, and its flag
    names the radix.  Without a digit the value is that of [0], and the
    scanner reports once, after the prefix, that a digit is expected. *)
Theorem scan_radix_literal (r : Radix) (s : t) (pre digits tail : jsstring)
    (letter : Z) :
  text s = pre ++ [CharacterCodes._0; letter] ++ digits ++ tail ->
  pos s = jslength pre ->
  In letter (radixLetters r) ->
  Forall (fun c => radixDigit r c = true) digits ->
  match tail with [] => True | c :: _ => radixDigit r c = false end ->
  pos s + 2 < end_ s ->
  exists s',
    scan s = Some s'
    /\ token s' = NumericLiteral
    /\ tokenPos s' = pos s
    /\ pos s' = pos s + 2 + jslength digits
    /\ tokenFlags s' = radixFlag r
    /\ tokenValue s'
       = parseIntToString (if isEmpty digits then js "0" else digits)
           (radixBase r)
    /\ diagnostics s'
       = diagnostics s
         ++ (if isEmpty digits && onError s
             then [mkDiagnostic (radixExpected r) (pos s + 2) 0]
             else []).
Proof.
  intros T P Hl D E L.
  unfold scan.
  set (x := set_tokenFlags TokenFlags.None (set_startPos (pos s) s)).
  rewrite scanLoop_S.
  rewrite (scanStep_radix r x letter);
    [| exact L
     | simpl; rewrite T, P; apply charCodeAt_app
     | simpl; rewrite T, P; apply charCodeAt_second
     | exact Hl].
  unfold scanRadix.
  rewrite (scanRadix_run r (set_tokenPos (pos x) x) pre digits tail
             CharacterCodes._0 letter T P D E).
  destruct digits as [| d digits]; cbn [isEmpty andb];
    unfold numericLiteral, error; eexists; (split; [reflexivity |]).
  - destruct s; simpl in *. destruct onError0; simpl;
      rewrite ?app_nil_r, ?Z.add_0_r; repeat split; destruct r; reflexivity.
  - destruct s; simpl in *. rewrite ?app_nil_r.
    repeat split; destruct r; reflexivity.
Qed.

(** The hexadecimal literal [0xff] before a semicolon, and [0b] with no
    digit after it. *)
Lemma scan_radix_literal_witness :
  (exists s',
     scan (mk (js "0xff;") 0 0 0 5 Unknown undefined 0 true []) = Some s'
     /\ token s' = NumericLiteral /\ pos s' = 4
     /\ tokenValue s' = Str (js "255")
     /\ diagnostics s' = [])
  /\ (exists s',
        scan (mk (js "0b;") 0 0 0 3 Unknown undefined 0 true []) = Some s'
        /\ token s' = NumericLiteral /\ pos s' = 2
        /\ tokenValue s' = Str (js "0")
        /\ diagnostics s' = [mkDiagnostic "Binary digit expected" 2 0]).
Proof.
  split.
  - destruct (scan_radix_literal Hexadecimal
                (mk (js "0xff;") 0 0 0 5 Unknown undefined 0 true [])
                [] (js "ff") (js ";") CharacterCodes.x)
      as (s' & E & K & _ & P & _ & V & G).
    + reflexivity.
    + reflexivity.
    + right. left. reflexivity.
    + repeat constructor.
    + reflexivity.
    + simpl. lia.
    + exists s'. repeat split; assumption.
  - destruct (scan_radix_literal Binary
                (mk (js "0b;") 0 0 0 3 Unknown undefined 0 true [])
                [] [] (js ";") CharacterCodes.b)
      as (s' & E & K & _ & P & _ & V & G).
    + reflexivity.
    + reflexivity.
    + right. left. reflexivity.
    + constructor.
    + reflexivity.
    + simpl. lia.
    + exists s'. repeat split; assumption.
Defined.

Lemma scanStep_radix_prefix_at_end (r : Radix) (s : t) (pre tail : jsstring)
    (letter : Z) :
  text s = pre ++ [CharacterCodes._0; letter] ++ tail ->
  pos s = jslength pre ->
  In letter (radixLetters r) ->
  pos s < end_ s ->
  end_ s <= pos s + 2 ->
  Z.land (tokenFlags s) TokenFlags.Scientific = 0 ->
  scanStep s
  = Some (Return
            (set_token NumericLiteral
               (set_tokenValue (Str (js "0"))
                  (set_pos (pos s + 1) (set_tokenPos (pos s) s))))).
Proof.
  intros T P Hl L1 L2 F.
  assert (C : charCodeAt (text s) (pos s) = CharacterCodes._0)
    by (rewrite T, P; apply charCodeAt_app).
  assert (C1 : charCodeAt (text s) (pos s + 1) = letter)
    by (rewrite T, P; apply charCodeAt_second).
  assert (N : scanNumber (set_tokenPos (pos s) s)
              = (Str (js "0"),
                 set_pos (pos s + 1) (set_tokenPos (pos s) s))).
  { apply (scanNumber_plain (set_tokenPos (pos s) s) pre (js "0")
             (letter :: tail)); try assumption.
    - repeat constructor.
    - destruct r; simpl in Hl; destruct Hl as [<- | [<- | []]];
        repeat split; discriminate. }
  unfold scanStep. cbv zeta.
  replace (pos (set_tokenPos (pos s) s) >=? end_ (set_tokenPos (pos s) s))
    with false by (simpl; symmetry; rewrite Z.geb_leb; apply Z.leb_gt; lia).
  rewrite N.
  change (text (set_tokenPos (pos s) s)) with (text s).
  change (pos (set_tokenPos (pos s) s)) with (pos s).
  change (end_ (set_tokenPos (pos s) s)) with (end_ s).
  rewrite codePointAt_small by (rewrite C; reflexivity).
  rewrite C, C1.
  rewrite (proj2 (Z.ltb_ge _ _) L2).
  destruct (pos s + 1 <? end_ s);
    destruct r; simpl in Hl; destruct Hl as [<- | [<- | []]]; reflexivity.
Qed.

(** A radix prefix whose letter is the last character of the range is not
    a prefix: the token is the numeric literal [0], one character long,
    nothing is reported, and the letter is left for the next token. *)
Theorem scan_radix_prefix_at_end (r : Radix) (s : t) (pre tail : jsstring)
    (letter : Z) :
  text s = pre ++ [CharacterCodes._0; letter] ++ tail ->
  pos s = jslength pre ->
  In letter (radixLetters r) ->
  pos s < end_ s ->
  end_ s <= pos s + 2 ->
  exists s',
    scan s = Some s'
    /\ token s' = NumericLiteral
    /\ tokenValue s' = Str (js "0")
    /\ tokenFlags s' = TokenFlags.None
    /\ tokenPos s' = pos s
    /\ pos s' = pos s + 1
    /\ diagnostics s' = diagnostics s.
Proof.
  intros T P Hl L1 L2.
  unfold scan.
  rewrite scanLoop_S.
  rewrite (scanStep_radix_prefix_at_end r _ pre tail letter);
    try assumption; try reflexivity.
  eexists. split; [reflexivity |]. repeat split.
Qed.

(** The text [0x] on its own: the number [0], then the identifier [x]. *)
Lemma scan_radix_prefix_at_end_witness :
  exists s',
    scan (mk (js "0x") 0 0 0 2 Unknown undefined 0 true []) = Some s'
    /\ token s' = NumericLiteral
    /\ tokenValue s' = Str (js "0")
    /\ pos s' = 1
    /\ diagnostics s' = [].
Proof.
  destruct (scan_radix_prefix_at_end Hexadecimal
              (mk (js "0x") 0 0 0 2 Unknown undefined 0 true [])
              [] [] CharacterCodes.x)
    as (s' & E & K & V & _ & _ & P & G).
  - reflexivity.
  - reflexivity.
  - right. left. reflexivity.
  - simpl. lia.
  - simpl. lia.
  - exists s'. repeat split; assumption.
Defined.
End ScannerLaws.

(** ** Laws of the parser's lists *)

Module ParserLaws.
Import Parser.
Import ParserFacts.

#[local] Arguments Scanner.scan : simpl never.

Section Lists.
Variable kind : ParsingContext.t.
Variable parseElement : Production.

(** The turns of the loop of [parseList] from a state on: the elements
    parsed, each within [depth] levels of calls, up to the state in
    which [isListTerminator] holds. *)
Inductive listRun (depth : nat) : State -> list Node -> State -> Prop :=
| listRun_end st :
    isListTerminator kind st = Ok true st ->
    listRun depth st [] st
| listRun_element st element st1 elements st' :
    isListTerminator kind st = Ok false st ->
    r_parseElement (knot depth) parseElement st = Ok element st1 ->
    listRun depth st1 elements st' ->
    listRun depth st (element :: elements) st'.

Lemma r_parseElement_settled (depth n : nat) (st st1 : State) (element : Node) :
  r_parseElement (knot depth) parseElement st = Ok element st1 ->
  (depth <= n)%nat ->
  r_parseElement (knot n) parseElement st = Ok element st1.
Proof.
  intros E L. pose proof (knot_le depth n L) as K.
  unfold r_parseElement in *.
  destruct parseElement;
    match goal with
    | H : ?r (knot depth) ?s = _ |- _ =>
        unfold r in H |- *;
        match type of H with
        | knot depth ?A ?c ?s = _ =>
            destruct (K A c s) as [O | O]; congruence
        end
    end.
Qed.

Lemma parseListLoop_run (depth : nat) (st st' : State) (elements : list Node) :
  listRun depth st elements st' ->
  forall (items : list Node) (n : nat),
    (depth + List.length elements + 1 <= n)%nat ->
    knot n _ (C_parseListLoop kind parseElement items) st
    = Ok (items ++ elements) st'.
Proof.
  induction 1 as [st T | st element st1 elements st' T E _ IH];
    intros items n L.
  - destruct n as [| n]; [lia |].
    change (parseListLoop (knot n) kind parseElement items st
            = Ok (items ++ []) st).
    unfold parseListLoop, bind. rewrite T, app_nil_r. reflexivity.
  - destruct n as [| n]; [lia |].
    change (parseListLoop (knot n) kind parseElement items st
            = Ok (items ++ element :: elements) st').
    unfold parseListLoop, bind. rewrite T.
    rewrite (r_parseElement_settled depth n st st1 element E)
      by (simpl in L; lia).
    change (r_parseListLoop (knot n) kind parseElement (items ++ [element]) st1)
      with (knot n _ (C_parseListLoop kind parseElement (items ++ [element])) st1).
    rewrite IH by (simpl in L; lia).
    rewrite <- app_assoc. reflexivity.
Qed.

Lemma parseList_run (depth n : nat) (st st' : State)
    (elements : list Node) :
  listRun depth
    (set_parsingContext
       (Z.lor (parsingContext st) (Z.shiftl 1 (ParsingContext.code kind))) st)
    elements st' ->
  (depth + List.length elements + 2 <= n)%nat ->
  knot n _ (C_parseList kind parseElement) st
  = Ok (mkNodeList elements (Scanner.startPos (scanner st))
          (Scanner.startPos (scanner st')) false)
       (set_parsingContext (parsingContext st) st').
Proof.
  intros Run L.
  destruct n as [| n]; [lia |].
  change (parseList (knot n) kind parseElement st
          = Ok (mkNodeList elements (Scanner.startPos (scanner st))
                  (Scanner.startPos (scanner st')) false)
               (set_parsingContext (parsingContext st) st')).
  unfold parseList. cbn. unfold bind.
  change (r_parseListLoop (knot n) kind parseElement [] ?s)
    with (knot n _ (C_parseListLoop kind parseElement []) s).
  rewrite (parseListLoop_run depth _ st' elements Run [] n) by lia.
  reflexivity.
Qed.

(** [parseList] returns the elements of the run in their order, in a
    list that starts where the scan of the current token started and
    ends where the scan of the terminating token started; the
    [parsingContext] is what it was before the call. *)
Theorem parseList_collects_elements (depth n : nat) (st st' : State)
    (nodes : list Node) :
  listRun depth
    (set_parsingContext
       (Z.lor (parsingContext st) (Z.shiftl 1 (ParsingContext.code kind))) st)
    nodes st' ->
  (depth + List.length nodes + 2 <= n)%nat ->
  exists result st'',
    knot n _ (C_parseList kind parseElement) st = Ok result st''
    /\ elements result = nodes
    /\ rangePos result = Scanner.startPos (scanner st)
    /\ rangeEnd result = Scanner.startPos (scanner st')
    /\ parsingContext st'' = parsingContext st
    /\ scanner st'' = scanner st'
    /\ token st'' = token st'
    /\ nodeCount st'' = nodeCount st'
    /\ console st'' = console st'.
Proof.
  intros Run L. do 2 eexists.
  split; [exact (parseList_run depth n st st' nodes Run L) |].
  repeat split.
Qed.
End Lists.

(** The statement list of the text of one semicolon. *)
Lemma parseList_collects_elements_witness :
  exists result st',
    knot 5 _ (C_parseList ParsingContext.SourceElements ParseStatement)
      (match nextToken (startOn (js ";")) with
       | Ok _ st => st
       | _ => initial
       end)
    = Ok result st'
    /\ elements result = [NodeInitializer EmptyStatement 0 1]
    /\ rangePos result = 0 /\ rangeEnd result = 1
    /\ parsingContext st' = 0.
Proof.
  set (st := match nextToken (startOn (js ";")) with
             | Ok _ st => st
             | _ => initial
             end).
  set (st0 := set_parsingContext
                (Z.lor (parsingContext st)
                   (Z.shiftl 1 (ParsingContext.code ParsingContext.SourceElements)))
                st).
  destruct (r_parseElement (knot 2) ParseStatement st0) as [element st1 | |] eqn:E;
    [| vm_compute in E; discriminate E ..].
  assert (Run : listRun ParsingContext.SourceElements ParseStatement 2 st0
                  [element] st1).
  { eapply listRun_element; [vm_compute; reflexivity | exact E |].
    apply listRun_end.
    vm_compute in E. injection E as _ <-. vm_compute. reflexivity. }
  destruct (parseList_collects_elements ParsingContext.SourceElements
              ParseStatement 2 5 st st1 [element] Run)
    as (result & st' & P & El & Rp & Re & Pc & _); [simpl; lia |].
  exists result, st'. split; [exact P |].
  vm_compute in E. injection E as <- <-.
  repeat split; assumption.
Defined.

(** *** Empty statements *)

(** The tokens from the current one on are [n] semicolons and the end of
    the file: the ranges from where the scan of each started to where the
    scan of the next started, and the scanner at the end. *)
Fixpoint semicolonsFrom (n : nat) (sc : Scanner.t)
  : option (list (Z * Z) * Scanner.t) :=
  match n with
  | O =>
      if kind_eqb (Scanner.token sc) EndOfFileToken then Some ([], sc) else None
  | S n' =>
      if kind_eqb (Scanner.token sc) SemicolonToken then
        match Scanner.scan sc with
        | Some sc' =>
            match semicolonsFrom n' sc' with
            | Some (ranges, last) =>
                Some ((Scanner.startPos sc, Scanner.startPos sc') :: ranges, last)
            | None => None
            end
        | None => None
        end
      else None
  end.

Definition emptyStatement (range : Z * Z) : Node :=
  NodeInitializer EmptyStatement (fst range) (snd range).

Lemma parseStatement_semicolon (R : Rec) (sc sc' : Scanner.t) (sf : Node)
    (src : option jsstring) (nc pc : Z) (con : list (string * Z)) :
  Scanner.token sc = SemicolonToken ->
  Scanner.scan sc = Some sc' ->
  parseStatement R (mkState sc sf (Scanner.token sc) src nc 0 pc con)
  = Ok (emptyStatement (Scanner.startPos sc, Scanner.startPos sc'))
       (mkState sc' sf (Scanner.token sc') src (nc + 1) 0 pc con).
Proof.
  intros T E.
  unfold parseStatement. unfold bind at 1. cbn. rewrite T.
  unfold parseEmptyStatement, createNode, parseExpected, finishNode.
  cbn. unfold bind, nextToken. cbn. rewrite E. cbn. reflexivity.
Qed.

Lemma semicolons_run (k : nat) :
  forall (sc : Scanner.t) (sf : Node) (src : option jsstring) (nc pc : Z)
         (con : list (string * Z)) (ranges : list (Z * Z)) (last : Scanner.t),
    semicolonsFrom k sc = Some (ranges, last) ->
    listRun ParsingContext.SourceElements ParseStatement 2
      (mkState sc sf (Scanner.token sc) src nc 0 pc con)
      (map emptyStatement ranges)
      (mkState last sf (Scanner.token last) src (nc + Z.of_nat k) 0 pc con)
    /\ Scanner.token last = EndOfFileToken
    /\ List.length ranges = k.
Proof.
  induction k as [| k IH]; intros sc sf src nc pc con ranges last H; simpl in H.
  - destruct (kind_eqb (Scanner.token sc) EndOfFileToken) eqn:K;
      [| discriminate H].
    injection H as <- <-. apply kind_eqb_eq in K.
    rewrite Z.add_0_r. repeat split; [| exact K].
    apply listRun_end. unfold isListTerminator, bind. cbn. rewrite K.
    reflexivity.
  - destruct (kind_eqb (Scanner.token sc) SemicolonToken) eqn:K;
      [| discriminate H].
    apply kind_eqb_eq in K.
    destruct (Scanner.scan sc) as [sc' |] eqn:E; [| discriminate H].
    destruct (semicolonsFrom k sc') as [[ranges' last'] |] eqn:F;
      [| discriminate H].
    injection H as <- <-.
    destruct (IH sc' sf src (nc + 1) pc con ranges' last' F) as (Run & Kl & Len).
    split; [| split; [exact Kl | simpl; rewrite Len; reflexivity]].
    eapply listRun_element.
    + unfold isListTerminator, bind. cbn. rewrite K. reflexivity.
    + change (r_parseElement (knot 2) ParseStatement
                (mkState sc sf (Scanner.token sc) src nc 0 pc con))
        with (parseStatement (knot 1)
                (mkState sc sf (Scanner.token sc) src nc 0 pc con)).
      apply parseStatement_semicolon; assumption.
    + simpl map.
      replace (nc + Z.of_nat (S k)) with (nc + 1 + Z.of_nat k) by lia.
      exact Run.
Qed.

(** A text whose tokens are [k] semicolons: with fuel for [k + 4] levels
    of calls or more, [parseSourceFile] returns a [SourceFile] whose
    statements are [k] empty statements, each from where the scan of its
    semicolon started (the white space and the comments before it
    included) to the end of the semicolon; the node count is [k + 1].
    The parser's [error] prints nothing, and the scanner's error callback
    has been called for what the scans of these [k + 1] tokens report (an
    unclosed comment at the end, for instance) and for nothing else. *)
Theorem parseSourceFile_empty_statements (k fuel : nat) (fileName : string)
    (txt : jsstring) (st0 : State) (sc last : Scanner.t)
    (ranges : list (Z * Z)) :
  Scanner.scan (freshScanner txt (scanner st0)) = Some sc ->
  semicolonsFrom k sc = Some (ranges, last) ->
  (k + 4 <= fuel)%nat ->
  exists file st',
    parseSourceFile fuel fileName txt st0 = Ok file st'
    /\ kindOf file = Some SourceFile
    /\ children "statements" file = map emptyStatement ranges
    /\ List.length ranges = k
    /\ prop "nodeCount" file = Some (VNum (1 + Z.of_nat k))
    /\ console st' = console st0
    /\ Scanner.diagnostics (scanner st') = Scanner.diagnostics last.
Proof.
  intros E F L.
  remember (1 + Z.of_nat k) as count eqn:Hc.
  unfold parseSourceFile, parseSourceFileWorker, initializeState,
    initializeSourceFile. cbn.
  unfold bind, nextToken. cbn.
  change (Scanner.scan _) with (Scanner.scan (freshScanner txt (scanner st0))).
  rewrite E. cbn.
  match goal with
  | |- context [r_parseList (knot fuel) ?c ?p ?s] =>
      destruct (semicolons_run k sc (sourceFile s) (sourceText s) (nodeCount s)
                  (Z.lor (parsingContext s) (Z.shiftl 1 (ParsingContext.code c)))
                  (console s) ranges last F) as (Run & Kl & Len);
      change (r_parseList (knot fuel) c p s)
        with (knot fuel _ (C_parseList c p) s);
      rewrite (parseList_run c p 2 fuel s _ _ Run)
        by (rewrite length_map, Len; lia)
  end.
  cbn. rewrite Kl. cbn.
  do 2 eexists. split; [reflexivity |].
  repeat split; try assumption.
  rewrite Hc. reflexivity.
Qed.

(** Three semicolons, with white space and a comment between them. *)
Lemma parseSourceFile_empty_statements_witness :
  exists file st',
    parseSourceFile 7 "a.gn" (js "; /* two */ ;" ++ [10] ++ js ";") initial = Ok file st'
    /\ children "statements" file
       = [emptyStatement (0, 1); emptyStatement (1, 13); emptyStatement (13, 15)]
    /\ prop "nodeCount" file = Some (VNum 4).
Proof.
  destruct (Scanner.scan (freshScanner (js "; /* two */ ;" ++ [10] ++ js ";") (scanner initial))) as [sc |] eqn:E; [| vm_compute in E; discriminate E].
  destruct (semicolonsFrom 3 sc) as [[ranges last] |] eqn:F;
    [| vm_compute in E; injection E as <-; vm_compute in F; discriminate F].
  destruct (parseSourceFile_empty_statements 3 7 "a.gn" _ initial sc last
              ranges E F)
    as (file & st' & P & _ & S & _ & N & _).
  - lia.
  - exists file, st'. split; [exact P |]. split; [| exact N].
    rewrite S. vm_compute in E. injection E as <-.
    vm_compute in F. injection F as <- _. reflexivity.
Defined.
End ParserLaws.
